(** * Crime-Analysis-Dashboard: [CrimeDataAnalyzer] (src/sample_analysis.py)

    A shallow embedding of the analysis pipeline of [sample_analysis.py] and
    the properties its specification states about it.

    Layout of the development:
    - [Py]: the Python values that travel through the pipeline (cells of a
      table, exceptions, [str.strip] / [str.upper], int/float comparisons);
    - [Calendar]: the fields of a [datetime64[ns]] timestamp;
    - [Pd]: the part of pandas the script calls (Series, DataFrame,
      [drop_duplicates], [dropna], [fillna], [astype], the [.str] and [.dt]
      accessors, [groupby(...).size()], [pct_change], [idxmax], ...);
    - the object store and the monad in which the methods of
      [CrimeDataAnalyzer] run: a DataFrame is a mutable object behind a
      reference, [df.copy()] allocates, [df[col] = ...] updates in place;
    - the methods themselves, one definition per method of the class;
    - the Cleaner as the specification words it (five row-wise steps);
    - lemmas and the theorems about the specification's claims.

    Conventions.  Text is ASCII ([string] of the standard library); float64
    values are the kernel's binary64 floats ([PrimFloat]); an int64 is a [Z]
    (row counts never approach 2^63). *)

From Stdlib Require Import ZArith String Ascii List Bool Lia Sorted.
From Stdlib Require PrimFloat Uint63.
Import ListNotations.
Local Open Scope string_scope.
Local Open Scope list_scope.
Local Open Scope Z_scope.

(* ================================================================== *)
(** * Python values *)
(* ================================================================== *)

Module Py.

(** The exceptions the script can raise or let through. *)
Inductive exn : Type :=
| ValueError (msg : string)
| KeyError (key : string)
| AttributeError (msg : string)
| TypeError (msg : string)
| ZeroDivisionError (msg : string)
| FileNotFoundError (path : string)
| OtherError (msg : string).

(** A computation that returns or raises. *)
Inductive result (A : Type) : Type :=
| Ok (a : A)
| Raise (e : exn).
Arguments Ok {A} a.
Arguments Raise {A} e.

Definition rbind {A B} (r : result A) (k : A -> result B) : result B :=
  match r with
  | Ok a => k a
  | Raise e => Raise e
  end.

Definition is_ok {A} (r : result A) : bool :=
  match r with Ok _ => true | Raise _ => false end.

(** ** Floats *)

Definition nan : PrimFloat.float := PrimFloat.nan.

(** int -> float64 conversion (exact below 2^53, one rounding above). *)
Definition float_of_Z (z : Z) : PrimFloat.float :=
  if z <? 0
  then PrimFloat.opp (PrimFloat.of_uint63 (Uint63.of_Z (- z)))
  else PrimFloat.of_uint63 (Uint63.of_Z z).

(** Equality of two floats as a hash table of pandas sees it: IEEE
    equality, and NaN equal to NaN. *)
Definition float_same (x y : PrimFloat.float) : bool :=
  PrimFloat.eqb x y || (PrimFloat.is_nan x && PrimFloat.is_nan y).

(** ** Cells *)

(** One cell of a table.  A missing value is the float NaN ([VFloat nan]) or,
    in a datetime column, [NaT]. *)
Inductive cell : Type :=
| VBool (b : bool)
| VInt (z : Z)
| VFloat (x : PrimFloat.float)
| VStr (s : string)
| VTime (ns : Z)          (* Timestamp: nanoseconds since 1970-01-01T00:00 *)
| NaT.

Definition NaN : cell := VFloat nan.

(** [pd.isnull] on a scalar. *)
Definition isnull (c : cell) : bool :=
  match c with
  | VFloat x => PrimFloat.is_nan x
  | NaT => true
  | _ => false
  end.

Definition notnull (c : cell) : bool := negb (isnull c).

(** Python numbers: [bool] is a subtype of [int]. *)
Inductive pynum : Type :=
| PInt (z : Z)
| PFloat (x : PrimFloat.float).

Definition as_num (c : cell) : option pynum :=
  match c with
  | VBool b => Some (PInt (if b then 1 else 0))
  | VInt z => Some (PInt z)
  | VFloat x => Some (PFloat x)
  | _ => None
  end.

Definition to_float (n : pynum) : PrimFloat.float :=
  match n with
  | PInt z => float_of_Z z
  | PFloat x => x
  end.

Definition num_eqb (a b : pynum) : bool :=
  match a, b with
  | PInt x, PInt y => x =? y
  | _, _ => PrimFloat.eqb (to_float a) (to_float b)
  end.

Definition num_leb (a b : pynum) : bool :=
  match a, b with
  | PInt x, PInt y => x <=? y
  | _, _ => PrimFloat.leb (to_float a) (to_float b)
  end.

Definition num_ltb (a b : pynum) : bool :=
  match a, b with
  | PInt x, PInt y => x <? y
  | _, _ => PrimFloat.ltb (to_float a) (to_float b)
  end.

Definition num_add (a b : pynum) : pynum :=
  match a, b with
  | PInt x, PInt y => PInt (x + y)
  | _, _ => PFloat (PrimFloat.add (to_float a) (to_float b))
  end.

(** [n <= c] and [c < n] for an int literal [n]: a [TypeError] when [c] is
    not a number. *)
Definition int_le (n : Z) (c : cell) : result bool :=
  match as_num c with
  | Some x => Ok (num_leb (PInt n) x)
  | None => Raise (TypeError "'<=' not supported between instances")
  end.

Definition lt_int (c : cell) (n : Z) : result bool :=
  match as_num c with
  | Some x => Ok (num_ltb x (PInt n))
  | None => Raise (TypeError "'<' not supported between instances")
  end.

(** [n <= c < m], evaluated left to right with short circuit. *)
Definition int_le_lt (n : Z) (c : cell) (m : Z) : result bool :=
  rbind (int_le n c) (fun lo =>
  if lo then lt_int c m else Ok false).

(** [a == b] between two cells (never raises). *)
Definition cell_eqb (a b : cell) : bool :=
  match a, b with
  | VStr x, VStr y => String.eqb x y
  | VTime x, VTime y => x =? y
  | NaT, NaT => true
  | VFloat x, VFloat y => float_same x y
  | _, _ =>
      match as_num a, as_num b with
      | Some x, Some y => num_eqb x y
      | _, _ => false
      end
  end.

(** [c in [n1; n2; ...]] for a list of int literals. *)
Definition in_ints (c : cell) (ns : list Z) : bool :=
  existsb (fun n => cell_eqb (VInt n) c) ns.

(** [bool(c)]. *)
Definition truthy (c : cell) : bool :=
  match c with
  | VBool b => b
  | VInt z => negb (z =? 0)
  | VFloat x => negb (PrimFloat.eqb x PrimFloat.zero)
  | VStr s => negb (String.eqb s "")
  | VTime _ => true
  | NaT => true
  end.

(** ** [str.strip] and [str.upper] on ASCII text *)

(** A string is the list of its characters, and the two functions below
    are Python's on text of the ASCII range.  Outside it [str.upper] maps
    other letters too and [str.strip] removes other whitespace (U+00A0,
    for one); such text is not covered. *)

(** [str.isspace] on an ASCII character: TAB, LF, VT, FF, CR, the four
    separators 0x1c..0x1f and the space. *)
Definition is_space (c : ascii) : bool :=
  let n := nat_of_ascii c in
  ((9 <=? n) && (n <=? 13) || (28 <=? n) && (n <=? 32))%nat.

Definition upper_char (c : ascii) : ascii :=
  let n := nat_of_ascii c in
  if ((97 <=? n) && (n <=? 122))%nat then ascii_of_nat (n - 32) else c.

Fixpoint lstrip_chars (l : list ascii) : list ascii :=
  match l with
  | [] => []
  | c :: l' => if is_space c then lstrip_chars l' else l
  end.

Definition strip_chars (l : list ascii) : list ascii :=
  rev (lstrip_chars (rev (lstrip_chars l))).

Definition strip (s : string) : string :=
  string_of_list_ascii (strip_chars (list_ascii_of_string s)).

Definition upper (s : string) : string :=
  string_of_list_ascii (map upper_char (list_ascii_of_string s)).

(** A total order on cells, used to sort group keys.  Within one kind of
    value it is the order pandas sorts by; keys of different kinds are
    ordered by kind. *)
Definition kind_rank (c : cell) : Z :=
  match c with
  | VBool _ => 0 | VInt _ => 1 | VFloat _ => 2 | VStr _ => 3 | VTime _ => 4 | NaT => 5
  end.

Definition float_compare (x y : PrimFloat.float) : comparison :=
  if PrimFloat.ltb x y then Lt
  else if PrimFloat.ltb y x then Gt
  else Eq.

Definition cell_compare (a b : cell) : comparison :=
  match a, b with
  | VBool x, VBool y => Z.compare (if x then 1 else 0) (if y then 1 else 0)
  | VInt x, VInt y => Z.compare x y
  | VFloat x, VFloat y => float_compare x y
  | VStr x, VStr y => String.compare x y
  | VTime x, VTime y => Z.compare x y
  | _, _ => Z.compare (kind_rank a) (kind_rank b)
  end.

End Py.
Import Py.

(* ================================================================== *)
(** * Calendar fields of a timestamp *)
(* ================================================================== *)

Module Calendar.

Definition ns_per_hour : Z := 3600 * 1000000000.
Definition ns_per_day : Z := 24 * ns_per_hour.

(** Days since 1970-01-01 (floor division: also right before 1970). *)
Definition day_number (ns : Z) : Z := ns / ns_per_day.

(** Proleptic Gregorian (year, month, day) of a day number. *)
Definition civil_of_days (days : Z) : Z * Z * Z :=
  let z := days + 719468 in
  let era := z / 146097 in
  let doe := z - era * 146097 in
  let yoe := (doe - doe / 1460 + doe / 36524 - doe / 146096) / 365 in
  let y := yoe + era * 400 in
  let doy := doe - (365 * yoe + yoe / 4 - yoe / 100) in
  let mp := (5 * doy + 2) / 153 in
  let d := doy - (153 * mp + 2) / 5 + 1 in
  let m := if mp <? 10 then mp + 3 else mp - 9 in
  (if m <=? 2 then y + 1 else y, m, d).

(** The inverse: day number of a civil date. *)
Definition days_of_civil (y m d : Z) : Z :=
  let y' := if m <=? 2 then y - 1 else y in
  let era := y' / 400 in
  let yoe := y' - era * 400 in
  let doy := (153 * (if 2 <? m then m - 3 else m + 9) + 2) / 5 + d - 1 in
  let doe := yoe * 365 + yoe / 4 - yoe / 100 + doy in
  era * 146097 + doe - 719468.

(** [pd.Timestamp(year, month, day, hour)] as nanoseconds. *)
Definition timestamp (y m d h : Z) : Z :=
  days_of_civil y m d * ns_per_day + h * ns_per_hour.

Definition year (ns : Z) : Z := fst (fst (civil_of_days (day_number ns))).
Definition month (ns : Z) : Z := snd (fst (civil_of_days (day_number ns))).
Definition day (ns : Z) : Z := snd (civil_of_days (day_number ns)).
Definition hour (ns : Z) : Z := (ns mod ns_per_day) / ns_per_hour.

(** Monday = 0 ... Sunday = 6; 1970-01-01 was a Thursday. *)
Definition dayofweek (ns : Z) : Z := (day_number ns + 3) mod 7.

Definition month_name (ns : Z) : string :=
  nth (Z.to_nat (month ns - 1))
      ["January"; "February"; "March"; "April"; "May"; "June"; "July";
       "August"; "September"; "October"; "November"; "December"] "".

Definition day_name (ns : Z) : string :=
  nth (Z.to_nat (dayofweek ns))
      ["Monday"; "Tuesday"; "Wednesday"; "Thursday"; "Friday"; "Saturday";
       "Sunday"] "".

End Calendar.

(* ================================================================== *)
(** * The part of pandas the script uses *)
(* ================================================================== *)

Module Pd.

Inductive np_dtype : Type := bool_ | int64 | float64 | object | datetime64.

Definition np_dtype_eqb (a b : np_dtype) : bool :=
  match a, b with
  | bool_, bool_ | int64, int64 | float64, float64
  | object, object | datetime64, datetime64 => true
  | _, _ => false
  end.

(** A column: its dtype and its cells.  A Series taken out of a frame is
    only ever read by the script, so it is a value; its index is the
    frame's. *)
Record Series : Type := mkSeries { dtype : np_dtype; values : list cell }.

(** A DataFrame: the row labels and the columns in their order. *)
Record DataFrame : Type :=
  mkDataFrame { index : list Z; columns : list (string * Series) }.

(** [len(df)]. *)
Definition len (df : DataFrame) : Z := Z.of_nat (length (index df)).

(** [df.columns]. *)
Definition column_names (df : DataFrame) : list string :=
  map fst (columns df).

(** [name in df.columns]. *)
Definition has_column (name : string) (df : DataFrame) : bool :=
  existsb (String.eqb name) (column_names df).

Fixpoint lookup (name : string) (cols : list (string * Series))
  : option Series :=
  match cols with
  | [] => None
  | (n, s) :: rest => if String.eqb n name then Some s else lookup name rest
  end.

(** [df[name]]. *)
Definition getitem (df : DataFrame) (name : string) : result Series :=
  match lookup name (columns df) with
  | Some s => Ok s
  | None => Raise (KeyError name)
  end.

Fixpoint set_column (name : string) (s : Series)
  (cols : list (string * Series)) : list (string * Series) :=
  match cols with
  | [] => [(name, s)]
  | (n, c) :: rest =>
      if String.eqb n name then (n, s) :: rest
      else (n, c) :: set_column name s rest
  end.

(** The frame after [df[name] = s], for a Series [s] on the frame's own
    index: an existing column is replaced where it stands, a new one is
    appended. *)
Definition setitem (df : DataFrame) (name : string) (s : Series)
  : DataFrame :=
  mkDataFrame (index df) (set_column name s (columns df)).

(** [df[names]]: the named columns, in the order asked for. *)
Fixpoint select_columns (cols : list (string * Series)) (names : list string)
  : result (list (string * Series)) :=
  match names with
  | [] => Ok []
  | n :: rest =>
      match lookup n cols with
      | None => Raise (KeyError n)
      | Some s =>
          rbind (select_columns cols rest) (fun r => Ok ((n, s) :: r))
      end
  end.

Definition select (df : DataFrame) (names : list string)
  : result DataFrame :=
  rbind (select_columns (columns df) names) (fun cs =>
  Ok (mkDataFrame (index df) cs)).

(** ** Rows *)

(** The rows of [n]-row columns: row [i] lists cell [i] of every column. *)
Fixpoint zip_rows (cols : list (list cell)) (n : nat) : list (list cell) :=
  match cols with
  | [] => repeat [] n
  | c :: cs => map (fun p => fst p :: snd p) (combine c (zip_rows cs n))
  end.

Definition rows (df : DataFrame) : list (list cell) :=
  zip_rows (map (fun c => values (snd c)) (columns df)) (length (index df)).

Fixpoint row_eqb (r1 r2 : list cell) : bool :=
  match r1, r2 with
  | [], [] => true
  | a :: r1', b :: r2' => cell_eqb a b && row_eqb r1' r2'
  | _, _ => false
  end.

(** Boolean indexing: the elements of [l] whose mask bit is set. *)
Fixpoint mask_filter {A} (mask : list bool) (l : list A) : list A :=
  match mask, l with
  | b :: mask', x :: l' =>
      if b then x :: mask_filter mask' l' else mask_filter mask' l'
  | _, _ => []
  end.

(** [df[mask]]: the rows whose mask bit is set, with their labels. *)
Definition take_rows (mask : list bool) (df : DataFrame) : DataFrame :=
  mkDataFrame
    (mask_filter mask (index df))
    (map (fun c => (fst c, mkSeries (dtype (snd c))
                                    (mask_filter mask (values (snd c)))))
         (columns df)).

(** [df.duplicated()]: a row is a duplicate when an equal row stands
    before it. *)
Fixpoint duplicated_rows (seen rs : list (list cell)) : list bool :=
  match rs with
  | [] => []
  | r :: rs' => existsb (row_eqb r) seen :: duplicated_rows (r :: seen) rs'
  end.

Definition duplicated (df : DataFrame) : list bool :=
  duplicated_rows [] (rows df).

(** [df.drop_duplicates()] (keep='first'; the labels are kept). *)
Definition drop_duplicates (df : DataFrame) : DataFrame :=
  take_rows (map negb (duplicated df)) df.

(** [df.isnull().any(axis=1)]. *)
Definition isnull_any (df : DataFrame) : list bool :=
  map (existsb isnull) (rows df).

Definition count_true (m : list bool) : Z :=
  Z.of_nat (length (filter (fun b => b) m)).

(** [df.dropna(subset=names)]. *)
Definition dropna (df : DataFrame) (names : list string)
  : result DataFrame :=
  rbind (select df names) (fun sub =>
  Ok (take_rows (map negb (isnull_any sub)) df)).

(** ** Column transformations *)

(** Whether a column of dtype [d] can hold [v] without being upcast. *)
Definition can_hold (d : np_dtype) (v : cell) : bool :=
  match d, v with
  | object, _ => true
  | float64, (VInt _ | VFloat _) => true
  | int64, VInt _ => true
  | bool_, VBool _ => true
  | datetime64, (VTime _ | NaT) => true
  | _, _ => false
  end.

(** [s.fillna(v)]: missing cells become [v]; the column is upcast to
    object when a cell was filled with a value its dtype cannot hold. *)
Definition fillna (v : cell) (s : Series) : Series :=
  if existsb isnull (values s)
  then mkSeries (if can_hold (dtype s) v then dtype s else object)
                (map (fun c => if isnull c then v else c) (values s))
  else s.

(** [s.astype(bool)]: [bool(x)] cell by cell; a datetime column cannot be
    cast. *)
Definition astype_bool (s : Series) : result Series :=
  match dtype s with
  | datetime64 =>
      Raise (TypeError "Cannot cast DatetimeArray to dtype bool")
  | _ => Ok (mkSeries bool_ (map (fun c => VBool (truthy c)) (values s)))
  end.

(** [df.select_dtypes(include=['object']).columns]. *)
Definition object_columns (df : DataFrame) : list string :=
  map fst (filter (fun c => np_dtype_eqb (dtype (snd c)) object)
                  (columns df)).

(** What [lib.infer_dtype(values, skipna=True)] answers. *)
Inductive inferred : Type :=
| Empty | String_ | Boolean | Integer | Floating | MixedIntegerFloat
| Datetime | MixedInteger | Mixed.

Definition is_S (c : cell) := match c with VStr _ => true | _ => false end.
Definition is_B (c : cell) := match c with VBool _ => true | _ => false end.
Definition is_I (c : cell) := match c with VInt _ => true | _ => false end.
Definition is_F (c : cell) := match c with VFloat _ => true | _ => false end.
Definition is_T (c : cell) := match c with VTime _ => true | _ => false end.

Definition infer_dtype (vs : list cell) : inferred :=
  let nn := filter notnull vs in
  match nn with
  | [] => Empty
  | _ =>
      if forallb is_S nn then String_
      else if forallb is_B nn then Boolean
      else if forallb is_I nn then Integer
      else if forallb is_F nn then Floating
      else if forallb is_T nn then Datetime
      else if forallb (fun c => is_I c || is_F c) nn then MixedIntegerFloat
      else if existsb is_I nn then MixedInteger
      else Mixed
  end.

(** The check made when [s.str] is taken. *)
Definition str_accessor (s : Series) : result unit :=
  match dtype s with
  | object =>
      match infer_dtype (values s) with
      | String_ | Empty | Mixed | MixedInteger => Ok tt
      | _ =>
          Raise (AttributeError "Can only use .str accessor with string values!")
      end
  | _ => Raise (AttributeError "Can only use .str accessor with string values!")
  end.

(** [s.str.<method>()]: strings are mapped, anything else becomes NaN. *)
Definition str_map (f : string -> string) (s : Series) : result Series :=
  rbind (str_accessor s) (fun _ =>
  Ok (mkSeries object
        (map (fun c => match c with VStr x => VStr (f x) | _ => NaN end)
             (values s)))).

Definition str_strip : Series -> result Series := str_map strip.
Definition str_upper : Series -> result Series := str_map upper.

(** The check made when [s.dt] is taken. *)
Definition dt_accessor (s : Series) : result unit :=
  match dtype s with
  | datetime64 => Ok tt
  | _ =>
      Raise (AttributeError "Can only use .dt accessor with datetimelike values")
  end.

(** An integer field of [s.dt]: int64 when no timestamp is missing, else
    float64 with NaN at the missing ones. *)
Definition dt_int_field (f : Z -> Z) (s : Series) : Series :=
  if existsb isnull (values s)
  then mkSeries float64
         (map (fun c => match c with
                        | VTime ns => VFloat (float_of_Z (f ns))
                        | _ => NaN
                        end) (values s))
  else mkSeries int64
         (map (fun c => match c with VTime ns => VInt (f ns) | _ => NaN end)
              (values s)).

(** A name field of [s.dt] ([month_name()], [day_name()]). *)
Definition dt_name_field (f : Z -> string) (s : Series) : Series :=
  mkSeries object
    (map (fun c => match c with VTime ns => VStr (f ns) | _ => NaN end) (values s)).

(** [s.isin(vals)]. *)
Definition isin (s : Series) (vals : list cell) : Series :=
  mkSeries bool_
    (map (fun c => VBool (existsb (fun v => cell_eqb v c) vals)) (values s)).

Fixpoint map_result {A B} (f : A -> result B) (l : list A)
  : result (list B) :=
  match l with
  | [] => Ok []
  | x :: l' =>
      rbind (f x) (fun y =>
      rbind (map_result f l') (fun ys => Ok (y :: ys)))
  end.

(** [s.apply(f)] for a function returning a string: an object column; on
    an empty Series pandas keeps the Series' own dtype. *)
Definition apply (f : cell -> result string) (s : Series) : result Series :=
  rbind (map_result f (values s)) (fun ys =>
  Ok (match ys with
      | [] => mkSeries (dtype s) []
      | _ => mkSeries object (map VStr ys)
      end)).

(** ** Reductions *)

Definition cell_min (a b : cell) : cell :=
  match cell_compare b a with Lt => b | _ => a end.

Definition cell_max (a b : cell) : cell :=
  match cell_compare b a with Gt => b | _ => a end.

Definition missing_of (d : np_dtype) : cell :=
  match d with datetime64 => NaT | _ => NaN end.

(** [s.min()] and [s.max()]: over the cells that are not missing.  This
    is what pandas computes on a datetime, numeric or boolean column and
    on a text column without a missing cell.  On an object column that
    mixes text and missing cells pandas raises TypeError; that case is
    not covered. *)
Definition series_min (s : Series) : cell :=
  match filter notnull (values s) with
  | [] => missing_of (dtype s)
  | c :: cs => fold_left cell_min cs c
  end.

Definition series_max (s : Series) : cell :=
  match filter notnull (values s) with
  | [] => missing_of (dtype s)
  | c :: cs => fold_left cell_max cs c
  end.

(** [s.sum()]: missing cells are skipped, booleans count as 0 and 1. *)
Fixpoint sum_cells (acc : pynum) (cs : list cell) : result pynum :=
  match cs with
  | [] => Ok acc
  | c :: cs' =>
      if isnull c then sum_cells acc cs'
      else match as_num c with
           | Some x => sum_cells (num_add acc x) cs'
           | None =>
               Raise (TypeError "unsupported operand type(s) for /")
           end
  end.

Definition series_sum (s : Series) : result pynum :=
  sum_cells (PInt 0) (values s).

(** [df.isnull().sum().sum()]. *)
Definition count_missing (df : DataFrame) : Z :=
  fold_right (fun c acc => count_true (map isnull (values (snd c))) + acc)
             0 (columns df).

(** ** Grouping *)

Section Groups.
Context {K : Type} (cmp : K -> K -> comparison).

(** One more row for key [k] in a key-sorted table of counts. *)
Fixpoint bump (k : K) (acc : list (K * Z)) : list (K * Z) :=
  match acc with
  | [] => [(k, 1)]
  | (k', n) :: rest =>
      match cmp k k' with
      | Eq => (k', n + 1) :: rest
      | Lt => (k, 1) :: acc
      | Gt => (k', n) :: bump k rest
      end
  end.

(** [groupby(key).size()]: one entry per key, in key order. *)
Definition sizes (keys : list K) : list (K * Z) :=
  fold_left (fun acc k => bump k acc) keys [].

(** One more value for key [k] in a key-sorted table of value lists. *)
Fixpoint collect {V} (k : K) (v : V) (acc : list (K * list V))
  : list (K * list V) :=
  match acc with
  | [] => [(k, [v])]
  | (k', vs) :: rest =>
      match cmp k k' with
      | Eq => (k', vs ++ [v]) :: rest
      | Lt => (k, [v]) :: acc
      | Gt => (k', vs) :: collect k v rest
      end
  end.

Definition groups {V} (kvs : list (K * V)) : list (K * list V) :=
  fold_left (fun acc kv => collect (fst kv) (snd kv) acc) kvs [].
End Groups.

Definition pair_compare (a b : cell * cell) : comparison :=
  match cell_compare (fst a) (fst b) with
  | Eq => cell_compare (snd a) (snd b)
  | c => c
  end.

(** [df.groupby(name).size()]; rows with a missing key are left out. *)
Definition groupby_size (df : DataFrame) (name : string)
  : result (list (cell * Z)) :=
  rbind (getitem df name) (fun s =>
  Ok (sizes cell_compare (filter notnull (values s)))).

(** [df.groupby([n1, n2]).size()]. *)
Definition groupby2_size (df : DataFrame) (n1 n2 : string)
  : result (list ((cell * cell) * Z)) :=
  rbind (getitem df n1) (fun s1 =>
  rbind (getitem df n2) (fun s2 =>
  Ok (sizes pair_compare
        (filter (fun k => notnull (fst k) && notnull (snd k))
                (combine (values s1) (values s2)))))).

Definition sum_Z (l : list Z) : Z := fold_right Z.add 0 l.

(** The mean of a group of counts. *)
Definition mean_Z (l : list Z) : PrimFloat.float :=
  PrimFloat.div (float_of_Z (sum_Z l)) (float_of_Z (Z.of_nat (length l))).

(** [.groupby(level).mean()] on a Series of counts keyed by a pair, for
    the second level of the key. *)
Definition mean_by_second (ser : list ((cell * cell) * Z))
  : list (cell * PrimFloat.float) :=
  map (fun g => (fst g, mean_Z (snd g)))
      (groups cell_compare (map (fun e => (snd (fst e), snd e)) ser)).

(** [ser.pct_change()] on a Series of counts: NaN for the first entry,
    then [current / previous - 1]. *)
Fixpoint pct_change_from (prev : Z) (ser : list (cell * Z))
  : list (cell * PrimFloat.float) :=
  match ser with
  | [] => []
  | (k, v) :: rest =>
      (k, PrimFloat.sub (PrimFloat.div (float_of_Z v) (float_of_Z prev))
                        (float_of_Z 1))
      :: pct_change_from v rest
  end.

Definition pct_change (ser : list (cell * Z))
  : list (cell * PrimFloat.float) :=
  match ser with
  | [] => []
  | (k, v) :: rest => (k, nan) :: pct_change_from v rest
  end.

(** [ser * 100]. *)
Definition times_100 (ser : list (cell * PrimFloat.float))
  : list (cell * PrimFloat.float) :=
  map (fun e => (fst e, PrimFloat.mul (snd e) (float_of_Z 100))) ser.

(** [ser.idxmax()]: the label of the first maximum. *)
Fixpoint idxmax_from (best : cell * Z) (ser : list (cell * Z)) : cell :=
  match ser with
  | [] => fst best
  | e :: rest =>
      if snd best <? snd e then idxmax_from e rest
      else idxmax_from best rest
  end.

Definition idxmax (ser : list (cell * Z)) : result cell :=
  match ser with
  | [] => Raise (ValueError "attempt to get argmax of an empty sequence")
  | e :: rest => Ok (idxmax_from e rest)
  end.

(** [s.value_counts()]: the counts of the values that are not missing,
    largest first.  pandas promises no order among values with equal
    counts; here they stay in order of first appearance. *)
Fixpoint tally (c : cell) (acc : list (cell * Z)) : list (cell * Z) :=
  match acc with
  | [] => [(c, 1)]
  | (k, n) :: rest =>
      if cell_eqb k c then (k, n + 1) :: rest else (k, n) :: tally c rest
  end.

Fixpoint insert_desc (e : cell * Z) (l : list (cell * Z))
  : list (cell * Z) :=
  match l with
  | [] => [e]
  | x :: l' => if snd x <=? snd e then e :: l else x :: insert_desc e l'
  end.

Definition value_counts (s : Series) : list (cell * Z) :=
  fold_right insert_desc []
    (fold_left (fun acc c => tally c acc) (filter notnull (values s)) []).

End Pd.
Import Pd.

(* ================================================================== *)
(** * The object store and the monad of the methods *)
(* ================================================================== *)

(** A DataFrame is a mutable Python object: the analyzer and the local
    variables of its methods hold references to frames in a store.
    [df.copy()] and every pandas call that returns a frame allocate;
    [df[col] = ...] updates the frame behind the reference in place. *)
Definition ref : Type := nat.

(** The attributes of a [CrimeDataAnalyzer] instance. *)
Record analyzer : Type := mkAnalyzer {
  data_path : option string;
  df : option ref;
  clean_df : option ref
}.

(** The lines of console output that carry data of the load and clean
    stages.  The banners and the tables printed by the other stages are
    not modelled. *)
Inductive message : Type :=
| Loading (path : string)
| Loaded (n : Z)
| File_not_found (path : string)
| Load_error (e : exn)
| Removed_duplicates (n : Z)
| Removed_missing_critical (n : Z)
| Standardized_text
| Clean_records (n : Z).

Record world : Type := mkWorld {
  self : analyzer;
  heap : list DataFrame;
  (** what [pd.read_csv(path, parse_dates=['date'], low_memory=False)]
      returns or raises for each path *)
  files : string -> result DataFrame;
  (** the paths [read_csv] was called with, oldest first *)
  reads : list string;
  stdout : list message
}.

Definition M (A : Type) : Type := world -> result A * world.

Definition ret {A} (a : A) : M A := fun w => (Ok a, w).

Definition bind {A B} (m : M A) (k : A -> M B) : M B :=
  fun w =>
    match m w with
    | (Ok a, w') => k a w'
    | (Raise e, w') => (Raise e, w')
    end.

Definition raise {A} (e : exn) : M A := fun w => (Raise e, w).

Definition lift {A} (r : result A) : M A := fun w => (r, w).

(** [try: m  except Exception as e: h e]. *)
Definition try_except {A} (m : M A) (h : exn -> M A) : M A :=
  fun w =>
    match m w with
    | (Ok a, w') => (Ok a, w')
    | (Raise e, w') => h e w'
    end.

Notation "x <- m ;; k" := (bind m (fun x => k))
  (at level 61, m at next level, right associativity).
Notation "m ;; k" := (bind m (fun _ => k))
  (at level 61, right associativity).
(** The same for a computation that only returns or raises. *)
Notation "x <~ r ;; k" := (rbind r (fun x => k))
  (at level 61, r at next level, right associativity).

Definition get_self : M analyzer := fun w => (Ok (self w), w).

Definition set_self (a : analyzer) (w : world) : world :=
  mkWorld a (heap w) (files w) (reads w) (stdout w).

Definition set_heap (h : list DataFrame) (w : world) : world :=
  mkWorld (self w) h (files w) (reads w) (stdout w).

(** [self.df = r] and [self.clean_df = r]. *)
Definition set_df (r : ref) : M unit :=
  fun w =>
    (Ok tt,
     set_self (mkAnalyzer (data_path (self w)) (Some r) (clean_df (self w)))
              w).

Definition set_clean_df (r : ref) : M unit :=
  fun w =>
    (Ok tt,
     set_self (mkAnalyzer (data_path (self w)) (df (self w)) (Some r)) w).

Definition empty_frame : DataFrame := mkDataFrame [] [].

(** The frame behind a reference. *)
Definition deref (h : list DataFrame) (r : ref) : DataFrame :=
  nth r h empty_frame.

Definition load (r : ref) : M DataFrame :=
  fun w => (Ok (deref (heap w) r), w).

(** A new frame object. *)
Definition new (d : DataFrame) : M ref :=
  fun w => (Ok (length (heap w)), set_heap (heap w ++ [d]) w).

Fixpoint update {A} (n : nat) (x : A) (l : list A) : list A :=
  match n, l with
  | O, _ :: l' => x :: l'
  | S n', y :: l' => y :: update n' x l'
  | _, [] => []
  end.

(** An in-place statement on the frame behind [r]: the right-hand side
    is evaluated on the frame as it stands, and the frame is replaced by
    the outcome; when the right-hand side raises, nothing was written. *)
Definition on_frame (r : ref) (f : DataFrame -> result DataFrame) : M unit :=
  fun w =>
    match f (deref (heap w) r) with
    | Ok d' => (Ok tt, set_heap (update r d' (heap w)) w)
    | Raise e => (Raise e, w)
    end.

(** [df[name] = rhs], where [rhs] reads [df]. *)
Definition assign_frame (name : string) (rhs : DataFrame -> result Series)
  (d : DataFrame) : result DataFrame :=
  rbind (rhs d) (fun s => Ok (setitem d name s)).

Definition assign (r : ref) (name : string)
  (rhs : DataFrame -> result Series) : M unit :=
  on_frame r (assign_frame name rhs).

(** [if name in df.columns: body]. *)
Definition when_column (r : ref) (name : string) (body : M unit) : M unit :=
  d <- load r ;;
  if has_column name d then body else ret tt.

Definition print (m : message) : M unit :=
  fun w =>
    (Ok tt, mkWorld (self w) (heap w) (files w) (reads w) (stdout w ++ [m])).

(** [pd.read_csv(path, parse_dates=['date'], low_memory=False)]. *)
Definition read_csv (path : string) : M ref :=
  fun w =>
    let w' := mkWorld (self w) (heap w) (files w) (reads w ++ [path])
                      (stdout w) in
    match files w path with
    | Ok d => new d w'
    | Raise e => (Raise e, w')
    end.

Fixpoint for_each {A} (l : list A) (body : A -> M unit) : M unit :=
  match l with
  | [] => ret tt
  | x :: l' => body x ;; for_each l' body
  end.

(** [a or b] on two optional strings: [None] and the empty string are
    falsy. *)
Definition py_or (a b : option string) : option string :=
  match a with
  | Some s => if String.eqb s "" then b else a
  | None => b
  end.

(* ================================================================== *)
(** * [class CrimeDataAnalyzer] *)
(* ================================================================== *)

(** [__init__(self, data_path=None)]. *)
Definition init (data_path : option string) : analyzer :=
  mkAnalyzer data_path None None.

(** [load_data(self, data_path=None)]. *)
Definition load_data (path_arg : option string) : M ref :=
  me <- get_self ;;
  match py_or path_arg (data_path me) with
  | None => raise (ValueError "Data path must be provided")
  | Some path =>
      print (Loading path) ;;
      try_except
        (r <- read_csv path ;;
         set_df r ;;
         d <- load r ;;
         print (Loaded (len d)) ;;
         ret r)
        (fun e =>
           match e with
           | FileNotFoundError _ => print (File_not_found path) ;; raise e
           | _ => print (Load_error e) ;; raise e
           end)
  end.

(** The dictionary [explore_data] returns. *)
Record exploration : Type := mkExploration {
  total_records : Z;
  n_columns : Z;
  date_range : cell * cell;
  missing_values : Z;
  duplicate_records : Z
}.

(** [explore_data(self)]. *)
Definition explore_data : M exploration :=
  me <- get_self ;;
  match df me with
  | None => raise (ValueError "Data not loaded. Call load_data() first.")
  | Some r =>
      d <- load r ;;
      date <- lift (getitem d "date") ;;
      ret (mkExploration
             (len d)
             (Z.of_nat (length (columns d)))
             (series_min date, series_max date)
             (count_missing d)
             (count_true (duplicated d)))
  end.

Definition critical_fields : list string :=
  ["date"; "primary_type"; "latitude"; "longitude"].

(** [df[name].fillna('UNKNOWN')]. *)
Definition fillna_unknown (name : string) (df : DataFrame) : result Series :=
  s <~ getitem df name ;;
  Ok (fillna (VStr "UNKNOWN") s).

(** [df[name].fillna(False).astype(bool)]. *)
Definition fillna_false_astype_bool (name : string) (df : DataFrame)
  : result Series :=
  s <~ getitem df name ;;
  astype_bool (fillna (VBool false) s).

(** [df[col].str.strip().str.upper()]. *)
Definition strip_upper (col : string) (df : DataFrame) : result Series :=
  s <~ getitem df col ;;
  s1 <~ str_strip s ;;
  str_upper s1.

(** The body of the loop over [text_columns]:
    [if col not in ['date']: df[col] = df[col].str.strip().str.upper()]. *)
Definition standardize (r : ref) (col : string) : M unit :=
  if existsb (String.eqb col) ["date"] then ret tt
  else assign r col (strip_upper col).

(** Lines 158 to 176 of [clean_data], the statements that update the
    local frame [df] in place. *)
Definition fill_and_standardize (r : ref) : M unit :=
  (* Fill missing non-critical fields *)
  when_column r "description"
    (assign r "description" (fillna_unknown "description")) ;;
  when_column r "location_description"
    (assign r "location_description"
            (fillna_unknown "location_description")) ;;
  (* Convert boolean fields *)
  when_column r "arrest"
    (assign r "arrest" (fillna_false_astype_bool "arrest")) ;;
  when_column r "domestic"
    (assign r "domestic" (fillna_false_astype_bool "domestic")) ;;
  (* Standardize text fields *)
  d <- load r ;;
  let text_columns := object_columns d in
  for_each text_columns (standardize r).

(** [clean_data(self)]. *)
Definition clean_data : M ref :=
  me <- get_self ;;
  match df me with
  | None => raise (ValueError "Data not loaded. Call load_data() first.")
  | Some raw =>
      d <- load raw ;;
      r <- new d ;;                          (* df = self.df.copy() *)
      (* Remove exact duplicates *)
      d <- load r ;;
      let initial_count := len d in
      r <- new (drop_duplicates d) ;;        (* df = df.drop_duplicates() *)
      d <- load r ;;
      let duplicates_removed := initial_count - len d in
      print (Removed_duplicates duplicates_removed) ;;
      (* Handle missing values *)
      sub <- lift (select d critical_fields) ;;
      let missing_critical := count_true (isnull_any sub) in
      d' <- lift (dropna d critical_fields) ;;
      r <- new d' ;;                         (* df = df.dropna(subset=...) *)
      print (Removed_missing_critical missing_critical) ;;
      fill_and_standardize r ;;
      print Standardized_text ;;
      d <- load r ;;
      print (Clean_records (len d)) ;;
      set_clean_df r ;;
      ret r
  end.

(** The local function [categorize_time] of [engineer_features]. *)
Definition categorize_time (hour : cell) : result string :=
  rbind (int_le_lt 6 hour 12) (fun c1 =>
  if c1 then Ok "Morning" else
  rbind (int_le_lt 12 hour 18) (fun c2 =>
  if c2 then Ok "Afternoon" else
  rbind (int_le_lt 18 hour 24) (fun c3 =>
  if c3 then Ok "Evening" else Ok "Night"))).

(** The local function [get_season] of [engineer_features]. *)
Definition get_season (month : cell) : string :=
  if in_ints month [12; 1; 2] then "Winter"
  else if in_ints month [3; 4; 5] then "Spring"
  else if in_ints month [6; 7; 8] then "Summer"
  else "Fall".

Definition violent_crimes : list string :=
  ["HOMICIDE"; "ASSAULT"; "BATTERY"; "ROBBERY";
   "CRIMINAL SEXUAL ASSAULT"; "KIDNAPPING"].

(** [df['date'].dt]. *)
Definition date_dt (df : DataFrame) : result Series :=
  s <~ getitem df "date" ;;
  _ <~ dt_accessor s ;;
  Ok s.

(** [df['date'].dt.<field>] for an integer field and for a name. *)
Definition dt_int (f : Z -> Z) (df : DataFrame) : result Series :=
  s <~ date_dt df ;; Ok (dt_int_field f s).

Definition dt_name (f : Z -> string) (df : DataFrame) : result Series :=
  s <~ date_dt df ;; Ok (dt_name_field f s).

(** [df['day_of_week'].isin([5, 6])]. *)
Definition weekend (df : DataFrame) : result Series :=
  s <~ getitem df "day_of_week" ;; Ok (isin s [VInt 5; VInt 6]).

(** [df['hour'].apply(categorize_time)]. *)
Definition time_of_day (df : DataFrame) : result Series :=
  s <~ getitem df "hour" ;; apply categorize_time s.

(** [df['month'].apply(get_season)]. *)
Definition season (df : DataFrame) : result Series :=
  s <~ getitem df "month" ;; apply (fun m => Ok (get_season m)) s.

(** [df['primary_type'].isin(violent_crimes)]. *)
Definition violent (df : DataFrame) : result Series :=
  s <~ getitem df "primary_type" ;; Ok (isin s (map VStr violent_crimes)).

(** Lines 204 to 247 of [engineer_features], the statements that add
    columns to the local frame [df]. *)
Definition derive_features (r : ref) : M unit :=
  (* Temporal features *)
  assign r "year" (dt_int Calendar.year) ;;
  assign r "month" (dt_int Calendar.month) ;;
  assign r "month_name" (dt_name Calendar.month_name) ;;
  assign r "day" (dt_int Calendar.day) ;;
  assign r "day_of_week" (dt_int Calendar.dayofweek) ;;
  assign r "day_name" (dt_name Calendar.day_name) ;;
  assign r "hour" (dt_int Calendar.hour) ;;
  assign r "is_weekend" weekend ;;
  (* Time of day categories *)
  assign r "time_of_day" time_of_day ;;
  (* Season *)
  assign r "season" season ;;
  (* Crime severity *)
  when_column r "primary_type" (assign r "is_violent" violent).

(** [engineer_features(self)]. *)
Definition engineer_features : M ref :=
  me <- get_self ;;
  match clean_df me with
  | None => raise (ValueError "Data not cleaned. Call clean_data() first.")
  | Some c =>
      d <- load c ;;
      r <- new d ;;                          (* df = self.clean_df.copy() *)
      derive_features r ;;
      set_clean_df r ;;
      ret r
  end.

(** The dictionary [analyze_trends] returns. *)
Record trends : Type := mkTrends {
  yearly_crimes : list (cell * Z);
  yoy_change : list (cell * PrimFloat.float);
  monthly_avg : list (cell * PrimFloat.float);
  peak_hour : cell
}.

(** [analyze_trends(self)]. *)
Definition analyze_trends : M trends :=
  me <- get_self ;;
  match clean_df me with
  | None => raise (ValueError "Data not prepared. Call clean_data() first.")
  | Some r =>
      d <- load r ;;
      (* Yearly trends *)
      yearly <- lift (groupby_size d "year") ;;
      (* Calculate year-over-year change *)
      let yoy := times_100 (pct_change yearly) in
      (* Monthly average *)
      by_month <- lift (groupby2_size d "year" "month") ;;
      let monthly := mean_by_second by_month in
      (* Day of week patterns *)
      dow_crimes <- lift (groupby_size d "day_name") ;;
      (* Hourly patterns *)
      hourly <- lift (groupby_size d "hour") ;;
      peak <- lift (idxmax hourly) ;;
      ret (mkTrends yearly yoy monthly peak)
  end.

(** [round(x, 2)] of a percentage: [rint(x * 100) / 100], the rounding
    to an integer done by adding and subtracting 2^52 (right for
    0 <= x * 100 < 2^52). *)
Definition round2 (x : PrimFloat.float) : PrimFloat.float :=
  let big := float_of_Z (2 ^ 52) in
  let y := PrimFloat.mul x (float_of_Z 100) in
  PrimFloat.div (PrimFloat.sub (PrimFloat.add y big) big) (float_of_Z 100).

(** count / len(df) * 100 on numpy numbers (no exception on a zero
    divisor). *)
Definition np_pct (x : pynum) (n : Z) : PrimFloat.float :=
  PrimFloat.mul (PrimFloat.div (to_float x) (float_of_Z n)) (float_of_Z 100).

(** [analyze_crime_types(self)]: the rows (category, Count, Percentage)
    of the returned frame.  The arrest rates per category are only
    printed. *)
Definition analyze_crime_types : M (list (cell * Z * PrimFloat.float)) :=
  me <- get_self ;;
  match clean_df me with
  | None => raise (ValueError "Data not prepared. Call clean_data() first.")
  | Some r =>
      d <- load r ;;
      s <- lift (getitem d "primary_type") ;;
      let crime_counts := value_counts s in
      ret (map (fun e => (fst e, snd e,
                          round2 (np_pct (PInt (snd e)) (len d))))
               crime_counts)
  end.

(** The dictionary [analyze_geographic] returns. *)
Record geographic : Type := mkGeographic {
  district_crimes : option (list (cell * Z));
  location_types : option (list (cell * Z))
}.

Definition counts_if_present (d : DataFrame) (name : string)
  : option (list (cell * Z)) :=
  match lookup name (columns d) with
  | Some s => Some (value_counts s)
  | None => None
  end.

(** [analyze_geographic(self)]. *)
Definition analyze_geographic : M geographic :=
  me <- get_self ;;
  match clean_df me with
  | None => raise (ValueError "Data not prepared. Call clean_data() first.")
  | Some r =>
      d <- load r ;;
      ret (mkGeographic (counts_if_present d "district")
                        (counts_if_present d "location_description"))
  end.

(** The values of the [kpis] dictionary. *)
Inductive kpi_value : Type :=
| KInt (n : Z)
| KFloat (x : PrimFloat.float).

(** [a / b] for a Python int [a]. *)
Definition py_div (a : Z) (b : pynum) : result PrimFloat.float :=
  match b with
  | PInt 0 => Raise (ZeroDivisionError "division by zero")
  | PInt d => Ok (PrimFloat.div (float_of_Z a) (float_of_Z d))
  | PFloat x =>
      if PrimFloat.eqb x PrimFloat.zero
      then Raise (ZeroDivisionError "float division by zero")
      else Ok (PrimFloat.div (float_of_Z a) x)
  end.

(** [df[name].sum() / len(df) * 100].  The sum of a bool, int or float
    column is a numpy number, whose division by zero is NaN or infinity;
    the sum of an object column is a Python number, whose division by
    zero raises. *)
Definition percentage (s : Series) (n : Z) : result PrimFloat.float :=
  rbind (series_sum s) (fun total =>
  match dtype s with
  | object =>
      if n =? 0 then Raise (ZeroDivisionError "division by zero")
      else Ok (np_pct total n)
  | _ => Ok (np_pct total n)
  end).

(** [(hi - lo).days] for the maximum and minimum of the date column. *)
Definition span_days (hi lo : cell) : result pynum :=
  match hi, lo with
  | VTime a, VTime b => Ok (PInt ((a - b) / Calendar.ns_per_day))
  | NaT, NaT | VTime _, NaT | NaT, VTime _ => Ok (PFloat nan)
  | VStr _, VStr _ =>
      Raise (TypeError "unsupported operand type(s) for -: 'str' and 'str'")
  | _, _ => Raise (AttributeError "object has no attribute 'days'")
  end.

(** [if name in df.columns: kpis[key] = df[name].sum() / len(df) * 100]. *)
Definition kpi_percentage (d : DataFrame) (name key : string)
  (kpis : list (string * kpi_value)) : M (list (string * kpi_value)) :=
  if has_column name d
  then s <- lift (getitem d name) ;;
       x <- lift (percentage s (len d)) ;;
       ret (kpis ++ [(key, KFloat x)])
  else ret kpis.

(** [calculate_kpis(self)]. *)
Definition calculate_kpis : M (list (string * kpi_value)) :=
  me <- get_self ;;
  match clean_df me with
  | None => raise (ValueError "Data not prepared. Call clean_data() first.")
  | Some r =>
      d <- load r ;;
      let kpis := [] in
      (* Total crimes *)
      let kpis := kpis ++ [("total_crimes", KInt (len d))] in
      (* Arrest rate *)
      kpis <- kpi_percentage d "arrest" "arrest_rate" kpis ;;
      (* Domestic crime percentage *)
      kpis <- kpi_percentage d "domestic" "domestic_pct" kpis ;;
      (* Violent crime percentage *)
      kpis <- kpi_percentage d "is_violent" "violent_pct" kpis ;;
      (* Average crimes per day *)
      date <- lift (getitem d "date") ;;
      date_range_days <- lift (span_days (series_max date) (series_min date)) ;;
      avg <- lift (py_div (len d) date_range_days) ;;
      ret (kpis ++ [("avg_crimes_per_day", KFloat avg)])
  end.

(** Running a method. *)
Definition run {A} (m : M A) (w : world) : result A * world := m w.


(* ================================================================== *)
(** * What the methods compute, as functions of the frame *)
(* ================================================================== *)

(** The frame-level reading of [when_column] and [for_each]. *)
Definition when_column_frame (name : string)
  (f : DataFrame -> result DataFrame) (d : DataFrame) : result DataFrame :=
  if has_column name d then f d else Ok d.

Fixpoint for_each_frame {A} (l : list A)
  (f : A -> DataFrame -> result DataFrame) (d : DataFrame)
  : result DataFrame :=
  match l with
  | [] => Ok d
  | x :: l' => d' <~ f x d ;; for_each_frame l' f d'
  end.

Definition standardize_frame (col : string) (d : DataFrame)
  : result DataFrame :=
  if existsb (String.eqb col) ["date"] then Ok d
  else assign_frame col (strip_upper col) d.

(** The in-place part of [clean_data] (lines 158 to 176). *)
Definition clean_in_place (d : DataFrame) : result DataFrame :=
  d <~ when_column_frame "description"
         (assign_frame "description" (fillna_unknown "description")) d ;;
  d <~ when_column_frame "location_description"
         (assign_frame "location_description"
                       (fillna_unknown "location_description")) d ;;
  d <~ when_column_frame "arrest"
         (assign_frame "arrest" (fillna_false_astype_bool "arrest")) d ;;
  d <~ when_column_frame "domestic"
         (assign_frame "domestic" (fillna_false_astype_bool "domestic")) d ;;
  for_each_frame (object_columns d) standardize_frame d.

(** The cleaned frame [clean_data] builds from the raw frame. *)
Definition clean_frame (d : DataFrame) : result DataFrame :=
  d <~ dropna (drop_duplicates d) critical_fields ;;
  clean_in_place d.

(** The enriched frame [engineer_features] builds from the cleaned one. *)
Definition engineer_frame (d : DataFrame) : result DataFrame :=
  d <~ assign_frame "year" (dt_int Calendar.year) d ;;
  d <~ assign_frame "month" (dt_int Calendar.month) d ;;
  d <~ assign_frame "month_name" (dt_name Calendar.month_name) d ;;
  d <~ assign_frame "day" (dt_int Calendar.day) d ;;
  d <~ assign_frame "day_of_week" (dt_int Calendar.dayofweek) d ;;
  d <~ assign_frame "day_name" (dt_name Calendar.day_name) d ;;
  d <~ assign_frame "hour" (dt_int Calendar.hour) d ;;
  d <~ assign_frame "is_weekend" weekend d ;;
  d <~ assign_frame "time_of_day" time_of_day d ;;
  d <~ assign_frame "season" season d ;;
  when_column_frame "primary_type" (assign_frame "is_violent" violent) d.

(** A frame is well formed when every column has one cell per row label
    and no two columns share a name. *)
Definition well_formed (d : DataFrame) : Prop :=
  Forall (fun c => length (values (snd c)) = length (index d)) (columns d)
  /\ NoDup (column_names d).

(** ** The store discipline of an in-place block *)

(** [m] acts on the frame behind [r] as the function [f] does on its
    value: it writes [f]'s result when there is one, and leaves what it
    had written so far when [f] raises. *)
Definition acts_as (r : ref) (m : M unit)
  (f : DataFrame -> result DataFrame) : Prop :=
  forall w, (r < length (heap w))%nat ->
    match f (deref (heap w) r) with
    | Ok d' => run m w = (Ok tt, set_heap (update r d' (heap w)) w)
    | Raise e =>
        exists d', run m w = (Raise e, set_heap (update r d' (heap w)) w)
    end.

(** The number [clean_data] prints as removed for missing critical
    fields (the local [missing_critical]). *)
Definition missing_critical_count (d : DataFrame) : Z :=
  match select d critical_fields with
  | Ok sub => count_true (isnull_any sub)
  | Raise _ => 0
  end.

(** The columns [engineer_features] writes. *)
Definition derived_columns : list string :=
  ["year"; "month"; "month_name"; "day"; "day_of_week"; "day_name";
   "hour"; "is_weekend"; "time_of_day"; "season"; "is_violent"].

(** The columns of the enriched frame, one by one: [date] is the date
    column of the cleaned frame [d], and [d'] is the enriched frame. *)
Record enriched (d : DataFrame) (date : Series) (d' : DataFrame) : Prop :=
  mkEnriched {
  en_get_date : getitem d "date" = Ok date;
  en_dtype : dtype date = datetime64;
  en_index : index d' = index d;
  en_year : getitem d' "year" = Ok (dt_int_field Calendar.year date);
  en_month : getitem d' "month" = Ok (dt_int_field Calendar.month date);
  en_hour : getitem d' "hour" = Ok (dt_int_field Calendar.hour date);
  en_day_name :
    getitem d' "day_name" = Ok (dt_name_field Calendar.day_name date);
  en_time_of_day :
    exists s, apply categorize_time (dt_int_field Calendar.hour date) = Ok s
              /\ getitem d' "time_of_day" = Ok s;
  en_season :
    exists s, apply (fun m => Ok (get_season m))
                    (dt_int_field Calendar.month date) = Ok s
              /\ getitem d' "season" = Ok s;
  en_violent :
    match lookup "primary_type" (columns d) with
    | Some s =>
        getitem d' "is_violent" = Ok (isin s (map VStr violent_crimes))
    | None =>
        lookup "is_violent" (columns d') = lookup "is_violent" (columns d)
    end;
  en_others :
    forall name,
      existsb (String.eqb name) derived_columns = false ->
      lookup name (columns d') = lookup name (columns d);
  en_columns :
    exists added,
      column_names d' = column_names d ++ added
      /\ incl added derived_columns
}.

(** ** A cleaned table, as section 3 of the specification describes it *)

(** The column is there and none of its cells is missing. *)
Definition column_complete (d : DataFrame) (name : string) : Prop :=
  exists s, lookup name (columns d) = Some s
            /\ existsb isnull (values s) = false.

(** A text cell that cleaning leaves alone: missing, or a string that is
    its own trimmed upper-case form. *)
Definition normalized_text (c : cell) : Prop :=
  c = NaN \/ exists s, c = VStr s /\ upper (strip s) = s.

(** A Cleaned Record table: no duplicate rows; date, primary category,
    latitude and longitude present in every row; description and
    location description filled; arrest and domestic boolean; every text
    column but the date trimmed and upper-cased. *)
Record cleaned (d : DataFrame) : Prop := mkCleaned {
  cl_no_duplicates : forallb negb (duplicated d) = true;
  cl_critical : Forall (column_complete d) critical_fields;
  cl_filled :
    forall name s,
      In name ["description"; "location_description"] ->
      lookup name (columns d) = Some s ->
      existsb isnull (values s) = false;
  cl_boolean :
    forall name s,
      In name ["arrest"; "domestic"] ->
      lookup name (columns d) = Some s ->
      dtype s = bool_ /\ Forall (fun c => exists b, c = VBool b) (values s);
  cl_text :
    forall name s,
      In (name, s) (columns d) ->
      dtype s = object -> name <> "date" ->
      Forall normalized_text (values s)
}.

(* ================================================================== *)
(** * The Cleaner as the specification words it *)
(* ================================================================== *)

(** Section 4.3 of the specification describes the Cleaner as five
    steps on a table of records.  They are written here on rows, from the
    words of the specification, to be compared with [clean_data]. *)
Module Spec.

(** A record: its row label and one cell per column of the header. *)
Definition record : Type := (Z * list cell)%type.

(** A table: the columns with their types, and the records. *)
Record table : Type := mkTable {
  header : list (string * np_dtype);
  records : list record
}.

Definition size (t : table) : Z := Z.of_nat (length (records t)).

Definition among (names : list string) (n : string) : bool :=
  existsb (String.eqb n) names.

(** The cells of a record, each with its column. *)
Definition fields (h : list (string * np_dtype)) (r : record)
  : list ((string * np_dtype) * cell) :=
  combine h (snd r).

(** A record with every cell replaced by its image. *)
Definition on_cells (f : string * np_dtype -> cell -> cell)
  (h : list (string * np_dtype)) (r : record) : record :=
  (fst r, map (fun p => f (fst p) (snd p)) (fields h r)).

Fixpoint mapi_from {A B} (j : nat) (f : nat -> A -> B) (l : list A)
  : list B :=
  match l with
  | [] => []
  | x :: l' => f j x :: mapi_from (S j) f l'
  end.

(** Step 1.  Remove exact full-row duplicates (all columns equal): a
    record goes when a record with the same cells stands before it. *)
Fixpoint remove_duplicates (before : list (list cell)) (rs : list record)
  : list record :=
  match rs with
  | [] => []
  | r :: rs' =>
      if existsb (row_eqb (snd r)) before
      then remove_duplicates (snd r :: before) rs'
      else r :: remove_duplicates (snd r :: before) rs'
  end.

Definition step1 (t : table) : table :=
  mkTable (header t) (remove_duplicates [] (records t)).

(** Step 2.  Drop rows where any of date, primary category, latitude,
    longitude is missing; record the count dropped. *)
Definition lacks_critical (h : list (string * np_dtype)) (r : record)
  : bool :=
  existsb (fun p => among critical_fields (fst (fst p)) && isnull (snd p))
          (fields h r).

Definition step2 (t : table) : table :=
  mkTable (header t)
          (filter (fun r => negb (lacks_critical (header t) r)) (records t)).

Definition dropped (t : table) : Z :=
  Z.of_nat (length (filter (lacks_critical (header t)) (records t))).

(** Step 3.  Fill missing description / location-description fields with
    the literal sentinel "UNKNOWN".  A column that received the sentinel
    is a text column from then on. *)
Definition fill (h : string * np_dtype) (c : cell) : cell :=
  if among ["description"; "location_description"] (fst h) && isnull c
  then VStr "UNKNOWN" else c.

Definition has_missing (j : nat) (rs : list record) : bool :=
  existsb (fun r => isnull (nth j (snd r) NaN)) rs.

Definition fill_type (rs : list record) (j : nat) (h : string * np_dtype)
  : string * np_dtype :=
  if among ["description"; "location_description"] (fst h)
     && has_missing j rs
  then (fst h, object) else h.

Definition step3 (t : table) : table :=
  mkTable (mapi_from 0 (fill_type (records t)) (header t))
          (map (on_cells fill (header t)) (records t)).

(** Step 4.  Coerce arrest/domestic fields: missing -> false; otherwise
    cast to boolean. *)
Definition coerce (h : string * np_dtype) (c : cell) : cell :=
  if among ["arrest"; "domestic"] (fst h)
  then VBool (if isnull c then false else truthy c) else c.

Definition coerce_type (h : string * np_dtype) : string * np_dtype :=
  if among ["arrest"; "domestic"] (fst h) then (fst h, bool_) else h.

Definition step4 (t : table) : table :=
  mkTable (map coerce_type (header t))
          (map (on_cells coerce (header t)) (records t)).

(** Step 5.  For every text-typed column except the date column: trim
    surrounding whitespace and upper-case the value.  A value that is
    not text has no trimmed upper-case form and is left missing. *)
Definition trim_upper (c : cell) : cell :=
  match c with
  | VStr s => VStr (upper (strip s))
  | _ => NaN
  end.

Definition standardize_text (h : string * np_dtype) (c : cell) : cell :=
  if np_dtype_eqb (snd h) object && negb (String.eqb (fst h) "date")
  then trim_upper c else c.

Definition step5 (t : table) : table :=
  mkTable (header t)
          (map (on_cells standardize_text (header t)) (records t)).

(** The five steps, strictly in this order. *)
Definition cleaner (t : table) : table :=
  step5 (step4 (step3 (step2 (step1 t)))).

End Spec.

(** A frame read as a table of records. *)
Definition table_of (d : DataFrame) : Spec.table :=
  Spec.mkTable (map (fun c => (fst c, dtype (snd c))) (columns d))
               (combine (index d) (rows d)).

(* ================================================================== *)
(** * Sample data *)
(* ================================================================== *)

(** A file system with one CSV file. *)
Definition one_file (path : string) (d : DataFrame)
  : string -> result DataFrame :=
  fun p => if String.eqb p path then Ok d else Raise (FileNotFoundError p).

(** The world in which [CrimeDataAnalyzer()] has just been built. *)
Definition fresh_world (fs : string -> result DataFrame) : world :=
  mkWorld (init None) [] fs [] [].

(** The world a method leaves behind. *)
Definition after {A} (m : M A) (w : world) : world := snd (run m w).

(** Five raw records: one exact duplicate, one without a date, text in
    mixed case, a missing description and missing arrest flags. *)
Definition sample_raw : DataFrame :=
  mkDataFrame [0; 1; 2; 3; 4]
    [("date", mkSeries datetime64
                [VTime (Calendar.timestamp 2024 1 1 5);
                 VTime (Calendar.timestamp 2024 1 2 6);
                 VTime (Calendar.timestamp 2024 1 2 6);
                 NaT;
                 VTime (Calendar.timestamp 2024 1 3 18)]);
     ("primary_type", mkSeries object
                [VStr " theft "; VStr "battery"; VStr "battery";
                 VStr "assault"; VStr "Robbery"]);
     ("latitude", mkSeries float64
                [VFloat (float_of_Z 41); VFloat (float_of_Z 42);
                 VFloat (float_of_Z 42); VFloat (float_of_Z 43);
                 VFloat (float_of_Z 44)]);
     ("longitude", mkSeries float64
                [VFloat (float_of_Z (-87)); VFloat (float_of_Z (-88));
                 VFloat (float_of_Z (-88)); VFloat (float_of_Z (-89));
                 VFloat (float_of_Z (-90))]);
     ("description", mkSeries object
                [NaN; VStr "simple"; VStr "simple"; VStr "b"; VStr "armed"]);
     ("arrest", mkSeries object
                [VBool true; NaN; NaN; VBool false; VBool false])].

Definition sample_path : string := "data/raw/crimes.csv".

Definition sample_world : world := fresh_world (one_file sample_path sample_raw).
Definition sample_loaded : world :=
  after (load_data (Some sample_path)) sample_world.
Definition sample_cleaned : world := after clean_data sample_loaded.
Definition sample_enriched : world := after engineer_features sample_cleaned.

(** One record: the smallest table with a zero-day date span. *)
Definition single_raw : DataFrame :=
  mkDataFrame [0]
    [("date", mkSeries datetime64 [VTime (Calendar.timestamp 2024 1 1 5)]);
     ("primary_type", mkSeries object [VStr "THEFT"]);
     ("latitude", mkSeries float64 [VFloat (float_of_Z 41)]);
     ("longitude", mkSeries float64 [VFloat (float_of_Z (-87))]);
     ("arrest", mkSeries bool_ [VBool true]);
     ("domestic", mkSeries bool_ [VBool false])].

Definition single_enriched : world :=
  after (load_data (Some sample_path) ;; clean_data ;; engineer_features)
        (fresh_world (one_file sample_path single_raw)).

(** 250 records, 100 of them in 2022 and 150 in 2023, told apart by
    their latitude. *)
Definition trend_raw : DataFrame :=
  let n := seq 0 250 in
  mkDataFrame (map Z.of_nat n)
    [("date", mkSeries datetime64
                (repeat (VTime (Calendar.timestamp 2022 6 15 10)) 100
                 ++ repeat (VTime (Calendar.timestamp 2023 3 1 14)) 150));
     ("primary_type", mkSeries object (repeat (VStr "THEFT") 250));
     ("latitude", mkSeries float64
                (map (fun i => VFloat (float_of_Z (Z.of_nat i))) n));
     ("longitude", mkSeries float64
                (repeat (VFloat (float_of_Z (-87))) 250))].

Definition trend_cleaned : world :=
  after (load_data (Some sample_path) ;; clean_data)
        (fresh_world (one_file sample_path trend_raw)).

Definition trend_enriched : world := after engineer_features trend_cleaned.

(** The cleaned sample table, and a world that has loaded it as its raw
    table. *)
Definition sample_clean_table : DataFrame :=
  Eval vm_compute in deref (heap sample_cleaned) 3%nat.

Definition reloaded_world : world :=
  after (load_data (Some sample_path))
        (fresh_world (one_file sample_path sample_clean_table)).

From Stdlib Require Import Permutation.

(* ================================================================== *)
(** * Rows read by column name *)
(* ================================================================== *)

(** A column's name with its dtype: an entry of a table's header. *)
Definition typed (c : string * Series) : string * np_dtype :=
  (fst c, dtype (snd c)).

(** The cell a row has under the column called [name]. *)
Fixpoint row_get (name : string) (names : list string) (row : list cell)
  : cell :=
  match names, row with
  | n :: names', c :: row' =>
      if String.eqb n name then c else row_get name names' row'
  | _, _ => NaN
  end.

(* ================================================================== *)
(** * The enriched frame, column by column *)
(* ================================================================== *)

(** The frame [engineer_features] builds from the frame [d] with date
    column [date]: [tod] and [sea] are what the two [apply] calls
    return. *)
Definition features (d : DataFrame) (date tod sea : Series) : DataFrame :=
  let d := setitem d "year" (dt_int_field Calendar.year date) in
  let d := setitem d "month" (dt_int_field Calendar.month date) in
  let d := setitem d "month_name"
                   (dt_name_field Calendar.month_name date) in
  let d := setitem d "day" (dt_int_field Calendar.day date) in
  let d := setitem d "day_of_week"
                   (dt_int_field Calendar.dayofweek date) in
  let d := setitem d "day_name" (dt_name_field Calendar.day_name date) in
  let d := setitem d "hour" (dt_int_field Calendar.hour date) in
  let d := setitem d "is_weekend"
                   (isin (dt_int_field Calendar.dayofweek date)
                         [VInt 5; VInt 6]) in
  let d := setitem d "time_of_day" tod in
  let d := setitem d "season" sea in
  match lookup "primary_type" (columns d) with
  | Some s => setitem d "is_violent" (isin s (map VStr violent_crimes))
  | None => d
  end.

(** A weekend flag beside its day name: the flag is a boolean, true
    exactly on Saturday and Sunday. *)
Definition weekend_day (flag name : cell) : Prop :=
  exists b, flag = VBool b
            /\ (b = true <-> name = VStr "Saturday" \/ name = VStr "Sunday").

(* ================================================================== *)
(** * Counting the values of a column *)
(* ================================================================== *)

(** A text or an integer: the cells [==] tells apart exactly. *)
Definition exact (c : cell) : bool :=
  match c with
  | VStr _ | VInt _ => true
  | _ => false
  end.

(** The number of cells of [vs] that are not missing and equal to [k]. *)
Definition occurrences (k : cell) (vs : list cell) : Z :=
  Z.of_nat (length (filter (fun c => notnull c && cell_eqb k c) vs)).

(** The count a table of counts holds for [k]. *)
Fixpoint counted (k : cell) (acc : list (cell * Z)) : Z :=
  match acc with
  | [] => 0
  | (k', n) :: rest => (if cell_eqb k' k then n else 0) + counted k rest
  end.

(** Counts in non-increasing order. *)
Definition descending (ser : list (cell * Z)) : Prop :=
  StronglySorted (fun a b => snd b <= snd a) ser.

(* ================================================================== *)
(** * What the analyzers compute, as functions of the frame *)
(* ================================================================== *)

(** The dictionary of [explore_data] for the raw frame [d]. *)
Definition exploration_frame (d : DataFrame) : result exploration :=
  date <~ getitem d "date" ;;
  Ok (mkExploration
        (len d)
        (Z.of_nat (length (columns d)))
        (series_min date, series_max date)
        (count_missing d)
        (count_true (duplicated d))).

(** The dictionary of [analyze_trends] for the current frame [d]. *)
Definition trends_frame (d : DataFrame) : result trends :=
  yearly <~ groupby_size d "year" ;;
  by_month <~ groupby2_size d "year" "month" ;;
  dow_crimes <~ groupby_size d "day_name" ;;
  hourly <~ groupby_size d "hour" ;;
  peak <~ idxmax hourly ;;
  Ok (mkTrends yearly (times_100 (pct_change yearly))
               (mean_by_second by_month) peak).

(** The rows of [analyze_crime_types] for the current frame [d]. *)
Definition crime_types_frame (d : DataFrame)
  : result (list (cell * Z * PrimFloat.float)) :=
  s <~ getitem d "primary_type" ;;
  Ok (map (fun e => (fst e, snd e, round2 (np_pct (PInt (snd e)) (len d))))
          (value_counts s)).

(** The dictionary of [analyze_geographic] for the current frame [d]. *)
Definition geographic_frame (d : DataFrame) : geographic :=
  mkGeographic (counts_if_present d "district")
               (counts_if_present d "location_description").

(** One optional percentage of [calculate_kpis]. *)
Definition kpi_percentage_frame (d : DataFrame) (name key : string)
  (kpis : list (string * kpi_value)) : result (list (string * kpi_value)) :=
  if has_column name d
  then s <~ getitem d name ;;
       x <~ percentage s (len d) ;;
       Ok (kpis ++ [(key, KFloat x)])
  else Ok kpis.

(** The dictionary of [calculate_kpis] for the current frame [d]. *)
Definition kpis_frame (d : DataFrame) : result (list (string * kpi_value)) :=
  let kpis := [("total_crimes", KInt (len d))] in
  kpis <~ kpi_percentage_frame d "arrest" "arrest_rate" kpis ;;
  kpis <~ kpi_percentage_frame d "domestic" "domestic_pct" kpis ;;
  kpis <~ kpi_percentage_frame d "is_violent" "violent_pct" kpis ;;
  date <~ getitem d "date" ;;
  date_range_days <~ span_days (series_max date) (series_min date) ;;
  avg <~ py_div (len d) date_range_days ;;
  Ok (kpis ++ [("avg_crimes_per_day", KFloat avg)]).

(** The guard of the four analyzers. *)
Definition not_prepared : exn :=
  ValueError "Data not prepared. Call clean_data() first.".

(* ================================================================== *)
(** * The report, the export and [main] *)
(* ================================================================== *)

(** [kpis.get(key, 0)]. *)
Definition kpis_get (key : string) (kpis : list (string * kpi_value))
  : kpi_value :=
  match find (fun e => String.eqb (fst e) key) kpis with
  | Some e => snd e
  | None => KInt 0
  end.

(** The values [generate_summary_report] formats into its lines; the
    fixed lines (titles and rules) are not modelled.  A number formatted
    with two decimals is kept as the number. *)
Record report : Type := mkReport {
  generated : string;
  report_total_records : Z;
  report_date_range : cell * cell;
  unique_crime_types : Z;
  report_arrest_rate : kpi_value;
  report_domestic_pct : kpi_value;
  report_violent_pct : kpi_value;
  (** one line per crime type: the type, its count and
      [count / len(self.clean_df) * 100] *)
  top_crimes : list (cell * Z * PrimFloat.float)
}.

(** [generate_summary_report(self)]; [now] is what
    [datetime.now().strftime('%Y-%m-%d %H:%M:%S')] answers.
    [self.clean_df] is read again at every use: [r] stands for it
    throughout, since [calculate_kpis] assigns nothing. *)
Definition generate_summary_report (now : string) : M report :=
  me <- get_self ;;
  match clean_df me with
  | None => raise (ValueError "Data not prepared. Call clean_data() first.")
  | Some r =>
      (* Dataset overview *)
      d <- load r ;;
      let total := len d in
      date <- lift (getitem d "date") ;;
      let lo := series_min date in
      let hi := series_max date in
      types <- lift (getitem d "primary_type") ;;
      let nunique := Z.of_nat (length (value_counts types)) in
      (* KPIs *)
      kpis <- calculate_kpis ;;
      (* Top crime types *)
      d <- load r ;;
      types <- lift (getitem d "primary_type") ;;
      let top := firstn 5 (value_counts types) in
      ret (mkReport now total (lo, hi) nunique
             (kpis_get "arrest_rate" kpis)
             (kpis_get "domestic_pct" kpis)
             (kpis_get "violent_pct" kpis)
             (map (fun e => (fst e, snd e, np_pct (PInt (snd e)) (len d)))
                  top))
  end.

(** The lines [export_clean_data] and [main] print that carry data, in
    their order. *)
Inductive notice : Type :=
| Exported (path : string)
| Records (n : Z)
| Columns (n : Z)
| Export_error (e : exn)
| Could_not_load (e : exn)
| Summary (r : report)
| Could_not_export (e : exn)
| Analysis_complete.

(** A run of the script: the analyzer's world, and the side of the file
    system that is written. *)
Record session : Type := mkSession {
  world_of : world;
  (** what [df.to_csv(path, index=False)] does for each path and frame:
      it returns or raises *)
  to_csv : string -> DataFrame -> result unit;
  (** the files written, oldest first *)
  written : list (string * DataFrame);
  console : list notice
}.

Definition Script (A : Type) : Type := session -> result A * session.

Definition sret {A} (a : A) : Script A := fun s => (Ok a, s).

Definition sbind {A B} (m : Script A) (k : A -> Script B) : Script B :=
  fun s =>
    match m s with
    | (Ok a, s') => k a s'
    | (Raise e, s') => (Raise e, s')
    end.

(** A method of the analyzer, run in the session. *)
Definition method {A} (m : M A) : Script A :=
  fun s =>
    let (r, w) := m (world_of s) in
    (r, mkSession w (to_csv s) (written s) (console s)).

Definition say (n : notice) : Script unit :=
  fun s =>
    (Ok tt, mkSession (world_of s) (to_csv s) (written s) (console s ++ [n])).

(** [try: m  except Exception as e: h e]. *)
Definition stry {A} (m : Script A) (h : exn -> Script A) : Script A :=
  fun s =>
    match m s with
    | (Ok a, s') => (Ok a, s')
    | (Raise e, s') => h e s'
    end.

(** [df.to_csv(path, index=False)] on the frame behind [r]. *)
Definition write_csv (r : ref) (path : string) : Script unit :=
  fun s =>
    let d := deref (heap (world_of s)) r in
    match to_csv s path d with
    | Ok _ =>
        (Ok tt,
         mkSession (world_of s) (to_csv s) (written s ++ [(path, d)])
                   (console s))
    | Raise e => (Raise e, s)
    end.

(** [export_clean_data(self, output_path)]. *)
Definition export_clean_data (output_path : string) : Script unit :=
  sbind (method get_self) (fun me =>
  match clean_df me with
  | None =>
      fun s =>
        (Raise (ValueError
                  "No cleaned data to export. Call clean_data() first."), s)
  | Some r =>
      stry
        (sbind (write_csv r output_path) (fun _ =>
         sbind (say (Exported output_path)) (fun _ =>
         sbind (method (load r)) (fun d =>
         sbind (say (Records (len d))) (fun _ =>
         say (Columns (Z.of_nat (length (columns d)))))))))
        (fun e => sbind (say (Export_error e)) (fun _ s => (Raise e, s)))
  end).

Definition raw_path : string := "data/raw/crimes.csv".
Definition processed_path : string := "data/processed/crimes_clean.csv".

(** The stages [main] runs between the load and the export. *)
Definition analysis (now : string) : M report :=
  explore_data ;;
  clean_data ;;
  engineer_features ;;
  analyze_trends ;;
  analyze_crime_types ;;
  analyze_geographic ;;
  calculate_kpis ;;
  generate_summary_report now.

(** The body of [main()] after [analyzer = CrimeDataAnalyzer()]; the
    early [return] after a failed load is the [else] branch. *)
Definition main_body (now : string) : Script unit :=
  sbind
    (stry (sbind (method (load_data (Some raw_path))) (fun _ => sret true))
          (fun e => sbind (say (Could_not_load e)) (fun _ => sret false)))
    (fun loaded =>
       if loaded
       then
         sbind (method (analysis now)) (fun rep =>
         sbind (say (Summary rep)) (fun _ =>
         sbind (stry (export_clean_data processed_path)
                     (fun e => say (Could_not_export e))) (fun _ =>
         say Analysis_complete)))
       else sret tt).

(** [main()] in a file system that answers reads by [fs] and writes by
    [csv]. *)
Definition main (fs : string -> result DataFrame)
  (csv : string -> DataFrame -> result unit) (now : string)
  : result unit * session :=
  main_body now (mkSession (fresh_world fs) csv [] []).

(** The report of [generate_summary_report] for the current frame [d]. *)
Definition report_frame (now : string) (d : DataFrame) : result report :=
  date <~ getitem d "date" ;;
  types <~ getitem d "primary_type" ;;
  kpis <~ kpis_frame d ;;
  Ok (mkReport now (len d) (series_min date, series_max date)
        (Z.of_nat (length (value_counts types)))
        (kpis_get "arrest_rate" kpis)
        (kpis_get "domestic_pct" kpis)
        (kpis_get "violent_pct" kpis)
        (map (fun e => (fst e, snd e, np_pct (PInt (snd e)) (len d)))
             (firstn 5 (value_counts types)))).

(** The guard of [export_clean_data]. *)
Definition no_clean_data : exn :=
  ValueError "No cleaned data to export. Call clean_data() first.".

(** Three records whose descriptions are numeric codes, one of them
    missing. *)
Definition coded_raw : DataFrame :=
  mkDataFrame [0; 1; 2]
    [("date", mkSeries datetime64
                [VTime (Calendar.timestamp 2024 1 1 5);
                 VTime (Calendar.timestamp 2024 1 2 6);
                 VTime (Calendar.timestamp 2024 1 3 18)]);
     ("primary_type", mkSeries object
                [VStr "THEFT"; VStr "BATTERY"; VStr "THEFT"]);
     ("latitude", mkSeries float64
                [VFloat (float_of_Z 41); VFloat (float_of_Z 42);
                 VFloat (float_of_Z 43)]);
     ("longitude", mkSeries float64
                [VFloat (float_of_Z (-87)); VFloat (float_of_Z (-88));
                 VFloat (float_of_Z (-89))]);
     ("description", mkSeries float64
                [VFloat (float_of_Z 486); NaN; VFloat (float_of_Z 820)])].

Definition coded_loaded : world :=
  after (load_data (Some sample_path))
        (fresh_world (one_file sample_path coded_raw)).

(** The table [clean_data] builds from [coded_raw], and a world that has
    loaded that table as its raw table. *)
Definition coded_clean_table : DataFrame :=
  Eval vm_compute in deref (heap (after clean_data coded_loaded)) 3%nat.

Definition coded_reloaded : world :=
  after (load_data (Some sample_path))
        (fresh_world (one_file sample_path coded_clean_table)).

(** The timestamps of a column, the missing dates left out. *)
Fixpoint stamps_of (cs : list cell) : list Z :=
  match cs with
  | [] => []
  | VTime t :: cs' => t :: stamps_of cs'
  | _ :: cs' => stamps_of cs'
  end.

(** A data file whose only record has no latitude: cleaning drops the
    record, and the analyzers are left with a table without records. *)
Definition unlocated_raw : DataFrame :=
  mkDataFrame [0]
    [("date", mkSeries datetime64 [VTime (Calendar.timestamp 2024 1 1 5)]);
     ("primary_type", mkSeries object [VStr "THEFT"]);
     ("latitude", mkSeries float64 [NaN]);
     ("longitude", mkSeries float64 [VFloat (float_of_Z (-87))]);
     ("arrest", mkSeries bool_ [VBool true])].

Definition empty_enriched : world :=
  after (load_data (Some sample_path) ;; clean_data ;; engineer_features)
        (fresh_world (one_file sample_path unlocated_raw)).

(** ** Text as the cleaner leaves it *)

(** A lower-case ASCII letter. *)
Definition is_lower (c : ascii) : bool :=
  let n := nat_of_ascii c in ((97 <=? n) && (n <=? 122))%nat.

(** The first character, if any, is not whitespace. *)
Definition starts_clean (l : list ascii) : Prop :=
  match l with
  | [] => True
  | c :: _ => is_space c = false
  end.

(** No whitespace at either end and no lower-case ASCII letter. *)
Definition standard_text (x : string) : Prop :=
  starts_clean (list_ascii_of_string x)
  /\ starts_clean (rev (list_ascii_of_string x))
  /\ Forall (fun c => is_lower c = false) (list_ascii_of_string x).


(** ** The two-level index of [groupby(['year', 'month'])] *)

(** The order of the (year, month) keys: by year, then by month. *)
Definition year_month_compare (a b : Z * Z) : comparison :=
  match fst a ?= fst b with
  | Eq => snd a ?= snd b
  | c => c
  end.

(** The number of records of year [y] and month [m]. *)
Definition records_in (stamps : list Z) (y m : Z) : Z :=
  Z.of_nat (length (filter (fun t => (Calendar.year t =? y)
                                     && (Calendar.month t =? m))
                           stamps)).

(** The timestamps of [trend_raw]. *)
Definition trend_stamps : list Z :=
  repeat (Calendar.timestamp 2022 6 15 10) 100
  ++ repeat (Calendar.timestamp 2023 3 1 14) 150.

(** The keys of the two-level index as the frame holds them. *)
Definition year_month_entry (e : Z * Z * Z) : cell * cell * Z :=
  (VInt (fst (fst e)), VInt (snd (fst e)), snd e).

(** The date column of [sample_raw]: parsed, with one missing date. *)
Definition sample_dates : Series :=
  mkSeries datetime64
    [VTime (Calendar.timestamp 2024 1 1 5);
     VTime (Calendar.timestamp 2024 1 2 6);
     VTime (Calendar.timestamp 2024 1 2 6);
     NaT;
     VTime (Calendar.timestamp 2024 1 3 18)].

(** ** ASCII text *)

(** A character of the ASCII range. *)
Definition is_ascii (c : ascii) : bool := (nat_of_ascii c <? 128)%nat.

(** Text made of ASCII characters only.  On such text [strip] and
    [upper] are Python's [str.strip] and [str.upper]: the whitespace of
    the range is what [is_space] lists and its only cased letters are
    the 26 of [upper_char]. *)
Definition ascii_text (x : string) : Prop :=
  Forall (fun c => is_ascii c = true) (list_ascii_of_string x).

(** Every text cell of the table is ASCII text. *)
Definition ascii_table (d : DataFrame) : Prop :=
  forall name s x,
    In (name, s) (columns d) -> In (VStr x) (values s) -> ascii_text x.

(** ** Tables that [clean_data] cleans *)



(* ================================================================== *)
(** * Lemmas *)
(* ================================================================== *)

(** * The store *)
Section Store.
Context {A : Type}.
Implicit Types (l : list A) (n m : nat) (x y d : A).

Lemma update_length n x l : length (update n x l) = length l.
Proof.
  revert n; induction l as [|a l IH]; intros [|n]; simpl; auto.
Qed.

Lemma nth_update_same n x l d :
  (n < length l)%nat -> nth n (update n x l) d = x.
Proof.
  revert n; induction l as [|a l IH]; intros [|n] H; simpl in *;
    try lia; auto.
  apply IH; lia.
Qed.

Lemma nth_update_other n m x l d :
  n <> m -> nth m (update n x l) d = nth m l d.
Proof.
  revert n m; induction l as [|a l IH]; intros [|n] [|m] H; simpl;
    auto; try congruence.
Qed.

Lemma update_update n x y l : update n y (update n x l) = update n y l.
Proof.
  revert n; induction l as [|a l IH]; intros [|n]; simpl; auto.
  now rewrite IH.
Qed.

Lemma update_nth n l d : update n (nth n l d) l = l.
Proof.
  revert n; induction l as [|a l IH]; intros [|n]; simpl; auto.
  now rewrite IH.
Qed.

Lemma update_app n x l l' :
  (n < length l)%nat -> update n x (l ++ l') = update n x l ++ l'.
Proof.
  revert n; induction l as [|a l IH]; intros [|n] H; simpl in *;
    try lia; auto.
  rewrite IH; auto; lia.
Qed.

Lemma update_last x y l : update (length l) y (l ++ [x]) = l ++ [y].
Proof. induction l as [|a l IH]; simpl; auto. now rewrite IH. Qed.
End Store.

Lemma deref_app_old h ext r :
  (r < length h)%nat -> deref (h ++ ext) r = deref h r.
Proof. intros H; unfold deref; now rewrite app_nth1. Qed.

Lemma deref_app_new h d : deref (h ++ [d]) (length h) = d.
Proof. unfold deref; rewrite app_nth2, Nat.sub_diag; auto. Qed.

Lemma deref_app_third h a b c :
  deref (h ++ [a; b; c]) (length h + 2)%nat = c.
Proof.
  unfold deref. rewrite app_nth2 by lia.
  replace (length h + 2 - length h)%nat with 2%nat by lia. reflexivity.
Qed.

Lemma deref_update h r d : (r < length h)%nat -> deref (update r d h) r = d.
Proof. intros; unfold deref; now apply nth_update_same. Qed.

Lemma set_heap_same w : set_heap (heap w) w = w.
Proof. now destruct w. Qed.

Lemma set_heap_set_heap h h' w : set_heap h' (set_heap h w) = set_heap h' w.
Proof. reflexivity. Qed.

Lemma heap_set_heap h w : heap (set_heap h w) = h.
Proof. reflexivity. Qed.

(** * Running the monad *)

Lemma run_bind {A B} (m : M A) (k : A -> M B) w :
  run (bind m k) w =
  match run m w with
  | (Ok a, w') => run (k a) w'
  | (Raise e, w') => (Raise e, w')
  end.
Proof. reflexivity. Qed.

Lemma run_ok_bind {A B} (m : M A) (k : A -> M B) w a w' :
  run m w = (Ok a, w') -> run (bind m k) w = run (k a) w'.
Proof. intros H; rewrite run_bind, H; reflexivity. Qed.

Lemma run_raise_bind {A B} (m : M A) (k : A -> M B) w e w' :
  run m w = (Raise e, w') -> run (bind m k) w = (Raise e, w').
Proof. intros H; rewrite run_bind, H; reflexivity. Qed.

Lemma acts_ret r : acts_as r (ret tt) (fun d => Ok d).
Proof.
  intros w Hr; cbn. unfold deref; now rewrite update_nth, set_heap_same.
Qed.

Lemma acts_on_frame r f : acts_as r (on_frame r f) f.
Proof.
  intros w Hr. unfold run, on_frame.
  destruct (f (deref (heap w) r)) as [d'|e]; auto.
  exists (deref (heap w) r). unfold deref; now rewrite update_nth, set_heap_same.
Qed.

Lemma acts_assign r name rhs :
  acts_as r (assign r name rhs) (assign_frame name rhs).
Proof. apply acts_on_frame. Qed.

Lemma acts_seq r m1 m2 f g :
  acts_as r m1 f -> acts_as r m2 g ->
  acts_as r (m1 ;; m2) (fun d => d' <~ f d ;; g d').
Proof.
  intros H1 H2 w Hr. specialize (H1 w Hr).
  destruct (f (deref (heap w) r)) as [d1|e] eqn:Ef; simpl.
  - rewrite (run_ok_bind _ _ _ _ _ H1).
    assert (Hr' : (r < length (heap (set_heap (update r d1 (heap w)) w)))%nat)
      by (simpl; now rewrite update_length).
    specialize (H2 _ Hr'). simpl in H2.
    rewrite deref_update in H2 by auto.
    destruct (g d1) as [d2|e].
    + rewrite H2, update_update. reflexivity.
    + destruct H2 as [d' H2]. exists d'. rewrite H2, update_update. reflexivity.
  - destruct H1 as [d' H1]. exists d'.
    now rewrite (run_raise_bind _ _ _ _ _ H1).
Qed.

Lemma run_load_bind {B} r (k : DataFrame -> M B) w :
  run (d <- load r ;; k d) w = run (k (deref (heap w) r)) w.
Proof. reflexivity. Qed.

Lemma acts_when r name m f :
  acts_as r m f ->
  acts_as r (when_column r name m) (when_column_frame name f).
Proof.
  intros H w Hr. unfold when_column, when_column_frame.
  rewrite run_load_bind.
  destruct (has_column name (deref (heap w) r)).
  - apply H; auto.
  - apply acts_ret; auto.
Qed.

Lemma acts_for_each {A} r (l : list A) body fb :
  (forall x, acts_as r (body x) (fb x)) ->
  acts_as r (for_each l body) (for_each_frame l fb).
Proof.
  intros H; induction l as [|x l IH]; simpl.
  - apply acts_ret.
  - apply acts_seq; auto.
Qed.

Lemma acts_standardize r col :
  acts_as r (standardize r col) (standardize_frame col).
Proof.
  unfold standardize, standardize_frame.
  destruct (existsb _ _); [apply acts_ret | apply acts_assign].
Qed.


Lemma acts_fill_and_standardize r :
  acts_as r (fill_and_standardize r) clean_in_place.
Proof.
  unfold clean_in_place, fill_and_standardize.
  repeat (apply acts_seq; [apply acts_when, acts_assign|]).
  intros w Hr. rewrite run_load_bind.
  apply acts_for_each; auto. apply acts_standardize.
Qed.

Lemma acts_derive_features r :
  acts_as r (derive_features r) engineer_frame.
Proof.
  unfold engineer_frame, derive_features.
  repeat (apply acts_seq; [apply acts_assign|]).
  apply acts_when, acts_assign.
Qed.

Lemma length_app3 {A} (h : list A) a b c :
  (length h + 2 < length (h ++ [a; b; c]))%nat.
Proof. rewrite length_app; simpl; lia. Qed.

Lemma run_clean_data w raw :
  df (self w) = Some raw ->
  let d0 := deref (heap w) raw in
  let d1 := drop_duplicates d0 in
  let r := (length (heap w) + 2)%nat in
  match clean_frame d0 with
  | Ok d' =>
      run clean_data w =
      (Ok r,
       mkWorld (mkAnalyzer (data_path (self w)) (Some raw) (Some r))
               (heap w ++ [d0; d1; d'])
               (files w) (reads w)
               (stdout w ++
                  [Removed_duplicates (len d0 - len d1);
                   Removed_missing_critical (missing_critical_count d1);
                   Standardized_text;
                   Clean_records (len d')]))
  | Raise e =>
      exists ext out,
        run clean_data w =
        (Raise e,
         mkWorld (self w) (heap w ++ ext) (files w) (reads w)
                 (stdout w ++ out))
  end.
Proof.
  destruct w as [me h fs rd out]; simpl. intros Hdf.
  unfold clean_data, clean_frame, missing_critical_count.
  cbv beta iota delta [run bind get_self self].
  rewrite Hdf.
  cbv beta iota delta [load new lift print ret raise set_heap self heap files reads stdout].
  rewrite !deref_app_new.
  set (d0 := deref h raw). set (d1 := drop_duplicates d0).
  unfold dropna.
  destruct (select d1 critical_fields) as [sub|e]; simpl rbind; cbv beta iota.
  2:{ exists [d0; d1], [Removed_duplicates (len d0 - len d1)].
      rewrite <- !app_assoc. reflexivity. }
  set (d2 := take_rows _ d1).
  match goal with
  | |- context [fill_and_standardize ?r ?w] => set (w3 := w)
  end.
  assert (Hr : (length ((h ++ [d0]) ++ [d1]) < length (heap w3))%nat).
  { simpl. rewrite !length_app. simpl. lia. }
  pose proof (acts_fill_and_standardize _ w3 Hr) as H.
  simpl heap in H. rewrite deref_app_new in H.
  destruct (clean_in_place d2) as [d'|e].
  - unfold run in H. rewrite H. unfold set_clean_df. simpl.
    rewrite update_last, deref_app_new.
    rewrite !length_app; simpl length. 
    replace (length h + 1 + 1)%nat with (length h + 2)%nat by lia.
    rewrite <- !app_assoc, Hdf. reflexivity.
  - destruct H as [d'' H]. unfold run in H. rewrite H. simpl.
    rewrite update_last.
    exists [d0; d1; d''], [Removed_duplicates (len d0 - len d1); Removed_missing_critical (count_true (isnull_any sub))].
    subst w3. unfold set_heap. simpl. rewrite <- !app_assoc. reflexivity.
Qed.

Lemma run_engineer_features w c :
  clean_df (self w) = Some c ->
  let d0 := deref (heap w) c in
  let r := length (heap w) in
  match engineer_frame d0 with
  | Ok d' =>
      run engineer_features w =
      (Ok r,
       mkWorld (mkAnalyzer (data_path (self w)) (df (self w)) (Some r))
               (heap w ++ [d'])
               (files w) (reads w) (stdout w))
  | Raise e =>
      exists d'',
        run engineer_features w =
        (Raise e,
         mkWorld (self w) (heap w ++ [d'']) (files w) (reads w) (stdout w))
  end.
Proof.
  destruct w as [me h fs rd out]; simpl. intros Hc.
  unfold engineer_features.
  cbv beta iota delta [run bind get_self self].
  rewrite Hc.
  cbv beta iota delta [load new ret raise set_heap self heap files reads stdout].
  set (d0 := deref h c).
  match goal with
  | |- context [derive_features ?r ?w] => set (w1 := w)
  end.
  assert (Hr : (length h < length (heap w1))%nat).
  { simpl. rewrite length_app. simpl. lia. }
  pose proof (acts_derive_features _ w1 Hr) as H.
  simpl heap in H. rewrite deref_app_new in H.
  destruct (engineer_frame d0) as [d'|e].
  - unfold run in H. rewrite H. unfold set_clean_df. simpl.
    rewrite update_last. reflexivity.
  - destruct H as [d'' H]. unfold run in H. rewrite H. simpl.
    rewrite update_last. exists d''. reflexivity.
Qed.

(** * Columns of a frame *)

Lemma lookup_set_column_same name s cols :
  lookup name (set_column name s cols) = Some s.
Proof.
  induction cols as [|[n c] cols IH]; simpl.
  - now rewrite String.eqb_refl.
  - destruct (String.eqb n name) eqn:E; simpl; now rewrite E.
Qed.

Lemma lookup_set_column_other name name' s cols :
  String.eqb name' name = false ->
  lookup name (set_column name' s cols) = lookup name cols.
Proof.
  intros Hne. induction cols as [|[n c] cols IH]; simpl.
  - now rewrite Hne.
  - destruct (String.eqb n name') eqn:E; simpl.
    + apply String.eqb_eq in E; subst n. now rewrite Hne.
    + now rewrite IH.
Qed.

Lemma getitem_setitem_same d name s :
  getitem (setitem d name s) name = Ok s.
Proof. unfold getitem, setitem; simpl. now rewrite lookup_set_column_same. Qed.

Lemma getitem_setitem_other d name name' s :
  String.eqb name' name = false ->
  getitem (setitem d name' s) name = getitem d name.
Proof.
  intros H; unfold getitem, setitem; simpl.
  now rewrite lookup_set_column_other.
Qed.

Lemma has_column_lookup name d :
  has_column name d = true <-> exists s, lookup name (columns d) = Some s.
Proof.
  unfold has_column, column_names.
  induction (columns d) as [|[n c] cols IH]; simpl.
  - split; [discriminate | intros [s H]; discriminate].
  - rewrite (String.eqb_sym name n).
    destruct (String.eqb n name); simpl.
    + split; eauto.
    + exact IH.
Qed.

Lemma has_column_setitem_other d name name' s :
  String.eqb name' name = false ->
  has_column name (setitem d name' s) = has_column name d.
Proof.
  intros H. apply eq_true_iff_eq. rewrite !has_column_lookup.
  unfold setitem; simpl. now rewrite lookup_set_column_other.
Qed.

Lemma index_setitem d name s : index (setitem d name s) = index d.
Proof. reflexivity. Qed.

(** Inversion of a successful [assign_frame]. *)
Lemma assign_frame_ok name rhs d d' :
  assign_frame name rhs d = Ok d' ->
  exists s, rhs d = Ok s /\ d' = setitem d name s.
Proof.
  unfold assign_frame. destruct (rhs d) as [s|e]; simpl; [|discriminate].
  intros H; injection H as <-. eauto.
Qed.

Lemma rbind_ok {A B} (r : result A) (k : A -> result B) b :
  rbind r k = Ok b -> exists a, r = Ok a /\ k a = Ok b.
Proof. destruct r; simpl; [eauto | discriminate]. Qed.

Ltac invert_assign H :=
  let s := fresh "s" in
  let Hs := fresh "Hs" in
  let d := fresh "d" in
  let Hd := fresh "Hd" in
  apply rbind_ok in H; destruct H as (d & Hd & H);
  apply assign_frame_ok in Hd; destruct Hd as (s & Hs & ->).

Lemma date_dt_ok d s :
  date_dt d = Ok s -> getitem d "date" = Ok s /\ dtype s = datetime64.
Proof.
  unfold date_dt. intros H.
  apply rbind_ok in H; destruct H as (s' & Hg & H).
  unfold dt_accessor in H. destruct (dtype s') eqn:E; simpl in H; try discriminate.
  injection H as <-. auto.
Qed.

Lemma lookup_getitem d name :
  getitem d name = match lookup name (columns d) with
                   | Some s => Ok s
                   | None => Raise (KeyError name)
                   end.
Proof. reflexivity. Qed.

Lemma getitem_ok_lookup d name s :
  getitem d name = Ok s <-> lookup name (columns d) = Some s.
Proof.
  unfold getitem. destruct (lookup name (columns d)); split; congruence.
Qed.

Ltac settle_columns :=
  repeat first
    [ rewrite getitem_setitem_same
    | rewrite getitem_setitem_other by reflexivity
    | rewrite has_column_setitem_other by reflexivity ].

Ltac settle_columns_in H :=
  repeat first
    [ rewrite getitem_setitem_same in H
    | rewrite getitem_setitem_other in H by reflexivity
    | rewrite has_column_setitem_other in H by reflexivity ].

Lemma existsb_derived_false name :
  existsb (String.eqb name) derived_columns = false ->
  forall n, In n derived_columns -> String.eqb n name = false.
Proof.
  intros H n Hn. rewrite String.eqb_sym.
  destruct (String.eqb name n) eqn:E; auto.
  assert (existsb (String.eqb name) derived_columns = true).
  { apply existsb_exists. eauto. }
  congruence.
Qed.

Lemma column_names_set_column name s cols :
  map fst (set_column name s cols) =
  if existsb (String.eqb name) (map fst cols) then map fst cols
  else map fst cols ++ [name].
Proof.
  induction cols as [|[n c] cols IH]; simpl; auto.
  rewrite (String.eqb_sym name n).
  destruct (String.eqb n name); simpl; auto.
  rewrite IH. destruct (existsb _ _); reflexivity.
Qed.

(** The columns of [d] are those of [base], in their order, followed by
    derived columns. *)
Definition grows (base : list string) (d : DataFrame) : Prop :=
  exists added,
    column_names d = base ++ added /\ incl added derived_columns.

Lemma grows_refl d : grows (column_names d) d.
Proof. exists []. rewrite app_nil_r. split; auto. intros x []. Qed.

Lemma grows_setitem base d name s :
  In name derived_columns -> grows base d -> grows base (setitem d name s).
Proof.
  intros Hn (added & Hc & Hi). unfold grows, column_names, setitem; simpl.
  rewrite column_names_set_column. fold (column_names d). rewrite Hc.
  destruct (existsb _ _).
  - exists added; auto.
  - exists (added ++ [name]). rewrite app_assoc. split; auto.
    intros x Hx. apply in_app_or in Hx. destruct Hx as [Hx|[<-|[]]]; auto.
Qed.

Lemma engineer_frame_enriched d d' :
  engineer_frame d = Ok d' -> exists date, enriched d date d'.
Proof.
  unfold engineer_frame. intros H.
  do 10 invert_assign H.
  unfold dt_int, dt_name, weekend, time_of_day, season in *.
  repeat match goal with
  | H : rbind (date_dt _) _ = Ok _ |- _ =>
      let s := fresh "sd" in let H1 := fresh "Hd" in
      apply rbind_ok in H; destruct H as (s & H1 & H);
      apply date_dt_ok in H1; destruct H1 as [H1 ?]; injection H as <-;
      settle_columns_in H1
  end.
  repeat match goal with
  | H1 : getitem d "date" = Ok ?a, H2 : getitem d "date" = Ok ?b |- _ =>
      rewrite H1 in H2; injection H2 as <-
  end.
  repeat match goal with
  | H : rbind (getitem _ _) _ = Ok _ |- _ =>
      settle_columns_in H; simpl rbind in H
  end.
  injection Hs6 as <-.
  unfold when_column_frame in H. settle_columns_in H.
  exists sd5.
  assert (Hpt : has_column "primary_type" d = true <->
                exists s, lookup "primary_type" (columns d) = Some s)
    by apply has_column_lookup.
  destruct (lookup "primary_type" (columns d)) as [pt|] eqn:Ept.
  - replace (has_column "primary_type" d) with true in H
      by (symmetry; apply Hpt; eauto).
    apply assign_frame_ok in H. destruct H as (s & Hv & ->).
    unfold violent in Hv. settle_columns_in Hv.
    rewrite lookup_getitem, Ept in Hv. simpl in Hv. injection Hv as <-.
    split; auto; settle_columns; eauto.
    + rewrite Ept. reflexivity.
    + intros name Hn. pose proof (existsb_derived_false _ Hn) as Hf.
      unfold setitem; simpl columns.
      repeat (rewrite lookup_set_column_other by (apply Hf; simpl; tauto)).
      reflexivity.
    + repeat (apply grows_setitem; [simpl; tauto|]). apply grows_refl.
  - destruct (has_column "primary_type" d).
    + destruct (proj1 Hpt eq_refl); discriminate.
    + injection H as <-.
      split; auto; settle_columns; eauto.
      * rewrite Ept. unfold setitem; simpl columns.
        repeat (rewrite lookup_set_column_other by reflexivity).
        reflexivity.
      * intros name Hn. pose proof (existsb_derived_false _ Hn) as Hf.
        unfold setitem; simpl columns.
        repeat (rewrite lookup_set_column_other by (apply Hf; simpl; tauto)).
        reflexivity.
      * repeat (apply grows_setitem; [simpl; tauto|]). apply grows_refl.
Qed.

(** * Methods that only read *)

(** A computation that leaves the world as it found it, whatever it
    returns or raises. *)
Definition read_only {A} (m : M A) : Prop := forall w, snd (run m w) = w.

Lemma read_only_ret {A} (a : A) : read_only (ret a).
Proof. intros w; reflexivity. Qed.

Lemma read_only_raise {A} e : read_only (@raise A e).
Proof. intros w; reflexivity. Qed.

Lemma read_only_lift {A} (r : result A) : read_only (lift r).
Proof. intros w; reflexivity. Qed.

Lemma read_only_load r : read_only (load r).
Proof. intros w; reflexivity. Qed.

Lemma read_only_get_self : read_only get_self.
Proof. intros w; reflexivity. Qed.

Lemma read_only_bind {A B} (m : M A) (k : A -> M B) :
  read_only m -> (forall a, read_only (k a)) -> read_only (bind m k).
Proof.
  intros Hm Hk w. rewrite run_bind. specialize (Hm w).
  destruct (run m w) as [[a|e] w1]; simpl in Hm; subst w1.
  - apply Hk.
  - reflexivity.
Qed.

Lemma read_only_kpi_percentage d name key kpis :
  read_only (kpi_percentage d name key kpis).
Proof.
  unfold kpi_percentage. destruct (has_column name d).
  - repeat (apply read_only_bind; [apply read_only_lift | intros]).
    apply read_only_ret.
  - apply read_only_ret.
Qed.

Create HintDb read_only.
#[local] Hint Resolve read_only_ret read_only_raise read_only_lift
  read_only_load read_only_get_self read_only_kpi_percentage : read_only.

Ltac read_only_steps :=
  repeat first
    [ apply read_only_bind; [solve [auto with read_only] | intros]
    | solve [auto with read_only]
    | match goal with
      | |- read_only (match ?x with _ => _ end) => destruct x
      end ].

Lemma read_only_explore_data : read_only explore_data.
Proof. unfold explore_data. read_only_steps. Qed.

Lemma read_only_analyze_trends : read_only analyze_trends.
Proof. unfold analyze_trends. read_only_steps. Qed.

Lemma read_only_analyze_crime_types : read_only analyze_crime_types.
Proof. unfold analyze_crime_types. read_only_steps. Qed.

Lemma read_only_analyze_geographic : read_only analyze_geographic.
Proof. unfold analyze_geographic. read_only_steps. Qed.

Lemma read_only_calculate_kpis : read_only calculate_kpis.
Proof. unfold calculate_kpis. read_only_steps. Qed.

(** A read-only method runs to its result without a trace. *)
Lemma read_only_run {A} (m : M A) w :
  read_only m -> run m w = (fst (run m w), w).
Proof.
  intros H. specialize (H w). destruct (run m w); simpl in *; congruence.
Qed.

(** * What a successful stage leaves behind *)

Lemma clean_data_ok w r w' :
  run clean_data w = (Ok r, w') ->
  exists raw d',
    df (self w) = Some raw
    /\ clean_frame (deref (heap w) raw) = Ok d'
    /\ r = (length (heap w) + 2)%nat
    /\ self w' = mkAnalyzer (data_path (self w)) (Some raw) (Some r)
    /\ heap w' = heap w ++ [deref (heap w) raw;
                            drop_duplicates (deref (heap w) raw); d']
    /\ deref (heap w') r = d'.
Proof.
  intros H. destruct (df (self w)) as [raw|] eqn:Hdf.
  - pose proof (run_clean_data w raw Hdf) as R. cbv zeta in R.
    destruct (clean_frame (deref (heap w) raw)) as [d'|e] eqn:E.
    + rewrite R in H. injection H as <- <-. exists raw, d'.
      repeat split; auto. apply deref_app_third.
    + destruct R as (ext & out & R). rewrite R in H. discriminate.
  - unfold clean_data, run, bind, get_self in H. rewrite Hdf in H.
    discriminate.
Qed.

Lemma engineer_features_ok w r w' :
  run engineer_features w = (Ok r, w') ->
  exists c d',
    clean_df (self w) = Some c
    /\ engineer_frame (deref (heap w) c) = Ok d'
    /\ r = length (heap w)
    /\ self w' = mkAnalyzer (data_path (self w)) (df (self w)) (Some r)
    /\ heap w' = heap w ++ [d']
    /\ deref (heap w') r = d'.
Proof.
  intros H. destruct (clean_df (self w)) as [c|] eqn:Hc.
  - pose proof (run_engineer_features w c Hc) as R. cbv zeta in R.
    destruct (engineer_frame (deref (heap w) c)) as [d'|e] eqn:E.
    + rewrite R in H. injection H as <- <-. exists c, d'.
      repeat split; auto. apply deref_app_new.
    + destruct R as (d'' & R). rewrite R in H. discriminate.
  - unfold engineer_features, run, bind, get_self in H. rewrite Hc in H.
    discriminate.
Qed.

(** * The derived categories *)

Lemma categorize_time_int h :
  categorize_time (VInt h) =
  Ok (if (6 <=? h) && (h <? 12) then "Morning"
      else if (12 <=? h) && (h <? 18) then "Afternoon"
      else if (18 <=? h) && (h <? 24) then "Evening"
      else "Night").
Proof.
  unfold categorize_time, int_le_lt, int_le, lt_int; simpl.
  destruct (6 <=? h), (h <? 12), (12 <=? h), (h <? 18), (18 <=? h),
    (h <? 24); reflexivity.
Qed.

Lemma get_season_int m :
  get_season (VInt m) =
  if (12 =? m) || (1 =? m) || (2 =? m) then "Winter"
  else if (3 =? m) || (4 =? m) || (5 =? m) then "Spring"
  else if (6 =? m) || (7 =? m) || (8 =? m) then "Summer"
  else "Fall".
Proof.
  unfold get_season, in_ints; simpl. rewrite !orb_false_r, !orb_assoc.
  reflexivity.
Qed.

(** [categorize_time] answers on every number, and with one of its four
    names. *)
Lemma categorize_time_total c n :
  as_num c = Some n ->
  exists s, categorize_time c = Ok s
            /\ In s ["Morning"; "Afternoon"; "Evening"; "Night"].
Proof.
  intros H. unfold categorize_time, int_le_lt, int_le, lt_int.
  rewrite H; simpl.
  repeat match goal with
  | |- context [if ?b then _ else _] => destruct b; simpl
  end; eexists; split; try reflexivity; simpl; tauto.
Qed.

Lemma map_result_Forall2 {A B} (f : A -> result B) l ys :
  map_result f l = Ok ys -> Forall2 (fun x y => f x = Ok y) l ys.
Proof.
  revert ys; induction l as [|x l IH]; simpl; intros ys H.
  - injection H as <-. constructor.
  - destruct (f x) as [y|] eqn:E; simpl in H; [|discriminate].
    destruct (map_result f l) as [ys'|]; simpl in H; [|discriminate].
    injection H as <-. constructor; auto.
Qed.

Lemma apply_ok f s s' :
  apply f s = Ok s' ->
  Forall2 (fun c t => exists name, f c = Ok name /\ t = VStr name)
          (values s) (values s').
Proof.
  unfold apply. intros H.
  destruct (map_result f (values s)) as [ys|] eqn:E; simpl in H;
    [|discriminate].
  apply map_result_Forall2 in E.
  assert (V : values s' = map VStr ys).
  { destruct ys; injection H as <-; reflexivity. }
  rewrite V. clear H V.
  induction E; simpl; constructor; eauto.
Qed.

(** * The violent flag *)

Lemma cell_eqb_VStr s c : cell_eqb (VStr s) c = true <-> c = VStr s.
Proof.
  destruct c; simpl; try (split; [discriminate | intros H; discriminate H]).
  rewrite String.eqb_eq. split; intros H; [subst | injection H]; auto.
Qed.

Lemma isin_strings_true c names :
  existsb (fun v => cell_eqb v c) (map VStr names) = true
  <-> exists s, c = VStr s /\ In s names.
Proof.
  rewrite existsb_exists. split.
  - intros (v & Hin & Heq). apply in_map_iff in Hin.
    destruct Hin as (s & <- & Hs). apply cell_eqb_VStr in Heq. eauto.
  - intros (s & -> & Hs). exists (VStr s). split.
    + now apply in_map.
    + now apply cell_eqb_VStr.
Qed.

(** * Row counts *)

Lemma length_mask_filter {A} (mask : list bool) (l : list A) :
  (length (mask_filter mask l) <= length l)%nat.
Proof.
  revert l; induction mask as [|b mask IH]; intros [|x l]; simpl; try lia.
  specialize (IH l). destruct b; simpl; lia.
Qed.

Lemma len_take_rows mask d : len (take_rows mask d) <= len d.
Proof.
  unfold len, take_rows; simpl.
  apply Nat2Z.inj_le, length_mask_filter.
Qed.

Lemma assign_frame_index name rhs d d' :
  assign_frame name rhs d = Ok d' -> index d' = index d.
Proof. intros H. apply assign_frame_ok in H. now destruct H as (s & _ & ->). Qed.

Lemma when_column_frame_index name f d d' :
  (forall d d', f d = Ok d' -> index d' = index d) ->
  when_column_frame name f d = Ok d' -> index d' = index d.
Proof.
  unfold when_column_frame. intros Hf H.
  destruct (has_column name d); [eauto | now injection H as <-].
Qed.

Lemma for_each_frame_index {A} (l : list A) f d d' :
  (forall x d d', f x d = Ok d' -> index d' = index d) ->
  for_each_frame l f d = Ok d' -> index d' = index d.
Proof.
  intros Hf. revert d; induction l as [|x l IH]; simpl; intros d H.
  - now injection H as <-.
  - apply rbind_ok in H. destruct H as (d1 & H1 & H).
    rewrite (IH _ H). eauto.
Qed.

Lemma standardize_frame_index col d d' :
  standardize_frame col d = Ok d' -> index d' = index d.
Proof.
  unfold standardize_frame. destruct (existsb _ _).
  - now intros [= <-].
  - apply assign_frame_index.
Qed.

Lemma clean_in_place_index d d' :
  clean_in_place d = Ok d' -> index d' = index d.
Proof.
  unfold clean_in_place. intros H.
  repeat (apply rbind_ok in H;
          let d1 := fresh "d" in let H1 := fresh "H" in
          destruct H as (d1 & H1 & H);
          apply when_column_frame_index in H1;
          [|intros ? ?; apply assign_frame_index]).
  apply for_each_frame_index in H;
    [|intros ? ? ?; apply standardize_frame_index].
  congruence.
Qed.

Lemma clean_frame_len d d' : clean_frame d = Ok d' -> len d' <= len d.
Proof.
  unfold clean_frame, dropna. intros H.
  apply rbind_ok in H. destruct H as (d2 & H2 & H).
  apply rbind_ok in H2. destruct H2 as (sub & _ & H2). injection H2 as <-.
  apply clean_in_place_index in H.
  unfold len at 1. rewrite H. fold (len (take_rows (map negb (isnull_any sub)) (drop_duplicates d))).
  etransitivity; [apply len_take_rows|]. apply len_take_rows.
Qed.

(** * The store only grows *)

(** [clean_data] and [engineer_features] allocate and never write to a
    frame that was in the store before the call, and they keep
    [self.df]. *)
Lemma clean_data_grows w :
  (exists ext, heap (after clean_data w) = heap w ++ ext)
  /\ df (self (after clean_data w)) = df (self w).
Proof.
  unfold after. destruct (df (self w)) as [raw|] eqn:Hdf.
  - pose proof (run_clean_data w raw Hdf) as R. cbv zeta in R.
    destruct (clean_frame (deref (heap w) raw)) as [d'|e].
    + rewrite R; simpl. split; eauto.
    + destruct R as (ext & out & R). rewrite R; simpl. split; eauto.
  - unfold clean_data, run, bind, get_self. rewrite Hdf. simpl.
    split; auto. exists []. now rewrite app_nil_r.
Qed.

Lemma engineer_features_grows w :
  (exists ext, heap (after engineer_features w) = heap w ++ ext)
  /\ df (self (after engineer_features w)) = df (self w).
Proof.
  unfold after. destruct (clean_df (self w)) as [c|] eqn:Hc.
  - pose proof (run_engineer_features w c Hc) as R. cbv zeta in R.
    destruct (engineer_frame (deref (heap w) c)) as [d'|e].
    + rewrite R; simpl. split; eauto.
    + destruct R as (d'' & R). rewrite R; simpl. split; eauto.
  - unfold engineer_features, run, bind, get_self. rewrite Hc. simpl.
    split; auto. exists []. now rewrite app_nil_r.
Qed.

(** * Grouping by an integer key *)

Section SizesByInteger.

(** The rows counted for key [y] in a table of counts. *)
Fixpoint total (y : Z) (ser : list (Z * Z)) : Z :=
  match ser with
  | [] => 0
  | (k, n) :: rest => (if k =? y then n else 0) + total y rest
  end.

Definition key_sorted (ser : list (Z * Z)) : Prop :=
  StronglySorted (fun a b => fst a < fst b) ser.

Lemma total_bump y k acc :
  total y (bump Z.compare k acc) = total y acc + (if k =? y then 1 else 0).
Proof.
  induction acc as [|[k' n] acc IH]; simpl.
  - lia.
  - destruct (Z.compare_spec k k') as [->|Hlt|Hgt]; simpl.
    + destruct (k' =? y); lia.
    + lia.
    + rewrite IH. lia.
Qed.

Lemma total_fold y ks acc :
  total y (fold_left (fun a k => bump Z.compare k a) ks acc)
  = total y acc + Z.of_nat (count_occ Z.eq_dec ks y).
Proof.
  revert acc; induction ks as [|k ks IH]; intros acc; simpl.
  - lia.
  - rewrite IH, total_bump.
    destruct (Z.eq_dec k y) as [->|Hne].
    + rewrite Z.eqb_refl. lia.
    + apply Z.eqb_neq in Hne. rewrite Hne. lia.
Qed.

Lemma total_sizes y ks :
  total y (sizes Z.compare ks) = Z.of_nat (count_occ Z.eq_dec ks y).
Proof. unfold sizes. now rewrite total_fold. Qed.

Lemma bump_keys k acc e :
  In e (bump Z.compare k acc) -> fst e = k \/ In (fst e) (map fst acc).
Proof.
  induction acc as [|[k' n] acc IH]; simpl.
  - intros [<-|[]]; auto.
  - destruct (Z.compare_spec k k') as [->|Hlt|Hgt]; simpl.
    + intros [<-|H]; simpl; auto. right; right. now apply in_map.
    + intros [<-|[<-|H]]; simpl; auto. right; right. now apply in_map.
    + intros [<-|H]; simpl; auto. destruct (IH H); auto.
Qed.

Lemma bump_sorted k acc : key_sorted acc -> key_sorted (bump Z.compare k acc).
Proof.
  unfold key_sorted. induction acc as [|[k' n] acc IH]; simpl; intros H.
  - repeat constructor.
  - apply StronglySorted_inv in H. destruct H as [Hs Hf].
    destruct (Z.compare_spec k k') as [->|Hlt|Hgt].
    + constructor; auto.
    + constructor; [constructor; auto|].
      constructor; simpl; auto.
      rewrite Forall_forall in *. intros x Hx. specialize (Hf x Hx).
      simpl in *. lia.
    + constructor; auto.
      rewrite Forall_forall in *. intros x Hx.
      destruct (bump_keys _ _ _ Hx) as [->|Hin]; simpl; try lia.
      apply in_map_iff in Hin. destruct Hin as (x' & <- & Hx').
      exact (Hf x' Hx').
Qed.

Lemma sizes_sorted ks : key_sorted (sizes Z.compare ks).
Proof.
  unfold sizes.
  assert (G : forall acc, key_sorted acc ->
            key_sorted (fold_left (fun a k => bump Z.compare k a) ks acc)).
  { induction ks as [|k ks IH]; simpl; auto using bump_sorted. }
  apply G. constructor.
Qed.

Lemma bump_positive k acc :
  Forall (fun e => 0 < snd e) acc ->
  Forall (fun e => 0 < snd e) (bump Z.compare k acc).
Proof.
  induction acc as [|[k' n] acc IH]; simpl; intros H.
  - repeat constructor.
  - inversion H as [|? ? Hn Hr]; subst; simpl in *.
    destruct (k ?= k'); repeat constructor; simpl; auto; lia.
Qed.

Lemma sizes_positive ks : Forall (fun e => 0 < snd e) (sizes Z.compare ks).
Proof.
  unfold sizes.
  assert (G : forall acc, Forall (fun e => 0 < snd e) acc ->
            Forall (fun e => 0 < snd e)
                   (fold_left (fun a k => bump Z.compare k a) ks acc)).
  { induction ks as [|k ks IH]; simpl; auto using bump_positive. }
  apply G. constructor.
Qed.

Lemma total_absent y ser :
  ~ In y (map fst ser) -> total y ser = 0.
Proof.
  induction ser as [|[k n] ser IH]; simpl; intros H; auto.
  destruct (Z.eqb_spec k y); [tauto|]. rewrite IH; tauto.
Qed.

Lemma sorted_total k n ser :
  key_sorted ser -> In (k, n) ser -> total k ser = n.
Proof.
  unfold key_sorted. induction ser as [|[k' n'] ser IH]; simpl;
    intros Hs Hin; [contradiction|].
  apply StronglySorted_inv in Hs. destruct Hs as [Hs Hf].
  destruct Hin as [E|Hin].
  - injection E as -> ->. rewrite Z.eqb_refl.
    rewrite total_absent; [lia|].
    intros Hk. apply in_map_iff in Hk. destruct Hk as (x & Hx & Hin).
    rewrite Forall_forall in Hf. specialize (Hf x Hin). simpl in Hf. lia.
  - rewrite Forall_forall in Hf. specialize (Hf _ Hin). simpl in Hf.
    destruct (Z.eqb_spec k' k); [lia|]. rewrite IH; auto.
Qed.

Lemma total_present y ser :
  Forall (fun e => 0 < snd e) ser -> 0 < total y ser ->
  exists n, In (y, n) ser.
Proof.
  induction ser as [|[k n] ser IH]; simpl; intros Hp Ht; [lia|].
  inversion Hp as [|? ? Hn Hr]; subst.
  destruct (Z.eqb_spec k y) as [->|Hne]; eauto.
  destruct (IH Hr) as [m Hm]; [lia|]. eauto.
Qed.

(** [sizes] lists a key with the number of its occurrences, and lists
    exactly the keys that occur. *)
Lemma in_sizes ks k n :
  In (k, n) (sizes Z.compare ks)
  <-> n = Z.of_nat (count_occ Z.eq_dec ks k) /\ 0 < n.
Proof.
  split.
  - intros H. split.
    + rewrite <- total_sizes. symmetry.
      apply sorted_total; auto using sizes_sorted.
    + pose proof (sizes_positive ks) as P. rewrite Forall_forall in P.
      exact (P _ H).
  - intros [-> Hpos].
    destruct (total_present k (sizes Z.compare ks)) as [m Hm].
    + apply sizes_positive.
    + now rewrite total_sizes.
    + pose proof (sorted_total _ _ _ (sizes_sorted ks) Hm) as E.
      rewrite total_sizes in E. now subst m.
Qed.

Lemma key_sorted_keys ser :
  key_sorted ser -> StronglySorted Z.lt (map fst ser).
Proof.
  induction 1 as [|e l Hs IH Hf]; simpl; constructor; auto.
  apply Forall_map. exact Hf.
Qed.

Lemma sizes_nonempty ks : ks <> [] -> sizes Z.compare ks <> [].
Proof.
  destruct ks as [|k ks]; [congruence|]. intros _ E.
  assert (H : In (k, Z.of_nat (count_occ Z.eq_dec (k :: ks) k))
                 (sizes Z.compare (k :: ks))).
  { apply in_sizes. split; auto. simpl.
    destruct (Z.eq_dec k k); [lia | congruence]. }
  rewrite E in H. destruct H.
Qed.

End SizesByInteger.

(** A column of ints is grouped as its integers are. *)
Lemma bump_VInt k acc :
  bump cell_compare (VInt k) (map (fun e => (VInt (fst e), snd e)) acc)
  = map (fun e : Z * Z => (VInt (fst e), snd e)) (bump Z.compare k acc).
Proof.
  induction acc as [|[k' n] acc IH]; simpl; auto.
  destruct (k ?= k'); simpl; auto. now rewrite IH.
Qed.

Lemma sizes_VInt ks :
  sizes cell_compare (map VInt ks)
  = map (fun e : Z * Z => (VInt (fst e), snd e)) (sizes Z.compare ks).
Proof.
  unfold sizes.
  change (@nil (cell * Z))
    with (map (fun e : Z * Z => (VInt (fst e), snd e)) []).
  generalize (@nil (Z * Z)) as acc.
  induction ks as [|k ks IH]; intros acc; simpl; auto.
  rewrite bump_VInt. apply IH.
Qed.

(** * The first maximum *)

Lemma idxmax_from_spec rest :
  forall best,
  exists pre n post,
    best :: rest = pre ++ (idxmax_from best rest, n) :: post
    /\ Forall (fun e => snd e < n) pre
    /\ Forall (fun e => snd e <= n) post.
Proof.
  induction rest as [|e rest IH]; intros best; simpl.
  - exists [], (snd best), []. destruct best; simpl. repeat split; auto.
  - destruct (Z.ltb_spec (snd best) (snd e)) as [Hlt|Hge].
    + destruct (IH e) as (pre & n & post & E & H1 & H2).
      exists (best :: pre), n, post. simpl. rewrite E.
      repeat split; auto. constructor; auto.
      destruct pre as [|p pre]; simpl in E; injection E as Ep Er.
      * rewrite Ep in Hlt. simpl in Hlt. lia.
      * subst p. inversion H1; subst. lia.
    + destruct (IH best) as (pre & n & post & E & H1 & H2).
      destruct pre as [|p pre]; simpl in E; injection E as Ep Er.
      * exists [], n, (e :: rest). simpl. rewrite <- Ep.
        repeat split; auto. rewrite Ep in Hge. simpl in Hge.
        constructor; [lia|]. now rewrite Er.
      * subst p. inversion H1 as [|? ? Hb Hpre]; subst.
        exists (best :: e :: pre), n, post.
        split; [simpl; do 2 f_equal; exact Er|].
        split; auto. constructor; auto. constructor; auto. lia.
Qed.

(** In a key-sorted table of counts, [idxmax] is the smallest key among
    those with the largest count. *)
Lemma idxmax_sizes ks :
  ks <> [] ->
  exists k n,
    idxmax (map (fun e : Z * Z => (VInt (fst e), snd e))
                (sizes Z.compare ks)) = Ok (VInt k)
    /\ In (k, n) (sizes Z.compare ks)
    /\ forall k' n', In (k', n') (sizes Z.compare ks) ->
         n' <= n /\ (n' = n -> k <= k').
Proof.
  intros Hne. pose proof (sizes_sorted ks) as Hs.
  pose proof (sizes_nonempty ks Hne) as Hn.
  destruct (sizes Z.compare ks) as [|e rest] eqn:E; [congruence|].
  set (f := fun e : Z * Z => (VInt (fst e), snd e)).
  change (idxmax (map f (e :: rest)))
    with (@Ok cell (idxmax_from (f e) (map f rest))).
  destruct (idxmax_from_spec (map f rest) (f e))
    as (pre & n & post & D & H1 & H2).
  change (f e :: map f rest) with (map f (e :: rest)) in D.
  apply map_eq_app in D. destruct D as (pre0 & tl0 & D0 & <- & Dt).
  apply map_eq_cons in Dt. destruct Dt as (x & post0 & -> & Dx & <-).
  destruct x as [k m]. unfold f in Dx at 1. simpl in Dx.
  injection Dx as Dk ->.
  exists k, n. rewrite <- Dk. split; [reflexivity|]. split.
  - rewrite D0. apply in_or_app. right. now left.
  - intros k' n' Hin. rewrite D0 in Hin, Hs.
    unfold key_sorted in Hs.
    apply in_app_or in Hin. destruct Hin as [Hin|[Hin|Hin]].
    + rewrite Forall_forall in H1.
      specialize (H1 (f (k', n')) (in_map f _ _ Hin)). simpl in H1. lia.
    + injection Hin as <- <-. lia.
    + rewrite Forall_forall in H2.
      specialize (H2 (f (k', n')) (in_map f _ _ Hin)). simpl in H2.
      split; [lia|]. intros _.
      clear - Hs Hin. induction pre0 as [|p pre0 IH]; simpl in Hs.
      * apply StronglySorted_inv in Hs. destruct Hs as [_ Hf].
        rewrite Forall_forall in Hf. specialize (Hf _ Hin). simpl in Hf. lia.
      * apply StronglySorted_inv in Hs. tauto.
Qed.

(** * Year-over-year change *)

(** [current / previous - 1] in float64. *)
Definition change (current previous : Z) : PrimFloat.float :=
  PrimFloat.sub (PrimFloat.div (float_of_Z current) (float_of_Z previous))
                (float_of_Z 1).

Lemma pct_change_from_nth ser :
  forall prev i k0 v0 k1 v1,
    nth_error ser i = Some (k0, v0) ->
    nth_error ser (S i) = Some (k1, v1) ->
    nth_error (pct_change_from prev ser) (S i) = Some (k1, change v1 v0).
Proof.
  induction ser as [|[k v] ser IH]; intros prev i k0 v0 k1 v1 H0 H1.
  - destruct i; discriminate.
  - destruct i as [|i]; simpl in *.
    + injection H0 as -> ->. destruct ser as [|[k' v'] ser]; [discriminate|].
      simpl in *. injection H1 as -> ->. reflexivity.
    + eapply IH; eauto.
Qed.

Lemma pct_change_nth ser i k0 v0 k1 v1 :
  nth_error ser i = Some (k0, v0) ->
  nth_error ser (S i) = Some (k1, v1) ->
  nth_error (pct_change ser) (S i) = Some (k1, change v1 v0).
Proof.
  destruct ser as [|[k v] ser]; [destruct i; discriminate|].
  intros H0 H1. simpl in H1. simpl.
  destruct i as [|i]; simpl in H0.
  - injection H0 as -> ->. destruct ser as [|[k' v'] ser]; [discriminate|].
    simpl in *. injection H1 as -> ->. reflexivity.
  - eapply pct_change_from_nth; eauto.
Qed.

Lemma pct_change_from_keys ser :
  forall prev, map fst (pct_change_from prev ser) = map fst ser.
Proof.
  induction ser as [|[k v] ser IH]; intros prev; simpl; auto.
  now rewrite IH.
Qed.

Lemma yoy_keys ser : map fst (times_100 (pct_change ser)) = map fst ser.
Proof.
  unfold times_100. rewrite map_map. simpl.
  rewrite <- (map_map fst (fun x => x)), map_id.
  destruct ser as [|[k v] ser]; simpl; auto.
  now rewrite pct_change_from_keys.
Qed.

Lemma yoy_nth ser i k0 v0 k1 v1 :
  nth_error ser i = Some (k0, v0) ->
  nth_error ser (S i) = Some (k1, v1) ->
  nth_error (times_100 (pct_change ser)) (S i)
  = Some (k1, PrimFloat.mul (change v1 v0) (float_of_Z 100)).
Proof.
  intros H0 H1. unfold times_100.
  rewrite nth_error_map, (pct_change_nth _ _ _ _ _ _ H0 H1). reflexivity.
Qed.

(** * Grouping the columns of an enriched frame *)

Lemma existsb_isnull_times stamps :
  existsb isnull (map VTime stamps) = false.
Proof. induction stamps; simpl; auto. Qed.

Lemma dt_int_field_times f date stamps :
  values date = map VTime stamps ->
  dt_int_field f date = mkSeries int64 (map VInt (map f stamps)).
Proof.
  intros H. unfold dt_int_field. rewrite H, existsb_isnull_times.
  f_equal. rewrite !map_map. reflexivity.
Qed.

Lemma dt_name_field_times f date stamps :
  values date = map VTime stamps ->
  dt_name_field f date = mkSeries object (map VStr (map f stamps)).
Proof.
  intros H. unfold dt_name_field. rewrite H. f_equal.
  rewrite !map_map. reflexivity.
Qed.

Lemma filter_notnull_VInt ks : filter notnull (map VInt ks) = map VInt ks.
Proof. induction ks; simpl; congruence. Qed.

Lemma groupby_size_ints d name dt ks :
  getitem d name = Ok (mkSeries dt (map VInt ks)) ->
  groupby_size d name
  = Ok (map (fun e : Z * Z => (VInt (fst e), snd e)) (sizes Z.compare ks)).
Proof.
  intros H. unfold groupby_size. rewrite H. simpl.
  now rewrite filter_notnull_VInt, sizes_VInt.
Qed.

(** * The sample runs *)

Lemma sample_loaded_self : df (self sample_loaded) = Some 0%nat.
Proof. vm_compute. reflexivity. Qed.

Lemma sample_cleaned_run :
  run clean_data sample_loaded = (Ok 3%nat, sample_cleaned).
Proof. vm_compute. reflexivity. Qed.

Lemma sample_cleaned_self : clean_df (self sample_cleaned) = Some 3%nat.
Proof. vm_compute. reflexivity. Qed.

Lemma sample_enriched_run :
  run engineer_features sample_cleaned = (Ok 4%nat, sample_enriched).
Proof. vm_compute. reflexivity. Qed.

(** * Operations that leave a frame as it is *)

Lemma zip_rows_length cols n :
  Forall (fun c => length c = n) cols -> length (zip_rows cols n) = n.
Proof.
  induction 1 as [|c cs Hc Hcs IH]; simpl.
  - apply repeat_length.
  - rewrite length_map, length_combine, IH, Hc. apply Nat.min_id.
Qed.

Lemma rows_length d :
  well_formed d -> length (rows d) = length (index d).
Proof.
  intros [Hl _]. unfold rows. apply zip_rows_length.
  apply Forall_map. exact Hl.
Qed.

Lemma duplicated_rows_length seen rs :
  length (duplicated_rows seen rs) = length rs.
Proof.
  revert seen; induction rs as [|r rs IH]; intros seen; simpl; auto.
Qed.

Lemma mask_filter_all {A} (mask : list bool) (l : list A) :
  forallb (fun b => b) mask = true ->
  length mask = length l ->
  mask_filter mask l = l.
Proof.
  revert l; induction mask as [|b mask IH]; intros [|x l];
    simpl; intros Hall Hlen; try discriminate; auto.
  apply andb_true_iff in Hall. destruct Hall as [-> Hall].
  f_equal. apply IH; auto.
Qed.

Lemma series_eta s : mkSeries (dtype s) (values s) = s.
Proof. now destruct s. Qed.

Lemma frame_eta d : mkDataFrame (index d) (columns d) = d.
Proof. now destruct d. Qed.

Lemma take_rows_all mask d :
  well_formed d ->
  forallb (fun b => b) mask = true ->
  length mask = length (index d) ->
  take_rows mask d = d.
Proof.
  intros [Hl _] Hall Hlen. unfold take_rows.
  rewrite mask_filter_all by auto.
  rewrite <- (frame_eta d) at 3. f_equal.
  induction Hl as [|[n s] cols Hc Hcs IH]; simpl; auto.
  simpl in Hc. rewrite mask_filter_all, series_eta by (auto; congruence).
  f_equal. apply IH.
Qed.

Lemma forallb_negb_map mask :
  forallb negb mask = true -> forallb (fun b => b) (map negb mask) = true.
Proof.
  induction mask as [|b mask IH]; simpl; auto.
  intros H. apply andb_true_iff in H. destruct H as [-> H]. auto.
Qed.

Lemma drop_duplicates_id d :
  well_formed d -> forallb negb (duplicated d) = true ->
  drop_duplicates d = d.
Proof.
  intros Hwf Hd. unfold drop_duplicates.
  apply take_rows_all; auto using forallb_negb_map.
  unfold duplicated. rewrite length_map, duplicated_rows_length.
  now apply rows_length.
Qed.

(** No row of complete columns has a missing cell. *)
Lemma zip_rows_complete cols n :
  Forall (fun c => existsb isnull c = false) cols ->
  Forall (fun r => existsb isnull r = false) (zip_rows cols n).
Proof.
  induction 1 as [|c cs Hc Hcs IH]; simpl.
  - apply Forall_forall. intros r Hr. apply repeat_spec in Hr. now subst.
  - apply Forall_forall. intros r Hr.
    apply in_map_iff in Hr. destruct Hr as ([x r'] & <- & Hin). simpl.
    apply in_combine_l in Hin as Hx. apply in_combine_r in Hin as Hr'.
    rewrite Forall_forall in IH. rewrite (IH _ Hr'), orb_false_r.
    destruct (isnull x) eqn:Ex; auto.
    assert (existsb isnull c = true) by (apply existsb_exists; eauto).
    congruence.
Qed.

Lemma select_columns_complete d names :
  Forall (column_complete d) names ->
  exists cs,
    select_columns (columns d) names = Ok cs
    /\ Forall (fun c => existsb isnull (values (snd c)) = false) cs
    /\ Forall (fun c => In c (columns d)) cs.
Proof.
  induction 1 as [|n names (s & Hs & Hn) Hr (cs & Hcs & Hc & Hin)]; simpl.
  - exists []. auto.
  - rewrite Hs, Hcs. simpl. exists ((n, s) :: cs). repeat split; auto.
    constructor; auto.
    clear - Hs. induction (columns d) as [|[n' s'] cols IH]; simpl in *;
      [discriminate|].
    destruct (String.eqb n' n) eqn:E.
    + apply String.eqb_eq in E. subst. injection Hs as ->. auto.
    + auto.
Qed.

Lemma dropna_id d :
  well_formed d -> Forall (column_complete d) critical_fields ->
  dropna d critical_fields = Ok d.
Proof.
  intros Hwf Hc. unfold dropna, select.
  destruct (select_columns_complete d _ Hc) as (cs & -> & Hn & Hin).
  simpl. f_equal. apply take_rows_all; auto.
  - apply forallb_negb_map. unfold isnull_any, rows; simpl.
    apply forallb_forall. intros b Hb.
    apply in_map_iff in Hb. destruct Hb as (r & <- & Hr).
    assert (H : Forall (fun r => existsb isnull r = false)
                  (zip_rows (map (fun c => values (snd c)) cs)
                            (length (index d)))).
    { apply zip_rows_complete. apply Forall_map. exact Hn. }
    rewrite Forall_forall in H. now rewrite (H _ Hr).
  - unfold isnull_any. rewrite !length_map. unfold rows; simpl.
    apply zip_rows_length. apply Forall_map.
    destruct Hwf as [Hl _]. rewrite Forall_forall in *.
    intros c Hc'. apply Hl. apply Hin. exact Hc'.
Qed.

Lemma set_column_same name s cols :
  lookup name cols = Some s -> set_column name s cols = cols.
Proof.
  induction cols as [|[n c] cols IH]; simpl; [discriminate|].
  destruct (String.eqb n name) eqn:E.
  - intros [= ->]. reflexivity.
  - intros H. now rewrite IH.
Qed.

Lemma setitem_same d name s :
  lookup name (columns d) = Some s -> setitem d name s = d.
Proof.
  intros H. unfold setitem. rewrite set_column_same by auto.
  apply frame_eta.
Qed.

(** An assignment that writes back what it read. *)
Lemma assign_frame_id name rhs d s :
  lookup name (columns d) = Some s -> rhs d = Ok s ->
  assign_frame name rhs d = Ok d.
Proof.
  intros Hl Hr. unfold assign_frame. rewrite Hr. simpl.
  now rewrite setitem_same.
Qed.

Lemma fillna_complete v s :
  existsb isnull (values s) = false -> fillna v s = s.
Proof. intros H. unfold fillna. now rewrite H. Qed.

Lemma when_column_frame_id name rhs d :
  (forall s, lookup name (columns d) = Some s -> rhs d = Ok s) ->
  when_column_frame name (assign_frame name rhs) d = Ok d.
Proof.
  intros H. unfold when_column_frame.
  destruct (has_column name d) eqn:E; auto.
  apply has_column_lookup in E. destruct E as [s Hs].
  eapply assign_frame_id; eauto.
Qed.

Lemma booleans_complete cs :
  Forall (fun c => exists b, c = VBool b) cs -> existsb isnull cs = false.
Proof. induction 1 as [|c cs [b ->] _ IH]; simpl; auto. Qed.

Lemma booleans_truthy cs :
  Forall (fun c => exists b, c = VBool b) cs ->
  map (fun c => VBool (truthy c)) cs = cs.
Proof. induction 1 as [|c cs [b ->] _ IH]; simpl; congruence. Qed.

Lemma fillna_false_astype_bool_id name d s :
  lookup name (columns d) = Some s ->
  dtype s = bool_ ->
  Forall (fun c => exists b, c = VBool b) (values s) ->
  fillna_false_astype_bool name d = Ok s.
Proof.
  intros Hl Hd Hb. unfold fillna_false_astype_bool, getitem. rewrite Hl.
  simpl. rewrite fillna_complete by now apply booleans_complete.
  unfold astype_bool. rewrite Hd, booleans_truthy by auto.
  rewrite <- Hd. now rewrite series_eta.
Qed.

(** Text that is already normalized passes the [.str] check and is
    mapped to itself. *)
Lemma normalized_infer cs :
  Forall normalized_text cs ->
  infer_dtype cs = Empty \/ infer_dtype cs = String_.
Proof.
  intros H. unfold infer_dtype.
  assert (G : Forall (fun c => is_S c = true) (filter notnull cs)).
  { induction H as [|c cs Hc _ IH]; simpl; auto.
    destruct Hc as [->|(s & -> & _)]; simpl; auto. }
  destruct (filter notnull cs) as [|c l]; auto.
  right. apply Forall_forall with (x := c) in G as Hc; [|now left].
  assert (forallb is_S (c :: l) = true).
  { apply forallb_forall. now apply Forall_forall. }
  now rewrite H0.
Qed.

Lemma str_accessor_normalized s :
  dtype s = object -> Forall normalized_text (values s) ->
  str_accessor s = Ok tt.
Proof.
  intros Hd Hn. unfold str_accessor. rewrite Hd.
  destruct (normalized_infer _ Hn) as [-> | ->]; reflexivity.
Qed.

Lemma strip_upper_id col d s :
  lookup col (columns d) = Some s ->
  dtype s = object -> Forall normalized_text (values s) ->
  strip_upper col d = Ok s.
Proof.
  intros Hl Hd Hn. unfold strip_upper, getitem. rewrite Hl. simpl.
  unfold str_strip, str_upper, str_map.
  rewrite str_accessor_normalized by auto. simpl.
  assert (A : str_accessor
                (mkSeries object
                   (map (fun c => match c with
                                  | VStr x => VStr (strip x)
                                  | _ => NaN
                                  end) (values s))) = Ok tt).
  { unfold str_accessor; simpl.
    assert (G : Forall (fun c => is_S c = true)
                  (filter notnull
                     (map (fun c => match c with
                                    | VStr x => VStr (strip x)
                                    | _ => NaN
                                    end) (values s)))).
    { clear. induction (values s) as [|c cs IH]; simpl; auto.
      destruct c; simpl; auto. }
    unfold infer_dtype.
    destruct (filter notnull _) as [|c l]; auto.
    assert (F : forallb is_S (c :: l) = true).
    { apply forallb_forall. now apply Forall_forall. }
    now rewrite F. }
  rewrite A. simpl. clear A Hl. f_equal.
  destruct s as [dt vs]; simpl in *. subst dt. f_equal.
  rewrite map_map.
  induction Hn as [|c cs Hc _ IH]; simpl; auto.
  rewrite IH. f_equal.
  destruct Hc as [->|(x & -> & Hx)]; auto. now rewrite Hx.
Qed.

Lemma lookup_In name s cols :
  NoDup (map fst cols) -> In (name, s) cols -> lookup name cols = Some s.
Proof.
  induction cols as [|[n c] cols IH]; simpl; intros Hnd Hin; [contradiction|].
  inversion Hnd as [|? ? Hn Hnd']; subst.
  destruct Hin as [E|Hin].
  - injection E as -> ->. now rewrite String.eqb_refl.
  - destruct (String.eqb_spec n name) as [->|Hne]; auto.
    exfalso. apply Hn. apply in_map_iff. exists (name, s). auto.
Qed.

Lemma object_columns_In d col :
  In col (object_columns d) ->
  exists s, In (col, s) (columns d) /\ dtype s = object.
Proof.
  unfold object_columns. intros H.
  apply in_map_iff in H. destruct H as ([n s] & <- & Hin).
  apply filter_In in Hin. destruct Hin as [Hin Hd]. simpl in *.
  exists s. split; auto. destruct (dtype s); simpl in Hd; congruence.
Qed.

Lemma standardize_all_id d cols :
  well_formed d ->
  (forall name s, In (name, s) (columns d) -> dtype s = object ->
                  name <> "date" -> Forall normalized_text (values s)) ->
  incl cols (object_columns d) ->
  for_each_frame cols standardize_frame d = Ok d.
Proof.
  intros [_ Hnd] Ht. induction cols as [|col cols IH]; simpl; intros Hi; auto.
  assert (Hs : standardize_frame col d = Ok d).
  { unfold standardize_frame. simpl existsb. rewrite orb_false_r.
    destruct (String.eqb_spec col "date") as [->|Hne]; auto.
    destruct (object_columns_In d col) as (s & Hin & Hd).
    { apply Hi. now left. }
    pose proof (lookup_In _ _ _ Hnd Hin) as Hl.
    eapply assign_frame_id; eauto.
    apply strip_upper_id; eauto. }
  rewrite Hs. simpl. apply IH. intros x Hx. apply Hi. now right.
Qed.

(** Cleaning a cleaned table gives the table back. *)
Lemma clean_frame_cleaned d :
  well_formed d -> cleaned d -> clean_frame d = Ok d.
Proof.
  intros Hwf C. unfold clean_frame.
  rewrite drop_duplicates_id by (auto; apply C).
  rewrite dropna_id by (auto; apply C). simpl.
  unfold clean_in_place.
  rewrite when_column_frame_id.
  2:{ intros s Hs. unfold fillna_unknown, getitem. rewrite Hs. simpl.
      rewrite fillna_complete; auto.
      eapply (cl_filled _ C); eauto. simpl; auto. }
  simpl. rewrite when_column_frame_id.
  2:{ intros s Hs. unfold fillna_unknown, getitem. rewrite Hs. simpl.
      rewrite fillna_complete; auto.
      eapply (cl_filled _ C); eauto. simpl; auto. }
  simpl. rewrite when_column_frame_id.
  2:{ intros s Hs.
      destruct (cl_boolean _ C "arrest" s) as [Hd Hb]; simpl; auto.
      now apply fillna_false_astype_bool_id. }
  simpl. rewrite when_column_frame_id.
  2:{ intros s Hs.
      destruct (cl_boolean _ C "domestic" s) as [Hd Hb]; simpl; auto.
      now apply fillna_false_astype_bool_id. }
  simpl. apply standardize_all_id; auto.
  - apply C.
  - apply incl_refl.
Qed.

(** * Trimming and upper-casing *)

Lemma is_space_upper_char c : is_space (upper_char c) = is_space c.
Proof.
  destruct c as [[|] [|] [|] [|] [|] [|] [|] [|]]; reflexivity.
Qed.

Lemma upper_char_idem c : upper_char (upper_char c) = upper_char c.
Proof.
  destruct c as [[|] [|] [|] [|] [|] [|] [|] [|]]; reflexivity.
Qed.

Lemma lstrip_chars_map l :
  lstrip_chars (map upper_char l) = map upper_char (lstrip_chars l).
Proof.
  induction l as [|c l IH]; simpl; auto.
  rewrite is_space_upper_char. destruct (is_space c); auto.
Qed.

Lemma strip_chars_map l :
  strip_chars (map upper_char l) = map upper_char (strip_chars l).
Proof.
  unfold strip_chars.
  now rewrite lstrip_chars_map, <- map_rev, lstrip_chars_map, map_rev.
Qed.

Lemma lstrip_chars_idem l : lstrip_chars (lstrip_chars l) = lstrip_chars l.
Proof.
  induction l as [|c l IH]; simpl; auto.
  destruct (is_space c) eqn:E; auto. simpl. now rewrite E.
Qed.

Lemma lstrip_chars_snoc a c :
  is_space c = false -> exists a', lstrip_chars (a ++ [c]) = a' ++ [c].
Proof.
  intros Hc. induction a as [|x a IH]; simpl.
  - rewrite Hc. now exists [].
  - destruct (is_space x); auto. now exists (x :: a).
Qed.

Lemma lstrip_chars_rev m :
  lstrip_chars m = m ->
  lstrip_chars (rev (lstrip_chars (rev m))) = rev (lstrip_chars (rev m)).
Proof.
  destruct m as [|c m]; simpl; auto.
  destruct (is_space c) eqn:E.
  - intros H. exfalso.
    assert (L : forall l, (length (lstrip_chars l) <= length l)%nat).
    { induction l as [|x l IH]; simpl; auto.
      destruct (is_space x); simpl; lia. }
    specialize (L m). rewrite H in L. simpl in L. lia.
  - intros _. destruct (lstrip_chars_snoc (rev m) c E) as [a' ->].
    rewrite rev_app_distr. simpl. now rewrite E.
Qed.

Lemma strip_chars_idem l : strip_chars (strip_chars l) = strip_chars l.
Proof.
  unfold strip_chars.
  rewrite (lstrip_chars_rev (lstrip_chars l)) by apply lstrip_chars_idem.
  now rewrite rev_involutive, lstrip_chars_idem.
Qed.

Lemma upper_strip_idem s : upper (strip (upper (strip s))) = upper (strip s).
Proof.
  unfold upper, strip.
  rewrite !list_ascii_of_string_of_list_ascii.
  rewrite strip_chars_map, strip_chars_idem, map_map.
  f_equal. apply map_ext. intros c. apply upper_char_idem.
Qed.

(** What [.str.strip().str.upper()] makes of a cell. *)
Definition norm_cell (c : cell) : cell :=
  match c with
  | VStr x => VStr (upper (strip x))
  | _ => NaN
  end.

Lemma norm_cell_normalized c : normalized_text (norm_cell c).
Proof.
  destruct c; simpl; try (now left).
  right. eexists. split; [reflexivity|]. apply upper_strip_idem.
Qed.

Lemma str_map_ok f s s' :
  str_map f s = Ok s' ->
  dtype s = object
  /\ s' = mkSeries object
            (map (fun c => match c with VStr x => VStr (f x) | _ => NaN end)
                 (values s)).
Proof.
  unfold str_map. intros H. apply rbind_ok in H.
  destruct H as ([] & Ha & H). injection H as <-. split; auto.
  unfold str_accessor in Ha. destruct (dtype s); auto; discriminate.
Qed.

Lemma strip_upper_ok col d s s' :
  lookup col (columns d) = Some s ->
  strip_upper col d = Ok s' ->
  dtype s = object /\ s' = mkSeries object (map norm_cell (values s)).
Proof.
  intros Hl H. unfold strip_upper, getitem in H. rewrite Hl in H.
  simpl in H. apply rbind_ok in H. destruct H as (s1 & H1 & H2).
  apply str_map_ok in H1. destruct H1 as [Hd ->].
  apply str_map_ok in H2. destruct H2 as [_ ->]. split; auto.
  simpl. f_equal. rewrite map_map. apply map_ext.
  intros c. destruct c; reflexivity.
Qed.

(** * The in-place block of [clean_data], column by column *)

(** The frame with every column replaced by its image. *)
Definition map_columns (g : string * Series -> string * Series)
  (d : DataFrame) : DataFrame :=
  mkDataFrame (index d) (map g (columns d)).

(** [f] on the column called [name], nothing on the others. *)
Definition update_column (name : string) (f : Series -> Series)
  (c : string * Series) : string * Series :=
  if String.eqb (fst c) name then (fst c, f (snd c)) else c.

Lemma set_column_update name f s cols :
  NoDup (map fst cols) ->
  lookup name cols = Some s ->
  set_column name (f s) cols = map (update_column name f) cols.
Proof.
  induction cols as [|[n c] cols IH]; simpl; intros Hnd Hl; [discriminate|].
  inversion Hnd as [|? ? Hn Hnd']; subst.
  unfold update_column at 1. simpl.
  destruct (String.eqb_spec n name) as [->|Hne].
  - injection Hl as ->. f_equal.
    clear - Hn. induction cols as [|[n' c'] cols IH]; simpl; auto.
    unfold update_column at 1. simpl.
    destruct (String.eqb_spec n' name) as [->|_].
    + exfalso. apply Hn. now left.
    + f_equal. apply IH. intros H. apply Hn. now right.
  - f_equal. apply IH; auto.
Qed.

Lemma update_column_absent name f cols :
  lookup name cols = None -> map (update_column name f) cols = cols.
Proof.
  induction cols as [|[n c] cols IH]; simpl; auto.
  unfold update_column at 1. simpl.
  destruct (String.eqb n name); [discriminate|].
  intros H. now rewrite IH.
Qed.

Lemma column_names_map_update name f cols :
  map fst (map (update_column name f) cols) = map fst cols.
Proof.
  rewrite map_map. apply map_ext. intros [n c]. unfold update_column; simpl.
  now destruct (String.eqb n name).
Qed.

(** An assignment to one column, guarded by its presence, is a map over
    the columns. *)
Lemma when_column_frame_map name rhs f d d' :
  NoDup (column_names d) ->
  (forall s s', lookup name (columns d) = Some s -> rhs d = Ok s' ->
                s' = f s) ->
  when_column_frame name (assign_frame name rhs) d = Ok d' ->
  d' = map_columns (update_column name f) d.
Proof.
  intros Hnd Hf H. unfold when_column_frame in H.
  destruct (has_column name d) eqn:E.
  - apply has_column_lookup in E. destruct E as [s Hs].
    apply assign_frame_ok in H. destruct H as (s' & Hr & ->).
    rewrite (Hf s s' Hs Hr). unfold setitem, map_columns.
    now rewrite set_column_update.
  - injection H as <-. unfold map_columns.
    rewrite update_column_absent; [now rewrite frame_eta|].
    destruct (lookup name (columns d)) eqn:El; auto.
    assert (has_column name d = true) by (apply has_column_lookup; eauto).
    congruence.
Qed.

(** The three phases of the block, as functions of a column. *)
Definition to_bool_series (s : Series) : Series :=
  mkSeries bool_
    (map (fun c => VBool (truthy c)) (values (fillna (VBool false) s))).

Definition fill_column (c : string * Series) : string * Series :=
  if existsb (String.eqb (fst c)) ["description"; "location_description"]
  then (fst c, fillna (VStr "UNKNOWN") (snd c)) else c.

Definition bool_column (c : string * Series) : string * Series :=
  if existsb (String.eqb (fst c)) ["arrest"; "domestic"]
  then (fst c, to_bool_series (snd c)) else c.

Definition text_column (c : string * Series) : string * Series :=
  if np_dtype_eqb (dtype (snd c)) object
     && negb (String.eqb (fst c) "date")
  then (fst c, mkSeries object (map norm_cell (values (snd c)))) else c.

Lemma astype_bool_ok s s' :
  astype_bool (fillna (VBool false) s) = Ok s' -> s' = to_bool_series s.
Proof.
  unfold astype_bool, to_bool_series.
  destruct (dtype (fillna (VBool false) s)); intros [= <-]; reflexivity.
Qed.

(** The loop over the text columns. *)
Definition text_column_in (l : list string) (c : string * Series)
  : string * Series :=
  if existsb (String.eqb (fst c)) l && negb (String.eqb (fst c) "date")
  then (fst c, mkSeries object (map norm_cell (values (snd c)))) else c.

Lemma standardize_frame_map col d d' :
  NoDup (column_names d) ->
  (exists s, In (col, s) (columns d)) ->
  standardize_frame col d = Ok d' ->
  d' = map_columns (text_column_in [col]) d.
Proof.
  intros Hnd [s Hin] H. pose proof (lookup_In _ _ _ Hnd Hin) as Hl.
  unfold standardize_frame in H. simpl existsb in H.
  rewrite orb_false_r in H.
  assert (E : forall c, text_column_in [col] c
                        = if String.eqb col "date" then c
                          else update_column col
                                 (fun s => mkSeries object
                                             (map norm_cell (values s))) c).
  { intros [n c]. unfold text_column_in, update_column. simpl.
    rewrite orb_false_r.
    destruct (String.eqb_spec n col) as [->|Hne]; simpl.
    - now destruct (String.eqb col "date").
    - now destruct (String.eqb col "date"). }
  unfold map_columns. rewrite (map_ext _ _ E).
  destruct (String.eqb col "date").
  - injection H as <-. now rewrite map_id, frame_eta.
  - apply assign_frame_ok in H. destruct H as (s' & Hr & ->).
    destruct (strip_upper_ok _ _ _ _ Hl Hr) as [_ ->].
    unfold setitem.
    now rewrite (set_column_update col
                   (fun s => mkSeries object (map norm_cell (values s)))).
Qed.

Lemma text_column_in_cons col l c :
  ~ In col l ->
  text_column_in l (text_column_in [col] c) = text_column_in (col :: l) c.
Proof.
  intros Hn. destruct c as [n s]. unfold text_column_in. simpl.
  rewrite orb_false_r.
  destruct (String.eqb_spec n col) as [->|Hne]; simpl.
  - assert (Ex : existsb (String.eqb col) l = false).
    { destruct (existsb (String.eqb col) l) eqn:E; auto.
      apply existsb_exists in E. destruct E as (x & Hx & Ex).
      apply String.eqb_eq in Ex. subst. contradiction. }
    destruct (String.eqb col "date"); simpl; rewrite Ex; reflexivity.
  - reflexivity.
Qed.

Lemma standardize_all_map l :
  forall d d',
    NoDup (column_names d) -> NoDup l ->
    (forall col, In col l -> exists s, In (col, s) (columns d)) ->
    for_each_frame l standardize_frame d = Ok d' ->
    d' = map_columns (text_column_in l) d.
Proof.
  induction l as [|col l IH]; simpl; intros d d' Hnd Hl Hin H.
  - injection H as <-. unfold map_columns.
    rewrite (map_ext (text_column_in []) (fun c => c)).
    + now rewrite map_id, frame_eta.
    + intros [n s]. reflexivity.
  - apply rbind_ok in H. destruct H as (d1 & H1 & H).
    inversion Hl as [|? ? Hn Hl']; subst.
    apply standardize_frame_map in H1; auto. subst d1.
    apply IH in H; auto.
    + rewrite H. unfold map_columns; simpl. f_equal.
      rewrite map_map. apply map_ext. intros c.
      now apply text_column_in_cons.
    + unfold map_columns, column_names; simpl.
      rewrite map_map.
      rewrite (map_ext (fun x => fst (text_column_in [col] x)) fst); auto.
      intros [n s]. unfold text_column_in; simpl.
      now destruct (_ && _).
    + intros c Hc. destruct (Hin c (or_intror Hc)) as [s Hs].
      unfold map_columns; simpl.
      exists (snd (text_column_in [col] (c, s))).
      apply in_map_iff. exists (c, s). split; auto.
      unfold text_column_in; simpl. now destruct (_ && _).
Qed.

Lemma NoDup_object_columns d :
  NoDup (column_names d) -> NoDup (object_columns d).
Proof.
  unfold column_names, object_columns.
  induction (columns d) as [|[n s] cols IH]; simpl; intros H; auto.
  inversion H as [|? ? Hn Hnd]; subst.
  destruct (np_dtype_eqb (dtype s) object); simpl; auto.
  constructor; auto. intros Hin. apply Hn.
  apply in_map_iff in Hin. destruct Hin as (x & <- & Hx).
  apply filter_In in Hx. apply in_map. tauto.
Qed.

Lemma np_dtype_eqb_eq a b : np_dtype_eqb a b = true <-> a = b.
Proof. destruct a, b; simpl; split; congruence. Qed.

Lemma text_column_in_object d c :
  NoDup (column_names d) -> In c (columns d) ->
  text_column_in (object_columns d) c = text_column c.
Proof.
  intros Hnd Hin. destruct c as [n s]. unfold text_column_in, text_column.
  simpl.
  assert (X : existsb (String.eqb n) (object_columns d)
              = np_dtype_eqb (dtype s) object).
  { destruct (np_dtype_eqb (dtype s) object) eqn:E.
    - apply existsb_exists. exists n. split; [|apply String.eqb_refl].
      unfold object_columns. apply in_map_iff. exists (n, s). split; auto.
      apply filter_In. auto.
    - destruct (existsb (String.eqb n) (object_columns d)) eqn:Ex; auto.
      apply existsb_exists in Ex. destruct Ex as (x & Hx & Ee).
      apply String.eqb_eq in Ee. subst x.
      apply object_columns_In in Hx. destruct Hx as (s' & Hin' & Hd).
      pose proof (lookup_In _ _ _ Hnd Hin) as L1.
      pose proof (lookup_In _ _ _ Hnd Hin') as L2.
      rewrite L1 in L2. injection L2 as <-.
      rewrite Hd in E. discriminate. }
  now rewrite X.
Qed.

Lemma lookup_map g name cols :
  (forall c, fst (g c) = fst c) ->
  lookup name (map g cols)
  = option_map (fun s => snd (g (name, s))) (lookup name cols).
Proof.
  intros Hg. induction cols as [|[n s] cols IH]; simpl; auto.
  specialize (Hg (n, s)) as Hn. destruct (g (n, s)) as [n' s'] eqn:E.
  simpl in Hn. subst n'.
  destruct (String.eqb_spec n name) as [->|]; simpl; auto.
  now rewrite E.
Qed.

Lemma column_names_map_columns g d :
  (forall c, fst (g c) = fst c) ->
  column_names (map_columns g d) = column_names d.
Proof.
  intros H. unfold column_names, map_columns; simpl.
  rewrite map_map. now apply map_ext.
Qed.

Lemma fst_update_column name f c : fst (update_column name f c) = fst c.
Proof. unfold update_column. now destruct (String.eqb _ _). Qed.

Lemma fst_fill_column c : fst (fill_column c) = fst c.
Proof. unfold fill_column. now destruct (existsb _ _). Qed.

Lemma fst_bool_column c : fst (bool_column c) = fst c.
Proof. unfold bool_column. now destruct (existsb _ _). Qed.

Lemma fst_text_column c : fst (text_column c) = fst c.
Proof. unfold text_column. now destruct (_ && _). Qed.

Lemma map_columns_map_columns g h d :
  map_columns g (map_columns h d) = map_columns (fun c => g (h c)) d.
Proof. unfold map_columns; simpl. now rewrite map_map. Qed.

Lemma map_columns_ext g h d :
  (forall c, g c = h c) -> map_columns g d = map_columns h d.
Proof. intros H. unfold map_columns. f_equal. now apply map_ext. Qed.

Lemma phases_pointwise c :
  update_column "domestic" to_bool_series
    (update_column "arrest" to_bool_series
       (update_column "location_description" (fillna (VStr "UNKNOWN"))
          (update_column "description" (fillna (VStr "UNKNOWN")) c)))
  = bool_column (fill_column c).
Proof.
  destruct c as [n s]. unfold bool_column, fill_column, update_column.
  simpl.
  repeat match goal with
  | |- context [String.eqb n ?x] =>
      destruct (String.eqb_spec n x) as [->|?]; simpl; try reflexivity
  end.
Qed.

(** The block is three maps over the columns: fill, coerce, normalize. *)
Lemma clean_in_place_columns d d' :
  NoDup (column_names d) ->
  clean_in_place d = Ok d' ->
  d' = map_columns text_column
         (map_columns bool_column (map_columns fill_column d)).
Proof.
  intros Hnd H. unfold clean_in_place in H.
  apply rbind_ok in H. destruct H as (d1 & H1 & H).
  apply rbind_ok in H. destruct H as (d2 & H2 & H).
  apply rbind_ok in H. destruct H as (d3 & H3 & H).
  apply rbind_ok in H. destruct H as (d4 & H4 & H).
  apply (when_column_frame_map _ _ (fillna (VStr "UNKNOWN"))) in H1; auto.
  2:{ intros s s' Hs. unfold fillna_unknown, getitem. rewrite Hs.
      now intros [= <-]. }
  assert (N1 : NoDup (column_names d1)).
  { subst d1. rewrite column_names_map_columns; auto.
    apply fst_update_column. }
  apply (when_column_frame_map _ _ (fillna (VStr "UNKNOWN"))) in H2; auto.
  2:{ intros s s' Hs. unfold fillna_unknown, getitem. rewrite Hs.
      now intros [= <-]. }
  assert (N2 : NoDup (column_names d2)).
  { subst d2. rewrite column_names_map_columns; auto.
    apply fst_update_column. }
  apply (when_column_frame_map _ _ to_bool_series) in H3; auto.
  2:{ intros s s' Hs. unfold fillna_false_astype_bool, getitem.
      rewrite Hs. simpl. apply astype_bool_ok. }
  assert (N3 : NoDup (column_names d3)).
  { subst d3. rewrite column_names_map_columns; auto.
    apply fst_update_column. }
  apply (when_column_frame_map _ _ to_bool_series) in H4; auto.
  2:{ intros s s' Hs. unfold fillna_false_astype_bool, getitem.
      rewrite Hs. simpl. apply astype_bool_ok. }
  assert (N4 : NoDup (column_names d4)).
  { subst d4. rewrite column_names_map_columns; auto.
    apply fst_update_column. }
  apply standardize_all_map in H; auto using NoDup_object_columns.
  2:{ intros col Hc. apply object_columns_In in Hc.
      destruct Hc as (s & Hs & _). eauto. }
  assert (E : d' = map_columns text_column d4).
  { rewrite H. unfold map_columns. f_equal. apply map_ext_in.
    intros c Hc. now apply text_column_in_object. }
  rewrite E. f_equal. subst d4 d3 d2 d1.
  rewrite !map_columns_map_columns.
  apply map_columns_ext. intros [n s].
  apply phases_pointwise.
Qed.

(** * Well-formed frames stay well formed *)

Lemma mask_filter_length_eq {A B} mask (a : list A) (b : list B) :
  length a = length b ->
  length (mask_filter mask a) = length (mask_filter mask b).
Proof.
  revert a b; induction mask as [|m mask IH]; intros [|x a] [|y b];
    simpl; intros H; try discriminate; auto.
  destruct m; simpl; auto.
Qed.

Lemma well_formed_take_rows mask d :
  well_formed d -> well_formed (take_rows mask d).
Proof.
  intros [Hl Hn]. split.
  - unfold take_rows; simpl. apply Forall_map.
    eapply Forall_impl; [|exact Hl]. intros c Hc; simpl.
    now apply mask_filter_length_eq.
  - unfold column_names, take_rows; simpl. rewrite map_map. exact Hn.
Qed.

Lemma well_formed_map_columns g d :
  (forall c, fst (g c) = fst c) ->
  (forall c, length (values (snd (g c))) = length (values (snd c))) ->
  well_formed d -> well_formed (map_columns g d).
Proof.
  intros Hf Hg [Hl Hn]. split.
  - unfold map_columns; simpl. apply Forall_map.
    eapply Forall_impl; [|exact Hl]. intros c Hc; simpl. now rewrite Hg.
  - now rewrite column_names_map_columns.
Qed.

Lemma length_fill_column c :
  length (values (snd (fill_column c))) = length (values (snd c)).
Proof.
  unfold fill_column, fillna. destruct (existsb _ _); simpl; auto.
  destruct (existsb isnull _); simpl; auto. apply length_map.
Qed.

Lemma length_bool_column c :
  length (values (snd (bool_column c))) = length (values (snd c)).
Proof.
  unfold bool_column, to_bool_series, fillna.
  destruct (existsb _ _); simpl; auto. rewrite length_map.
  destruct (existsb isnull _); simpl; auto. apply length_map.
Qed.

Lemma length_text_column c :
  length (values (snd (text_column c))) = length (values (snd c)).
Proof.
  unfold text_column. destruct (_ && _); simpl; auto. apply length_map.
Qed.

Lemma dropna_ok d names d' :
  dropna d names = Ok d' ->
  exists sub, select d names = Ok sub
              /\ d' = take_rows (map negb (isnull_any sub)) d.
Proof.
  unfold dropna. intros H. apply rbind_ok in H.
  destruct H as (sub & Hs & H). injection H as <-. eauto.
Qed.

(** What cleaning returns: the two row filters, then the three maps. *)
Lemma clean_frame_ok d d' :
  well_formed d -> clean_frame d = Ok d' ->
  exists sub,
    select (drop_duplicates d) critical_fields = Ok sub
    /\ d' = map_columns text_column
              (map_columns bool_column
                 (map_columns fill_column
                    (take_rows (map negb (isnull_any sub))
                               (drop_duplicates d)))).
Proof.
  intros Hwf H. unfold clean_frame in H.
  apply rbind_ok in H. destruct H as (d2 & H2 & H).
  apply dropna_ok in H2. destruct H2 as (sub & Hs & ->).
  exists sub. split; auto.
  apply clean_in_place_columns; auto.
  apply well_formed_take_rows, well_formed_take_rows, Hwf.
Qed.

Lemma well_formed_clean_frame d d' :
  well_formed d -> clean_frame d = Ok d' -> well_formed d'.
Proof.
  intros Hwf H. destruct (clean_frame_ok _ _ Hwf H) as (sub & _ & ->).
  apply well_formed_map_columns;
    auto using fst_text_column, length_text_column.
  apply well_formed_map_columns;
    auto using fst_bool_column, length_bool_column.
  apply well_formed_map_columns;
    auto using fst_fill_column, length_fill_column.
  apply well_formed_take_rows, well_formed_take_rows, Hwf.
Qed.

(** In what cleaning returns, the flags are boolean and the text is
    normalized. *)
Lemma clean_frame_flags_and_text d d' :
  well_formed d -> clean_frame d = Ok d' ->
  (forall name s,
      In name ["arrest"; "domestic"] ->
      lookup name (columns d') = Some s ->
      dtype s = bool_ /\ Forall (fun c => exists b, c = VBool b) (values s))
  /\ (forall name s,
        In (name, s) (columns d') ->
        dtype s = object -> name <> "date" ->
        Forall normalized_text (values s)).
Proof.
  intros Hwf H. pose proof (well_formed_clean_frame _ _ Hwf H) as [_ Hnd].
  destruct (clean_frame_ok _ _ Hwf H) as (sub & _ & E).
  split.
  - intros name s Hname Hl. rewrite E in Hl.
    unfold map_columns in Hl; simpl in Hl. rewrite !map_map in Hl.
    rewrite lookup_map in Hl
      by (intros c; now rewrite fst_text_column, fst_bool_column,
                               fst_fill_column).
    destruct (lookup name _) as [s0|]; [|discriminate].
    cbn [option_map] in Hl. injection Hl as <-. cbv beta.
    assert (Hs : forall x,
               snd (text_column (bool_column (fill_column (name, x))))
               = to_bool_series x).
    { intros x. destruct Hname as [<-|[<-|[]]]; reflexivity. }
    rewrite Hs. simpl. split; auto.
    apply Forall_map. apply Forall_forall. eauto.
  - intros name s Hin Hd Hne.
    rewrite E in Hin. unfold map_columns in Hin; simpl in Hin.
    apply in_map_iff in Hin. destruct Hin as ([n2 s2] & E2 & _).
    unfold text_column in E2. simpl in E2.
    destruct (np_dtype_eqb (dtype s2) object) eqn:Ed; simpl in E2.
    + destruct (String.eqb_spec n2 "date") as [->|]; simpl in E2.
      * injection E2 as <- <-. congruence.
      * injection E2 as <- <-. simpl. apply Forall_map.
        apply Forall_forall. intros c _. apply norm_cell_normalized.
    + injection E2 as <- <-. rewrite Hd in Ed. discriminate.
Qed.

(** * The cleaned sample table *)

Lemma reloaded_world_df : df (self reloaded_world) = Some 0%nat.
Proof. vm_compute. reflexivity. Qed.

Lemma reloaded_world_table :
  deref (heap reloaded_world) 0%nat = sample_clean_table.
Proof. vm_compute. reflexivity. Qed.

Lemma sample_clean_table_well_formed : well_formed sample_clean_table.
Proof.
  split.
  - repeat constructor.
  - unfold column_names; simpl. repeat constructor; simpl;
      intuition discriminate.
Qed.

Lemma sample_clean_table_cleaned : cleaned sample_clean_table.
Proof.
  constructor.
  - vm_compute. reflexivity.
  - repeat constructor; eexists; split; reflexivity.
  - intros name s [<-|[<-|[]]] H; vm_compute in H;
      try discriminate; injection H as <-; reflexivity.
  - intros name s [<-|[<-|[]]] H; vm_compute in H;
      try discriminate; injection H as <-; split; [reflexivity|].
    repeat constructor; eexists; reflexivity.
  - intros name s Hin Hd Hne. simpl in Hin.
    repeat (destruct Hin as [E|Hin];
            [injection E as <- <-;
             first
               [ discriminate Hd
               | congruence
               | simpl;
                 repeat (apply Forall_cons;
                         [first [ left; reflexivity
                                | right; eexists;
                                  split; [reflexivity
                                         | vm_compute; reflexivity] ]|]);
                 apply Forall_nil ]
            |]).
    destruct Hin.
Qed.

(* ================================================================== *)
(** * [clean_data] against the five steps of the specification *)
(* ================================================================== *)

(** ** Masks, rows and records *)

Lemma mask_filter_nil {A} mask : @mask_filter A mask [] = [].
Proof. now destruct mask. Qed.

Lemma mask_filter_map {A B} (f : A -> B) mask l :
  mask_filter mask (map f l) = map f (mask_filter mask l).
Proof.
  revert l; induction mask as [|b mask IH]; intros [|x l]; simpl; auto.
  destruct b; simpl; now rewrite IH.
Qed.

Lemma mask_filter_combine {A B} mask (a : list A) (b : list B) :
  combine (mask_filter mask a) (mask_filter mask b)
  = mask_filter mask (combine a b).
Proof.
  revert a b; induction mask as [|m mask IH]; intros [|x a] [|y b];
    simpl; auto.
  - destruct m; simpl; auto. now destruct (mask_filter mask a).
  - destruct m; simpl; now rewrite IH.
Qed.

Lemma mask_filter_repeat {A B} mask (x : A) (l : list B) :
  mask_filter mask (repeat x (length l))
  = repeat x (length (mask_filter mask l)).
Proof.
  revert l; induction mask as [|m mask IH]; intros [|y l]; simpl; auto.
  destruct m; simpl; now rewrite IH.
Qed.

Lemma zip_rows_mask_filter mask cols (idx : list Z) :
  zip_rows (map (mask_filter mask) cols) (length (mask_filter mask idx))
  = mask_filter mask (zip_rows cols (length idx)).
Proof.
  induction cols as [|c cs IH]; simpl.
  - now rewrite mask_filter_repeat.
  - now rewrite IH, mask_filter_combine, mask_filter_map.
Qed.

Lemma rows_take_rows mask d :
  rows (take_rows mask d) = mask_filter mask (rows d).
Proof.
  unfold rows, take_rows; simpl. rewrite map_map. simpl.
  rewrite <- zip_rows_mask_filter. now rewrite map_map.
Qed.

Lemma table_of_take_rows mask d :
  table_of (take_rows mask d)
  = Spec.mkTable (Spec.header (table_of d))
                 (mask_filter mask (Spec.records (table_of d))).
Proof.
  unfold table_of. cbn [Spec.header Spec.records].
  rewrite rows_take_rows.
  unfold take_rows; cbn [columns index].
  rewrite mask_filter_combine, map_map. reflexivity.
Qed.

(** ** Step 1 *)

Lemma remove_duplicates_mask seen (idx : list Z) rs :
  length idx = length rs ->
  mask_filter (map negb (duplicated_rows seen rs)) (combine idx rs)
  = Spec.remove_duplicates seen (combine idx rs).
Proof.
  revert seen idx; induction rs as [|r rs IH]; intros seen [|i idx] H;
    simpl in *; try discriminate; auto.
  destruct (existsb (row_eqb r) seen); simpl; rewrite IH; auto.
Qed.

Lemma table_of_drop_duplicates d :
  well_formed d ->
  table_of (drop_duplicates d) = Spec.step1 (table_of d).
Proof.
  intros Hwf. unfold drop_duplicates. rewrite table_of_take_rows.
  unfold Spec.step1. f_equal. unfold table_of, duplicated; simpl.
  apply remove_duplicates_mask. symmetry. now apply rows_length.
Qed.

(* ================================================================== *)
(** * The claims of the specification *)
(* ================================================================== *)

(** ** C10: [load_data] without a path *)

(** C10.  When [load_data] is called without a path argument on an
    analyzer built without a path, it raises
    [ValueError("Data path must be provided")] and leaves the world as it
    was: nothing was read (the list of [read_csv] calls is unchanged), no
    table became loaded, nothing was printed.  The errors of the read
    itself ([FileNotFoundError], any other exception of [read_csv]) arise
    only when a path was given, after the read was attempted on it. *)
Theorem load_data_without_path :
  forall w : world,
    (data_path (self w) = None ->
     run (load_data None) w =
     (Raise (ValueError "Data path must be provided"), w))
    /\ (forall arg path,
          py_or arg (data_path (self w)) = Some path ->
          reads (after (load_data arg) w) = reads w ++ [path])
    /\ (forall arg path e,
          py_or arg (data_path (self w)) = Some path ->
          files w path = Raise e ->
          run (load_data arg) w =
          (Raise e,
           mkWorld (self w) (heap w) (files w) (reads w ++ [path])
                   (stdout w ++
                      [Loading path;
                       match e with
                       | FileNotFoundError _ => File_not_found path
                       | _ => Load_error e
                       end]))).
Proof.
  intros w; repeat split.
  - intros H. unfold load_data, run, bind, get_self. simpl.
    rewrite H. reflexivity.
  - intros arg path Hp.
    unfold after, load_data, run, bind, get_self. rewrite Hp.
    unfold print, try_except, read_csv; simpl.
    destruct (files w path) as [d|e]; simpl; auto.
    destruct e; reflexivity.
  - intros arg path e Hp Hf.
    unfold load_data, run, bind, get_self. rewrite Hp.
    unfold print, try_except, read_csv; simpl. rewrite Hf.
    destruct e; simpl; rewrite <- app_assoc; reflexivity.
Qed.

Lemma load_data_without_path_witness :
  run (load_data None) sample_world =
  (Raise (ValueError "Data path must be provided"), sample_world)
  /\ reads (after (load_data (Some "missing.csv")) sample_world)
     = ["missing.csv"]
  /\ fst (run (load_data (Some "missing.csv")) sample_world)
     = Raise (FileNotFoundError "missing.csv").
Proof.
  pose proof (load_data_without_path sample_world) as (H1 & H2 & H3).
  split; [|split].
  - apply H1. vm_compute. reflexivity.
  - apply (H2 (Some "missing.csv") "missing.csv"). vm_compute. reflexivity.
  - rewrite (H3 (Some "missing.csv") "missing.csv"
                (FileNotFoundError "missing.csv"));
      vm_compute; reflexivity.
Defined.

(** ** C2: trend analysis before its prerequisite *)

(** C2, as the code has it.  When no cleaned table exists ([clean_df] is
    unset) [analyze_trends] raises the [ValueError] of its guard, the
    InvalidState signal of the script, and in every state, whatever it
    returns or raises, it leaves the world untouched. *)
Theorem analyze_trends_guard :
  forall w : world,
    (clean_df (self w) = None ->
     run analyze_trends w =
     (Raise (ValueError "Data not prepared. Call clean_data() first."), w))
    /\ after analyze_trends w = w.
Proof.
  intros w; split.
  - intros H. unfold analyze_trends, run, bind, get_self. rewrite H.
    reflexivity.
  - apply read_only_analyze_trends.
Qed.

Lemma analyze_trends_guard_witness :
  run analyze_trends sample_loaded =
  (Raise (ValueError "Data not prepared. Call clean_data() first."),
   sample_loaded)
  /\ after analyze_trends sample_cleaned = sample_cleaned.
Proof.
  split.
  - apply (proj1 (analyze_trends_guard sample_loaded)).
    vm_compute. reflexivity.
  - apply (proj2 (analyze_trends_guard sample_cleaned)).
Defined.

(** C2, as stated, fails after cleaning and before feature engineering:
    the guard passes, because [clean_df] is set, and the first
    [groupby('year')] raises [KeyError('year')], which is not the
    [ValueError] of the guard. *)
Lemma analyze_trends_after_cleaning_is_a_KeyError :
  clean_df (self sample_cleaned) = Some 3%nat
  /\ has_column "year" (deref (heap sample_cleaned) 3%nat) = false
  /\ fst (run analyze_trends sample_cleaned) = Raise (KeyError "year")
  /\ ~ (exists msg,
          fst (run analyze_trends sample_cleaned) = Raise (ValueError msg)).
Proof.
  assert (E : fst (run analyze_trends sample_cleaned) = Raise (KeyError "year"))
    by (vm_compute; reflexivity).
  repeat split; try (vm_compute; reflexivity).
  intros [msg H]. rewrite E in H. discriminate.
Qed.

(** ** C1: the KPIs of a table with a zero-day date span *)

(** C1, what the code does.  When the smallest and the largest date of
    the current table are the same timestamp, [calculate_kpis] never
    returns: whatever else happens, it ends in an exception and no KPI
    dictionary comes back.  On a cleaned and enriched table of one record
    the exception is the [ZeroDivisionError] of
    [len(df) / date_range_days]; the total count, the arrest rate, the
    domestic and the violent percentage computed before it are lost with
    it. *)
Theorem calculate_kpis_zero_day_span :
  (forall w r date t,
      clean_df (self w) = Some r ->
      getitem (deref (heap w) r) "date" = Ok date ->
      series_min date = VTime t ->
      series_max date = VTime t ->
      exists e, run calculate_kpis w = (Raise e, w))
  /\ run calculate_kpis single_enriched =
     (Raise (ZeroDivisionError "division by zero"), single_enriched).
Proof.
  split.
  - intros w r date t Hc Hd Hmin Hmax.
    rewrite (read_only_run calculate_kpis w read_only_calculate_kpis).
    destruct (fst (run calculate_kpis w)) as [kpis|e] eqn:E; eauto.
    exfalso. revert E.
    unfold calculate_kpis, run, bind, get_self. rewrite Hc.
    unfold load, lift.
    rewrite Hd, Hmin, Hmax. simpl. rewrite Z.sub_diag. simpl.
    repeat match goal with
    | |- context [kpi_percentage ?a ?b ?c ?d ?w] =>
        destruct (kpi_percentage a b c d w) as [[?|?] ?]; [|discriminate]
    end.
    discriminate.
  - vm_compute. reflexivity.
Qed.

Lemma calculate_kpis_zero_day_span_witness :
  exists e, run calculate_kpis single_enriched = (Raise e, single_enriched).
Proof.
  apply (proj1 calculate_kpis_zero_day_span single_enriched 4%nat
           (mkSeries datetime64 [VTime (Calendar.timestamp 2024 1 1 5)])
           (Calendar.timestamp 2024 1 1 5));
    vm_compute; reflexivity.
Defined.

(** ** C3: time of day and season *)

(** C3.  [categorize_time] and [get_season] are total functions of the
    hour and of the month with the buckets of the specification, lower
    bound included and upper bound excluded; and in every enriched table
    the [time_of_day] cell of a row is [categorize_time] of its [hour]
    cell and the [season] cell is [get_season] of its [month] cell, both
    of them strings, never a missing value. *)
Theorem time_of_day_and_season_buckets :
  (forall h : Z,
      (6 <= h < 12 -> categorize_time (VInt h) = Ok "Morning")
      /\ (12 <= h < 18 -> categorize_time (VInt h) = Ok "Afternoon")
      /\ (18 <= h < 24 -> categorize_time (VInt h) = Ok "Evening")
      /\ (0 <= h < 6 -> categorize_time (VInt h) = Ok "Night"))
  /\ (forall m : Z,
      (In m [12; 1; 2] -> get_season (VInt m) = "Winter")
      /\ (In m [3; 4; 5] -> get_season (VInt m) = "Spring")
      /\ (In m [6; 7; 8] -> get_season (VInt m) = "Summer")
      /\ (In m [9; 10; 11] -> get_season (VInt m) = "Fall"))
  /\ (categorize_time (VInt 6) = Ok "Morning"
      /\ categorize_time (VInt 5) = Ok "Night"
      /\ categorize_time (VInt 18) = Ok "Evening"
      /\ categorize_time (VInt 0) = Ok "Night")
  /\ (forall w r w',
        run engineer_features w = (Ok r, w') ->
        exists hours months tod seas,
          getitem (deref (heap w') r) "hour" = Ok hours
          /\ getitem (deref (heap w') r) "month" = Ok months
          /\ getitem (deref (heap w') r) "time_of_day" = Ok tod
          /\ getitem (deref (heap w') r) "season" = Ok seas
          /\ Forall2 (fun h t => exists name,
                          categorize_time h = Ok name /\ t = VStr name)
                     (values hours) (values tod)
          /\ Forall2 (fun m t => t = VStr (get_season m))
                     (values months) (values seas)).
Proof.
  split; [|split; [|split]].
  - intros h. rewrite categorize_time_int.
    repeat split; intros H;
      repeat match goal with
      | |- context [?a <=? ?b] => destruct (Z.leb_spec a b); try lia
      | |- context [?a <? ?b] => destruct (Z.ltb_spec a b); try lia
      end; reflexivity.
  - intros m. rewrite get_season_int.
    repeat split; simpl; intros H;
      repeat (destruct H as [<-|H]; [reflexivity|]); contradiction.
  - repeat split; reflexivity.
  - intros w r w' H.
    apply engineer_features_ok in H.
    destruct H as (c & d' & Hc & Hf & _ & _ & _ & Hd).
    rewrite Hd. apply engineer_frame_enriched in Hf.
    destruct Hf as (date & E).
    destruct (en_time_of_day _ _ _ E) as (tod & Ha & Ht).
    destruct (en_season _ _ _ E) as (seas & Hb & Hs).
    exists (dt_int_field Calendar.hour date),
           (dt_int_field Calendar.month date), tod, seas.
    repeat split; try (apply E); auto.
    + now apply apply_ok.
    + apply apply_ok in Hb.
      induction Hb as [|m t ms ts (name & Hn & ->) _ IH]; constructor; auto.
      injection Hn as <-. reflexivity.
Qed.

Lemma time_of_day_and_season_buckets_witness :
  categorize_time (VInt 11) = Ok "Morning"
  /\ get_season (VInt 11) = "Fall"
  /\ exists hours months tod seas,
       getitem (deref (heap sample_enriched) 4%nat) "hour" = Ok hours
       /\ getitem (deref (heap sample_enriched) 4%nat) "month" = Ok months
       /\ getitem (deref (heap sample_enriched) 4%nat) "time_of_day" = Ok tod
       /\ getitem (deref (heap sample_enriched) 4%nat) "season" = Ok seas
       /\ Forall2 (fun h t => exists name,
                       categorize_time h = Ok name /\ t = VStr name)
                  (values hours) (values tod)
       /\ Forall2 (fun m t => t = VStr (get_season m))
                  (values months) (values seas).
Proof.
  pose proof time_of_day_and_season_buckets as (H1 & H2 & _ & H4).
  split; [|split].
  - apply (proj1 (H1 11)). lia.
  - apply (proj2 (proj2 (proj2 (H2 11)))). simpl. tauto.
  - apply (H4 sample_cleaned 4%nat sample_enriched).
    exact sample_enriched_run.
Defined.

(** ** C4: the violent flag *)

(** C4.  In every enriched table built from a cleaned table with a
    [primary_type] column, the [is_violent] cell of a row is [True] if
    and only if its [primary_type] cell is one of the six strings of
    [violent_crimes], letter for letter; when the cleaned table has no
    [primary_type] column, no [is_violent] column is written. *)
Theorem is_violent_iff_listed_category :
  violent_crimes = ["HOMICIDE"; "ASSAULT"; "BATTERY"; "ROBBERY";
                    "CRIMINAL SEXUAL ASSAULT"; "KIDNAPPING"]
  /\ (forall w r w',
        run engineer_features w = (Ok r, w') ->
        exists c,
          clean_df (self w) = Some c
          /\ (forall category,
                getitem (deref (heap w) c) "primary_type" = Ok category ->
                exists flags,
                  getitem (deref (heap w') r) "is_violent" = Ok flags
                  /\ dtype flags = bool_
                  /\ Forall2
                       (fun cat flag =>
                          exists b, flag = VBool b
                            /\ (b = true <->
                                exists s, cat = VStr s /\ In s violent_crimes))
                       (values category) (values flags))
          /\ (has_column "primary_type" (deref (heap w) c) = false ->
              lookup "is_violent" (columns (deref (heap w') r))
              = lookup "is_violent" (columns (deref (heap w) c))))
  /\ isin (mkSeries object [VStr "BATTERY"; VStr "THEFT"])
          (map VStr violent_crimes)
     = mkSeries bool_ [VBool true; VBool false].
Proof.
  split; [reflexivity | split; [|reflexivity]].
  intros w r w' H.
  apply engineer_features_ok in H.
  destruct H as (c & d' & Hc & Hf & _ & _ & _ & Hd).
  exists c. split; auto. rewrite Hd.
  apply engineer_frame_enriched in Hf. destruct Hf as (date & E).
  pose proof (en_violent _ _ _ E) as V.
  split.
  - intros category Hg. apply getitem_ok_lookup in Hg. rewrite Hg in V.
    eexists; split; [exact V | split; [reflexivity|]].
    unfold isin. cbn [values].
    induction (values category) as [|cat cats IH]; cbn [map];
      constructor; auto.
    eexists; split; [reflexivity|]. apply isin_strings_true.
  - intros Hn.
    destruct (lookup "primary_type" (columns (deref (heap w) c)))
      as [s|] eqn:El; auto.
    assert (has_column "primary_type" (deref (heap w) c) = true)
      by (apply has_column_lookup; eauto).
    congruence.
Qed.

Lemma is_violent_iff_listed_category_witness :
  exists flags,
    getitem (deref (heap sample_enriched) 4%nat) "is_violent" = Ok flags
    /\ dtype flags = bool_
    /\ Forall2
         (fun cat flag =>
            exists b, flag = VBool b
              /\ (b = true <->
                  exists s, cat = VStr s /\ In s violent_crimes))
         [VStr "THEFT"; VStr "BATTERY"; VStr "ROBBERY"] (values flags).
Proof.
  destruct (proj1 (proj2 is_violent_iff_listed_category)
              sample_cleaned 4%nat sample_enriched sample_enriched_run)
    as (c & Hc & Hv & _).
  rewrite sample_cleaned_self in Hc. injection Hc as <-.
  apply (Hv (mkSeries object [VStr "THEFT"; VStr "BATTERY"; VStr "ROBBERY"])).
  vm_compute. reflexivity.
Defined.

(** ** C6: row counts *)

(** C6.  The cleaned table never has more rows than the raw table.
    Feature engineering keeps the row labels of the cleaned table as they
    are, in their order (so the row count too), keeps every column that
    is not one of the derived columns cell for cell, and keeps the
    columns of the cleaned table in their order, with derived columns
    after them. *)
Theorem row_counts_through_the_pipeline :
  (forall w r w',
      run clean_data w = (Ok r, w') ->
      exists raw,
        df (self w) = Some raw
        /\ len (deref (heap w') r) <= len (deref (heap w) raw))
  /\ (forall w r w',
        run engineer_features w = (Ok r, w') ->
        exists c,
          clean_df (self w) = Some c
          /\ len (deref (heap w') r) = len (deref (heap w) c)
          /\ index (deref (heap w') r) = index (deref (heap w) c)
          /\ (forall name,
                existsb (String.eqb name) derived_columns = false ->
                lookup name (columns (deref (heap w') r))
                = lookup name (columns (deref (heap w) c)))
          /\ (exists added,
                column_names (deref (heap w') r)
                = column_names (deref (heap w) c) ++ added
                /\ incl added derived_columns)).
Proof.
  split.
  - intros w r w' H. apply clean_data_ok in H.
    destruct H as (raw & d' & Hdf & Hf & _ & _ & _ & Hd).
    exists raw. split; auto. rewrite Hd. now apply clean_frame_len.
  - intros w r w' H. apply engineer_features_ok in H.
    destruct H as (c & d' & Hc & Hf & _ & _ & _ & Hd).
    exists c. split; auto. rewrite Hd.
    apply engineer_frame_enriched in Hf. destruct Hf as (date & E).
    pose proof (en_index _ _ _ E) as Hi.
    repeat split.
    + unfold len. now rewrite Hi.
    + exact Hi.
    + apply E.
    + apply E.
Qed.

Lemma row_counts_through_the_pipeline_witness :
  (exists raw,
      df (self sample_loaded) = Some raw
      /\ len (deref (heap sample_cleaned) 3%nat)
         <= len (deref (heap sample_loaded) raw))
  /\ (exists c,
        clean_df (self sample_cleaned) = Some c
        /\ len (deref (heap sample_enriched) 4%nat)
           = len (deref (heap sample_cleaned) c)
        /\ index (deref (heap sample_enriched) 4%nat)
           = index (deref (heap sample_cleaned) c)
        /\ (forall name,
              existsb (String.eqb name) derived_columns = false ->
              lookup name (columns (deref (heap sample_enriched) 4%nat))
              = lookup name (columns (deref (heap sample_cleaned) c)))
        /\ (exists added,
              column_names (deref (heap sample_enriched) 4%nat)
              = column_names (deref (heap sample_cleaned) c) ++ added
              /\ incl added derived_columns)).
Proof.
  split.
  - apply (proj1 row_counts_through_the_pipeline
             sample_loaded 3%nat sample_cleaned).
    exact sample_cleaned_run.
  - apply (proj2 row_counts_through_the_pipeline
             sample_cleaned 4%nat sample_enriched).
    exact sample_enriched_run.
Defined.

(** ** C9: no table is mutated *)

(** C9.  [clean_data] and [engineer_features] work on a copy: the store
    after them is the store before them followed by new frames, so every
    frame that existed before the call, the raw table among them, has the
    contents it had, and [self.df] still refers to the raw table.  The
    exploration step and the four analyzers leave the whole world as it
    was, the raw table and the current cleaned or enriched table
    included. *)
Theorem tables_are_never_mutated :
  forall w : world,
    ((exists ext, heap (after clean_data w) = heap w ++ ext)
     /\ df (self (after clean_data w)) = df (self w)
     /\ forall r, (r < length (heap w))%nat ->
          deref (heap (after clean_data w)) r = deref (heap w) r)
    /\ ((exists ext, heap (after engineer_features w) = heap w ++ ext)
        /\ df (self (after engineer_features w)) = df (self w)
        /\ forall r, (r < length (heap w))%nat ->
             deref (heap (after engineer_features w)) r = deref (heap w) r)
    /\ after explore_data w = w
    /\ after analyze_trends w = w
    /\ after analyze_crime_types w = w
    /\ after analyze_geographic w = w
    /\ after calculate_kpis w = w.
Proof.
  intros w.
  destruct (clean_data_grows w) as ((ext1 & H1) & D1).
  destruct (engineer_features_grows w) as ((ext2 & H2) & D2).
  repeat split; eauto.
  - intros r Hr. rewrite H1. now apply deref_app_old.
  - intros r Hr. rewrite H2. now apply deref_app_old.
  - apply read_only_explore_data.
  - apply read_only_analyze_trends.
  - apply read_only_analyze_crime_types.
  - apply read_only_analyze_geographic.
  - apply read_only_calculate_kpis.
Qed.

Lemma tables_are_never_mutated_witness :
  deref (heap (after clean_data sample_loaded)) 0%nat = sample_raw
  /\ deref (heap (after engineer_features sample_cleaned)) 0%nat = sample_raw
  /\ deref (heap (after engineer_features sample_cleaned)) 3%nat
     = deref (heap sample_cleaned) 3%nat
  /\ after calculate_kpis sample_enriched = sample_enriched.
Proof.
  pose proof (tables_are_never_mutated sample_loaded)
    as ((_ & _ & H1) & _).
  pose proof (tables_are_never_mutated sample_cleaned)
    as (_ & (_ & _ & H2) & _).
  pose proof (tables_are_never_mutated sample_enriched)
    as (_ & _ & _ & _ & _ & _ & H3).
  split; [|split; [|split]].
  - rewrite (H1 0%nat); [vm_compute; reflexivity | vm_compute; lia].
  - rewrite (H2 0%nat); [vm_compute; reflexivity | vm_compute; lia].
  - apply (H2 3%nat). vm_compute; lia.
  - exact H3.
Defined.

(** ** C7: yearly counts, year-over-year change and the peak hour *)

(** C7.  On an enriched table with at least one record, whose dates are
    the timestamps [stamps], [analyze_trends] returns, and in its result
    - [yearly_crimes] lists every year that occurs with the number of
      records of that year, years ascending;
    - [yoy_change] has the keys of [yearly_crimes]; its value is NaN,
      pandas' missing value, at the first year, and
      [(current / previous - 1) * 100] in float64 at every later year,
      [previous] being the count of the year listed before it;
    - [peak_hour] is an hour with the largest number of records, the
      smallest such hour when several tie.
    For the counts [2022: 100, 2023: 150] the change is NaN for 2022 and
    exactly 50.0 for 2023. *)
Theorem trends_by_year_and_peak_hour :
  (forall w0 c r w date stamps,
      clean_df (self w0) = Some c ->
      getitem (deref (heap w0) c) "date" = Ok date ->
      values date = map VTime stamps ->
      stamps <> [] ->
      run engineer_features w0 = (Ok r, w) ->
      let records_of_year y :=
        Z.of_nat (count_occ Z.eq_dec (map Calendar.year stamps) y) in
      let records_of_hour h :=
        Z.of_nat (count_occ Z.eq_dec (map Calendar.hour stamps) h) in
      exists t,
        run analyze_trends w = (Ok t, w)
        /\ (forall y n,
              In (VInt y, n) (yearly_crimes t)
              <-> n = records_of_year y /\ 0 < n)
        /\ (exists years,
              map fst (yearly_crimes t) = map VInt years
              /\ StronglySorted Z.lt years)
        /\ map fst (yoy_change t) = map fst (yearly_crimes t)
        /\ (exists first later,
              yoy_change t = (first, nan) :: later
              /\ exists n rest, yearly_crimes t = (first, n) :: rest)
        /\ (forall i previous_year previous year current,
              nth_error (yearly_crimes t) i = Some (previous_year, previous) ->
              nth_error (yearly_crimes t) (S i) = Some (year, current) ->
              nth_error (yoy_change t) (S i)
              = Some (year,
                      PrimFloat.mul
                        (PrimFloat.sub
                           (PrimFloat.div (float_of_Z current)
                                          (float_of_Z previous))
                           (float_of_Z 1))
                        (float_of_Z 100)))
        /\ (exists h,
              peak_hour t = VInt h
              /\ 0 < records_of_hour h
              /\ forall h',
                   records_of_hour h' <= records_of_hour h
                   /\ (records_of_hour h' = records_of_hour h -> h <= h')))
  /\ times_100 (pct_change [(VInt 2022, 100); (VInt 2023, 150)])
     = [(VInt 2022, nan); (VInt 2023, float_of_Z 50)]
  /\ (exists t,
        run analyze_trends trend_enriched = (Ok t, trend_enriched)
        /\ yearly_crimes t = [(VInt 2022, 100); (VInt 2023, 150)]
        /\ yoy_change t = [(VInt 2022, nan); (VInt 2023, float_of_Z 50)]
        /\ peak_hour t = VInt 14).
Proof.
  split; [|split; [vm_compute; reflexivity|]].
  2:{ eexists. split; [vm_compute; reflexivity|].
      repeat split; vm_compute; reflexivity. }
  intros w0 c r w date stamps Hc Hdate Hv Hne Hrun ryear rhour.
  apply engineer_features_ok in Hrun.
  destruct Hrun as (c' & d' & Hc' & Hf & _ & Hself & _ & Hd).
  rewrite Hc in Hc'. injection Hc' as <-.
  apply engineer_frame_enriched in Hf. destruct Hf as (date' & E).
  pose proof (en_get_date _ _ _ E) as Hg. rewrite Hdate in Hg.
  injection Hg as <-.
  pose proof (en_year _ _ _ E) as Hy.
  pose proof (en_month _ _ _ E) as Hm.
  pose proof (en_hour _ _ _ E) as Hh.
  pose proof (en_day_name _ _ _ E) as Hn.
  rewrite (dt_int_field_times _ _ _ Hv) in Hy.
  rewrite (dt_int_field_times _ _ _ Hv) in Hm.
  rewrite (dt_int_field_times _ _ _ Hv) in Hh.
  rewrite (dt_name_field_times _ _ _ Hv) in Hn.
  pose proof (groupby_size_ints _ _ _ _ Hy) as Gy.
  pose proof (groupby_size_ints _ _ _ _ Hh) as Gh.
  destruct (idxmax_sizes (map Calendar.hour stamps)) as (h & n & Ih & Hin & Hmax).
  { destruct stamps; [congruence | discriminate]. }
  set (yearly := sizes Z.compare (map Calendar.year stamps)) in *.
  set (f := fun e : Z * Z => (VInt (fst e), snd e)) in *.
  eexists. split.
  { rewrite (read_only_run analyze_trends w read_only_analyze_trends).
    f_equal.
    unfold analyze_trends, run, bind, get_self. rewrite Hself. simpl.
    unfold load, lift. rewrite Hd, Gy, Gh, Ih.
    unfold groupby2_size, groupby_size. rewrite Hy, Hm, Hn. simpl.
    reflexivity. }
  cbn [yearly_crimes yoy_change peak_hour].
  assert (Hyne : yearly <> []).
  { apply sizes_nonempty. destruct stamps; [congruence | discriminate]. }
  split; [|split; [|split; [|split; [|split]]]].
  - intros y m. unfold ryear. rewrite <- in_sizes. fold yearly. split.
    + intros H. apply in_map_iff in H. destruct H as ([y' m'] & Ee & H).
      unfold f in Ee; simpl in Ee. now injection Ee as -> ->.
    + intros H. apply (in_map f) in H. exact H.
  - exists (map fst yearly). split.
    + rewrite !map_map. reflexivity.
    + apply key_sorted_keys, sizes_sorted.
  - apply yoy_keys.
  - destruct yearly as [|[y m] rest]; [congruence|]. simpl.
    eexists _, _. split; [reflexivity|].
    exists m, (map f rest). reflexivity.
  - intros i py pv y cv H0 H1. exact (yoy_nth _ _ _ _ _ _ H0 H1).
  - exists h. split; [reflexivity|].
    assert (Hn' : n = rhour h /\ 0 < n) by (apply in_sizes; exact Hin).
    destruct Hn' as [-> Hpos]. split; auto.
    intros h'.
    destruct (Z_lt_le_dec 0 (rhour h')) as [Hp|Hz].
    + apply Hmax. apply in_sizes. auto.
    + unfold rhour in *. lia.
Qed.

Lemma trends_by_year_and_peak_hour_witness :
  exists t,
    run analyze_trends trend_enriched = (Ok t, trend_enriched)
    /\ (forall y n,
          In (VInt y, n) (yearly_crimes t)
          <-> n = Z.of_nat
                    (count_occ Z.eq_dec
                       (map Calendar.year
                          (repeat (Calendar.timestamp 2022 6 15 10) 100
                           ++ repeat (Calendar.timestamp 2023 3 1 14) 150))
                       y)
              /\ 0 < n).
Proof.
  destruct (proj1 trends_by_year_and_peak_hour
              trend_cleaned 3%nat 4%nat trend_enriched
              (mkSeries datetime64
                 (map VTime
                      (repeat (Calendar.timestamp 2022 6 15 10) 100
                       ++ repeat (Calendar.timestamp 2023 3 1 14) 150)))
              (repeat (Calendar.timestamp 2022 6 15 10) 100
               ++ repeat (Calendar.timestamp 2023 3 1 14) 150))
    as (t & Ht & Hy & _).
  - vm_compute; reflexivity.
  - vm_compute; reflexivity.
  - reflexivity.
  - discriminate.
  - vm_compute; reflexivity.
  - exists t. split; assumption.
Defined.

(** ** C8: cleaning a cleaned table *)

(** C8.  The Cleaner is idempotent.  When the loaded table is already a
    cleaned table (no duplicate rows; no missing date, primary category,
    latitude or longitude; descriptions filled; flags boolean; text
    trimmed and upper-cased), [clean_data] succeeds and the table it
    builds is identical to its input, labels, column order and dtypes
    included.  And a table that [clean_data] has built is such a cleaned
    table as soon as it has no duplicate rows, no missing critical field
    and no missing description. *)
Theorem cleaning_is_idempotent :
  (forall w raw,
      df (self w) = Some raw ->
      well_formed (deref (heap w) raw) ->
      cleaned (deref (heap w) raw) ->
      exists r w',
        run clean_data w = (Ok r, w')
        /\ deref (heap w') r = deref (heap w) raw)
  /\ (forall w raw r w',
        df (self w) = Some raw ->
        well_formed (deref (heap w) raw) ->
        run clean_data w = (Ok r, w') ->
        forallb negb (duplicated (deref (heap w') r)) = true ->
        Forall (column_complete (deref (heap w') r)) critical_fields ->
        (forall name s,
            In name ["description"; "location_description"] ->
            lookup name (columns (deref (heap w') r)) = Some s ->
            existsb isnull (values s) = false) ->
        well_formed (deref (heap w') r) /\ cleaned (deref (heap w') r)).
Proof.
  split.
  - intros w raw Hdf Hwf Hc.
    pose proof (run_clean_data w raw Hdf) as R. cbv zeta in R.
    rewrite (clean_frame_cleaned _ Hwf Hc) in R.
    eexists _, _. split; [exact R|]. simpl. apply deref_app_third.
  - intros w raw r w' Hdf Hwf Hrun Hdup Hcrit Hfill.
    apply clean_data_ok in Hrun.
    destruct Hrun as (raw' & d' & Hdf' & Hf & _ & _ & _ & Hd).
    rewrite Hdf in Hdf'. injection Hdf' as <-.
    rewrite Hd in *.
    destruct (clean_frame_flags_and_text _ _ Hwf Hf) as [Hb Ht].
    split.
    + eapply well_formed_clean_frame; eauto.
    + constructor; auto.
Qed.

Lemma cleaning_is_idempotent_witness :
  exists r w',
    run clean_data reloaded_world = (Ok r, w')
    /\ deref (heap w') r = deref (heap reloaded_world) 0%nat.
Proof.
  apply (proj1 cleaning_is_idempotent reloaded_world 0%nat).
  - exact reloaded_world_df.
  - rewrite reloaded_world_table. exact sample_clean_table_well_formed.
  - rewrite reloaded_world_table. exact sample_clean_table_cleaned.
Defined.

(** C8, as stated, fails on a table that [clean_data] itself has built.
    The table built from three records whose descriptions are numeric
    codes, one of them missing, has no duplicate row and no missing date,
    primary category, latitude or longitude, and its description column
    reads NaN, UNKNOWN, NaN: the codes are not text, so the last step
    made them missing.  Cleaning that table again fills the two missing
    descriptions, and the table it builds is not the one it was given. *)
Lemma cleaning_a_cleaned_table_can_change_it :
  clean_frame coded_raw = Ok coded_clean_table
  /\ df (self coded_reloaded) = Some 0%nat
  /\ deref (heap coded_reloaded) 0%nat = coded_clean_table
  /\ well_formed coded_clean_table
  /\ forallb negb (duplicated coded_clean_table) = true
  /\ Forall (column_complete coded_clean_table) critical_fields
  /\ lookup "description" (columns coded_clean_table)
     = Some (mkSeries object [NaN; VStr "UNKNOWN"; NaN])
  /\ exists r w',
       run clean_data coded_reloaded = (Ok r, w')
       /\ lookup "description" (columns (deref (heap w') r))
          = Some (mkSeries object
                    [VStr "UNKNOWN"; VStr "UNKNOWN"; VStr "UNKNOWN"])
       /\ deref (heap w') r <> deref (heap coded_reloaded) 0%nat.
Proof.
  split; [vm_compute; reflexivity|].
  split; [vm_compute; reflexivity|].
  split; [vm_compute; reflexivity|].
  split.
  { split.
    - repeat constructor.
    - unfold column_names; simpl. repeat constructor; simpl;
        intuition discriminate. }
  split; [vm_compute; reflexivity|].
  split.
  { repeat constructor; eexists; split; vm_compute; reflexivity. }
  split; [vm_compute; reflexivity|].
  eexists _, _. split; [vm_compute; reflexivity|].
  split; [vm_compute; reflexivity|].
  intros H. vm_compute in H. discriminate.
Qed.

(* ================================================================== *)
(** * Further properties of the methods *)
(* ================================================================== *)

(** ** [clean_data], record by record *)


(** ** Step 2 *)

Lemma combine_map_same {A B C} (f : A -> B) (g : A -> C) l :
  combine (map f l) (map g l) = map (fun x => (f x, g x)) l.
Proof. induction l; simpl; congruence. Qed.

Lemma combine_map_l {A B C} (f : A -> C) (a : list A) (b : list B) :
  combine (map f a) b = map (fun p => (f (fst p), snd p)) (combine a b).
Proof.
  revert b; induction a as [|x a IH]; intros [|y b]; simpl; auto.
  now rewrite IH.
Qed.

Lemma combine_map_r {A B C} (g : B -> C) (a : list A) (b : list B) :
  combine a (map g b) = map (fun p => (fst p, g (snd p))) (combine a b).
Proof.
  revert b; induction a as [|x a IH]; intros [|y b]; simpl; auto.
  now rewrite IH.
Qed.

Lemma map_fst_combine_eq {A B} (a : list A) (b : list B) :
  length a = length b -> map fst (combine a b) = a.
Proof.
  revert b; induction a as [|x a IH]; intros [|y b]; simpl;
    intros H; try discriminate; auto.
  f_equal. apply IH. lia.
Qed.

Lemma map_snd_combine_eq {A B} (a : list A) (b : list B) :
  length a = length b -> map snd (combine a b) = b.
Proof.
  revert b; induction a as [|x a IH]; intros [|y b]; simpl;
    intros H; try discriminate; auto.
  f_equal. apply IH. lia.
Qed.

Lemma map_const_repeat {A B} (y : B) (l : list A) :
  map (fun _ => y) l = repeat y (length l).
Proof. induction l; simpl; congruence. Qed.

(** Every row has one cell per column. *)
Lemma zip_rows_width cols n :
  Forall (fun r => length r = length cols) (zip_rows cols n).
Proof.
  induction cols as [|c cs IH]; simpl.
  - apply Forall_forall. intros r Hr. apply repeat_spec in Hr. now subst.
  - apply Forall_forall. intros r Hr.
    apply in_map_iff in Hr. destruct Hr as ([x r'] & <- & Hin). simpl.
    apply in_combine_r in Hin. rewrite Forall_forall in IH.
    now rewrite (IH _ Hin).
Qed.

(** Reading one name in every row gives the column back. *)
Lemma column_of_rows name s cols k :
  Forall (fun c => length (values (snd c)) = k) cols ->
  lookup name cols = Some s ->
  map (row_get name (map fst cols))
      (zip_rows (map (fun c => values (snd c)) cols) k)
  = values s.
Proof.
  induction 1 as [|[n c] cs Hc Hcs IH]; simpl; intros Hl; [discriminate|].
  rewrite map_map. simpl in Hc. simpl.
  assert (Hz : length (zip_rows (map (fun c => values (snd c)) cs) k) = k).
  { apply zip_rows_length. now apply Forall_map. }
  destruct (String.eqb_spec n name) as [->|Hne].
  - injection Hl as ->.
    change (fun x : cell * list cell => fst x) with (@fst cell (list cell)).
    apply map_fst_combine_eq. congruence.
  - rewrite <- (IH Hl).
    rewrite <- (map_map snd (row_get name (map fst cs))).
    rewrite map_snd_combine_eq by congruence. reflexivity.
Qed.

(** The rows of a selection: the selected names read in every row. *)
Lemma rows_select_columns cols names sub k :
  Forall (fun c => length (values (snd c)) = k) cols ->
  select_columns cols names = Ok sub ->
  zip_rows (map (fun c => values (snd c)) sub) k
  = map (fun row => map (fun n => row_get n (map fst cols) row) names)
        (zip_rows (map (fun c => values (snd c)) cols) k).
Proof.
  intros Hk. revert sub. induction names as [|n names IH]; simpl; intros sub H.
  - injection H as <-. simpl. rewrite map_const_repeat.
    f_equal. symmetry. apply zip_rows_length. now apply Forall_map.
  - destruct (lookup n cols) as [s|] eqn:Hl; [|discriminate].
    apply rbind_ok in H. destruct H as (r & Hr & H). injection H as <-.
    simpl. rewrite (IH _ Hr), <- (column_of_rows n s cols k Hk Hl).
    now rewrite combine_map_same, map_map.
Qed.

Lemma lookup_some_in name s cols :
  lookup name cols = Some s -> In name (map fst cols).
Proof.
  induction cols as [|[n c] cols IH]; simpl; [discriminate|].
  destruct (String.eqb_spec n name) as [->|Hne]; auto.
Qed.

Lemma select_columns_in cols names sub :
  select_columns cols names = Ok sub ->
  forall n, In n names -> In n (map fst cols).
Proof.
  revert sub; induction names as [|m names IH]; simpl; intros sub H n Hn;
    [contradiction|].
  destruct (lookup m cols) as [s|] eqn:Hl; [|discriminate].
  apply rbind_ok in H. destruct H as (r & Hr & _).
  destruct Hn as [<-|Hn]; eauto using lookup_some_in.
Qed.

Lemma row_get_in n (h : list (string * np_dtype)) row :
  length row = length h -> In n (map fst h) ->
  exists d, In ((n, d), row_get n (map fst h) row) (combine h row).
Proof.
  revert row; induction h as [|[n' d'] h IH]; intros [|c row]; simpl;
    intros Hlen Hin; try contradiction; try discriminate.
  destruct (String.eqb_spec n' n) as [->|Hne].
  - exists d'. now left.
  - destruct Hin as [E|Hin]; [contradiction|].
    destruct (IH row) as (d & Hd); auto. exists d. now right.
Qed.

Lemma in_combine_row_get n d c (h : list (string * np_dtype)) row :
  NoDup (map fst h) -> In ((n, d), c) (combine h row) ->
  row_get n (map fst h) row = c.
Proof.
  revert row; induction h as [|[n' d'] h IH]; intros [|c' row]; simpl;
    intros Hnd Hin; try contradiction.
  inversion Hnd as [|? ? Hn Hnd']; subst.
  destruct Hin as [E|Hin].
  - injection E as -> -> ->. now rewrite String.eqb_refl.
  - destruct (String.eqb_spec n' n) as [->|Hne]; auto.
    exfalso. apply Hn. apply in_combine_l in Hin.
    apply in_map_iff. exists (n, d). auto.
Qed.

(** A row lacks a critical field when one of the selected cells is
    missing. *)
Lemma lacks_by_name names (h : list (string * np_dtype)) i row :
  NoDup (map fst h) -> length row = length h ->
  (forall n, In n names -> In n (map fst h)) ->
  existsb isnull (map (fun n => row_get n (map fst h) row) names)
  = existsb (fun p => Spec.among names (fst (fst p)) && isnull (snd p))
            (Spec.fields h (i, row)).
Proof.
  intros Hnd Hlen Hin. unfold Spec.fields; simpl.
  apply eq_iff_eq_true. rewrite !existsb_exists. split.
  - intros (x & Hx & Hnull). apply in_map_iff in Hx.
    destruct Hx as (n & <- & Hn).
    destruct (row_get_in n h row Hlen (Hin n Hn)) as (d & Hd).
    exists ((n, d), row_get n (map fst h) row). split; auto. simpl.
    rewrite Hnull, andb_true_r. unfold Spec.among.
    apply existsb_exists. exists n. split; auto. apply String.eqb_refl.
  - intros ([[n d] c] & Hp & Hc). simpl in Hc.
    apply andb_true_iff in Hc. destruct Hc as [Hn Hnull].
    unfold Spec.among in Hn. apply existsb_exists in Hn.
    destruct Hn as (m & Hm & E). apply String.eqb_eq in E. subst m.
    exists c. split; auto. apply in_map_iff. exists n. split; auto.
    eapply in_combine_row_get; eauto.
Qed.

Lemma mask_filter_pred {A B} (p : B -> bool) (q : A * B -> bool)
      (idx : list A) (l : list B) :
  (forall i x, In x l -> q (i, x) = p x) ->
  mask_filter (map p l) (combine idx l) = filter q (combine idx l).
Proof.
  revert idx; induction l as [|x l IH]; intros [|i idx] H; simpl; auto.
  rewrite (H i x) by now left.
  rewrite IH by (intros; apply H; now right). reflexivity.
Qed.

Lemma count_true_pred {A B} (p : B -> bool) (q : A * B -> bool)
      (idx : list A) (l : list B) :
  length idx = length l ->
  (forall i x, In x l -> q (i, x) = p x) ->
  count_true (map p l) = Z.of_nat (length (filter q (combine idx l))).
Proof.
  unfold count_true. intros Hlen H. f_equal.
  revert idx Hlen; induction l as [|x l IH]; intros [|i idx] Hlen; simpl;
    try discriminate; auto.
  rewrite (H i x) by now left.
  destruct (p x); simpl; rewrite (IH (fun i y Hy => H i y (or_intror Hy)) idx)
    by (simpl in Hlen; lia); reflexivity.
Qed.

(** The critical cells of the rows of a well-formed frame. *)
Lemma isnull_any_select d sub :
  well_formed d -> select d critical_fields = Ok sub ->
  isnull_any sub
  = map (fun row =>
           existsb isnull
             (map (fun n => row_get n (column_names d) row) critical_fields))
        (rows d)
  /\ forall n, In n critical_fields -> In n (column_names d).
Proof.
  intros [Hl Hnd] H. unfold select in H. apply rbind_ok in H.
  destruct H as (cs & Hcs & H). injection H as <-. split.
  - unfold isnull_any, rows; cbn [columns index].
    rewrite (rows_select_columns _ _ _ _ Hl Hcs), map_map. reflexivity.
  - eapply select_columns_in; eauto.
Qed.

Lemma rows_width d :
  Forall (fun r => length r = length (columns d)) (rows d).
Proof.
  unfold rows.
  rewrite <- (length_map (fun c => values (snd c)) (columns d)).
  apply zip_rows_width.
Qed.

Lemma lacks_critical_rows d sub :
  well_formed d -> select d critical_fields = Ok sub ->
  isnull_any sub = map (fun row => Spec.lacks_critical
                                     (Spec.header (table_of d)) (0, row))
                       (rows d)
  /\ forall i row, In row (rows d) ->
       Spec.lacks_critical (Spec.header (table_of d)) (i, row)
       = Spec.lacks_critical (Spec.header (table_of d)) (0, row).
Proof.
  intros Hwf H. destruct (isnull_any_select d sub Hwf H) as (E & Hin).
  split; [|reflexivity]. rewrite E. apply map_ext_in. intros row Hrow.
  unfold Spec.lacks_critical, table_of; cbn [Spec.header].
  pose proof (rows_width d) as W. rewrite Forall_forall in W.
  unfold column_names in *.
  rewrite <- (lacks_by_name critical_fields _ 0 row).
  - now rewrite map_map.
  - rewrite map_map. apply Hwf.
  - rewrite length_map. auto.
  - rewrite map_map. exact Hin.
Qed.

Lemma table_of_dropna d sub :
  well_formed d -> select d critical_fields = Ok sub ->
  table_of (take_rows (map negb (isnull_any sub)) d) = Spec.step2 (table_of d)
  /\ count_true (isnull_any sub) = Spec.dropped (table_of d).
Proof.
  intros Hwf H. destruct (lacks_critical_rows d sub Hwf H) as (E & _).
  rewrite E. split.
  - rewrite table_of_take_rows. unfold Spec.step2. f_equal.
    rewrite map_map. unfold table_of at 1 3; cbn [Spec.records].
    apply (mask_filter_pred
             (fun row => negb (Spec.lacks_critical
                                 (Spec.header (table_of d)) (0, row)))
             (fun r => negb (Spec.lacks_critical
                               (Spec.header (table_of d)) r))).
    reflexivity.
  - unfold Spec.dropped. unfold table_of at 2; cbn [Spec.records].
    apply count_true_pred; [symmetry; now apply rows_length|reflexivity].
Qed.


(** ** Steps 3 to 5: the same function on every cell of a column *)

Lemma combine_map_both {A B C D} (f : A -> C) (g : B -> D) a b :
  combine (map f a) (map g b)
  = map (fun p => (f (fst p), g (snd p))) (combine a b).
Proof.
  revert b; induction a as [|x a IH]; intros [|y b]; simpl; auto.
  now rewrite IH.
Qed.

Lemma zip_rows_map_columns (g : string * Series -> string * Series)
      (f : string * np_dtype -> cell -> cell) cols n :
  (forall c, values (snd (g c)) = map (f (typed c)) (values (snd c))) ->
  zip_rows (map (fun c => values (snd c)) (map g cols)) n
  = map (fun row => map (fun p => f (fst p) (snd p))
                        (combine (map typed cols) row))
        (zip_rows (map (fun c => values (snd c)) cols) n).
Proof.
  intros Hg. induction cols as [|c cs IH]; simpl.
  - now rewrite map_repeat.
  - rewrite Hg, IH, combine_map_both, !map_map. reflexivity.
Qed.

Lemma table_of_map_columns (g : string * Series -> string * Series)
      (f : string * np_dtype -> cell -> cell) d :
  (forall c, values (snd (g c)) = map (f (typed c)) (values (snd c))) ->
  table_of (map_columns g d)
  = Spec.mkTable (map (fun c => typed (g c)) (columns d))
                 (map (Spec.on_cells f (Spec.header (table_of d)))
                      (Spec.records (table_of d))).
Proof.
  intros Hg. unfold table_of, map_columns, rows.
  cbn [columns index Spec.header Spec.records].
  rewrite map_map. f_equal.
  rewrite (zip_rows_map_columns g f) by exact Hg.
  rewrite combine_map_r. reflexivity.
Qed.

(** *** Step 3 *)

Lemma map_if_false {A} (p : A -> bool) (v : A) l :
  existsb p l = false -> map (fun c => if p c then v else c) l = l.
Proof.
  induction l as [|x l IH]; simpl; auto. intros H.
  apply orb_false_iff in H. destruct H as [-> H]. now rewrite IH.
Qed.

Lemma values_fillna v s :
  values (fillna v s) = map (fun c => if isnull c then v else c) (values s).
Proof.
  unfold fillna. destruct (existsb isnull (values s)) eqn:E; simpl; auto.
  now rewrite map_if_false.
Qed.

Lemma values_fill_column c :
  values (snd (fill_column c)) = map (Spec.fill (typed c)) (values (snd c)).
Proof.
  unfold fill_column, Spec.fill, Spec.among, typed; cbn [fst snd].
  destruct (existsb (String.eqb (fst c)) _); cbn [snd andb].
  - apply values_fillna.
  - now rewrite map_id.
Qed.

Lemma dtype_fillna_text x s :
  dtype (fillna (VStr x) s)
  = if existsb isnull (values s) then object else dtype s.
Proof.
  unfold fillna. destruct (existsb isnull (values s)); simpl; auto.
  now destruct (dtype s).
Qed.

(** The cells at one position of the rows are a column. *)
Lemma column_at_position pre c cs k :
  Forall (fun c => length c = k) (pre ++ c :: cs) ->
  map (fun row => nth (length pre) row NaN) (zip_rows (pre ++ c :: cs) k) = c.
Proof.
  induction pre as [|p pre IH]; simpl; intros H;
    inversion H as [|? ? Hc Hcs]; subst.
  - rewrite map_map. simpl.
    change (fun x : cell * list cell => fst x) with (@fst cell (list cell)).
    apply map_fst_combine_eq. now rewrite zip_rows_length.
  - rewrite map_map. simpl. rewrite <- (IH Hcs) at 2.
    rewrite <- (map_map snd (fun row => nth (length pre) row NaN)).
    rewrite map_snd_combine_eq; auto. now rewrite zip_rows_length.
Qed.

Lemma has_missing_position pre c cs (idx : list Z) :
  Forall (fun c => length c = length idx) (pre ++ c :: cs) ->
  Spec.has_missing (length pre) (combine idx (zip_rows (pre ++ c :: cs)
                                                       (length idx)))
  = existsb isnull c.
Proof.
  intros H. unfold Spec.has_missing.
  rewrite <- (column_at_position pre c cs (length idx) H) at 2.
  rewrite <- (map_snd_combine_eq idx (zip_rows (pre ++ c :: cs) (length idx)))
    at 2 by (now rewrite zip_rows_length).
  rewrite map_map. generalize (combine idx (zip_rows (pre ++ c :: cs)
                                                     (length idx))).
  intros l. induction l as [|r l IH]; simpl; congruence.
Qed.

Lemma fill_types pre cols (idx : list Z) :
  Forall (fun c => length (values (snd c)) = length idx) (pre ++ cols) ->
  Spec.mapi_from (length pre)
    (Spec.fill_type
       (combine idx (zip_rows (map (fun c => values (snd c)) (pre ++ cols))
                              (length idx))))
    (map typed cols)
  = map (fun c => typed (fill_column c)) cols.
Proof.
  revert pre; induction cols as [|c cs IH]; intros pre H; simpl; auto.
  f_equal.
  - assert (H' : Forall (fun c => length c = length idx)
                        (map (fun c => values (snd c)) pre
                         ++ values (snd c)
                            :: map (fun c => values (snd c)) cs)).
    { change (map (fun c => values (snd c)) pre
              ++ values (snd c) :: map (fun c => values (snd c)) cs)
        with (map (fun c => values (snd c)) pre
              ++ map (fun c : string * Series => values (snd c)) (c :: cs)).
      rewrite <- map_app. apply Forall_map. exact H. }
    rewrite map_app. cbn [map].
    unfold Spec.fill_type.
    rewrite <- (length_map (fun c => values (snd c)) pre).
    rewrite (has_missing_position _ _ _ _ H').
    unfold fill_column, typed, Spec.among; cbn [fst snd].
    destruct (existsb (String.eqb (fst c)) _); cbn [fst snd andb]; auto.
    rewrite dtype_fillna_text.
    destruct (existsb isnull (values (snd c))); auto.
  - specialize (IH (pre ++ [c])). rewrite <- app_assoc in IH. cbn [app] in IH.
    rewrite length_app in IH. cbn [length] in IH.
    rewrite Nat.add_1_r in IH. now apply IH.
Qed.

Lemma table_of_fill d :
  well_formed d ->
  table_of (map_columns fill_column d) = Spec.step3 (table_of d).
Proof.
  intros [Hl _]. rewrite (table_of_map_columns fill_column Spec.fill)
    by apply values_fill_column.
  unfold Spec.step3. f_equal.
  unfold table_of, rows; cbn [Spec.header Spec.records].
  symmetry. apply (fill_types [] (columns d) (index d)). exact Hl.
Qed.

(** *** Step 4 *)

Lemma values_to_bool_series s :
  values (to_bool_series s)
  = map (fun c => VBool (if isnull c then false else truthy c)) (values s).
Proof.
  unfold to_bool_series; cbn [values]. rewrite values_fillna, map_map.
  apply map_ext. intros c. now destruct (isnull c).
Qed.

Lemma values_bool_column c :
  values (snd (bool_column c)) = map (Spec.coerce (typed c)) (values (snd c)).
Proof.
  unfold bool_column, Spec.coerce, Spec.among, typed; cbn [fst snd].
  destruct (existsb (String.eqb (fst c)) _); cbn [snd].
  - apply values_to_bool_series.
  - now rewrite map_id.
Qed.

Lemma table_of_coerce d :
  table_of (map_columns bool_column d) = Spec.step4 (table_of d).
Proof.
  rewrite (table_of_map_columns bool_column Spec.coerce)
    by apply values_bool_column.
  unfold Spec.step4. f_equal.
  unfold table_of; cbn [Spec.header]. rewrite map_map.
  apply map_ext. intros c.
  unfold bool_column, Spec.coerce_type, Spec.among, typed; cbn [fst snd].
  now destruct (existsb (String.eqb (fst c)) _).
Qed.

(** *** Step 5 *)

Lemma values_text_column c :
  values (snd (text_column c))
  = map (Spec.standardize_text (typed c)) (values (snd c)).
Proof.
  unfold text_column, Spec.standardize_text, typed; cbn [fst snd].
  destruct (np_dtype_eqb (dtype (snd c)) object
            && negb (String.eqb (fst c) "date")); cbn [snd values].
  - reflexivity.
  - now rewrite map_id.
Qed.

Lemma table_of_standardize d :
  table_of (map_columns text_column d) = Spec.step5 (table_of d).
Proof.
  rewrite (table_of_map_columns text_column Spec.standardize_text)
    by apply values_text_column.
  unfold Spec.step5. f_equal.
  unfold table_of; cbn [Spec.header].
  apply map_ext. intros c.
  unfold text_column, typed.
  destruct (np_dtype_eqb (dtype (snd c)) object) eqn:E; cbn [andb]; auto.
  destruct (negb (String.eqb (fst c) "date")); cbn [fst snd dtype]; auto.
  apply np_dtype_eqb_eq in E. now rewrite E.
Qed.

(** ** The five steps together *)

Lemma clean_frame_steps d d' :
  well_formed d -> clean_frame d = Ok d' ->
  table_of d' = Spec.cleaner (table_of d)
  /\ missing_critical_count (drop_duplicates d)
     = Spec.dropped (Spec.step1 (table_of d)).
Proof.
  intros Hwf H. destruct (clean_frame_ok _ _ Hwf H) as (sub & Hs & ->).
  assert (H1 : well_formed (drop_duplicates d))
    by (apply well_formed_take_rows, Hwf).
  destruct (table_of_dropna _ _ H1 Hs) as (E2 & En).
  split.
  - unfold Spec.cleaner.
    rewrite table_of_standardize, table_of_coerce, table_of_fill, E2,
      table_of_drop_duplicates; auto.
    apply well_formed_take_rows, H1.
  - unfold missing_critical_count. rewrite Hs, En.
    now rewrite table_of_drop_duplicates.
Qed.

Lemma size_table_of d :
  well_formed d -> Spec.size (table_of d) = len d.
Proof.
  intros Hwf. unfold Spec.size, table_of, len, Spec.record;
    cbn [Spec.records].
  rewrite length_combine, (rows_length d Hwf), Nat.min_id. reflexivity.
Qed.

Lemma sample_loaded_well_formed :
  well_formed (deref (heap sample_loaded) 0%nat).
Proof.
  vm_compute deref. split.
  - repeat constructor.
  - unfold column_names; simpl. repeat constructor; simpl;
      intuition discriminate.
Qed.

(** X1.  What [clean_data] returns is, record by record, the outcome of
    five steps on the records of the raw table, in this order: a record
    goes when an equal record stands before it; a record goes when its
    date, primary_type, latitude or longitude is missing; a missing
    description or location_description becomes "UNKNOWN"; arrest and
    domestic become booleans, a missing one false; every cell of an
    object column other than date becomes its stripped upper-case text,
    or missing when it is not text.  The two counts the method prints are
    the numbers of records the first two steps removed, and the last one
    is the number of records left. *)
Theorem clean_data_record_by_record :
  forall w r w' raw,
    df (self w) = Some raw ->
    well_formed (deref (heap w) raw) ->
    run clean_data w = (Ok r, w') ->
    table_of (deref (heap w') r)
    = Spec.cleaner (table_of (deref (heap w) raw))
    /\ stdout w'
       = stdout w ++
         [Removed_duplicates
            (Spec.size (table_of (deref (heap w) raw))
             - Spec.size (Spec.step1 (table_of (deref (heap w) raw))));
          Removed_missing_critical
            (Spec.dropped (Spec.step1 (table_of (deref (heap w) raw))));
          Standardized_text;
          Clean_records
            (Spec.size (Spec.cleaner (table_of (deref (heap w) raw))))].
Proof.
  intros w r w' raw Hdf Hwf H.
  pose proof (run_clean_data w raw Hdf) as R. cbv zeta in R.
  destruct (clean_frame (deref (heap w) raw)) as [d'|e] eqn:E.
  - rewrite R in H. injection H as <- <-. cbn [heap stdout].
    rewrite deref_app_third.
    destruct (clean_frame_steps _ _ Hwf E) as (Et & En).
    pose proof (well_formed_clean_frame _ _ Hwf E) as Hwf'.
    rewrite <- Et, <- En, <- table_of_drop_duplicates by exact Hwf.
    rewrite !size_table_of; auto.
    apply well_formed_take_rows, Hwf.
  - destruct R as (ext & out & R). rewrite R in H. discriminate.
Qed.

Lemma clean_data_record_by_record_witness :
  table_of (deref (heap sample_cleaned) 3%nat)
  = Spec.cleaner (table_of (deref (heap sample_loaded) 0%nat))
  /\ stdout sample_cleaned
     = stdout sample_loaded ++
       [Removed_duplicates
          (Spec.size (table_of (deref (heap sample_loaded) 0%nat))
           - Spec.size
               (Spec.step1 (table_of (deref (heap sample_loaded) 0%nat))));
        Removed_missing_critical
          (Spec.dropped
             (Spec.step1 (table_of (deref (heap sample_loaded) 0%nat))));
        Standardized_text;
        Clean_records
          (Spec.size
             (Spec.cleaner (table_of (deref (heap sample_loaded) 0%nat))))].
Proof.
  exact (clean_data_record_by_record sample_loaded 3%nat sample_cleaned
           0%nat sample_loaded_self sample_loaded_well_formed
           sample_cleaned_run).
Defined.

(** ** The counts [clean_data] prints *)

Lemma length_mask_negb {A} (m : list bool) (l : list A) :
  length m = length l ->
  (length (mask_filter (map negb m) l)
   + length (filter (fun b => b) m) = length l)%nat.
Proof.
  revert l; induction m as [|b m IH]; intros [|x l]; simpl;
    intros H; try discriminate; auto.
  specialize (IH l). destruct b; simpl; lia.
Qed.

Lemma len_dropna d sub :
  well_formed d -> select d critical_fields = Ok sub ->
  len (take_rows (map negb (isnull_any sub)) d)
  = len d - count_true (isnull_any sub).
Proof.
  intros Hwf H. destruct (isnull_any_select d sub Hwf H) as (E & _).
  unfold len, take_rows, count_true; cbn [index].
  assert (Hlen : length (isnull_any sub) = length (index d)).
  { rewrite E, length_map. now apply rows_length. }
  pose proof (length_mask_negb (isnull_any sub) (index d) Hlen). lia.
Qed.

Lemma count_true_nonneg m : 0 <= count_true m.
Proof. unfold count_true. lia. Qed.

(** X2.  The three counts [clean_data] prints account for every raw
    record: the duplicates removed, the records removed for a missing
    critical field and the records of the clean table are non-negative
    and add up to the number of records of the raw table. *)
Theorem clean_data_counts_add_up :
  forall w r w' raw,
    df (self w) = Some raw ->
    well_formed (deref (heap w) raw) ->
    run clean_data w = (Ok r, w') ->
    exists duplicates missing,
      stdout w'
      = stdout w ++ [Removed_duplicates duplicates;
                     Removed_missing_critical missing;
                     Standardized_text;
                     Clean_records (len (deref (heap w') r))]
      /\ 0 <= duplicates /\ 0 <= missing
      /\ len (deref (heap w) raw)
         = duplicates + missing + len (deref (heap w') r).
Proof.
  intros w r w' raw Hdf Hwf H.
  pose proof (run_clean_data w raw Hdf) as R. cbv zeta in R.
  destruct (clean_frame (deref (heap w) raw)) as [d'|e] eqn:E.
  - rewrite R in H. injection H as <- <-. cbn [heap stdout].
    rewrite deref_app_third.
    set (d0 := deref (heap w) raw) in *.
    exists (len d0 - len (drop_duplicates d0)),
           (missing_critical_count (drop_duplicates d0)).
    split; [reflexivity|].
    destruct (clean_frame_ok _ _ Hwf E) as (sub & Hs & Ed).
    assert (H1 : well_formed (drop_duplicates d0))
      by (apply well_formed_take_rows, Hwf).
    pose proof (len_dropna _ _ H1 Hs) as L.
    assert (Hlen : len d' = len (take_rows (map negb (isnull_any sub))
                                           (drop_duplicates d0)))
      by (rewrite Ed; reflexivity).
    unfold missing_critical_count. rewrite Hs.
    pose proof (len_take_rows (map negb (duplicated d0)) d0) as L0.
    fold (drop_duplicates d0) in L0.
    pose proof (count_true_nonneg (isnull_any sub)).
    repeat split; lia.
  - destruct R as (ext & out & R). rewrite R in H. discriminate.
Qed.

Lemma clean_data_counts_add_up_witness :
  exists duplicates missing,
    stdout sample_cleaned
    = stdout sample_loaded ++ [Removed_duplicates duplicates;
                               Removed_missing_critical missing;
                               Standardized_text;
                               Clean_records
                                 (len (deref (heap sample_cleaned) 3%nat))]
    /\ 0 <= duplicates /\ 0 <= missing
    /\ len (deref (heap sample_loaded) 0%nat)
       = duplicates + missing + len (deref (heap sample_cleaned) 3%nat).
Proof.
  exact (clean_data_counts_add_up sample_loaded 3%nat sample_cleaned
           0%nat sample_loaded_self sample_loaded_well_formed
           sample_cleaned_run).
Defined.

(** ** Stages that raise *)

Lemma select_columns_missing cols names :
  (exists n, In n names /\ lookup n cols = None) ->
  exists m, In m names /\ lookup m cols = None
            /\ select_columns cols names = Raise (KeyError m).
Proof.
  induction names as [|n names IH]; intros (x & Hin & Hx);
    [contradiction|]. simpl.
  destruct (lookup n cols) as [s|] eqn:Hl.
  - destruct Hin as [->|Hin]; [congruence|].
    destruct IH as (m & Hm & Hlm & E); eauto.
    exists m. rewrite E. simpl. auto.
  - exists n. auto.
Qed.

Lemma has_column_false_lookup name d :
  has_column name d = false <-> lookup name (columns d) = None.
Proof.
  pose proof (has_column_lookup name d) as H.
  destruct (has_column name d); destruct (lookup name (columns d)) eqn:E;
    split; intros; try congruence; try reflexivity.
  - destruct (proj1 H eq_refl); discriminate.
  - exfalso. assert (X : false = true) by (apply H; eauto). discriminate.
Qed.

Lemma lookup_take_rows name mask d :
  lookup name (columns (take_rows mask d)) = None
  <-> lookup name (columns d) = None.
Proof.
  unfold take_rows; cbn [columns].
  induction (columns d) as [|[n s] cols IH]; simpl; [tauto|].
  destruct (String.eqb n name); [split; discriminate | exact IH].
Qed.

(** X3.  [clean_data] needs the four critical columns: on a raw table
    that lacks one of date, primary_type, latitude and longitude it
    raises a KeyError for a critical column the table lacks, and leaves
    the attributes of the analyzer as they were, so no cleaned table is
    set. *)
Theorem clean_data_without_a_critical_column :
  forall w raw,
    df (self w) = Some raw ->
    (exists n, In n critical_fields
               /\ has_column n (deref (heap w) raw) = false) ->
    exists name w',
      run clean_data w = (Raise (KeyError name), w')
      /\ In name critical_fields
      /\ has_column name (deref (heap w) raw) = false
      /\ self w' = self w.
Proof.
  intros w raw Hdf (n & Hn & Hc).
  pose proof (run_clean_data w raw Hdf) as R. cbv zeta in R.
  set (d0 := deref (heap w) raw) in *.
  destruct (select_columns_missing (columns (drop_duplicates d0))
              critical_fields) as (m & Hm & Hlm & E).
  { exists n. split; auto. unfold drop_duplicates.
    apply lookup_take_rows. now apply has_column_false_lookup. }
  assert (Ef : clean_frame d0 = Raise (KeyError m)).
  { unfold clean_frame, dropna, select. now rewrite E. }
  rewrite Ef in R. destruct R as (ext & out & R).
  eexists m, _. split; [exact R|]. repeat split; auto.
  apply has_column_false_lookup.
  unfold drop_duplicates in Hlm. now apply lookup_take_rows in Hlm.
Qed.

Lemma clean_data_without_a_critical_column_witness :
  exists name w',
    run clean_data
        (after (load_data (Some sample_path))
               (fresh_world
                  (one_file sample_path
                     (mkDataFrame [0]
                        [("date", mkSeries datetime64
                                    [VTime (Calendar.timestamp 2024 1 1 5)]);
                         ("primary_type", mkSeries object [VStr "THEFT"])]))))
    = (Raise (KeyError name), w')
    /\ In name critical_fields
    /\ has_column name
         (deref (heap (after (load_data (Some sample_path))
               (fresh_world
                  (one_file sample_path
                     (mkDataFrame [0]
                        [("date", mkSeries datetime64
                                    [VTime (Calendar.timestamp 2024 1 1 5)]);
                         ("primary_type", mkSeries object [VStr "THEFT"])])))))
                0%nat) = false
    /\ self w'
       = self (after (load_data (Some sample_path))
               (fresh_world
                  (one_file sample_path
                     (mkDataFrame [0]
                        [("date", mkSeries datetime64
                                    [VTime (Calendar.timestamp 2024 1 1 5)]);
                         ("primary_type", mkSeries object [VStr "THEFT"])])))).
Proof.
  apply (clean_data_without_a_critical_column _ 0%nat).
  - vm_compute. reflexivity.
  - exists "latitude". split; [simpl; tauto | vm_compute; reflexivity].
Defined.

(** X4.  A stage that raises replaces nothing: when [clean_data] or
    [engineer_features] raises, whatever the exception, the attributes of
    the analyzer are the ones it had ([clean_df] is assigned by the last
    statement only) and every table that existed has the contents it
    had. *)
Theorem a_stage_that_raises_replaces_nothing :
  forall w e w',
    (run clean_data w = (Raise e, w')
     \/ run engineer_features w = (Raise e, w')) ->
    self w' = self w
    /\ (forall r, (r < length (heap w))%nat ->
          deref (heap w') r = deref (heap w) r)
    /\ reads w' = reads w.
Proof.
  intros w e w' [H|H].
  - destruct (df (self w)) as [raw|] eqn:Hdf.
    + pose proof (run_clean_data w raw Hdf) as R. cbv zeta in R.
      destruct (clean_frame (deref (heap w) raw)) as [d'|e0].
      * rewrite R in H. discriminate.
      * destruct R as (ext & out & R). rewrite R in H.
        injection H as _ <-. cbn [self heap reads].
        repeat split; auto. intros r Hr. now apply deref_app_old.
    + unfold clean_data, run, bind, get_self in H. rewrite Hdf in H.
      unfold raise in H. injection H as _ <-. repeat split; auto.
  - destruct (clean_df (self w)) as [c|] eqn:Hc.
    + pose proof (run_engineer_features w c Hc) as R. cbv zeta in R.
      destruct (engineer_frame (deref (heap w) c)) as [d'|e0].
      * rewrite R in H. discriminate.
      * destruct R as (d'' & R). rewrite R in H.
        injection H as _ <-. cbn [self heap reads].
        repeat split; auto. intros r Hr. now apply deref_app_old.
    + unfold engineer_features, run, bind, get_self in H. rewrite Hc in H.
      unfold raise in H. injection H as _ <-. repeat split; auto.
Qed.

Lemma a_stage_that_raises_replaces_nothing_witness :
  self (after engineer_features reloaded_world) = self reloaded_world
  /\ (forall r, (r < length (heap reloaded_world))%nat ->
        deref (heap (after engineer_features reloaded_world)) r
        = deref (heap reloaded_world) r)
  /\ reads (after engineer_features reloaded_world) = reads reloaded_world.
Proof.
  apply (a_stage_that_raises_replaces_nothing reloaded_world
           (ValueError "Data not cleaned. Call clean_data() first.")).
  right. vm_compute. reflexivity.
Defined.

(** ** [engineer_features], column by column *)

Lemma date_dt_eval d date :
  getitem d "date" = Ok date -> dtype date = datetime64 ->
  date_dt d = Ok date.
Proof.
  intros Hg Hd. unfold date_dt, dt_accessor. rewrite Hg; simpl.
  now rewrite Hd.
Qed.

Lemma has_column_getitem name d :
  has_column name d = true -> exists s, getitem d name = Ok s.
Proof.
  intros H. apply has_column_lookup in H. destruct H as (s & H).
  exists s. now apply getitem_ok_lookup.
Qed.

Lemma engineer_frame_forward d date tod sea :
  getitem d "date" = Ok date -> dtype date = datetime64 ->
  apply categorize_time (dt_int_field Calendar.hour date) = Ok tod ->
  apply (fun m => Ok (get_season m)) (dt_int_field Calendar.month date)
  = Ok sea ->
  engineer_frame d = Ok (features d date tod sea).
Proof.
  intros Hg Hd Ht Hs.
  unfold engineer_frame, features, assign_frame, dt_int, dt_name,
    weekend, time_of_day, season.
  repeat (rewrite date_dt_eval with (date := date);
          [cbn [rbind] | settle_columns; exact Hg | exact Hd]).
  settle_columns. cbn [rbind]. settle_columns. cbn [rbind].
  rewrite Ht. cbn [rbind].
  settle_columns. cbn [rbind]. rewrite Hs. cbn [rbind].
  unfold when_column_frame, assign_frame, violent.
  match goal with
  | |- (if has_column _ ?x then _ else _) = _ => set (d10 := x)
  end.
  destruct (has_column "primary_type" d10) eqn:E.
  - apply has_column_lookup in E. destruct E as (s & E).
    rewrite lookup_getitem, E. reflexivity.
  - apply has_column_false_lookup in E. now rewrite E.
Qed.

(** The two [apply] calls of [engineer_features] answer on the hour and
    month columns of any date column. *)
Lemma map_result_total {A B} (f : A -> result B) l :
  Forall (fun x => exists y, f x = Ok y) l ->
  exists ys, map_result f l = Ok ys.
Proof.
  induction 1 as [|x l (y & Hy) _ (ys & IH)]; simpl; eauto.
  rewrite Hy, IH. simpl. eauto.
Qed.

Lemma apply_total f s :
  Forall (fun c => exists y, f c = Ok y) (values s) ->
  exists s', apply f s = Ok s'.
Proof.
  intros H. destruct (map_result_total f _ H) as (ys & E).
  unfold apply. rewrite E. simpl. eauto.
Qed.

Lemma dt_int_field_numbers f s :
  Forall (fun c => exists n, as_num c = Some n) (values (dt_int_field f s)).
Proof.
  unfold dt_int_field.
  destruct (existsb isnull (values s)); cbn [values];
    apply Forall_map; apply Forall_forall; intros c _;
    destruct c; simpl; eauto.
Qed.

Lemma time_of_day_total f s :
  exists tod, apply categorize_time (dt_int_field f s) = Ok tod.
Proof.
  apply apply_total.
  eapply Forall_impl; [|apply dt_int_field_numbers].
  intros c (n & Hn). destruct (categorize_time_total c n Hn) as (x & Hx & _).
  eauto.
Qed.

Lemma season_total s :
  exists sea, apply (fun m => Ok (get_season m)) s = Ok sea.
Proof. apply apply_total. apply Forall_forall. eauto. Qed.

Lemma engineer_frame_features d d' :
  engineer_frame d = Ok d' <->
  exists date tod sea,
    getitem d "date" = Ok date /\ dtype date = datetime64
    /\ apply categorize_time (dt_int_field Calendar.hour date) = Ok tod
    /\ apply (fun m => Ok (get_season m))
             (dt_int_field Calendar.month date) = Ok sea
    /\ d' = features d date tod sea.
Proof.
  split.
  - intros H.
    assert (Hd : exists date, date_dt d = Ok date).
    { unfold engineer_frame, assign_frame, dt_int in H.
      destruct (date_dt d) as [date|]; [eauto | discriminate]. }
    destruct Hd as (date & Hd). apply date_dt_ok in Hd.
    destruct Hd as (Hg & Hd).
    destruct (time_of_day_total Calendar.hour date) as (tod & Ht).
    destruct (season_total (dt_int_field Calendar.month date)) as (sea & Hs).
    exists date, tod, sea. repeat split; auto.
    rewrite (engineer_frame_forward d date tod sea) in H by assumption.
    congruence.
  - intros (date & tod & sea & Hg & Hd & Ht & Hs & ->).
    now apply engineer_frame_forward.
Qed.

Lemma getitem_features_date d date tod sea :
  getitem d "date" = Ok date ->
  getitem (features d date tod sea) "date" = Ok date.
Proof.
  intros Hg. unfold features. cbv zeta.
  destruct (lookup "primary_type" _); settle_columns; exact Hg.
Qed.

Ltac same_column :=
  unfold setitem; cbn [columns];
  repeat (rewrite lookup_set_column_other by reflexivity);
  apply lookup_set_column_same.

Lemma violent_twice d :
  match
    lookup "primary_type"
      (columns
         match lookup "primary_type" (columns d) with
         | Some s => setitem d "is_violent" (isin s (map VStr violent_crimes))
         | None => d
         end)
  with
  | Some s =>
      setitem
        match lookup "primary_type" (columns d) with
        | Some s => setitem d "is_violent" (isin s (map VStr violent_crimes))
        | None => d
        end "is_violent" (isin s (map VStr violent_crimes))
  | None =>
      match lookup "primary_type" (columns d) with
      | Some s => setitem d "is_violent" (isin s (map VStr violent_crimes))
      | None => d
      end
  end
  = match lookup "primary_type" (columns d) with
    | Some s => setitem d "is_violent" (isin s (map VStr violent_crimes))
    | None => d
    end.
Proof.
  destruct (lookup "primary_type" (columns d)) as [s|] eqn:E.
  - assert (E' : lookup "primary_type"
                   (columns (setitem d "is_violent"
                               (isin s (map VStr violent_crimes)))) = Some s).
    { unfold setitem; cbn [columns].
      now rewrite lookup_set_column_other. }
    rewrite E'. apply setitem_same.
    unfold setitem; cbn [columns]. apply lookup_set_column_same.
  - rewrite E. reflexivity.
Qed.

Lemma features_features d date tod sea :
  features (features d date tod sea) date tod sea = features d date tod sea.
Proof.
  unfold features at 1. cbv zeta.
  set (d' := features d date tod sea).
  assert (L : forall name s,
             lookup name
               (columns
                  (setitem
                     (setitem
                        (setitem
                           (setitem
                              (setitem
                                 (setitem
                                    (setitem
                                       (setitem
                                          (setitem
                                             (setitem d "year"
                                                (dt_int_field Calendar.year date))
                                             "month"
                                             (dt_int_field Calendar.month date))
                                          "month_name"
                                          (dt_name_field Calendar.month_name date))
                                       "day" (dt_int_field Calendar.day date))
                                    "day_of_week"
                                    (dt_int_field Calendar.dayofweek date))
                                 "day_name"
                                 (dt_name_field Calendar.day_name date))
                              "hour" (dt_int_field Calendar.hour date))
                           "is_weekend"
                           (isin (dt_int_field Calendar.dayofweek date)
                                 [VInt 5; VInt 6]))
                        "time_of_day" tod)
                     "season" sea)) = Some s ->
             String.eqb "is_violent" name = false ->
             lookup name (columns d') = Some s).
  { intros name s H Hne. subst d'. unfold features. cbv zeta.
    destruct (lookup "primary_type" _); auto.
    unfold setitem at 1; cbn [columns].
    now rewrite lookup_set_column_other. }
  rewrite (setitem_same d' "year") by (apply L; [same_column|reflexivity]).
  rewrite (setitem_same d' "month") by (apply L; [same_column|reflexivity]).
  rewrite (setitem_same d' "month_name")
    by (apply L; [same_column|reflexivity]).
  rewrite (setitem_same d' "day") by (apply L; [same_column|reflexivity]).
  rewrite (setitem_same d' "day_of_week")
    by (apply L; [same_column|reflexivity]).
  rewrite (setitem_same d' "day_name")
    by (apply L; [same_column|reflexivity]).
  rewrite (setitem_same d' "hour") by (apply L; [same_column|reflexivity]).
  rewrite (setitem_same d' "is_weekend")
    by (apply L; [same_column|reflexivity]).
  rewrite (setitem_same d' "time_of_day")
    by (apply L; [same_column|reflexivity]).
  rewrite (setitem_same d' "season") by (apply L; [same_column|reflexivity]).
  subst d'. unfold features. cbv zeta. apply violent_twice.
Qed.

Lemma engineer_frame_twice d d' :
  engineer_frame d = Ok d' -> engineer_frame d' = Ok d'.
Proof.
  intros H. apply engineer_frame_features in H.
  destruct H as (date & tod & sea & Hg & Hd & Ht & Hs & ->).
  rewrite (engineer_frame_forward _ date tod sea);
    auto using getitem_features_date.
  now rewrite features_features.
Qed.

(** X5.  [engineer_features] returns exactly when the cleaned table has
    a date column of dtype datetime64, whatever else the table holds:
    without a date column it raises KeyError('date'), and on a date
    column of another dtype (dates that [read_csv] could not parse stay
    text) it raises the AttributeError of the [.dt] accessor; in both
    cases the analyzer keeps the cleaned table it had. *)
Theorem engineer_features_needs_parsed_dates :
  forall w c,
    clean_df (self w) = Some c ->
    (forall date,
        lookup "date" (columns (deref (heap w) c)) = Some date ->
        dtype date = datetime64 ->
        exists w',
          run engineer_features w = (Ok (length (heap w)), w')
          /\ clean_df (self w') = Some (length (heap w)))
    /\ (forall date,
          lookup "date" (columns (deref (heap w) c)) = Some date ->
          dtype date <> datetime64 ->
          exists w',
            run engineer_features w
            = (Raise (AttributeError
                        "Can only use .dt accessor with datetimelike values"),
               w')
            /\ self w' = self w)
    /\ (lookup "date" (columns (deref (heap w) c)) = None ->
        exists w',
          run engineer_features w = (Raise (KeyError "date"), w')
          /\ self w' = self w).
Proof.
  intros w c Hc.
  pose proof (run_engineer_features w c Hc) as R. cbv zeta in R.
  set (d := deref (heap w) c) in *.
  split; [|split].
  - intros date Hl Hd.
    destruct (time_of_day_total Calendar.hour date) as (tod & Ht).
    destruct (season_total (dt_int_field Calendar.month date)) as (sea & Hs).
    rewrite (engineer_frame_forward d date tod sea) in R; auto.
    + eexists. split; [exact R | reflexivity].
    + now apply getitem_ok_lookup.
  - intros date Hl Hd.
    assert (E : engineer_frame d
                = Raise (AttributeError
                   "Can only use .dt accessor with datetimelike values")).
    { unfold engineer_frame, assign_frame, dt_int, date_dt, dt_accessor.
      rewrite lookup_getitem, Hl. cbn [rbind].
      destruct (dtype date); try reflexivity. contradiction. }
    rewrite E in R. destruct R as (d'' & R).
    eexists. split; [exact R | reflexivity].
  - intros Hl.
    assert (E : engineer_frame d = Raise (KeyError "date")).
    { unfold engineer_frame, assign_frame, dt_int, date_dt.
      rewrite lookup_getitem, Hl. reflexivity. }
    rewrite E in R. destruct R as (d'' & R).
    eexists. split; [exact R | reflexivity].
Qed.

Lemma engineer_features_needs_parsed_dates_witness :
  (forall date,
      lookup "date" (columns (deref (heap sample_cleaned) 3%nat)) = Some date ->
      dtype date = datetime64 ->
      exists w',
        run engineer_features sample_cleaned
        = (Ok (length (heap sample_cleaned)), w')
        /\ clean_df (self w') = Some (length (heap sample_cleaned)))
  /\ (forall date,
        lookup "date" (columns (deref (heap sample_cleaned) 3%nat))
        = Some date ->
        dtype date <> datetime64 ->
        exists w',
          run engineer_features sample_cleaned
          = (Raise (AttributeError
                      "Can only use .dt accessor with datetimelike values"),
             w')
          /\ self w' = self sample_cleaned)
  /\ (lookup "date" (columns (deref (heap sample_cleaned) 3%nat)) = None ->
      exists w',
        run engineer_features sample_cleaned = (Raise (KeyError "date"), w')
        /\ self w' = self sample_cleaned).
Proof.
  exact (engineer_features_needs_parsed_dates sample_cleaned 3%nat
           sample_cleaned_self).
Defined.

(** X6.  Running [engineer_features] again changes nothing in the
    table: the second call returns, with a table equal to the one the
    first call returned, column for column and in the same order. *)
Theorem engineer_features_twice :
  forall w r w',
    run engineer_features w = (Ok r, w') ->
    exists r' w'',
      run engineer_features w' = (Ok r', w'')
      /\ deref (heap w'') r' = deref (heap w') r.
Proof.
  intros w r w' H. apply engineer_features_ok in H.
  destruct H as (c & d' & Hc & Hf & Hr & Hself & Hheap & Hd).
  assert (Hc' : clean_df (self w') = Some r) by (rewrite Hself; reflexivity).
  pose proof (run_engineer_features w' r Hc') as R. cbv zeta in R.
  rewrite Hd, (engineer_frame_twice _ _ Hf) in R.
  eexists _, _. split; [exact R|]. cbn [heap].
  rewrite Hd. unfold deref. rewrite app_nth2 by lia.
  rewrite Nat.sub_diag. reflexivity.
Qed.

Lemma engineer_features_twice_witness :
  exists r' w'',
    run engineer_features sample_enriched = (Ok r', w'')
    /\ deref (heap w'') r' = deref (heap sample_enriched) 4%nat.
Proof.
  exact (engineer_features_twice sample_cleaned 4%nat sample_enriched
           sample_enriched_run).
Defined.

Lemma dayofweek_range ns :
  let k := Calendar.dayofweek ns in
  k = 0 \/ k = 1 \/ k = 2 \/ k = 3 \/ k = 4 \/ k = 5 \/ k = 6.
Proof.
  cbv zeta. unfold Calendar.dayofweek.
  pose proof (Z.mod_pos_bound (Calendar.day_number ns + 3) 7). lia.
Qed.

Lemma weekend_of_day (day : Z -> cell) ns :
  (forall k, 0 <= k < 7 -> day k = VInt k \/ day k = VFloat (float_of_Z k)) ->
  weekend_day
    (VBool (existsb (fun v => cell_eqb v (day (Calendar.dayofweek ns)))
                    [VInt 5; VInt 6]))
    (VStr (Calendar.day_name ns)).
Proof.
  intros Hday. eexists. split; [reflexivity|].
  unfold Calendar.day_name.
  pose proof (dayofweek_range ns) as Hk. cbv zeta in Hk.
  destruct Hk as [Hk|[Hk|[Hk|[Hk|[Hk|[Hk|Hk]]]]]]; rewrite Hk;
    match goal with
    | |- context [day ?k] =>
        let H := fresh in
        assert (H : 0 <= k < 7) by lia;
        destruct (Hday k H) as [-> | ->]
    end;
    vm_compute; intuition congruence.
Qed.

Lemma Forall2_map_same {A B C} (R : B -> C -> Prop) (f : A -> B) (g : A -> C)
      l :
  (forall x, In x l -> R (f x) (g x)) -> Forall2 R (map f l) (map g l).
Proof.
  induction l as [|x l IH]; simpl; intros H; constructor; auto.
Qed.

(** X7.  In the table [engineer_features] returns, [is_weekend] is a
    boolean column that is true in exactly the rows whose [day_name] is
    Saturday or Sunday; in a row without a date it is false and the day
    name is missing. *)
Theorem is_weekend_iff_saturday_or_sunday :
  forall w r w',
    run engineer_features w = (Ok r, w') ->
    exists flags names,
      getitem (deref (heap w') r) "is_weekend" = Ok flags
      /\ getitem (deref (heap w') r) "day_name" = Ok names
      /\ dtype flags = bool_
      /\ Forall2 weekend_day (values flags) (values names).
Proof.
  intros w r w' H. apply engineer_features_ok in H.
  destruct H as (c & d' & _ & Hf & _ & _ & _ & ->).
  apply engineer_frame_features in Hf.
  destruct Hf as (date & tod & sea & _ & _ & _ & _ & ->).
  exists (isin (dt_int_field Calendar.dayofweek date) [VInt 5; VInt 6]),
         (dt_name_field Calendar.day_name date).
  split; [|split; [|split]].
  - unfold features. cbv zeta.
    destruct (lookup "primary_type" _); settle_columns; reflexivity.
  - unfold features. cbv zeta.
    destruct (lookup "primary_type" _); settle_columns; reflexivity.
  - reflexivity.
  - unfold isin, dt_name_field, dt_int_field; cbn [values].
    destruct (existsb isnull (values date)); cbn [values];
      rewrite map_map; apply Forall2_map_same; intros [] _;
      try (exists false; split; [reflexivity|];
           split; [discriminate | intros [X|X]; discriminate]).
    + apply (weekend_of_day (fun k => VFloat (float_of_Z k))). auto.
    + apply (weekend_of_day VInt). auto.
Qed.

Lemma is_weekend_iff_saturday_or_sunday_witness :
  exists flags names,
    getitem (deref (heap sample_enriched) 4%nat) "is_weekend" = Ok flags
    /\ getitem (deref (heap sample_enriched) 4%nat) "day_name" = Ok names
    /\ dtype flags = bool_
    /\ Forall2 weekend_day (values flags) (values names).
Proof.
  exact (is_weekend_iff_saturday_or_sunday sample_cleaned 4%nat
           sample_enriched sample_enriched_run).
Defined.

(** ** [value_counts] *)

Lemma cell_eqb_exact a b :
  exact a = true -> exact b = true -> (cell_eqb a b = true <-> a = b).
Proof.
  destruct a, b; simpl; try discriminate; intros _ _.
  - rewrite Z.eqb_eq. split; congruence.
  - split; discriminate.
  - split; discriminate.
  - rewrite String.eqb_eq. split; congruence.
Qed.

Lemma cell_eqb_exact_refl a : exact a = true -> cell_eqb a a = true.
Proof. intros H. now apply cell_eqb_exact. Qed.

Lemma keys_tally c acc :
  map fst (tally c acc)
  = if existsb (fun k => cell_eqb k c) (map fst acc) then map fst acc
    else map fst acc ++ [c].
Proof.
  induction acc as [|[k n] acc IH]; simpl; auto.
  destruct (cell_eqb k c); simpl; auto.
  rewrite IH. now destruct (existsb _ _).
Qed.

Lemma sum_tally c acc :
  sum_Z (map snd (tally c acc)) = sum_Z (map snd acc) + 1.
Proof.
  induction acc as [|[k n] acc IH]; simpl; [lia|].
  destruct (cell_eqb k c); simpl; lia.
Qed.

Lemma positive_tally c acc :
  Forall (fun e => 1 <= snd e) acc ->
  Forall (fun e => 1 <= snd e) (tally c acc).
Proof.
  induction 1 as [|[k n] acc Hn Hacc IH]; simpl.
  - repeat constructor. simpl. lia.
  - destruct (cell_eqb k c); constructor; simpl in *; auto; lia.
Qed.

Lemma counted_tally k c acc :
  exact c = true -> Forall (fun x => exact x = true) (map fst acc) ->
  counted k (tally c acc)
  = counted k acc + (if cell_eqb c k then 1 else 0).
Proof.
  intros Hc. induction acc as [|[k' n] acc IH]; simpl; intros Hk.
  - lia.
  - inversion Hk as [|? ? Hk' Hacc]; subst.
    destruct (cell_eqb k' c) eqn:E; simpl.
    + apply cell_eqb_exact in E; auto. subst k'.
      destruct (cell_eqb c k); lia.
    + rewrite IH by auto. lia.
Qed.

Lemma NoDup_tally c acc :
  exact c = true -> NoDup (map fst acc) -> NoDup (map fst (tally c acc)).
Proof.
  intros Hc Hnd. rewrite keys_tally.
  destruct (existsb (fun k => cell_eqb k c) (map fst acc)) eqn:E; auto.
  apply NoDup_app; auto.
  - repeat constructor. intros [].
  - intros x Hx [<-|[]].
    assert (existsb (fun k => cell_eqb k c) (map fst acc) = true).
    { apply existsb_exists. exists c. auto using cell_eqb_exact_refl. }
    congruence.
Qed.

Lemma exact_tally c acc :
  exact c = true -> Forall (fun x => exact x = true) (map fst acc) ->
  Forall (fun x => exact x = true) (map fst (tally c acc)).
Proof.
  intros Hc H. rewrite keys_tally. destruct (existsb _ _); auto.
  apply Forall_app. auto.
Qed.

Lemma in_keys_tally x c acc :
  In x (map fst (tally c acc)) -> x = c \/ In x (map fst acc).
Proof.
  rewrite keys_tally. destruct (existsb _ _); auto.
  intros H. apply in_app_or in H. destruct H as [H|[<-|[]]]; auto.
Qed.

Lemma keys_tally_incl x c acc :
  In x (map fst acc) -> In x (map fst (tally c acc)).
Proof.
  rewrite keys_tally. destruct (existsb _ _); auto.
  intros H. apply in_or_app. auto.
Qed.

Lemma key_tally c acc :
  exact c = true -> Forall (fun x => exact x = true) (map fst acc) ->
  In c (map fst (tally c acc)).
Proof.
  intros Hc Hk. rewrite keys_tally.
  destruct (existsb (fun k => cell_eqb k c) (map fst acc)) eqn:E.
  - apply existsb_exists in E. destruct E as (k & Hin & E).
    rewrite Forall_forall in Hk.
    apply cell_eqb_exact in E; auto. now subst k.
  - apply in_or_app. right. now left.
Qed.

Lemma occurrences_app k l c :
  occurrences k (l ++ [c])
  = occurrences k l + (if notnull c && cell_eqb k c then 1 else 0).
Proof.
  unfold occurrences. rewrite filter_app, length_app. simpl.
  destruct (notnull c && cell_eqb k c); simpl; lia.
Qed.

(** The table of counts after the cells [l], all of them texts or
    integers. *)
Lemma tally_fold l :
  Forall (fun c => exact c = true) l ->
  forall acc seen,
    Forall (fun c => exact c = true) (map fst acc) ->
    NoDup (map fst acc) ->
    Forall (fun e => 1 <= snd e) acc ->
    (forall c, In c seen <-> In c (map fst acc)) ->
    (forall k, exact k = true -> counted k acc = occurrences k seen) ->
    let t := fold_left (fun acc c => tally c acc) l acc in
    Forall (fun c => exact c = true) (map fst t)
    /\ NoDup (map fst t)
    /\ Forall (fun e => 1 <= snd e) t
    /\ (forall c, In c (seen ++ l) <-> In c (map fst t))
    /\ (forall k, exact k = true -> counted k t = occurrences k (seen ++ l)).
Proof.
  induction 1 as [|c l Hc Hl IH]; intros acc seen He Hnd Hp Hin Hcount.
  - cbn [fold_left]. rewrite app_nil_r. auto.
  - cbn [fold_left]. cbv zeta.
    replace (seen ++ c :: l) with ((seen ++ [c]) ++ l)
      by (now rewrite <- app_assoc).
    apply IH.
    + now apply exact_tally.
    + now apply NoDup_tally.
    + now apply positive_tally.
    + intros x. split.
      * intros H. apply in_app_or in H. destruct H as [H|[<-|[]]].
        -- apply keys_tally_incl. now apply Hin.
        -- now apply key_tally.
      * intros H. apply in_keys_tally in H. apply in_or_app.
        destruct H as [->|H]; [right; now left | left; now apply Hin].
    + intros k Hk. rewrite counted_tally, occurrences_app, Hcount by auto.
      f_equal.
      assert (E : cell_eqb c k = cell_eqb k c).
      { apply eq_true_iff_eq. rewrite !cell_eqb_exact by auto.
        split; congruence. }
      rewrite E. unfold notnull. now destruct c.
Qed.

Lemma counted_In k n acc :
  Forall (fun c => exact c = true) (map fst acc) ->
  NoDup (map fst acc) -> In (k, n) acc -> counted k acc = n.
Proof.
  induction acc as [|[k' n'] acc IH]; simpl; intros He Hnd Hin;
    [contradiction|].
  inversion He as [|? ? Hk' He']; subst.
  inversion Hnd as [|? ? Hn Hnd']; subst.
  destruct Hin as [E|Hin].
  - injection E as -> ->. rewrite cell_eqb_exact_refl by auto.
    assert (Z0 : forall l, Forall (fun c => exact c = true) (map fst l) ->
                 ~ In k (map fst l) -> counted k l = 0).
    { clear - Hk'. induction l as [|[a m] l IH]; simpl; intros He Hn; auto.
      inversion He; subst.
      destruct (cell_eqb a k) eqn:E.
      - exfalso. apply Hn. left. now apply cell_eqb_exact in E.
      - rewrite IH; auto. }
    rewrite Z0; auto. lia.
  - assert (Hk : In k (map fst acc)) by (apply in_map_iff; exists (k, n); auto).
    assert (E : cell_eqb k' k = false).
    { destruct (cell_eqb k' k) eqn:E; auto.
      rewrite Forall_forall in He'.
      apply cell_eqb_exact in E; auto. congruence. }
    rewrite E, IH; auto.
Qed.

Lemma insert_desc_perm e l : Permutation (insert_desc e l) (e :: l).
Proof.
  induction l as [|x l IH]; simpl; auto.
  destruct (snd x <=? snd e); auto.
  rewrite IH. apply perm_swap.
Qed.

Lemma sort_desc_perm t : Permutation (fold_right insert_desc [] t) t.
Proof.
  induction t as [|e t IH]; simpl; auto.
  rewrite insert_desc_perm. now constructor.
Qed.

Lemma insert_desc_descending e l :
  descending l -> descending (insert_desc e l).
Proof.
  unfold descending. induction 1 as [|x l Hs IH Hx]; simpl.
  - repeat constructor.
  - destruct (Z.leb_spec (snd x) (snd e)).
    + constructor; [constructor; auto|].
      constructor; auto.
      eapply Forall_impl; [|exact Hx]. simpl. intros; lia.
    + constructor; auto.
      eapply Permutation_Forall;
        [symmetry; apply insert_desc_perm|].
      constructor; auto. lia.
Qed.

Lemma sort_desc_descending t : descending (fold_right insert_desc [] t).
Proof.
  induction t as [|e t IH]; simpl.
  - constructor.
  - now apply insert_desc_descending.
Qed.

Lemma sum_Z_perm l l' : Permutation l l' -> sum_Z l = sum_Z l'.
Proof. induction 1; simpl; lia. Qed.

Lemma sum_tally_fold l acc :
  sum_Z (map snd (fold_left (fun acc c => tally c acc) l acc))
  = sum_Z (map snd acc) + Z.of_nat (length l).
Proof.
  revert acc; induction l as [|c l IH]; intros acc; cbn [fold_left length].
  - lia.
  - rewrite IH, sum_tally. lia.
Qed.

(** [value_counts] on any column: the counts are in descending order
    and add up to the number of cells that are not missing. *)
Lemma value_counts_order_and_sum s :
  descending (value_counts s)
  /\ sum_Z (map snd (value_counts s))
     = Z.of_nat (length (filter notnull (values s))).
Proof.
  unfold value_counts. split.
  - apply sort_desc_descending.
  - rewrite (sum_Z_perm _ _ (Permutation_map snd (sort_desc_perm _))).
    now rewrite sum_tally_fold.
Qed.

Lemma filter_notnull_exact vs :
  Forall (fun c => isnull c = true \/ exact c = true) vs ->
  Forall (fun c => exact c = true) (filter notnull vs).
Proof.
  induction 1 as [|c vs [H|H] _ IH]; simpl; auto; unfold notnull.
  - now rewrite H.
  - destruct (isnull c); simpl; auto.
Qed.

Lemma occurrences_filter k vs :
  occurrences k (filter notnull vs) = occurrences k vs.
Proof.
  unfold occurrences. f_equal. f_equal.
  induction vs as [|c vs IH]; simpl; auto.
  destruct (notnull c) eqn:E; simpl; [rewrite E; simpl|]; now rewrite IH.
Qed.

(** [value_counts] on a column of texts or integers. *)
Lemma value_counts_exact s :
  Forall (fun c => isnull c = true \/ exact c = true) (values s) ->
  NoDup (map fst (value_counts s))
  /\ (forall k, In k (map fst (value_counts s))
                <-> In k (values s) /\ notnull k = true)
  /\ (forall k n, In (k, n) (value_counts s) ->
                  n = occurrences k (values s) /\ 1 <= n).
Proof.
  intros H. apply filter_notnull_exact in H.
  destruct (tally_fold _ H [] []) as (He & Hnd & Hp & Hin & Hc);
    try (constructor; fail); try tauto.
  cbn [app] in *.
  set (t := fold_left (fun acc c => tally c acc)
                      (filter notnull (values s)) []) in *.
  assert (P : Permutation (value_counts s) t) by apply sort_desc_perm.
  split; [|split].
  - eapply Permutation_NoDup; [symmetry; apply Permutation_map; exact P|].
    exact Hnd.
  - intros k. rewrite <- filter_In, Hin.
    split; apply Permutation_in; [|symmetry]; apply Permutation_map; exact P.
  - intros k n Hk. apply (Permutation_in _ P) in Hk.
    assert (Ek : exact k = true).
    { rewrite Forall_forall in He. apply He.
      apply in_map_iff. exists (k, n). auto. }
    rewrite <- occurrences_filter, <- (Hc k Ek).
    rewrite (counted_In k n t) by auto. split; auto.
    rewrite Forall_forall in Hp. apply (Hp (k, n) Hk).
Qed.

Lemma sample_enriched_self : clean_df (self sample_enriched) = Some 4%nat.
Proof. vm_compute. reflexivity. Qed.

(** X8.  On a cleaned table whose primary_type cells are texts (or
    integers) or missing, [analyze_crime_types] returns one row per
    category that occurs, no category twice, most frequent first; the
    Count of a row is the number of records of that category and is at
    least 1, its Percentage is the count over the number of records
    times 100, rounded to two decimals, and the counts add up to the
    number of records whose category is not missing.  The analyzer leaves
    the world as it is. *)
Theorem analyze_crime_types_counts :
  forall w c cats,
    clean_df (self w) = Some c ->
    lookup "primary_type" (columns (deref (heap w) c)) = Some cats ->
    Forall (fun x => isnull x = true \/ exact x = true) (values cats) ->
    exists rows,
      run analyze_crime_types w = (Ok rows, w)
      /\ descending (map fst rows)
      /\ NoDup (map (fun row => fst (fst row)) rows)
      /\ (forall k, (exists n p, In (k, n, p) rows)
                    <-> In k (values cats) /\ notnull k = true)
      /\ (forall k n p,
            In (k, n, p) rows ->
            n = occurrences k (values cats) /\ 1 <= n
            /\ p = round2 (np_pct (PInt n) (len (deref (heap w) c))))
      /\ sum_Z (map (fun row => snd (fst row)) rows)
         = Z.of_nat (length (filter notnull (values cats))).
Proof.
  intros w c cats Hc Hl Hx.
  set (d := deref (heap w) c) in *.
  set (f := fun e : cell * Z =>
              (fst e, snd e, round2 (np_pct (PInt (snd e)) (len d)))).
  exists (map f (value_counts cats)).
  destruct (value_counts_order_and_sum cats) as (Hs & Hsum).
  destruct (value_counts_exact cats Hx) as (Hnd & Hin & Hn).
  assert (E1 : map fst (map f (value_counts cats)) = value_counts cats).
  { rewrite map_map. rewrite <- (map_id (value_counts cats)) at 2.
    apply map_ext. now intros []. }
  split; [|split; [|split; [|split; [|split]]]].
  - unfold analyze_crime_types, run, bind, get_self. rewrite Hc.
    unfold load, lift. fold d. rewrite lookup_getitem. fold d.
    rewrite Hl. reflexivity.
  - now rewrite E1.
  - rewrite map_map. exact Hnd.
  - intros k. rewrite <- Hin. split.
    + intros (n & p & H). apply in_map_iff in H.
      destruct H as ([k' n'] & E & H). injection E as -> -> _.
      apply in_map_iff. exists (k, n). auto.
    + intros H. apply in_map_iff in H. destruct H as ([k' n] & <- & H).
      exists n, (round2 (np_pct (PInt n) (len d))).
      apply in_map_iff. exists (k', n). auto.
  - intros k n p H. apply in_map_iff in H.
    destruct H as ([k' n'] & E & H). injection E as -> -> <-.
    destruct (Hn k n H). auto.
  - rewrite map_map. exact Hsum.
Qed.

Lemma analyze_crime_types_counts_witness :
  exists rows,
    run analyze_crime_types sample_enriched = (Ok rows, sample_enriched)
    /\ descending (map fst rows)
    /\ NoDup (map (fun row => fst (fst row)) rows)
    /\ (forall k, (exists n p, In (k, n, p) rows)
                  <-> In k [VStr "THEFT"; VStr "BATTERY"; VStr "ROBBERY"]
                      /\ notnull k = true)
    /\ (forall k n p,
          In (k, n, p) rows ->
          n = occurrences k [VStr "THEFT"; VStr "BATTERY"; VStr "ROBBERY"]
          /\ 1 <= n
          /\ p = round2 (np_pct (PInt n)
                                (len (deref (heap sample_enriched) 4%nat))))
    /\ sum_Z (map (fun row => snd (fst row)) rows)
       = Z.of_nat (length (filter notnull
                             [VStr "THEFT"; VStr "BATTERY"; VStr "ROBBERY"])).
Proof.
  apply (analyze_crime_types_counts sample_enriched 4%nat
           (mkSeries object [VStr "THEFT"; VStr "BATTERY"; VStr "ROBBERY"])).
  - exact sample_enriched_self.
  - vm_compute. reflexivity.
  - repeat constructor; right; reflexivity.
Defined.

Lemma counts_if_present_spec d name :
  match lookup name (columns d) with
  | Some s =>
      exists counts,
        counts_if_present d name = Some counts
        /\ descending counts
        /\ sum_Z (map snd counts)
           = Z.of_nat (length (filter notnull (values s)))
  | None => counts_if_present d name = None
  end.
Proof.
  unfold counts_if_present. destruct (lookup name (columns d)) as [s|]; auto.
  destruct (value_counts_order_and_sum s). eauto.
Qed.

(** X9.  Once a cleaned table exists [analyze_geographic] returns,
    whatever the columns of the table, and leaves the world as it is.
    [district_crimes] is None when the table has no district column, and
    [location_types] is None when it has no location_description
    column; otherwise the entry lists counts in descending order that add
    up to the number of cells of the column that are not missing. *)
Theorem analyze_geographic_always_returns :
  forall w c,
    clean_df (self w) = Some c ->
    exists g,
      run analyze_geographic w = (Ok g, w)
      /\ match lookup "district" (columns (deref (heap w) c)) with
         | Some s =>
             exists counts,
               district_crimes g = Some counts
               /\ descending counts
               /\ sum_Z (map snd counts)
                  = Z.of_nat (length (filter notnull (values s)))
         | None => district_crimes g = None
         end
      /\ match lookup "location_description"
                      (columns (deref (heap w) c)) with
         | Some s =>
             exists counts,
               location_types g = Some counts
               /\ descending counts
               /\ sum_Z (map snd counts)
                  = Z.of_nat (length (filter notnull (values s)))
         | None => location_types g = None
         end.
Proof.
  intros w c Hc. eexists. split; [|split].
  - unfold analyze_geographic, run, bind, get_self. rewrite Hc.
    reflexivity.
  - apply counts_if_present_spec.
  - apply counts_if_present_spec.
Qed.

Lemma analyze_geographic_always_returns_witness :
  exists g,
    run analyze_geographic sample_enriched = (Ok g, sample_enriched)
    /\ match lookup "district"
                    (columns (deref (heap sample_enriched) 4%nat)) with
       | Some s =>
           exists counts,
             district_crimes g = Some counts
             /\ descending counts
             /\ sum_Z (map snd counts)
                = Z.of_nat (length (filter notnull (values s)))
       | None => district_crimes g = None
       end
    /\ match lookup "location_description"
                    (columns (deref (heap sample_enriched) 4%nat)) with
       | Some s =>
           exists counts,
             location_types g = Some counts
             /\ descending counts
             /\ sum_Z (map snd counts)
                = Z.of_nat (length (filter notnull (values s)))
       | None => location_types g = None
       end.
Proof.
  exact (analyze_geographic_always_returns sample_enriched 4%nat
           sample_enriched_self).
Defined.

(** ** [load_data] *)

Lemma py_or_cases arg stored path :
  py_or arg stored = Some path ->
  (arg = Some path /\ path <> "")
  \/ ((arg = None \/ arg = Some "") /\ stored = Some path).
Proof.
  unfold py_or. destruct arg as [p|]; [|intros ->; auto].
  destruct (String.eqb_spec p "") as [->|Hne].
  - intros ->. auto.
  - intros [= ->]. auto.
Qed.

Lemma run_load_data arg w :
  run (load_data arg) w
  = match py_or arg (data_path (self w)) with
    | None => (Raise (ValueError "Data path must be provided"), w)
    | Some path =>
        match files w path with
        | Ok d =>
            (Ok (length (heap w)),
             mkWorld (mkAnalyzer (data_path (self w))
                                 (Some (length (heap w)))
                                 (clean_df (self w)))
                     (heap w ++ [d]) (files w) (reads w ++ [path])
                     (stdout w ++ [Loading path; Loaded (len d)]))
        | Raise e =>
            (Raise e,
             mkWorld (self w) (heap w) (files w) (reads w ++ [path])
                     (stdout w ++
                        [Loading path;
                         match e with
                         | FileNotFoundError _ => File_not_found path
                         | _ => Load_error e
                         end]))
        end
    end.
Proof.
  destruct w as [me h fs rd out].
  unfold load_data, run, bind, get_self; cbn [self data_path].
  destruct (py_or arg (data_path me)) as [path|]; [|reflexivity].
  unfold print, try_except, bind, read_csv, new, set_heap, set_df, set_self,
    load, ret, raise;
    cbn [self heap files reads stdout data_path df clean_df].
  destruct (fs path) as [d|e].
  - cbn [self heap files reads stdout data_path df clean_df].
    unfold deref. rewrite app_nth2 by lia. rewrite Nat.sub_diag.
    cbn [nth]. rewrite <- app_assoc. reflexivity.
  - destruct e; cbn [self heap files reads stdout];
      rewrite <- app_assoc; reflexivity.
Qed.

(** X10.  A [load_data] call that returns has read one file: the path
    given as argument when that is a non-empty string, else the path
    given to the constructor.  It stores the table as a new object in
    [self.df] and replaces nothing else: [data_path] is not updated to
    the argument, [clean_df] still refers to the table cleaned before,
    and no existing table is changed. *)
Theorem load_data_replaces_only_df :
  forall w arg r w',
    run (load_data arg) w = (Ok r, w') ->
    exists path d,
      ((arg = Some path /\ path <> "")
       \/ ((arg = None \/ arg = Some "") /\ data_path (self w) = Some path))
      /\ files w path = Ok d
      /\ r = length (heap w)
      /\ self w' = mkAnalyzer (data_path (self w)) (Some r) (clean_df (self w))
      /\ heap w' = heap w ++ [d]
      /\ reads w' = reads w ++ [path]
      /\ stdout w' = stdout w ++ [Loading path; Loaded (len d)].
Proof.
  intros w arg r w' H. rewrite run_load_data in H.
  destruct (py_or arg (data_path (self w))) as [path|] eqn:Ep;
    [|discriminate].
  destruct (files w path) as [d|e] eqn:Ef; [|discriminate].
  injection H as <- <-. exists path, d.
  split; [now apply py_or_cases|]. repeat split; auto.
Qed.

Lemma load_data_replaces_only_df_witness :
  exists path d,
    ((Some "" = Some path /\ path <> "")
     \/ ((Some "" = None \/ Some "" = Some "")
         /\ data_path (self (mkWorld (init (Some sample_path)) []
                               (one_file sample_path sample_raw) [] []))
            = Some path))
    /\ files (mkWorld (init (Some sample_path)) []
                (one_file sample_path sample_raw) [] []) path = Ok d
    /\ 0%nat = length (heap (mkWorld (init (Some sample_path)) []
                               (one_file sample_path sample_raw) [] []))
    /\ self (after (load_data (Some ""))
                   (mkWorld (init (Some sample_path)) []
                      (one_file sample_path sample_raw) [] []))
       = mkAnalyzer
           (data_path (self (mkWorld (init (Some sample_path)) []
                               (one_file sample_path sample_raw) [] [])))
           (Some 0%nat)
           (clean_df (self (mkWorld (init (Some sample_path)) []
                              (one_file sample_path sample_raw) [] [])))
    /\ heap (after (load_data (Some ""))
                   (mkWorld (init (Some sample_path)) []
                      (one_file sample_path sample_raw) [] []))
       = heap (mkWorld (init (Some sample_path)) []
                 (one_file sample_path sample_raw) [] []) ++ [d]
    /\ reads (after (load_data (Some ""))
                    (mkWorld (init (Some sample_path)) []
                       (one_file sample_path sample_raw) [] []))
       = reads (mkWorld (init (Some sample_path)) []
                  (one_file sample_path sample_raw) [] []) ++ [path]
    /\ stdout (after (load_data (Some ""))
                     (mkWorld (init (Some sample_path)) []
                        (one_file sample_path sample_raw) [] []))
       = stdout (mkWorld (init (Some sample_path)) []
                   (one_file sample_path sample_raw) [] [])
         ++ [Loading path; Loaded (len d)].
Proof.
  apply (load_data_replaces_only_df
           (mkWorld (init (Some sample_path)) []
              (one_file sample_path sample_raw) [] [])
           (Some "") 0%nat).
  vm_compute. reflexivity.
Defined.

(** X11.  A [load_data] call whose read fails raises the exception of
    [read_csv] itself, after one read of the chosen path and one error
    line (the file-not-found line for a FileNotFoundError, the general
    one otherwise); the attributes of the analyzer and every table are
    as before, so a table loaded earlier stays loaded. *)
Theorem load_data_read_failure :
  forall w arg path e,
    py_or arg (data_path (self w)) = Some path ->
    files w path = Raise e ->
    exists w',
      run (load_data arg) w = (Raise e, w')
      /\ self w' = self w
      /\ heap w' = heap w
      /\ reads w' = reads w ++ [path]
      /\ stdout w'
         = stdout w ++ [Loading path;
                        match e with
                        | FileNotFoundError _ => File_not_found path
                        | _ => Load_error e
                        end].
Proof.
  intros w arg path e Hp Hf. rewrite run_load_data, Hp, Hf.
  eexists. split; [reflexivity|]. repeat split.
Qed.

Lemma load_data_read_failure_witness :
  exists w',
    run (load_data (Some "missing.csv")) sample_loaded
    = (Raise (FileNotFoundError "missing.csv"), w')
    /\ self w' = self sample_loaded
    /\ heap w' = heap sample_loaded
    /\ reads w' = reads sample_loaded ++ ["missing.csv"]
    /\ stdout w'
       = stdout sample_loaded
         ++ [Loading "missing.csv"; File_not_found "missing.csv"].
Proof.
  apply (load_data_read_failure sample_loaded (Some "missing.csv")
           "missing.csv" (FileNotFoundError "missing.csv")).
  - vm_compute. reflexivity.
  - vm_compute. reflexivity.
Defined.

(** ** The analyzers as functions of the current frame *)

Ltac by_cases_on_results :=
  repeat match goal with
  | |- context [match ?r with Ok _ => _ | Raise _ => _ end] =>
      destruct r; cbn [rbind]
  | |- context [rbind ?r _] => destruct r; cbn [rbind]
  | |- context [if ?b then _ else _] => destruct b
  end; try reflexivity.

Lemma run_explore_data w :
  run explore_data w
  = (match df (self w) with
     | None => Raise (ValueError "Data not loaded. Call load_data() first.")
     | Some r => exploration_frame (deref (heap w) r)
     end, w).
Proof.
  unfold explore_data, exploration_frame, run, bind, get_self.
  destruct (df (self w)); [|reflexivity].
  unfold load, lift, ret. by_cases_on_results.
Qed.

Lemma run_analyze_trends w :
  run analyze_trends w
  = (match clean_df (self w) with
     | None => Raise not_prepared
     | Some r => trends_frame (deref (heap w) r)
     end, w).
Proof.
  unfold analyze_trends, trends_frame, run, bind, get_self.
  destruct (clean_df (self w)); [|reflexivity].
  unfold load, lift, ret. by_cases_on_results.
Qed.

Lemma run_analyze_crime_types w :
  run analyze_crime_types w
  = (match clean_df (self w) with
     | None => Raise not_prepared
     | Some r => crime_types_frame (deref (heap w) r)
     end, w).
Proof.
  unfold analyze_crime_types, crime_types_frame, run, bind, get_self.
  destruct (clean_df (self w)); [|reflexivity].
  unfold load, lift, ret. by_cases_on_results.
Qed.

Lemma run_analyze_geographic w :
  run analyze_geographic w
  = (match clean_df (self w) with
     | None => Raise not_prepared
     | Some r => Ok (geographic_frame (deref (heap w) r))
     end, w).
Proof.
  unfold analyze_geographic, geographic_frame, run, bind, get_self.
  destruct (clean_df (self w)); reflexivity.
Qed.

Lemma run_kpi_percentage d name key kpis w :
  kpi_percentage d name key kpis w
  = (kpi_percentage_frame d name key kpis, w).
Proof.
  unfold kpi_percentage, kpi_percentage_frame, bind, lift, ret.
  by_cases_on_results.
Qed.

Lemma run_calculate_kpis w :
  run calculate_kpis w
  = (match clean_df (self w) with
     | None => Raise not_prepared
     | Some r => kpis_frame (deref (heap w) r)
     end, w).
Proof.
  unfold calculate_kpis, kpis_frame, run, bind, get_self.
  destruct (clean_df (self w)); [|reflexivity].
  unfold load. cbv zeta. rewrite !run_kpi_percentage.
  destruct (kpi_percentage_frame _ _ _ _) as [k1|]; [|reflexivity].
  cbn [rbind]. rewrite run_kpi_percentage.
  destruct (kpi_percentage_frame _ _ _ _) as [k2|]; [|reflexivity].
  cbn [rbind]. rewrite run_kpi_percentage.
  destruct (kpi_percentage_frame _ _ _ _) as [k3|]; [|reflexivity].
  cbn [rbind]. unfold lift, ret. by_cases_on_results.
Qed.

(** ** What a reload leaves in place *)

(** X12.  [load_data] does not reset [clean_df]: after a reload on an
    analyzer that has a cleaned table, [clean_df] still refers to that
    table, unchanged, and the four analyzers return what they returned
    before the reload; they describe the data loaded before until
    [clean_data] is called again. *)
Theorem reload_keeps_the_cleaned_table :
  forall w arg r w' c,
    run (load_data arg) w = (Ok r, w') ->
    clean_df (self w) = Some c ->
    (c < length (heap w))%nat ->
    clean_df (self w') = Some c
    /\ deref (heap w') c = deref (heap w) c
    /\ fst (run analyze_trends w') = fst (run analyze_trends w)
    /\ fst (run analyze_crime_types w') = fst (run analyze_crime_types w)
    /\ fst (run analyze_geographic w') = fst (run analyze_geographic w)
    /\ fst (run calculate_kpis w') = fst (run calculate_kpis w).
Proof.
  intros w arg r w' c H Hc Hlt. rewrite run_load_data in H.
  destruct (py_or arg (data_path (self w))) as [path|]; [|discriminate].
  destruct (files w path) as [d|e]; [|discriminate].
  injection H as <- <-.
  rewrite run_analyze_trends, run_analyze_crime_types,
    run_analyze_geographic, run_calculate_kpis.
  rewrite run_analyze_trends, run_analyze_crime_types,
    run_analyze_geographic, run_calculate_kpis.
  cbn [self heap clean_df fst]. rewrite Hc.
  rewrite (deref_app_old (heap w) [d] c Hlt). repeat split.
Qed.

Lemma reload_keeps_the_cleaned_table_witness :
  clean_df (self (after (load_data (Some sample_path)) sample_enriched)) = Some 4%nat
  /\ deref (heap (after (load_data (Some sample_path)) sample_enriched)) 4%nat
     = deref (heap sample_enriched) 4%nat
  /\ fst (run analyze_trends (after (load_data (Some sample_path)) sample_enriched))
     = fst (run analyze_trends sample_enriched)
  /\ fst (run analyze_crime_types (after (load_data (Some sample_path)) sample_enriched))
     = fst (run analyze_crime_types sample_enriched)
  /\ fst (run analyze_geographic (after (load_data (Some sample_path)) sample_enriched))
     = fst (run analyze_geographic sample_enriched)
  /\ fst (run calculate_kpis (after (load_data (Some sample_path)) sample_enriched))
     = fst (run calculate_kpis sample_enriched).
Proof.
  apply (reload_keeps_the_cleaned_table sample_enriched (Some sample_path) 5%nat).
  - vm_compute. reflexivity.
  - exact sample_enriched_self.
  - vm_compute. lia.
Defined.

(** ** [explore_data] beside [clean_data] *)

Lemma len_drop_duplicates d :
  well_formed d ->
  len (drop_duplicates d) = len d - count_true (duplicated d).
Proof.
  intros Hwf. unfold drop_duplicates, len, take_rows, count_true;
    cbn [index].
  assert (Hlen : length (duplicated d) = length (index d)).
  { unfold duplicated. rewrite duplicated_rows_length.
    now apply rows_length. }
  pose proof (length_mask_negb (duplicated d) (index d) Hlen). lia.
Qed.

Lemma count_true_none m :
  forallb negb m = true -> count_true m = 0.
Proof.
  unfold count_true. induction m as [|b m IH]; simpl; auto.
  intros H. apply andb_true_iff in H. destruct H as [Hb H].
  destruct b; [discriminate|]. auto.
Qed.

Lemma count_missing_zero d :
  count_missing d = 0 ->
  Forall (fun c => existsb isnull (values (snd c)) = false) (columns d).
Proof.
  unfold count_missing. induction (columns d) as [|c cols IH]; simpl; auto.
  intros H.
  pose proof (count_true_nonneg (map isnull (values (snd c)))) as H0.
  assert (Hrest : 0 <= fold_right
                         (fun c acc =>
                            count_true (map isnull (values (snd c))) + acc)
                         0 cols).
  { clear. induction cols as [|x cols IH]; simpl; [lia|].
    pose proof (count_true_nonneg (map isnull (values (snd x)))). lia. }
  constructor; [|apply IH; lia].
  assert (E : count_true (map isnull (values (snd c))) = 0) by lia.
  clear - E. unfold count_true in E.
  induction (values (snd c)) as [|x l IH]; simpl in *; auto.
  destruct (isnull x); simpl in *; [lia | auto].
Qed.

Lemma mask_filter_complete mask l :
  existsb isnull l = false -> existsb isnull (mask_filter mask l) = false.
Proof.
  revert l; induction mask as [|b mask IH]; intros [|x l]; simpl; auto.
  intros H. apply orb_false_iff in H. destruct H as [Hx H].
  destruct b; simpl; rewrite ?Hx; simpl; auto.
Qed.

(** In a frame without a missing cell no row lacks a critical field. *)
Lemma missing_critical_count_complete d :
  well_formed d ->
  Forall (fun c => existsb isnull (values (snd c)) = false) (columns d) ->
  missing_critical_count d = 0.
Proof.
  intros Hwf Hc. unfold missing_critical_count.
  destruct (select d critical_fields) as [sub|] eqn:Hs; auto.
  destruct (isnull_any_select d sub Hwf Hs) as (E & Hin).
  apply count_true_none. rewrite E.
  apply forallb_forall. intros b Hb. apply in_map_iff in Hb.
  destruct Hb as (row & <- & Hrow).
  apply negb_true_iff.
  assert (Hr : existsb isnull row = false).
  { assert (A : Forall (fun r => existsb isnull r = false) (rows d)).
    { unfold rows. apply zip_rows_complete. apply Forall_map. exact Hc. }
    rewrite Forall_forall in A. auto. }
  destruct (existsb isnull (map _ critical_fields)) eqn:X; auto.
  apply existsb_exists in X. destruct X as (x & Hx & Hnull).
  apply in_map_iff in Hx. destruct Hx as (n & <- & Hn).
  pose proof (rows_width d) as W. rewrite Forall_forall in W.
  destruct (row_get_in n (map typed (columns d)) row) as (t & Ht).
  - rewrite length_map. auto.
  - rewrite map_map. apply Hin, Hn.
  - rewrite map_map in Ht. apply in_combine_r in Ht.
    assert (existsb isnull row = true)
      by (apply existsb_exists; eauto).
    congruence.
Qed.

Lemma complete_take_rows mask d :
  Forall (fun c => existsb isnull (values (snd c)) = false) (columns d) ->
  Forall (fun c => existsb isnull (values (snd c)) = false)
         (columns (take_rows mask d)).
Proof.
  intros H. unfold take_rows; cbn [columns]. apply Forall_map.
  eapply Forall_impl; [|exact H]. intros c Hc; cbn [snd values].
  now apply mask_filter_complete.
Qed.

(** X13.  The census of [explore_data] predicts what [clean_data]
    prints for the same raw table: the number of duplicates removed is
    the duplicate count of the census, the clean table has the census'
    total less the duplicates and the records that lack a critical
    field, and when the census counts no missing value at all, no record
    is removed for a missing critical field. *)
Theorem explore_data_predicts_cleaning :
  forall w raw e r w',
    df (self w) = Some raw ->
    well_formed (deref (heap w) raw) ->
    run explore_data w = (Ok e, w) ->
    run clean_data w = (Ok r, w') ->
    total_records e = len (deref (heap w) raw)
    /\ exists missing,
         stdout w'
         = stdout w ++
           [Removed_duplicates (duplicate_records e);
            Removed_missing_critical missing;
            Standardized_text;
            Clean_records (total_records e - duplicate_records e - missing)]
         /\ len (deref (heap w') r)
            = total_records e - duplicate_records e - missing
         /\ (missing_values e = 0 -> missing = 0).
Proof.
  intros w raw e r w' Hdf Hwf He H.
  rewrite run_explore_data, Hdf in He. injection He as He.
  unfold exploration_frame in He.
  destruct (getitem (deref (heap w) raw) "date") as [date|];
    [|discriminate].
  cbn [rbind] in He. injection He as <-.
  cbn [total_records duplicate_records missing_values].
  split; [reflexivity|].
  pose proof (run_clean_data w raw Hdf) as R. cbv zeta in R.
  set (d0 := deref (heap w) raw) in *.
  destruct (clean_frame d0) as [d'|e0] eqn:E.
  - rewrite R in H. injection H as <- <-. cbn [heap stdout].
    rewrite deref_app_third.
    exists (missing_critical_count (drop_duplicates d0)).
    assert (H1 : well_formed (drop_duplicates d0))
      by (apply well_formed_take_rows, Hwf).
    destruct (clean_frame_ok _ _ Hwf E) as (sub & Hs & Ed).
    pose proof (len_dropna _ _ H1 Hs) as L.
    pose proof (len_drop_duplicates d0 Hwf) as L0.
    assert (Hlen : len d' = len (take_rows (map negb (isnull_any sub))
                                           (drop_duplicates d0)))
      by (rewrite Ed; reflexivity).
    assert (Hm : missing_critical_count (drop_duplicates d0)
                 = count_true (isnull_any sub))
      by (unfold missing_critical_count; now rewrite Hs).
    split; [|split].
    + replace (len d0 - len (drop_duplicates d0))
        with (count_true (duplicated d0)) by lia.
      replace (len d')
        with (len d0 - count_true (duplicated d0)
              - missing_critical_count (drop_duplicates d0)) by lia.
      reflexivity.
    + lia.
    + intros Hz. apply missing_critical_count_complete; auto.
      apply complete_take_rows. now apply count_missing_zero.
  - destruct R as (ext & out & R). rewrite R in H. discriminate.
Qed.

Lemma explore_data_predicts_cleaning_witness :
  total_records (mkExploration 5 6
                   (VTime (Calendar.timestamp 2024 1 1 5),
                    VTime (Calendar.timestamp 2024 1 3 18)) 4 1)
  = len (deref (heap sample_loaded) 0%nat)
  /\ exists missing,
       stdout sample_cleaned
       = stdout sample_loaded ++
         [Removed_duplicates
            (duplicate_records
               (mkExploration 5 6
                  (VTime (Calendar.timestamp 2024 1 1 5),
                   VTime (Calendar.timestamp 2024 1 3 18)) 4 1));
          Removed_missing_critical missing;
          Standardized_text;
          Clean_records
            (total_records
               (mkExploration 5 6
                  (VTime (Calendar.timestamp 2024 1 1 5),
                   VTime (Calendar.timestamp 2024 1 3 18)) 4 1)
             - duplicate_records
                 (mkExploration 5 6
                    (VTime (Calendar.timestamp 2024 1 1 5),
                     VTime (Calendar.timestamp 2024 1 3 18)) 4 1)
             - missing)]
       /\ len (deref (heap sample_cleaned) 3%nat)
          = total_records
              (mkExploration 5 6
                 (VTime (Calendar.timestamp 2024 1 1 5),
                  VTime (Calendar.timestamp 2024 1 3 18)) 4 1)
            - duplicate_records
                (mkExploration 5 6
                   (VTime (Calendar.timestamp 2024 1 1 5),
                    VTime (Calendar.timestamp 2024 1 3 18)) 4 1)
            - missing
       /\ (missing_values
             (mkExploration 5 6
                (VTime (Calendar.timestamp 2024 1 1 5),
                 VTime (Calendar.timestamp 2024 1 3 18)) 4 1) = 0 ->
           missing = 0).
Proof.
  apply (explore_data_predicts_cleaning sample_loaded 0%nat _ 3%nat
           sample_cleaned sample_loaded_self sample_loaded_well_formed).
  - vm_compute. reflexivity.
  - exact sample_cleaned_run.
Defined.

(** ** The analyzers before and after [engineer_features] *)

Lemma counts_if_present_ext d d' name :
  lookup name (columns d') = lookup name (columns d) ->
  counts_if_present d' name = counts_if_present d name.
Proof. unfold counts_if_present. now intros ->. Qed.

(** X14.  Feature engineering changes nothing for the crime type and
    geographic analyses: on the table [engineer_features] returns,
    [analyze_crime_types] and [analyze_geographic] return (or raise) what
    they did on the cleaned table before it. *)
Theorem type_and_geographic_analyses_ignore_features :
  forall w r w',
    run engineer_features w = (Ok r, w') ->
    fst (run analyze_crime_types w') = fst (run analyze_crime_types w)
    /\ fst (run analyze_geographic w') = fst (run analyze_geographic w).
Proof.
  intros w r w' H. apply engineer_features_ok in H.
  destruct H as (c & d' & Hc & Hf & _ & Hself & _ & Hd).
  rewrite !run_analyze_crime_types, !run_analyze_geographic. cbn [fst].
  rewrite Hself. cbn [clean_df]. rewrite Hc, Hd.
  apply engineer_frame_enriched in Hf. destruct Hf as (date & E).
  pose proof (en_others _ _ _ E) as Ho.
  assert (Hlen : len d' = len (deref (heap w) c))
    by (unfold len; now rewrite (en_index _ _ _ E)).
  split.
  - unfold crime_types_frame. rewrite !lookup_getitem, Hlen.
    now rewrite (Ho "primary_type") by reflexivity.
  - unfold geographic_frame.
    rewrite (counts_if_present_ext _ d' "district")
      by (now apply Ho).
    rewrite (counts_if_present_ext _ d' "location_description")
      by (now apply Ho).
    reflexivity.
Qed.

Lemma type_and_geographic_analyses_ignore_features_witness :
  fst (run analyze_crime_types sample_enriched)
  = fst (run analyze_crime_types sample_cleaned)
  /\ fst (run analyze_geographic sample_enriched)
     = fst (run analyze_geographic sample_cleaned).
Proof.
  exact (type_and_geographic_analyses_ignore_features sample_cleaned 4%nat
           sample_enriched sample_enriched_run).
Defined.

(** ** The values of [calculate_kpis] *)

Lemma sum_cells_bools a vs :
  Forall (fun c => exists b, c = VBool b) vs ->
  sum_cells (PInt a) vs = Ok (PInt (a + count_true (map truthy vs))).
Proof.
  intros H. revert a. induction H as [|c vs [b ->] _ IH]; intros a.
  - simpl. unfold count_true; simpl. f_equal. f_equal. lia.
  - cbn [sum_cells isnull as_num num_add]. rewrite IH. f_equal. f_equal.
    unfold count_true. cbn [map truthy filter].
    destruct b; cbn [length]; lia.
Qed.

Lemma percentage_bools s n :
  dtype s = bool_ ->
  Forall (fun c => exists b, c = VBool b) (values s) ->
  percentage s n
  = Ok (np_pct (PInt (count_true (map truthy (values s)))) n).
Proof.
  intros Hd Hb. unfold percentage, series_sum.
  rewrite (sum_cells_bools 0 _ Hb), Hd. reflexivity.
Qed.

Lemma kpi_percentage_frame_ok d name key kpis kpis' :
  kpi_percentage_frame d name key kpis = Ok kpis' ->
  match lookup name (columns d) with
  | Some s =>
      exists x, percentage s (len d) = Ok x
                /\ kpis' = kpis ++ [(key, KFloat x)]
  | None => kpis' = kpis
  end
  /\ map fst kpis'
     = map fst kpis ++ (if has_column name d then [key] else []).
Proof.
  unfold kpi_percentage_frame. intros H.
  destruct (has_column name d) eqn:Hc.
  - apply has_column_lookup in Hc. destruct Hc as (s & Hs).
    rewrite lookup_getitem, Hs in H. cbn [rbind] in H. rewrite Hs.
    destruct (percentage s (len d)) as [x|]; [|discriminate].
    injection H as <-. split; eauto.
    rewrite map_app. reflexivity.
  - apply has_column_false_lookup in Hc. rewrite Hc.
    injection H as <-. split; auto. now rewrite app_nil_r.
Qed.

(** X15.  When [calculate_kpis] returns, its dictionary holds, in this
    order, total_crimes, then arrest_rate, domestic_pct and violent_pct
    for those of the columns arrest, domestic and is_violent the table
    has (the key of an absent column is left out), then
    avg_crimes_per_day.  total_crimes is the number of records; the
    percentage of a boolean column is the number of its true cells over
    the number of records, times 100; avg_crimes_per_day is the number of
    records over the whole days between the first and the last date,
    which are not zero.  The world is left as it is. *)
Theorem calculate_kpis_values :
  forall w c kpis w',
    clean_df (self w) = Some c ->
    run calculate_kpis w = (Ok kpis, w') ->
    w' = w
    /\ map fst kpis
       = ["total_crimes"]
         ++ (if has_column "arrest" (deref (heap w) c)
             then ["arrest_rate"] else [])
         ++ (if has_column "domestic" (deref (heap w) c)
             then ["domestic_pct"] else [])
         ++ (if has_column "is_violent" (deref (heap w) c)
             then ["violent_pct"] else [])
         ++ ["avg_crimes_per_day"]
    /\ In ("total_crimes", KInt (len (deref (heap w) c))) kpis
    /\ (forall name key flags,
          In (name, key) [("arrest", "arrest_rate");
                          ("domestic", "domestic_pct");
                          ("is_violent", "violent_pct")] ->
          lookup name (columns (deref (heap w) c)) = Some flags ->
          dtype flags = bool_ ->
          Forall (fun c => exists b, c = VBool b) (values flags) ->
          In (key,
              KFloat (np_pct (PInt (count_true (map truthy (values flags))))
                             (len (deref (heap w) c))))
             kpis)
    /\ exists date days,
         lookup "date" (columns (deref (heap w) c)) = Some date
         /\ span_days (series_max date) (series_min date) = Ok days
         /\ days <> PInt 0
         /\ In ("avg_crimes_per_day",
                KFloat (PrimFloat.div (float_of_Z (len (deref (heap w) c)))
                                      (to_float days)))
               kpis.
Proof.
  intros w c kpis w' Hc H. rewrite run_calculate_kpis, Hc in H.
  injection H as H <-. split; [reflexivity|].
  set (d := deref (heap w) c) in *.
  unfold kpis_frame in H. cbv zeta in H.
  destruct (kpi_percentage_frame d "arrest" _ _) as [k1|] eqn:E1;
    [|discriminate]. cbn [rbind] in H.
  destruct (kpi_percentage_frame d "domestic" _ _) as [k2|] eqn:E2;
    [|discriminate]. cbn [rbind] in H.
  destruct (kpi_percentage_frame d "is_violent" _ _) as [k3|] eqn:E3;
    [|discriminate]. cbn [rbind] in H.
  rewrite lookup_getitem in H.
  destruct (lookup "date" (columns d)) as [date|] eqn:Ed; [|discriminate].
  cbn [rbind] in H.
  destruct (span_days (series_max date) (series_min date)) as [days|] eqn:Es;
    [|discriminate]. cbn [rbind] in H.
  destruct (py_div (len d) days) as [avg|] eqn:Ea; [|discriminate].
  injection H as <-.
  apply kpi_percentage_frame_ok in E1, E2, E3.
  destruct E1 as (V1 & K1), E2 as (V2 & K2), E3 as (V3 & K3).
  assert (S1 : incl k1 k2).
  { destruct (lookup "domestic" (columns d));
      [destruct V2 as (x & _ & ->); apply incl_appl, incl_refl
      | subst; apply incl_refl]. }
  assert (S2 : incl k2 k3).
  { destruct (lookup "is_violent" (columns d));
      [destruct V3 as (x & _ & ->); apply incl_appl, incl_refl
      | subst; apply incl_refl]. }
  assert (S0 : In ("total_crimes", KInt (len d)) k1).
  { destruct (lookup "arrest" (columns d));
      [destruct V1 as (x & _ & ->); apply in_or_app; left; now left
      | subst; now left]. }
  split; [|split; [|split]].
  - rewrite map_app, K3, K2, K1. cbn [map fst app].
    rewrite <- !app_assoc. reflexivity.
  - apply in_or_app. left. auto.
  - intros name key flags Hin Hl Hd Hb.
    pose proof (percentage_bools flags (len d) Hd Hb) as P.
    apply in_or_app. left.
    destruct Hin as [X|[X|[X|[]]]]; injection X as <- <-; rewrite Hl in *.
    + destruct V1 as (x & Hx & ->). rewrite P in Hx. injection Hx as <-.
      apply S2, S1. apply in_or_app. right. now left.
    + destruct V2 as (x & Hx & ->). rewrite P in Hx. injection Hx as <-.
      apply S2. apply in_or_app. right. now left.
    + destruct V3 as (x & Hx & ->). rewrite P in Hx. injection Hx as <-.
      apply in_or_app. right. now left.
  - exists date, days. repeat split; auto.
    + intros ->. discriminate.
    + apply in_or_app. right. left. f_equal. f_equal.
      unfold py_div in Ea. destruct days as [z|x].
      * destruct z; [discriminate| |]; now injection Ea as <-.
      * destruct (PrimFloat.eqb x PrimFloat.zero); [discriminate|].
        now injection Ea as <-.
Qed.

Lemma calculate_kpis_values_witness :
  exists kpis,
    run calculate_kpis sample_enriched = (Ok kpis, sample_enriched)
    /\ map fst kpis
       = ["total_crimes"]
         ++ (if has_column "arrest" (deref (heap sample_enriched) 4%nat)
             then ["arrest_rate"] else [])
         ++ (if has_column "domestic" (deref (heap sample_enriched) 4%nat)
             then ["domestic_pct"] else [])
         ++ (if has_column "is_violent" (deref (heap sample_enriched) 4%nat)
             then ["violent_pct"] else [])
         ++ ["avg_crimes_per_day"]
    /\ In ("total_crimes", KInt (len (deref (heap sample_enriched) 4%nat)))
          kpis.
Proof.
  assert (R : exists kpis,
             run calculate_kpis sample_enriched = (Ok kpis, sample_enriched))
    by (eexists; vm_compute; reflexivity).
  destruct R as (kpis & R). exists kpis. split; [exact R|].
  destruct (calculate_kpis_values sample_enriched 4%nat kpis sample_enriched
              sample_enriched_self R) as (_ & Hk & Ht & _).
  split; [exact Hk | exact Ht].
Defined.

(** ** The summary report *)

Lemma run_generate_summary_report now w :
  run (generate_summary_report now) w
  = (match clean_df (self w) with
     | None => Raise not_prepared
     | Some r => report_frame now (deref (heap w) r)
     end, w).
Proof.
  unfold generate_summary_report, report_frame, run, bind, get_self.
  destruct (clean_df (self w)) as [r|] eqn:Hc; [|reflexivity].
  unfold load, lift. 
  destruct (getitem (deref (heap w) r) "date") as [date|]; [|reflexivity].
  cbn [rbind].
  destruct (getitem (deref (heap w) r) "primary_type") as [types|] eqn:Et;
    [|reflexivity].
  cbn [rbind].
  pose proof (run_calculate_kpis w) as R. unfold run in R.
  rewrite R, Hc.
  destruct (kpis_frame (deref (heap w) r)) as [kpis|]; [|reflexivity].
  cbn [rbind]. rewrite Et. reflexivity.
Qed.

Lemma kpis_get_absent key kpis :
  ~ In key (map fst kpis) -> kpis_get key kpis = KInt 0.
Proof.
  unfold kpis_get. intros H.
  destruct (find _ kpis) as [[k v]|] eqn:E; auto.
  apply find_some in E. destruct E as (Hin & Hk). simpl in Hk.
  apply String.eqb_eq in Hk. subst k.
  exfalso. apply H. apply in_map_iff. exists (key, v). auto.
Qed.

Lemma kpis_get_present key v kpis :
  NoDup (map fst kpis) -> In (key, v) kpis -> kpis_get key kpis = v.
Proof.
  unfold kpis_get. induction kpis as [|[k x] kpis IH]; simpl;
    intros Hnd Hin; [contradiction|].
  inversion Hnd as [|? ? Hn Hnd']; subst.
  destruct Hin as [E|Hin].
  - injection E as -> ->. now rewrite String.eqb_refl.
  - destruct (String.eqb_spec k key) as [->|Hne]; simpl; auto.
    exfalso. apply Hn. apply in_map_iff. exists (key, v). auto.
Qed.

Lemma kpis_frame_keys d kpis :
  kpis_frame d = Ok kpis ->
  map fst kpis
  = ["total_crimes"]
    ++ (if has_column "arrest" d then ["arrest_rate"] else [])
    ++ (if has_column "domestic" d then ["domestic_pct"] else [])
    ++ (if has_column "is_violent" d then ["violent_pct"] else [])
    ++ ["avg_crimes_per_day"].
Proof.
  unfold kpis_frame. cbv zeta. intros H.
  destruct (kpi_percentage_frame d "arrest" _ _) as [k1|] eqn:E1;
    [|discriminate]. cbn [rbind] in H.
  destruct (kpi_percentage_frame d "domestic" _ _) as [k2|] eqn:E2;
    [|discriminate]. cbn [rbind] in H.
  destruct (kpi_percentage_frame d "is_violent" _ _) as [k3|] eqn:E3;
    [|discriminate]. cbn [rbind] in H.
  destruct (getitem d "date") as [date|]; [|discriminate]. cbn [rbind] in H.
  destruct (span_days _ _) as [days|]; [|discriminate]. cbn [rbind] in H.
  destruct (py_div _ _) as [avg|]; [|discriminate]. injection H as <-.
  apply kpi_percentage_frame_ok in E1, E2, E3.
  destruct E1 as (_ & K1), E2 as (_ & K2), E3 as (_ & K3).
  rewrite map_app, K3, K2, K1. cbn [map fst app].
  rewrite <- !app_assoc. reflexivity.
Qed.

Lemma kpis_frame_NoDup d kpis :
  kpis_frame d = Ok kpis -> NoDup (map fst kpis).
Proof.
  intros H. rewrite (kpis_frame_keys d kpis H).
  destruct (has_column "arrest" d), (has_column "domestic" d),
    (has_column "is_violent" d); cbn [app];
    repeat (constructor; [simpl; intuition discriminate|]); constructor.
Qed.

(** What the report shows for a percentage: the entry of the KPI
    dictionary when the column is there, and 0 when it is not. *)
Lemma kpis_get_percentage d kpis name key :
  kpis_frame d = Ok kpis ->
  In (name, key) [("arrest", "arrest_rate"); ("domestic", "domestic_pct");
                  ("is_violent", "violent_pct")] ->
  if has_column name d then In (key, kpis_get key kpis) kpis
  else kpis_get key kpis = KInt 0.
Proof.
  intros H Hin. pose proof (kpis_frame_keys d kpis H) as K.
  pose proof (kpis_frame_NoDup d kpis H) as Hnd.
  assert (Hk : In key (map fst kpis) <-> has_column name d = true).
  { rewrite K.
    destruct Hin as [X|[X|[X|[]]]]; injection X as <- <-;
      destruct (has_column "arrest" d), (has_column "domestic" d),
        (has_column "is_violent" d); cbn [app In];
      intuition discriminate. }
  destruct (has_column name d).
  - pose proof (proj2 Hk eq_refl) as Hi. apply in_map_iff in Hi.
    destruct Hi as ([k v] & E & Hi). simpl in E. subst k.
    now rewrite (kpis_get_present key v kpis Hnd Hi).
  - apply kpis_get_absent. intros Hi. apply Hk in Hi. discriminate.
Qed.

(** X16.  When [generate_summary_report] returns, the world is as it
    was, and the report shows: the number of records; as the number of
    unique crime types, the number of rows [analyze_crime_types]
    returns; as top crime types, the first five of those rows (or all of
    them when there are fewer), each with its count over the number of
    records times 100, not rounded; and for the arrest rate, the
    domestic and the violent percentage the entry [calculate_kpis]
    returns when the column is in the table, and 0 when it is not. *)
Theorem summary_report_values :
  forall now w c rep w',
    clean_df (self w) = Some c ->
    run (generate_summary_report now) w = (Ok rep, w') ->
    w' = w
    /\ exists kpis rows,
         run calculate_kpis w = (Ok kpis, w)
         /\ run analyze_crime_types w = (Ok rows, w)
         /\ report_total_records rep = len (deref (heap w) c)
         /\ unique_crime_types rep = Z.of_nat (length rows)
         /\ map fst (top_crimes rep) = firstn 5 (map fst rows)
         /\ (forall k n p,
               In (k, n, p) (top_crimes rep) ->
               p = np_pct (PInt n) (len (deref (heap w) c)))
         /\ (if has_column "arrest" (deref (heap w) c)
             then In ("arrest_rate", report_arrest_rate rep) kpis
             else report_arrest_rate rep = KInt 0)
         /\ (if has_column "domestic" (deref (heap w) c)
             then In ("domestic_pct", report_domestic_pct rep) kpis
             else report_domestic_pct rep = KInt 0)
         /\ (if has_column "is_violent" (deref (heap w) c)
             then In ("violent_pct", report_violent_pct rep) kpis
             else report_violent_pct rep = KInt 0).
Proof.
  intros now w c rep w' Hc H.
  rewrite run_generate_summary_report, Hc in H. injection H as H <-.
  split; [reflexivity|].
  set (d := deref (heap w) c) in *.
  unfold report_frame in H.
  destruct (getitem d "date") as [date|]; [|discriminate].
  cbn [rbind] in H.
  destruct (getitem d "primary_type") as [types|] eqn:Et; [|discriminate].
  cbn [rbind] in H.
  destruct (kpis_frame d) as [kpis|] eqn:Ek; [|discriminate].
  injection H as <-.
  exists kpis,
    (map (fun e => (fst e, snd e, round2 (np_pct (PInt (snd e)) (len d))))
         (value_counts types)).
  rewrite run_calculate_kpis, run_analyze_crime_types, Hc. fold d.
  unfold crime_types_frame. rewrite Ek, Et.
  cbn [rbind report_total_records unique_crime_types top_crimes
       report_arrest_rate report_domestic_pct report_violent_pct].
  repeat split.
  - now rewrite length_map.
  - rewrite !map_map, firstn_map. reflexivity.
  - intros k n p Hin. apply in_map_iff in Hin.
    destruct Hin as ([k' n'] & E & _). now injection E as _ <- <-.
  - apply (kpis_get_percentage d kpis "arrest"); simpl; auto.
  - apply (kpis_get_percentage d kpis "domestic"); simpl; auto.
  - apply (kpis_get_percentage d kpis "is_violent"); simpl; auto.
Qed.

Lemma summary_report_values_witness :
  exists rep,
    run (generate_summary_report "2024-12-01 10:00:00") sample_enriched
    = (Ok rep, sample_enriched)
    /\ report_total_records rep = len (deref (heap sample_enriched) 4%nat)
    /\ (if has_column "domestic" (deref (heap sample_enriched) 4%nat)
        then exists kpis,
               run calculate_kpis sample_enriched = (Ok kpis, sample_enriched)
               /\ In ("domestic_pct", report_domestic_pct rep) kpis
        else report_domestic_pct rep = KInt 0).
Proof.
  assert (R : exists rep,
             run (generate_summary_report "2024-12-01 10:00:00")
                 sample_enriched = (Ok rep, sample_enriched))
    by (eexists; vm_compute; reflexivity).
  destruct R as (rep & R). exists rep. split; [exact R|].
  destruct (summary_report_values _ sample_enriched 4%nat rep sample_enriched
              sample_enriched_self R)
    as (_ & kpis & rows & Hk & _ & Ht & _ & _ & _ & _ & Hd & _).
  split; [exact Ht|].
  destruct (has_column "domestic" (deref (heap sample_enriched) 4%nat));
    eauto.
Defined.

Lemma kpis_frame_zero_span d date t :
  getitem d "date" = Ok date ->
  series_min date = VTime t -> series_max date = VTime t ->
  exists e, kpis_frame d = Raise e.
Proof.
  intros Hd Hmin Hmax. unfold kpis_frame. cbv zeta.
  destruct (kpi_percentage_frame d "arrest" _ _) as [k1|]; cbn [rbind];
    eauto.
  destruct (kpi_percentage_frame d "domestic" _ _) as [k2|]; cbn [rbind];
    eauto.
  destruct (kpi_percentage_frame d "is_violent" _ _) as [k3|]; cbn [rbind];
    eauto.
  rewrite Hd. cbn [rbind]. rewrite Hmin, Hmax.
  unfold span_days. rewrite Z.sub_diag. cbn. eauto.
Qed.

(** X17.  The report stands or falls with the KPIs: on a table that has
    a date and a primary_type column, an exception of [calculate_kpis]
    is the exception of [generate_summary_report], so when all records
    carry the same timestamp (the first and the last date coincide) the
    report cannot be produced either.  Without one of the two columns the
    report raises the KeyError of that column. *)
Theorem summary_report_fails_with_the_kpis :
  forall now w c,
    clean_df (self w) = Some c ->
    (forall e,
        has_column "date" (deref (heap w) c) = true ->
        has_column "primary_type" (deref (heap w) c) = true ->
        run calculate_kpis w = (Raise e, w) ->
        run (generate_summary_report now) w = (Raise e, w))
    /\ (forall date t,
          getitem (deref (heap w) c) "date" = Ok date ->
          has_column "primary_type" (deref (heap w) c) = true ->
          series_min date = VTime t -> series_max date = VTime t ->
          exists e, run (generate_summary_report now) w = (Raise e, w))
    /\ (has_column "date" (deref (heap w) c) = false ->
        run (generate_summary_report now) w = (Raise (KeyError "date"), w))
    /\ (has_column "date" (deref (heap w) c) = true ->
        has_column "primary_type" (deref (heap w) c) = false ->
        run (generate_summary_report now) w
        = (Raise (KeyError "primary_type"), w)).
Proof.
  intros now w c Hc.
  rewrite run_generate_summary_report, run_calculate_kpis, Hc.
  set (d := deref (heap w) c). unfold report_frame.
  split; [|split; [|split]].
  - intros e Hd Ht Hk. injection Hk as Hk.
    destruct (has_column_getitem "date" d Hd) as (date & ->).
    destruct (has_column_getitem "primary_type" d Ht) as (types & ->).
    cbn [rbind]. rewrite Hk. reflexivity.
  - intros date t Hd Ht Hmin Hmax.
    destruct (kpis_frame_zero_span d date t Hd Hmin Hmax) as (e & Hk).
    destruct (has_column_getitem "primary_type" d Ht) as (types & ->).
    rewrite Hd. cbn [rbind]. rewrite Hk. cbn [rbind]. eauto.
  - intros Hd. apply has_column_false_lookup in Hd.
    now rewrite lookup_getitem, Hd.
  - intros Hd Ht. destruct (has_column_getitem "date" d Hd) as (date & ->).
    apply has_column_false_lookup in Ht.
    cbn [rbind]. now rewrite lookup_getitem, Ht.
Qed.

Lemma summary_report_fails_with_the_kpis_witness :
  run calculate_kpis single_enriched
  = (Raise (ZeroDivisionError "division by zero"), single_enriched)
  /\ run (generate_summary_report "2024-12-01 10:00:00") single_enriched
     = (Raise (ZeroDivisionError "division by zero"), single_enriched).
Proof.
  assert (Hc : clean_df (self single_enriched) = Some 4%nat)
    by (vm_compute; reflexivity).
  assert (Hk : run calculate_kpis single_enriched
               = (Raise (ZeroDivisionError "division by zero"),
                  single_enriched))
    by (vm_compute; reflexivity).
  split; [exact Hk|].
  apply (proj1 (summary_report_fails_with_the_kpis
                  "2024-12-01 10:00:00" single_enriched 4%nat Hc)).
  - vm_compute. reflexivity.
  - vm_compute. reflexivity.
  - exact Hk.
Defined.

(** ** [main] *)

Lemma main_unfold fs csv now :
  main fs csv now
  = match run (load_data (Some raw_path)) (fresh_world fs) with
    | (Raise e, w) => (Ok tt, mkSession w csv [] [Could_not_load e])
    | (Ok _, w) =>
        match run (analysis now) w with
        | (Raise e, w') => (Raise e, mkSession w' csv [] [])
        | (Ok rep, w') =>
            match clean_df (self w') with
            | None =>
                (Ok tt,
                 mkSession w' csv []
                   [Summary rep; Could_not_export no_clean_data;
                    Analysis_complete])
            | Some r =>
                match csv processed_path (deref (heap w') r) with
                | Ok _ =>
                    (Ok tt,
                     mkSession w' csv
                       [(processed_path, deref (heap w') r)]
                       [Summary rep; Exported processed_path;
                        Records (len (deref (heap w') r));
                        Columns
                          (Z.of_nat
                             (length (columns (deref (heap w') r))));
                        Analysis_complete])
                | Raise e =>
                    (Ok tt,
                     mkSession w' csv []
                       [Summary rep; Export_error e; Could_not_export e;
                        Analysis_complete])
                end
            end
        end
    end.
Proof.
  unfold main, main_body, run.
  cbv beta iota zeta delta [sbind stry method world_of to_csv written
                            console].
  destruct (load_data (Some raw_path) (fresh_world fs)) as [[r0|e] w].
  - cbv beta iota zeta delta [sret].
    destruct (analysis now w) as [[rep|e] w']; [|reflexivity].
    cbv beta iota zeta delta [say export_clean_data sbind stry method
                              get_self write_csv load world_of to_csv
                              written console app].
    destruct (clean_df (self w')) as [r|]; [|reflexivity].
    cbv beta iota zeta delta [say sbind stry method write_csv load
                              world_of to_csv written console app].
    destruct (csv processed_path (deref (heap w') r)); reflexivity.
  - reflexivity.
Qed.

(** The stages of a run of [analysis] that returns. *)
Lemma analysis_ok now w rep w' :
  run (analysis now) w = (Ok rep, w') ->
  exists raw cleaned r,
    df (self w) = Some raw
    /\ run clean_data w = (Ok cleaned, after clean_data w)
    /\ run engineer_features (after clean_data w) = (Ok r, w')
    /\ clean_df (self w') = Some r
    /\ report_frame now (deref (heap w') r) = Ok rep.
Proof.
  unfold analysis. intros H.
  rewrite run_bind, run_explore_data in H.
  destruct (df (self w)) as [raw|] eqn:Hdf; [|discriminate].
  destruct (exploration_frame _) as [e0|]; [|discriminate].
  rewrite run_bind in H. unfold after.
  destruct (run clean_data w) as [[r1|] w2] eqn:Ec; [|discriminate].
  rewrite run_bind in H. cbn [snd].
  destruct (run engineer_features w2) as [[r|] w3] eqn:Ee; [|discriminate].
  pose proof (engineer_features_ok _ _ _ Ee)
    as (c & d' & _ & _ & _ & Hself & _ & _).
  assert (Hc : clean_df (self w3) = Some r) by (now rewrite Hself).
  rewrite run_bind, run_analyze_trends, Hc in H.
  destruct (trends_frame _); [|discriminate].
  rewrite run_bind, run_analyze_crime_types, Hc in H.
  destruct (crime_types_frame _); [|discriminate].
  rewrite run_bind, run_analyze_geographic, Hc in H.
  rewrite run_bind, run_calculate_kpis, Hc in H.
  destruct (kpis_frame _); [|discriminate].
  rewrite run_generate_summary_report, Hc in H.
  injection H as H <-.
  exists raw, r1, r. auto.
Qed.

(** X18.  [main] survives a data file that cannot be read: whatever
    [read_csv] raises, [main] returns normally after the error line and
    the could-not-load line; no other stage has run (no table is loaded,
    none is cleaned), one read was attempted and nothing is written. *)
Theorem main_survives_a_failed_load :
  forall fs csv now e,
    fs raw_path = Raise e ->
    main fs csv now
    = (Ok tt,
       mkSession
         (mkWorld (init None) [] fs [raw_path]
            [Loading raw_path;
             match e with
             | FileNotFoundError _ => File_not_found raw_path
             | _ => Load_error e
             end])
         csv [] [Could_not_load e]).
Proof.
  intros fs csv now e H. rewrite main_unfold, run_load_data.
  change (py_or (Some raw_path) (data_path (self (fresh_world fs))))
    with (Some raw_path).
  cbv beta iota.
  change (files (fresh_world fs) raw_path) with (fs raw_path).
  rewrite H. reflexivity.
Qed.

Lemma main_survives_a_failed_load_witness :
  main (one_file "elsewhere.csv" sample_raw) (fun _ _ => Ok tt)
       "2024-12-01 10:00:00"
  = (Ok tt,
     mkSession
       (mkWorld (init None) [] (one_file "elsewhere.csv" sample_raw)
          [raw_path] [Loading raw_path; File_not_found raw_path])
       (fun _ _ => Ok tt) [] [Could_not_load (FileNotFoundError raw_path)]).
Proof.
  apply (main_survives_a_failed_load
           (one_file "elsewhere.csv" sample_raw) (fun _ _ => Ok tt)
           "2024-12-01 10:00:00" (FileNotFoundError raw_path)).
  vm_compute. reflexivity.
Defined.

(** X19.  [main] raises exactly when the data file was read and one of
    the stages between the load and the export raised: the exception of
    that stage is the exception of [main], no report has been printed
    and nothing has been written.  Neither a failed read nor a failed
    export makes [main] raise. *)
Theorem main_raises_with_the_analysis :
  forall fs csv now e s,
    main fs csv now = (Raise e, s)
    <-> exists r w,
          run (load_data (Some raw_path)) (fresh_world fs) = (Ok r, w)
          /\ run (analysis now) w = (Raise e, world_of s)
          /\ s = mkSession (world_of s) csv [] [].
Proof.
  intros fs csv now e s. rewrite main_unfold. split.
  - intros H.
    destruct (run (load_data (Some raw_path)) (fresh_world fs))
      as [[r|] w]; [|discriminate].
    destruct (run (analysis now) w) as [[rep|e'] w'] eqn:Ea.
    + destruct (clean_df (self w')); [|discriminate].
      destruct (csv _ _); discriminate.
    + injection H as <- <-. exists r, w. auto.
  - intros (r & w & -> & Ha & Hs). rewrite Ha. now rewrite Hs at 2.
Qed.

(** X20.  The zero-day span stops the whole script: when the stages of
    [main] up to the geographic analysis have run and the first and the
    last date of the enriched table are the same timestamp, [main]
    raises (the exception of [calculate_kpis]); no report is printed and
    nothing is exported. *)
Theorem main_fails_on_a_single_timestamp :
  forall fs csv now g w c date t,
    run (load_data (Some raw_path) ;; explore_data ;; clean_data ;;
         engineer_features ;; analyze_trends ;; analyze_crime_types ;;
         analyze_geographic) (fresh_world fs) = (Ok g, w) ->
    clean_df (self w) = Some c ->
    getitem (deref (heap w) c) "date" = Ok date ->
    series_min date = VTime t ->
    series_max date = VTime t ->
    exists e, main fs csv now = (Raise e, mkSession w csv [] []).
Proof.
  intros fs csv now g w c date t H Hc Hd Hmin Hmax.
  rewrite main_unfold. unfold analysis.
  rewrite run_bind in H.
  destruct (run (load_data (Some raw_path)) (fresh_world fs))
    as [[r0|] w1]; [|discriminate].
  rewrite run_bind in H. rewrite run_bind.
  destruct (run explore_data w1) as [[e0|] w2]; [|discriminate].
  rewrite run_bind in H. rewrite run_bind.
  destruct (run clean_data w2) as [[r1|] w3]; [|discriminate].
  rewrite run_bind in H. rewrite run_bind.
  destruct (run engineer_features w3) as [[r2|] w4]; [|discriminate].
  rewrite run_bind in H. rewrite run_bind.
  destruct (run analyze_trends w4) as [[t0|] w5]; [|discriminate].
  rewrite run_bind in H. rewrite run_bind.
  destruct (run analyze_crime_types w5) as [[rows|] w6]; [|discriminate].
  rewrite run_bind. rewrite H. rewrite run_bind.
  rewrite run_calculate_kpis, Hc.
  destruct (kpis_frame_zero_span _ date t Hd Hmin Hmax) as (e & ->).
  eauto.
Qed.

Lemma main_fails_on_a_single_timestamp_witness :
  exists e,
    main (one_file raw_path single_raw) (fun _ _ => Ok tt)
         "2024-12-01 10:00:00"
    = (Raise e, mkSession single_enriched (fun _ _ => Ok tt) [] []).
Proof.
  eapply (main_fails_on_a_single_timestamp
            (one_file raw_path single_raw) (fun _ _ => Ok tt)
            "2024-12-01 10:00:00" _ single_enriched 4%nat
            (mkSeries datetime64 [VTime (Calendar.timestamp 2024 1 1 5)])
            (Calendar.timestamp 2024 1 1 5));
    vm_compute; reflexivity.
Defined.

(** X21.  When [main] returns after reading the data file, the table
    it hands to [to_csv] is the table [engineer_features] returned, the
    cleaned table with the derived columns, under the processed path.
    When the write succeeds that is the one file written; when it raises,
    nothing is written and [main] still ends with its last line, after
    the two error lines of the export. *)
Theorem main_exports_the_enriched_table :
  forall fs csv now s d,
    main fs csv now = (Ok tt, s) ->
    fs raw_path = Ok d ->
    exists rep r,
      run engineer_features
          (after clean_data
                 (after (load_data (Some raw_path)) (fresh_world fs)))
      = (Ok r, world_of s)
      /\ clean_df (self (world_of s)) = Some r
      /\ match csv processed_path (deref (heap (world_of s)) r) with
         | Ok _ =>
             written s = [(processed_path, deref (heap (world_of s)) r)]
             /\ console s
                = [Summary rep; Exported processed_path;
                   Records (len (deref (heap (world_of s)) r));
                   Columns
                     (Z.of_nat
                        (length (columns (deref (heap (world_of s)) r))));
                   Analysis_complete]
         | Raise e =>
             written s = []
             /\ console s
                = [Summary rep; Export_error e; Could_not_export e;
                   Analysis_complete]
         end.
Proof.
  intros fs csv now s d H Hf. rewrite main_unfold in H.
  unfold after at 2.
  assert (Hl : exists w1,
             run (load_data (Some raw_path)) (fresh_world fs)
             = (Ok 0%nat, w1)).
  { rewrite run_load_data.
    change (py_or (Some raw_path) (data_path (self (fresh_world fs))))
      with (Some raw_path).
    cbv beta iota.
    change (files (fresh_world fs) raw_path) with (fs raw_path).
    rewrite Hf. eauto. }
  destruct Hl as (w1 & Hl). rewrite Hl in *. cbn [snd].
  destruct (run (analysis now) w1) as [[rep|] w'] eqn:Ea; [|discriminate].
  apply analysis_ok in Ea.
  destruct Ea as (raw & cleaned & r & _ & _ & He & Hc & _).
  rewrite Hc in H. exists rep, r.
  destruct (csv processed_path (deref (heap w') r)) eqn:Ew;
    injection H as <-; cbn [world_of written console]; rewrite Ew; auto.
Qed.

Lemma main_exports_the_enriched_table_witness :
  exists s rep r,
    main (one_file raw_path sample_raw) (fun _ _ => Ok tt)
         "2024-12-01 10:00:00" = (Ok tt, s)
    /\ clean_df (self (world_of s)) = Some r
    /\ written s = [(processed_path, deref (heap (world_of s)) r)]
    /\ console s
       = [Summary rep; Exported processed_path;
          Records (len (deref (heap (world_of s)) r));
          Columns
            (Z.of_nat (length (columns (deref (heap (world_of s)) r))));
          Analysis_complete].
Proof.
  assert (R : exists s,
             main (one_file raw_path sample_raw) (fun _ _ => Ok tt)
                  "2024-12-01 10:00:00" = (Ok tt, s))
    by (eexists; vm_compute; reflexivity).
  destruct R as (s & R).
  destruct (main_exports_the_enriched_table
              (one_file raw_path sample_raw) (fun _ _ => Ok tt)
              "2024-12-01 10:00:00" s sample_raw R eq_refl)
    as (rep & r & _ & Hc & Hw).
  exists s, rep, r. cbv beta iota in Hw. tauto.
Defined.

(** ** The critical fields of the cleaned table *)

Lemma mask_filter_kept {A} (p : A -> bool) (f : A -> bool) (l : list A) :
  (forall x, In x l -> p x = true -> f x = false) ->
  existsb f (mask_filter (map p l) l) = false.
Proof.
  induction l as [|x l IH]; simpl; intros H; auto.
  destruct (p x) eqn:E; simpl.
  - rewrite (H x) by auto. simpl. apply IH. intros; apply H; auto.
  - apply IH. intros; apply H; auto.
Qed.

(** After the rows that lack a critical field are dropped, no cell of a
    critical column is missing. *)
Lemma dropna_complete d sub name s :
  well_formed d -> select d critical_fields = Ok sub ->
  In name critical_fields ->
  lookup name (columns (take_rows (map negb (isnull_any sub)) d)) = Some s ->
  existsb isnull (values s) = false.
Proof.
  intros Hwf Hs Hn Hl.
  destruct (isnull_any_select d sub Hwf Hs) as (E & _).
  unfold take_rows in Hl; cbn [columns] in Hl.
  rewrite (lookup_map (fun c => (fst c, mkSeries (dtype (snd c))
             (mask_filter (map negb (isnull_any sub)) (values (snd c))))))
    in Hl by reflexivity.
  destruct (lookup name (columns d)) as [s0|] eqn:Hl0; [|discriminate].
  cbn [option_map snd] in Hl. injection Hl as <-. cbn [values].
  destruct Hwf as [Hlen _].
  rewrite <- (column_of_rows name s0 (columns d) (length (index d)) Hlen Hl0).
  fold (rows d). rewrite E, mask_filter_map, !map_map.
  set (get := row_get name (map fst (columns d))).
  assert (X : existsb (fun row => isnull (get row))
                (mask_filter
                   (map (fun row =>
                           negb (existsb isnull
                                   (map (fun n => row_get n (column_names d)
                                                          row)
                                        critical_fields)))
                        (rows d))
                   (rows d)) = false).
  { apply mask_filter_kept. intros row _ Hk.
    apply negb_true_iff in Hk.
    destruct (isnull (get row)) eqn:Hg; auto.
    assert (existsb isnull
              (map (fun n => row_get n (column_names d) row)
                   critical_fields) = true).
    { apply existsb_exists. exists (get row). split; auto.
      apply in_map_iff. exists name. auto. }
    congruence. }
  revert X. generalize (mask_filter
                          (map (fun row =>
                             negb (existsb isnull
                                     (map (fun n => row_get n (column_names d)
                                                            row)
                                          critical_fields)))
                               (rows d)) (rows d)).
  intros l. induction l as [|r l IH]; simpl; auto.
  intros H. apply orb_false_iff in H. destruct H as [-> H]. auto.
Qed.

(** X22.  In the table [clean_data] returns, the date column has no
    missing value, and neither has any of primary_type, latitude and
    longitude that is not an object column.  (An object column goes
    through the text standardization, where a cell that is not text
    becomes missing.) *)
Theorem cleaned_table_has_its_critical_fields :
  forall w raw r w' name s,
    df (self w) = Some raw ->
    well_formed (deref (heap w) raw) ->
    run clean_data w = (Ok r, w') ->
    In name critical_fields ->
    lookup name (columns (deref (heap w') r)) = Some s ->
    name = "date" \/ dtype s <> object ->
    existsb isnull (values s) = false.
Proof.
  intros w raw r w' name s Hdf Hwf H Hn Hl Hk.
  apply clean_data_ok in H.
  destruct H as (raw' & d' & Hdf' & Hf & _ & _ & _ & Hd).
  rewrite Hdf in Hdf'. injection Hdf' as <-. rewrite Hd in Hl.
  destruct (clean_frame_ok _ _ Hwf Hf) as (sub & Hs & E).
  assert (H1 : well_formed (drop_duplicates (deref (heap w) raw)))
    by (apply well_formed_take_rows, Hwf).
  rewrite E in Hl. unfold map_columns in Hl; cbn [columns] in Hl.
  rewrite !map_map in Hl.
  rewrite lookup_map in Hl
    by (intros c; now rewrite fst_text_column, fst_bool_column,
                    fst_fill_column).
  destruct (lookup name _) as [s0|] eqn:Hl0; [|discriminate].
  cbn [option_map] in Hl. injection Hl as <-.
  pose proof (dropna_complete _ _ name s0 H1 Hs Hn Hl0) as Hc.
  assert (Hfb : bool_column (fill_column (name, s0)) = (name, s0)).
  { destruct Hn as [<-|[<-|[<-|[<-|[]]]]]; reflexivity. }
  rewrite Hfb in *. unfold text_column in *. cbn [fst snd] in *.
  destruct (np_dtype_eqb (dtype s0) object) eqn:Eo; cbn [andb] in *;
    [|exact Hc].
  destruct (String.eqb_spec name "date") as [->|Hne]; cbn [negb] in *;
    [exact Hc|].
  cbn [snd dtype] in Hk. destruct Hk as [Hk|Hk]; congruence.
Qed.

Lemma cleaned_table_has_its_critical_fields_witness :
  existsb isnull
    (values (mkSeries float64
               [VFloat (float_of_Z 41); VFloat (float_of_Z 42);
                VFloat (float_of_Z 44)])) = false.
Proof.
  apply (cleaned_table_has_its_critical_fields sample_loaded 0%nat 3%nat
           sample_cleaned "latitude" _
           sample_loaded_self sample_loaded_well_formed sample_cleaned_run).
  - simpl. tauto.
  - vm_compute. reflexivity.
  - right. discriminate.
Defined.

(** ** Descriptions that are not text *)

Lemma mask_filter_twice m1 :
  forall m2, exists m,
    forall (A : Type) (l : list A),
      mask_filter m2 (mask_filter m1 l) = mask_filter m l.
Proof.
  induction m1 as [|b m1 IH]; intros m2.
  - exists []. intros A l. simpl. now rewrite mask_filter_nil.
  - destruct b.
    + destruct m2 as [|b2 m2].
      * exists []. reflexivity.
      * destruct (IH m2) as (m & Hm). exists (b2 :: m).
        intros A [|x l]; simpl; auto.
        destruct b2; now rewrite Hm.
    + destruct (IH m2) as (m & Hm). exists (false :: m).
      intros A [|x l]; simpl; rewrite ?mask_filter_nil; auto.
Qed.

Lemma mask_filter_in {A} mask (l : list A) x :
  In x (mask_filter mask l) -> In x l.
Proof.
  revert l; induction mask as [|b mask IH]; intros [|y l]; simpl;
    try tauto.
  destruct b; simpl; intuition.
Qed.

Lemma lookup_take_rows_some name mask d s :
  lookup name (columns d) = Some s ->
  lookup name (columns (take_rows mask d))
  = Some (mkSeries (dtype s) (mask_filter mask (values s))).
Proof.
  intros H. unfold take_rows; cbn [columns].
  rewrite (lookup_map (fun c => (fst c, mkSeries (dtype (snd c))
             (mask_filter mask (values (snd c)))))) by reflexivity.
  now rewrite H.
Qed.

(** X23.  A description that is not text does not survive cleaning next
    to a missing one.  Take a description (or location_description)
    column that is not an object column and holds no text, and the cells
    [kept] it has in the records that survive the two row filters.  When
    one of these cells is missing, the filled column is an object column,
    so the text standardization runs over it: the missing cells read
    "UNKNOWN" and every other cell, a number say, is missing in the
    cleaned table.  When none is missing the column comes through as it
    is. *)
Theorem descriptions_that_are_not_text :
  forall w raw r w' name s,
    df (self w) = Some raw ->
    well_formed (deref (heap w) raw) ->
    run clean_data w = (Ok r, w') ->
    In name ["description"; "location_description"] ->
    lookup name (columns (deref (heap w) raw)) = Some s ->
    dtype s <> object ->
    Forall (fun c => forall x, c <> VStr x) (values s) ->
    exists mask s',
      index (deref (heap w') r)
      = mask_filter mask (index (deref (heap w) raw))
      /\ lookup name (columns (deref (heap w') r)) = Some s'
      /\ if existsb isnull (mask_filter mask (values s))
         then dtype s' = object
              /\ values s'
                 = map (fun c => if isnull c then VStr "UNKNOWN" else NaN)
                       (mask_filter mask (values s))
         else s' = mkSeries (dtype s) (mask_filter mask (values s)).
Proof.
  intros w raw r w' name s Hdf Hwf H Hn Hl Hd Hx.
  apply clean_data_ok in H.
  destruct H as (raw' & d' & Hdf' & Hf & _ & _ & _ & ->).
  rewrite Hdf in Hdf'. injection Hdf' as <-.
  set (d0 := deref (heap w) raw) in *.
  destruct (clean_frame_ok _ _ Hwf Hf) as (sub & _ & ->).
  unfold drop_duplicates.
  destruct (mask_filter_twice (map negb (duplicated d0))
                              (map negb (isnull_any sub))) as (mask & Hm).
  exists mask.
  set (kept := mask_filter mask (values s)).
  exists (snd (text_column (bool_column (fill_column
            (name, mkSeries (dtype s) kept))))).
  split; [|split].
  - unfold map_columns, take_rows; cbn [index]. apply Hm.
  - unfold map_columns; cbn [columns]. rewrite !map_map.
    rewrite lookup_map
      by (intros c; now rewrite fst_text_column, fst_bool_column,
                      fst_fill_column).
    rewrite (lookup_take_rows_some name _ _
               (mkSeries (dtype s)
                  (mask_filter (map negb (duplicated d0)) (values s))))
      by (now apply lookup_take_rows_some).
    cbn [option_map dtype values]. rewrite Hm. reflexivity.
  - assert (Hfill : fill_column (name, mkSeries (dtype s) kept)
                    = (name, fillna (VStr "UNKNOWN")
                               (mkSeries (dtype s) kept))).
    { destruct Hn as [<-|[<-|[]]]; reflexivity. }
    assert (Hbool : forall x, bool_column (name, x) = (name, x)).
    { intros x. destruct Hn as [<-|[<-|[]]]; reflexivity. }
    rewrite Hfill, Hbool. unfold text_column; cbn [fst snd].
    destruct (existsb isnull kept) eqn:E.
    + unfold fillna; cbn [values dtype]. rewrite E. cbn [dtype values].
      assert (Hc : can_hold (dtype s) (VStr "UNKNOWN") = false)
        by (destruct (dtype s); try reflexivity; congruence).
      rewrite Hc. cbn [np_dtype_eqb andb].
      assert (Hne : String.eqb name "date" = false)
        by (destruct Hn as [<-|[<-|[]]]; reflexivity).
      rewrite Hne. cbn [negb snd dtype values]. split; auto.
      rewrite map_map. apply map_ext_in. intros c Hc'.
      destruct (isnull c) eqn:Ec; [vm_compute; reflexivity|].
      apply mask_filter_in in Hc'. rewrite Forall_forall in Hx.
      specialize (Hx c Hc'). destruct c; try reflexivity.
      exfalso. now apply (Hx s0).
    + rewrite fillna_complete by exact E. cbn [dtype].
      assert (Ho : np_dtype_eqb (dtype s) object = false)
        by (destruct (dtype s); try reflexivity; congruence).
      rewrite Ho. reflexivity.
Qed.

Lemma descriptions_that_are_not_text_witness :
  exists mask s',
    index (deref (heap (after clean_data coded_loaded)) 3%nat)
    = mask_filter mask (index (deref (heap coded_loaded) 0%nat))
    /\ lookup "description"
              (columns (deref (heap (after clean_data coded_loaded)) 3%nat))
       = Some s'
    /\ if existsb isnull
            (mask_filter mask
               (values (mkSeries float64
                          [VFloat (float_of_Z 486); NaN;
                           VFloat (float_of_Z 820)])))
       then dtype s' = object
            /\ values s'
               = map (fun c => if isnull c then VStr "UNKNOWN" else NaN)
                     (mask_filter mask
                        (values (mkSeries float64
                                   [VFloat (float_of_Z 486); NaN;
                                    VFloat (float_of_Z 820)])))
       else s' = mkSeries (dtype (mkSeries float64
                                    [VFloat (float_of_Z 486); NaN;
                                     VFloat (float_of_Z 820)]))
                          (mask_filter mask
                             (values (mkSeries float64
                                        [VFloat (float_of_Z 486); NaN;
                                         VFloat (float_of_Z 820)]))).
Proof.
  apply (descriptions_that_are_not_text coded_loaded 0%nat 3%nat
           (after clean_data coded_loaded) "description"
           (mkSeries float64
              [VFloat (float_of_Z 486); NaN; VFloat (float_of_Z 820)])).
  - vm_compute. reflexivity.
  - vm_compute deref. split.
    + repeat constructor.
    + unfold column_names; simpl. repeat constructor; simpl;
        intuition discriminate.
  - vm_compute. reflexivity.
  - simpl. tauto.
  - vm_compute. reflexivity.
  - discriminate.
  - repeat constructor; discriminate.
Defined.

Example coded_descriptions_after_cleaning :
  lookup "description"
         (columns (deref (heap (after clean_data coded_loaded)) 3%nat))
  = Some (mkSeries object [NaN; VStr "UNKNOWN"; NaN]).
Proof. vm_compute. reflexivity. Qed.

(** ** [export_clean_data] *)

Lemma export_clean_data_unfold path s :
  export_clean_data path s
  = match clean_df (self (world_of s)) with
    | None =>
        (Raise no_clean_data,
         mkSession (world_of s) (to_csv s) (written s) (console s))
    | Some r =>
        match to_csv s path (deref (heap (world_of s)) r) with
        | Ok _ =>
            (Ok tt,
             mkSession (world_of s) (to_csv s)
               (written s ++ [(path, deref (heap (world_of s)) r)])
               (console s ++
                  [Exported path;
                   Records (len (deref (heap (world_of s)) r));
                   Columns
                     (Z.of_nat
                        (length (columns (deref (heap (world_of s)) r))))]))
        | Raise e =>
            (Raise e,
             mkSession (world_of s) (to_csv s) (written s)
               (console s ++ [Export_error e]))
        end
    end.
Proof.
  unfold export_clean_data.
  cbv beta iota zeta delta [sbind stry method get_self world_of to_csv
                            written console].
  destruct s as [w csv wr out].
  destruct (clean_df (self w)) as [r|]; [|reflexivity].
  cbv beta iota zeta delta [say sbind stry method write_csv load
                            world_of to_csv written console].
  destruct (csv path (deref (heap w) r)); [|reflexivity].
  rewrite <- !app_assoc. reflexivity.
Qed.

(** X24.  [export_clean_data] writes at most one file and never touches
    the analyzer.  Without a cleaned table it raises its ValueError
    before any write is attempted and prints nothing; otherwise it hands
    the current table to [to_csv] once: when that returns, the file is
    the one file written and three lines are printed, and when that
    raises, nothing is written, one error line is printed and the same
    exception is raised again. *)
Theorem export_clean_data_writes_once :
  forall path s out s',
    export_clean_data path s = (out, s') ->
    world_of s' = world_of s
    /\ to_csv s' = to_csv s
    /\ match clean_df (self (world_of s)) with
       | None =>
           out = Raise no_clean_data
           /\ written s' = written s /\ console s' = console s
       | Some r =>
           match to_csv s path (deref (heap (world_of s)) r) with
           | Ok _ =>
               out = Ok tt
               /\ written s'
                  = written s ++ [(path, deref (heap (world_of s)) r)]
               /\ console s'
                  = console s ++
                    [Exported path;
                     Records (len (deref (heap (world_of s)) r));
                     Columns
                       (Z.of_nat
                          (length
                             (columns (deref (heap (world_of s)) r))))]
           | Raise e =>
               out = Raise e
               /\ written s' = written s
               /\ console s' = console s ++ [Export_error e]
           end
       end.
Proof.
  intros path s out s' H. rewrite export_clean_data_unfold in H.
  destruct (clean_df (self (world_of s))) as [r|].
  - destruct (to_csv s path (deref (heap (world_of s)) r));
      injection H as <- <-; cbn [world_of to_csv written console]; auto.
  - injection H as <- <-. cbn [world_of to_csv written console]. auto.
Qed.

Lemma export_clean_data_writes_once_witness :
  world_of (snd (export_clean_data "out.csv"
                   (mkSession sample_loaded
                      (fun _ _ => Ok tt) [] [])))
  = sample_loaded
  /\ fst (export_clean_data "out.csv"
            (mkSession sample_loaded (fun _ _ => Ok tt) [] []))
     = Raise no_clean_data
  /\ written (snd (export_clean_data "out.csv"
                     (mkSession sample_loaded (fun _ _ => Ok tt) [] [])))
     = [].
Proof.
  destruct (export_clean_data_writes_once "out.csv"
              (mkSession sample_loaded (fun _ _ => Ok tt) [] [])
              _ _ (surjective_pairing _)) as (Hw & _ & H).
  assert (Hc : clean_df (self sample_loaded) = None)
    by (vm_compute; reflexivity).
  cbn [world_of written console] in *. rewrite Hc in H.
  destruct H as (Ho & Hwr & _). auto.
Defined.

(** ** The census of [explore_data] *)

(** A cell of a parsed date column: a timestamp or NaT. *)
Lemma fold_cell_min ts t :
  fold_left cell_min (map VTime ts) (VTime t) = VTime (fold_left Z.min ts t).
Proof.
  revert t; induction ts as [|x ts IH]; intros t; simpl; auto.
  unfold cell_min at 2. simpl.
  destruct (Z.compare_spec x t); rewrite IH; f_equal; f_equal; lia.
Qed.

Lemma fold_cell_max ts t :
  fold_left cell_max (map VTime ts) (VTime t) = VTime (fold_left Z.max ts t).
Proof.
  revert t; induction ts as [|x ts IH]; intros t; simpl; auto.
  unfold cell_max at 2. simpl.
  destruct (Z.compare_spec x t); rewrite IH; f_equal; f_equal; lia.
Qed.

Lemma fold_min_spec ts t :
  (fold_left Z.min ts t = t \/ In (fold_left Z.min ts t) ts)
  /\ fold_left Z.min ts t <= t
  /\ forall x, In x ts -> fold_left Z.min ts t <= x.
Proof.
  revert t; induction ts as [|y ts IH]; intros t; simpl.
  - repeat split; auto; try lia; intros x [].
  - destruct (IH (Z.min t y)) as (Hin & Hle & Hall).
    repeat split.
    + destruct Hin as [E|Hin]; auto. rewrite E.
      destruct (Z.min_spec t y) as [[_ ->]|[_ ->]]; auto.
    + lia.
    + intros x [<-|Hx]; auto. lia.
Qed.

Lemma fold_max_spec ts t :
  (fold_left Z.max ts t = t \/ In (fold_left Z.max ts t) ts)
  /\ t <= fold_left Z.max ts t
  /\ forall x, In x ts -> x <= fold_left Z.max ts t.
Proof.
  revert t; induction ts as [|y ts IH]; intros t; simpl.
  - repeat split; auto; try lia; intros x [].
  - destruct (IH (Z.max t y)) as (Hin & Hle & Hall).
    repeat split.
    + destruct Hin as [E|Hin]; auto. rewrite E.
      destruct (Z.max_spec t y) as [[_ ->]|[_ ->]]; auto.
    + lia.
    + intros x [<-|Hx]; auto. lia.
Qed.

Lemma filter_notnull_dates cs :
  Forall (fun c => c = NaT \/ exists t, c = VTime t) cs ->
  filter notnull cs = map VTime (stamps_of cs).
Proof.
  induction 1 as [|c cs [->|(t & ->)] _ IH]; simpl; auto.
  now rewrite IH.
Qed.

Lemma count_missing_none d :
  Forall (fun c => existsb isnull (values (snd c)) = false) (columns d) ->
  count_missing d = 0.
Proof.
  unfold count_missing. induction 1 as [|c cols Hc _ IH]; simpl; auto.
  rewrite IH. rewrite Z.add_0_r. apply count_true_none.
  clear - Hc. induction (values (snd c)) as [|x l IH]; simpl in *; auto.
  apply orb_false_iff in Hc. destruct Hc as [-> Hc]. simpl. auto.
Qed.

(** X25.  The census of [explore_data].  On a loaded table without a
    date column it raises KeyError('date').  On a loaded table whose date
    column is parsed (a datetime column: timestamps and missing dates) it
    returns and leaves the world as it is; its census gives the number
    of records and of columns; its count of missing values is zero
    exactly when no cell of the table is missing; and its date range is
    the earliest and the latest timestamp of the column, missing dates
    left out, or a pair of NaT when the column holds no timestamp. *)
Theorem explore_data_census :
  forall w raw,
    df (self w) = Some raw ->
    (lookup "date" (columns (deref (heap w) raw)) = None ->
     run explore_data w = (Raise (KeyError "date"), w))
    /\ forall date,
         lookup "date" (columns (deref (heap w) raw)) = Some date ->
         dtype date = datetime64 ->
         Forall (fun c => c = NaT \/ exists t, c = VTime t) (values date) ->
         exists e,
           run explore_data w = (Ok e, w)
           /\ total_records e = len (deref (heap w) raw)
           /\ n_columns e
              = Z.of_nat (length (columns (deref (heap w) raw)))
           /\ (missing_values e = 0
               <-> Forall (fun c => existsb isnull (values (snd c)) = false)
                          (columns (deref (heap w) raw)))
           /\ match stamps_of (values date) with
              | [] => date_range e = (NaT, NaT)
              | _ :: _ =>
                  exists lo hi,
                    date_range e = (VTime lo, VTime hi)
                    /\ In lo (stamps_of (values date))
                    /\ In hi (stamps_of (values date))
                    /\ forall t, In t (stamps_of (values date)) ->
                                 lo <= t <= hi
              end.
Proof.
  intros w raw Hdf. rewrite run_explore_data, Hdf.
  set (d := deref (heap w) raw). unfold exploration_frame.
  rewrite lookup_getitem. split.
  - intros ->. reflexivity.
  - intros date -> Hd Hc. cbn [rbind]. eexists. split; [reflexivity|].
    cbn [total_records n_columns missing_values date_range].
    repeat split; auto using count_missing_zero, count_missing_none.
    unfold series_min, series_max.
    rewrite (filter_notnull_dates _ Hc), Hd.
    destruct (stamps_of (values date)) as [|t ts]; [reflexivity|].
    cbn [map missing_of]. rewrite fold_cell_min, fold_cell_max.
    destruct (fold_min_spec ts t) as (Hi1 & Hl1 & Ha1).
    destruct (fold_max_spec ts t) as (Hi2 & Hl2 & Ha2).
    eexists _, _. split; [reflexivity|].
    split; [|split].
    + destruct Hi1 as [->|Hi1]; simpl; auto.
    + destruct Hi2 as [->|Hi2]; simpl; auto.
    + intros x [<-|Hx]; split; auto.
Qed.

Lemma explore_data_census_witness :
  exists e,
    run explore_data sample_loaded = (Ok e, sample_loaded)
    /\ total_records e = len (deref (heap sample_loaded) 0%nat)
    /\ n_columns e
       = Z.of_nat (length (columns (deref (heap sample_loaded) 0%nat)))
    /\ (missing_values e = 0
        <-> Forall (fun c => existsb isnull (values (snd c)) = false)
                   (columns (deref (heap sample_loaded) 0%nat)))
    /\ match stamps_of (values sample_dates) with
       | [] => date_range e = (NaT, NaT)
       | _ :: _ =>
           exists lo hi,
             date_range e = (VTime lo, VTime hi)
             /\ In lo (stamps_of (values sample_dates))
             /\ In hi (stamps_of (values sample_dates))
             /\ forall t, In t (stamps_of (values sample_dates)) ->
                          lo <= t <= hi
       end.
Proof.
  apply (proj2 (explore_data_census sample_loaded 0%nat sample_loaded_self)
               sample_dates).
  - vm_compute. reflexivity.
  - reflexivity.
  - unfold sample_dates. cbn [values].
    repeat (apply Forall_cons;
            [first [left; reflexivity | right; eexists; reflexivity]|]).
    apply Forall_nil.
Defined.

(** ** The outcomes of [analyze_trends] *)

Lemma bump_not_nil {K} (cmp : K -> K -> comparison) k acc :
  bump cmp k acc <> [].
Proof.
  destruct acc as [|[k' n] acc]; simpl; [discriminate|].
  destruct (cmp k k'); discriminate.
Qed.

Lemma fold_bump_not_nil {K} (cmp : K -> K -> comparison) ks acc :
  acc <> [] -> fold_left (fun a k => bump cmp k a) ks acc <> [].
Proof.
  revert acc; induction ks as [|k ks IH]; simpl; auto.
  intros acc _. apply IH, bump_not_nil.
Qed.

Lemma sizes_nil {K} (cmp : K -> K -> comparison) ks :
  sizes cmp ks = [] <-> ks = [].
Proof.
  unfold sizes. split; [|intros ->; reflexivity].
  destruct ks as [|k ks]; auto. cbn [fold_left]. intros H. exfalso.
  revert H. apply fold_bump_not_nil, bump_not_nil.
Qed.

Lemma filter_notnull_nil cs :
  filter notnull cs = [] <-> existsb notnull cs = false.
Proof.
  induction cs as [|c cs IH]; simpl; [tauto|].
  destruct (notnull c); simpl; [split; discriminate | exact IH].
Qed.

(** X26.  Once a cleaned table exists, the outcome of [analyze_trends]
    is decided by four columns.  It raises the KeyError of the first of
    year, month, day_name and hour that the table lacks; with all four
    it raises the ValueError of [idxmax] over an empty sequence when no
    cell of hour holds a value (on an empty table, for one), and it
    returns otherwise.  The world is left as it is in every case. *)
Theorem analyze_trends_outcomes :
  forall w c,
    clean_df (self w) = Some c ->
    match find (fun name => negb (has_column name (deref (heap w) c)))
               ["year"; "month"; "day_name"; "hour"] with
    | Some name => run analyze_trends w = (Raise (KeyError name), w)
    | None =>
        exists hour,
          lookup "hour" (columns (deref (heap w) c)) = Some hour
          /\ if existsb notnull (values hour)
             then exists tr, run analyze_trends w = (Ok tr, w)
             else run analyze_trends w
                  = (Raise (ValueError
                       "attempt to get argmax of an empty sequence"), w)
    end.
Proof.
  intros w c Hc. rewrite run_analyze_trends, Hc.
  set (d := deref (heap w) c).
  unfold trends_frame, groupby_size, groupby2_size. cbn [find].
  destruct (has_column "year" d) eqn:Hy; cbn [negb].
  2:{ apply has_column_false_lookup in Hy.
      now rewrite !lookup_getitem, Hy. }
  destruct (has_column "month" d) eqn:Hm; cbn [negb].
  2:{ apply has_column_false_lookup in Hm.
      apply has_column_lookup in Hy. destruct Hy as (y & Hy).
      now rewrite !lookup_getitem, Hy, Hm. }
  destruct (has_column "day_name" d) eqn:Hn; cbn [negb].
  2:{ apply has_column_false_lookup in Hn.
      apply has_column_lookup in Hy, Hm.
      destruct Hy as (y & Hy), Hm as (m & Hm).
      now rewrite !lookup_getitem, Hy, Hm, Hn. }
  destruct (has_column "hour" d) eqn:Hh; cbn [negb].
  2:{ apply has_column_false_lookup in Hh.
      apply has_column_lookup in Hy, Hm, Hn.
      destruct Hy as (y & Hy), Hm as (m & Hm), Hn as (n & Hn).
      now rewrite !lookup_getitem, Hy, Hm, Hn, Hh. }
  apply has_column_lookup in Hy, Hm, Hn, Hh.
  destruct Hy as (y & Hy), Hm as (m & Hm), Hn as (n & Hn), Hh as (h & Hh).
  exists h. split; auto.
  rewrite !lookup_getitem, Hy, Hm, Hn, Hh. cbn [rbind].
  destruct (existsb notnull (values h)) eqn:E.
  - destruct (sizes cell_compare (filter notnull (values h)))
      as [|e rest] eqn:Es.
    + apply sizes_nil, filter_notnull_nil in Es. congruence.
    + cbn [idxmax rbind]. eauto.
  - apply filter_notnull_nil in E. rewrite E. reflexivity.
Qed.

Lemma analyze_trends_outcomes_witness :
  match find (fun name =>
                negb (has_column name (deref (heap sample_cleaned) 3%nat)))
             ["year"; "month"; "day_name"; "hour"] with
  | Some name =>
      run analyze_trends sample_cleaned
      = (Raise (KeyError name), sample_cleaned)
  | None =>
      exists hour,
        lookup "hour" (columns (deref (heap sample_cleaned) 3%nat))
        = Some hour
        /\ if existsb notnull (values hour)
           then exists tr, run analyze_trends sample_cleaned
                           = (Ok tr, sample_cleaned)
           else run analyze_trends sample_cleaned
                = (Raise (ValueError
                     "attempt to get argmax of an empty sequence"),
                   sample_cleaned)
  end.
Proof.
  exact (analyze_trends_outcomes sample_cleaned 3%nat sample_cleaned_self).
Defined.

(** ** An empty table *)

Lemma empty_column d name s :
  well_formed d -> index d = [] ->
  lookup name (columns d) = Some s -> values s = [].
Proof.
  intros [Hl _] Hi Hs. rewrite Hi in Hl. rewrite Forall_forall in Hl.
  assert (Hin : In (name, s) (columns d)).
  { clear - Hs. induction (columns d) as [|[n c] cols IH]; simpl in *;
      [discriminate|].
    destruct (String.eqb_spec n name) as [->|]; auto.
    injection Hs as ->. auto. }
  specialize (Hl _ Hin). simpl in Hl.
  now destruct (values s).
Qed.

Lemma kpi_percentage_frame_empty d name key kpis :
  well_formed d -> index d = [] ->
  (forall s, lookup name (columns d) = Some s -> dtype s <> object) ->
  kpi_percentage_frame d name key kpis
  = Ok (kpis ++ if has_column name d
                then [(key, KFloat (np_pct (PInt 0) 0))] else []).
Proof.
  intros Hwf Hi Hd. unfold kpi_percentage_frame.
  destruct (has_column name d) eqn:Hc; [|now rewrite app_nil_r].
  apply has_column_lookup in Hc. destruct Hc as (s & Hs).
  rewrite lookup_getitem, Hs. cbn [rbind].
  unfold percentage, series_sum. rewrite (empty_column d name s Hwf Hi Hs).
  cbn [sum_cells rbind]. unfold len. rewrite Hi. cbn [length Z.of_nat].
  specialize (Hd s Hs). destruct (dtype s); try reflexivity. congruence.
Qed.

(** X27.  On an empty table the analyzers do not agree.  With a parsed
    date column and no object column among arrest, domestic and
    is_violent (after [clean_data] and [engineer_features] they are
    boolean), [calculate_kpis] returns: total_crimes is 0 and every other
    KPI, avg_crimes_per_day included, is NaN, where one record alone
    makes it raise.  [analyze_crime_types] returns no row, and
    [analyze_trends], given its four columns, raises the ValueError of
    [idxmax]. *)
Theorem analyzers_on_an_empty_table :
  forall w c date,
    clean_df (self w) = Some c ->
    well_formed (deref (heap w) c) ->
    index (deref (heap w) c) = [] ->
    lookup "date" (columns (deref (heap w) c)) = Some date ->
    dtype date = datetime64 ->
    (forall name s,
        In name ["arrest"; "domestic"; "is_violent"] ->
        lookup name (columns (deref (heap w) c)) = Some s ->
        dtype s <> object) ->
    (exists kpis,
        run calculate_kpis w = (Ok kpis, w)
        /\ In ("total_crimes", KInt 0) kpis
        /\ In ("avg_crimes_per_day", KFloat nan) kpis
        /\ forall key v,
             In (key, v) kpis -> key <> "total_crimes" -> v = KFloat nan)
    /\ (has_column "primary_type" (deref (heap w) c) = true ->
        run analyze_crime_types w = (Ok [], w))
    /\ (forallb (fun name => has_column name (deref (heap w) c))
                ["year"; "month"; "day_name"; "hour"] = true ->
        run analyze_trends w
        = (Raise (ValueError "attempt to get argmax of an empty sequence"),
           w)).
Proof.
  intros w c date Hc Hwf Hi Hl Hd Hb.
  rewrite run_calculate_kpis, run_analyze_crime_types, run_analyze_trends,
    Hc.
  set (d := deref (heap w) c) in *.
  split; [|split].
  - unfold kpis_frame. cbv zeta.
    rewrite kpi_percentage_frame_empty; auto.
    2:{ intros s; apply Hb; simpl; auto. }
    cbn [rbind]. rewrite kpi_percentage_frame_empty; auto.
    2:{ intros s; apply Hb; simpl; auto. }
    cbn [rbind]. rewrite kpi_percentage_frame_empty; auto.
    2:{ intros s; apply Hb; simpl; auto. }
    cbn [rbind]. rewrite lookup_getitem, Hl. cbn [rbind].
    unfold series_max, series_min.
    rewrite (empty_column d "date" date Hwf Hi Hl), Hd.
    cbn [filter missing_of span_days rbind].
    unfold len. rewrite Hi. cbn [length Z.of_nat].
    assert (En : np_pct (PInt 0) 0 = nan) by (vm_compute; reflexivity).
    assert (Ea : py_div 0 (PFloat nan) = Ok nan) by (vm_compute; reflexivity).
    rewrite En, Ea. cbn [rbind]. eexists. split; [reflexivity|].
    split; [|split].
    + do 3 (apply in_or_app; left). now left.
    + apply in_or_app. right. now left.
    + intros key v Hin Hk.
      apply in_app_or in Hin. destruct Hin as [Hin|Hin];
        [|destruct Hin as [E|[]]; now injection E as _ <-].
      apply in_app_or in Hin. destruct Hin as [Hin|Hin];
        [|destruct (has_column "is_violent" d);
          [destruct Hin as [E|[]]; now injection E as _ <- | destruct Hin]].
      apply in_app_or in Hin. destruct Hin as [Hin|Hin];
        [|destruct (has_column "domestic" d);
          [destruct Hin as [E|[]]; now injection E as _ <- | destruct Hin]].
      apply in_app_or in Hin. destruct Hin as [Hin|Hin];
        [|destruct (has_column "arrest" d);
          [destruct Hin as [E|[]]; now injection E as _ <- | destruct Hin]].
      destruct Hin as [E|[]]. injection E as <- _. congruence.
  - intros Hp. apply has_column_lookup in Hp. destruct Hp as (s & Hs).
    unfold crime_types_frame. rewrite lookup_getitem, Hs. cbn [rbind].
    unfold value_counts. rewrite (empty_column d _ s Hwf Hi Hs).
    reflexivity.
  - intros Hall. cbn [forallb] in Hall.
    repeat (apply andb_true_iff in Hall; destruct Hall as [? Hall]).
    repeat match goal with
    | H : has_column _ d = true |- _ =>
        apply has_column_lookup in H; destruct H as (? & H)
    end.
    unfold trends_frame, groupby_size, groupby2_size.
    repeat match goal with
    | H : lookup ?n (columns d) = Some ?s |- _ =>
        rewrite (lookup_getitem d n), H;
        pose proof (empty_column d n s Hwf Hi H); clear H
    end.
    cbn [rbind].
    repeat match goal with
    | H : values _ = [] |- _ => rewrite H; clear H
    end.
    reflexivity.
Qed.

Lemma analyzers_on_an_empty_table_witness :
  (exists kpis,
      run calculate_kpis empty_enriched = (Ok kpis, empty_enriched)
      /\ In ("total_crimes", KInt 0) kpis
      /\ In ("avg_crimes_per_day", KFloat nan) kpis
      /\ forall key v,
           In (key, v) kpis -> key <> "total_crimes" -> v = KFloat nan)
  /\ (has_column "primary_type" (deref (heap empty_enriched) 4%nat) = true ->
      run analyze_crime_types empty_enriched = (Ok [], empty_enriched))
  /\ (forallb (fun name => has_column name (deref (heap empty_enriched) 4%nat))
              ["year"; "month"; "day_name"; "hour"] = true ->
      run analyze_trends empty_enriched
      = (Raise (ValueError "attempt to get argmax of an empty sequence"),
         empty_enriched)).
Proof.
  apply (analyzers_on_an_empty_table empty_enriched 4%nat
           (mkSeries datetime64 [])).
  - vm_compute. reflexivity.
  - vm_compute deref. split.
    + repeat constructor.
    + unfold column_names; simpl. repeat constructor; simpl;
        intuition discriminate.
  - vm_compute. reflexivity.
  - vm_compute. reflexivity.
  - reflexivity.
  - intros name s [<-|[<-|[<-|[]]]] H; vm_compute in H;
      try discriminate; injection H as <-; discriminate.
Defined.

(** ** The text of the cleaned table *)

Lemma lstrip_starts_clean l : starts_clean (lstrip_chars l).
Proof.
  induction l as [|c l IH]; simpl; auto.
  destruct (is_space c) eqn:E; simpl; auto.
Qed.

Lemma strip_chars_clean l :
  starts_clean (strip_chars l) /\ starts_clean (rev (strip_chars l)).
Proof.
  split.
  - unfold strip_chars.
    rewrite <- (lstrip_chars_rev (lstrip_chars l))
      by apply lstrip_chars_idem.
    apply lstrip_starts_clean.
  - unfold strip_chars. rewrite rev_involutive. apply lstrip_starts_clean.
Qed.

Lemma starts_clean_upper l :
  starts_clean l -> starts_clean (map upper_char l).
Proof.
  destruct l as [|c l]; simpl; auto. now rewrite is_space_upper_char.
Qed.

Lemma is_lower_upper_char c : is_lower (upper_char c) = false.
Proof.
  destruct c as [[|] [|] [|] [|] [|] [|] [|] [|]]; reflexivity.
Qed.

Lemma upper_strip_standard y : standard_text (upper (strip y)).
Proof.
  unfold standard_text, upper, strip.
  rewrite !list_ascii_of_string_of_list_ascii.
  destruct (strip_chars_clean (list_ascii_of_string y)) as (H1 & H2).
  split; [|split].
  - now apply starts_clean_upper.
  - rewrite <- map_rev. now apply starts_clean_upper.
  - apply Forall_map. apply Forall_forall. intros c _.
    apply is_lower_upper_char.
Qed.

Lemma is_ascii_upper_char c : is_ascii (upper_char c) = is_ascii c.
Proof.
  destruct c as [[|] [|] [|] [|] [|] [|] [|] [|]]; reflexivity.
Qed.

Lemma Forall_lstrip_chars (P : ascii -> Prop) l :
  Forall P l -> Forall P (lstrip_chars l).
Proof.
  induction 1 as [|c l Hc Hl IH]; simpl; auto.
  destruct (is_space c); auto.
Qed.

Lemma Forall_strip_chars (P : ascii -> Prop) l :
  Forall P l -> Forall P (strip_chars l).
Proof.
  intros H. unfold strip_chars.
  apply Forall_rev, Forall_lstrip_chars, Forall_rev, Forall_lstrip_chars, H.
Qed.

Lemma ascii_text_upper_strip y : ascii_text y -> ascii_text (upper (strip y)).
Proof.
  unfold ascii_text, upper, strip.
  rewrite !list_ascii_of_string_of_list_ascii. intros H.
  apply Forall_map. apply Forall_strip_chars with (P := fun c => is_ascii c = true) in H.
  revert H. apply Forall_impl. intros c Hc.
  now rewrite is_ascii_upper_char.
Qed.

Lemma ascii_text_unknown : ascii_text "UNKNOWN".
Proof. repeat constructor. Qed.

Lemma ascii_table_take_rows mask d :
  ascii_table d -> ascii_table (take_rows mask d).
Proof.
  intros H name s x Hin Hx. unfold take_rows in Hin; cbn [columns] in Hin.
  apply in_map_iff in Hin. destruct Hin as ([n c] & E & Hin).
  injection E as <- <-. cbn [values snd] in Hx.
  apply mask_filter_in in Hx. eapply H; eauto.
Qed.

Lemma ascii_table_map_columns (g : string * Series -> string * Series)
      (f : string * np_dtype -> cell -> cell) d :
  (forall c, values (snd (g c)) = map (f (typed c)) (values (snd c))) ->
  (forall h c y, f h c = VStr y -> c = VStr y \/ y = "UNKNOWN") ->
  ascii_table d -> ascii_table (map_columns g d).
Proof.
  intros Hg Hf H name s x Hin Hx.
  unfold map_columns in Hin; cbn [columns] in Hin.
  apply in_map_iff in Hin. destruct Hin as ([n c] & E & Hin).
  pose proof (Hg (n, c)) as Hv. rewrite E in Hv. cbn [snd] in Hv.
  rewrite Hv in Hx. apply in_map_iff in Hx. destruct Hx as (c0 & E0 & H0).
  destruct (Hf _ _ _ E0) as [->| ->].
  - eapply H; eauto.
  - apply ascii_text_unknown.
Qed.

Lemma ascii_table_before_text d sub :
  ascii_table d ->
  ascii_table (map_columns bool_column
                 (map_columns fill_column
                    (take_rows (map negb (isnull_any sub))
                               (drop_duplicates d)))).
Proof.
  intros H.
  apply (ascii_table_map_columns bool_column Spec.coerce).
  - apply values_bool_column.
  - intros h c y. unfold Spec.coerce.
    destruct (Spec.among _ _); [discriminate | auto].
  - apply (ascii_table_map_columns fill_column Spec.fill).
    + apply values_fill_column.
    + intros h c y. unfold Spec.fill.
      destruct (Spec.among _ _ && isnull c); auto.
      intros E. injection E as <-. auto.
    + now apply ascii_table_take_rows, ascii_table_take_rows.
Qed.

(** X28.  In the table [clean_data] returns for a raw table whose text
    is ASCII, every text of an object column other than date has no
    whitespace at either end and no lower-case letter, and is ASCII text
    again. *)
Theorem cleaned_text_is_trimmed_upper_case :
  forall w raw r w' name s x,
    df (self w) = Some raw ->
    well_formed (deref (heap w) raw) ->
    ascii_table (deref (heap w) raw) ->
    run clean_data w = (Ok r, w') ->
    In (name, s) (columns (deref (heap w') r)) ->
    dtype s = object ->
    name <> "date" ->
    In (VStr x) (values s) ->
    standard_text x /\ ascii_text x.
Proof.
  intros w raw r w' name s x Hdf Hwf Ha H Hin Hd Hne Hx.
  apply clean_data_ok in H.
  destruct H as (raw' & d' & Hdf' & Hf & _ & _ & _ & Hr).
  rewrite Hdf in Hdf'. injection Hdf' as <-. rewrite Hr in Hin.
  destruct (clean_frame_ok _ _ Hwf Hf) as (sub & _ & E).
  rewrite E in Hin.
  pose proof (ascii_table_before_text _ sub Ha) as Hb.
  set (d2 := map_columns bool_column _) in *.
  unfold map_columns in Hin; cbn [columns] in Hin.
  apply in_map_iff in Hin. destruct Hin as ([n2 s2] & E2 & Hin2).
  unfold text_column in E2. cbn [fst snd] in E2.
  destruct (np_dtype_eqb (dtype s2) object) eqn:Ed; cbn [andb] in E2.
  - destruct (String.eqb_spec n2 "date") as [->|]; cbn [negb] in E2.
    + injection E2 as <- <-. congruence.
    + injection E2 as <- <-. cbn [values] in Hx.
      apply in_map_iff in Hx. destruct Hx as (c & Hc & Hc').
      destruct c; try discriminate. injection Hc as <-.
      split; [apply upper_strip_standard|].
      apply ascii_text_upper_strip. eapply Hb; eauto.
  - injection E2 as <- <-. rewrite Hd in Ed. discriminate.
Qed.

Lemma sample_loaded_ascii : ascii_table (deref (heap sample_loaded) 0%nat).
Proof.
  intros name s x Hin Hx. vm_compute in Hin.
  repeat (destruct Hin as [E|Hin];
          [injection E as <- <-; cbn [values] in Hx;
           repeat (destruct Hx as [E|Hx];
                   [try discriminate; injection E as <-;
                    repeat constructor|]);
           destruct Hx|]).
  destruct Hin.
Qed.

Lemma cleaned_text_is_trimmed_upper_case_witness :
  standard_text "THEFT" /\ ascii_text "THEFT".
Proof.
  apply (cleaned_text_is_trimmed_upper_case sample_loaded 0%nat 3%nat
           sample_cleaned "primary_type"
           (mkSeries object [VStr "THEFT"; VStr "BATTERY"; VStr "ROBBERY"])
           "THEFT" sample_loaded_self sample_loaded_well_formed
           sample_loaded_ascii sample_cleaned_run).
  - vm_compute. tauto.
  - reflexivity.
  - discriminate.
  - simpl. tauto.
Defined.

(** ** Grouping by an ordered key *)

Section Ordered.
Context {K : Type} (cmp : K -> K -> comparison).
Hypothesis cmp_eq : forall a b, cmp a b = Eq <-> a = b.
Hypothesis cmp_gt : forall a b, cmp a b = Gt -> cmp b a = Lt.
Hypothesis cmp_trans :
  forall a b c, cmp a b = Lt -> cmp b c = Lt -> cmp a c = Lt.

(** Whether two keys are the same. *)
Definition same (a b : K) : bool :=
  match cmp a b with Eq => true | _ => false end.

(** A table with its keys in strictly ascending order. *)
Definition ascending {V} (l : list (K * V)) : Prop :=
  StronglySorted (fun a b => cmp (fst a) (fst b) = Lt) l.

Lemma same_eq a b : same a b = true <-> a = b.
Proof.
  unfold same. rewrite <- cmp_eq. destruct (cmp a b); split; congruence.
Qed.

Lemma same_refl a : same a a = true.
Proof. now apply same_eq. Qed.

Lemma lt_not_same a b : cmp a b = Lt -> same b a = false.
Proof.
  intros H. destruct (same b a) eqn:E; auto.
  apply same_eq in E. subst b.
  assert (X : cmp a a = Eq) by now apply cmp_eq. congruence.
Qed.

Lemma lt_differs a b : cmp a b = Lt -> same a b = false.
Proof. unfold same. now intros ->. Qed.

Lemma ascending_tail {V} (e : K * V) l : ascending (e :: l) -> ascending l.
Proof. intros H. now apply StronglySorted_inv in H. Qed.

Lemma ascending_head {V} (e : K * V) l x :
  ascending (e :: l) -> In x l -> cmp (fst e) (fst x) = Lt.
Proof.
  intros H Hx. apply StronglySorted_inv in H. destruct H as [_ H].
  rewrite Forall_forall in H. auto.
Qed.

(** *** Counts *)

Lemma bump_key_in k acc e :
  In e (bump cmp k acc) -> fst e = k \/ In (fst e) (map fst acc).
Proof.
  induction acc as [|[k' n] acc IH]; simpl.
  - intros [<-|[]]; auto.
  - destruct (cmp k k') eqn:E; simpl.
    + intros [<-|H]; simpl; auto. right; right. now apply in_map.
    + intros [<-|[<-|H]]; simpl; auto. right; right. now apply in_map.
    + intros [<-|H]; simpl; auto. destruct (IH H); auto.
Qed.

Lemma bump_ascending k acc : ascending acc -> ascending (bump cmp k acc).
Proof.
  induction acc as [|[k' n] acc IH]; simpl; intros Hs.
  - repeat constructor.
  - pose proof (ascending_tail _ _ Hs) as Ht.
    destruct (cmp k k') eqn:E.
    + constructor; auto. apply Forall_forall. intros x Hx.
      apply (ascending_head _ _ x Hs Hx).
    + constructor; auto. constructor; auto.
      apply Forall_forall. intros x Hx.
      apply cmp_trans with k'; auto.
      apply (ascending_head _ _ x Hs Hx).
    + constructor; [apply IH; exact Ht|].
      apply Forall_forall. intros x Hx. simpl.
      destruct (bump_key_in _ _ _ Hx) as [->|Hin].
      * now apply cmp_gt.
      * apply in_map_iff in Hin. destruct Hin as (y & <- & Hy).
        apply (ascending_head _ _ y Hs Hy).
Qed.

Lemma sizes_ascending ks : ascending (sizes cmp ks).
Proof.
  unfold sizes.
  assert (G : forall acc, ascending acc ->
            ascending (fold_left (fun a k => bump cmp k a) ks acc)).
  { induction ks as [|k ks IH]; simpl; auto using bump_ascending. }
  apply G. constructor.
Qed.

(** The records counted under the keys that satisfy [f]. *)
Fixpoint weight (f : K -> bool) (ser : list (K * Z)) : Z :=
  match ser with
  | [] => 0
  | (k, n) :: rest => (if f k then n else 0) + weight f rest
  end.

Lemma weight_bump f k acc :
  weight f (bump cmp k acc) = weight f acc + (if f k then 1 else 0).
Proof.
  induction acc as [|[k' n] acc IH]; simpl.
  - lia.
  - destruct (cmp k k') eqn:E; simpl.
    + apply cmp_eq in E. subst k'. destruct (f k); lia.
    + lia.
    + rewrite IH. lia.
Qed.

Lemma weight_sizes f ks :
  weight f (sizes cmp ks) = Z.of_nat (length (filter f ks)).
Proof.
  unfold sizes.
  assert (G : forall acc,
            weight f (fold_left (fun a k => bump cmp k a) ks acc)
            = weight f acc + Z.of_nat (length (filter f ks))).
  { induction ks as [|k ks IH]; intros acc; simpl; [lia|].
    rewrite IH, weight_bump. destruct (f k); simpl length; lia. }
  rewrite G. reflexivity.
Qed.

Lemma weight_none f ser :
  (forall e, In e ser -> f (fst e) = false) -> weight f ser = 0.
Proof.
  induction ser as [|[k n] ser IH]; simpl; intros H; auto.
  pose proof (H (k, n) (or_introl eq_refl)) as E. simpl in E.
  rewrite E, IH; auto.
Qed.

Lemma weight_entry k n ser :
  ascending ser -> In (k, n) ser -> weight (same k) ser = n.
Proof.
  induction ser as [|[k' n'] ser IH]; simpl; intros Hs Hin;
    [contradiction|].
  pose proof (ascending_tail _ _ Hs) as Ht.
  destruct Hin as [E|Hin].
  - injection E as -> ->. rewrite same_refl.
    rewrite weight_none; [lia|].
    intros e He. apply lt_differs.
    apply (ascending_head _ _ e Hs He).
  - pose proof (ascending_head _ _ _ Hs Hin) as Hlt. simpl in Hlt.
    assert (E : same k k' = false) by now apply lt_not_same.
    rewrite E, IH; auto.
Qed.

(** An entry of [sizes] holds the number of occurrences of its key. *)
Lemma sizes_entry k n ks :
  In (k, n) (sizes cmp ks) ->
  n = Z.of_nat (length (filter (same k) ks)).
Proof.
  intros H. rewrite <- weight_sizes.
  symmetry. apply weight_entry; auto using sizes_ascending.
Qed.

Lemma bump_has_key k acc : In k (map fst (bump cmp k acc)).
Proof.
  induction acc as [|[k' n] acc IH]; simpl; auto.
  destruct (cmp k k') eqn:E; simpl; auto.
  apply cmp_eq in E. auto.
Qed.

Lemma bump_keeps_keys x k acc :
  In x (map fst acc) -> In x (map fst (bump cmp k acc)).
Proof.
  induction acc as [|[k' n] acc IH]; simpl; [contradiction|].
  destruct (cmp k k'); simpl; intuition.
Qed.

Lemma sizes_keys k ks : In k (map fst (sizes cmp ks)) <-> In k ks.
Proof.
  unfold sizes.
  assert (G : forall acc,
            In k (map fst (fold_left (fun a x => bump cmp x a) ks acc))
            <-> In k (map fst acc) \/ In k ks).
  { induction ks as [|x ks IH]; intros acc; simpl; [tauto|].
    rewrite IH. split.
    - intros [H|H]; auto. apply in_map_iff in H.
      destruct H as (e & <- & He).
      destruct (bump_key_in _ _ _ He); auto.
    - intros [H|[->|H]]; auto using bump_keeps_keys, bump_has_key. }
  rewrite G. simpl. tauto.
Qed.

(** *** Groups *)

Lemma collect_key_in {V} k (v : V) acc e :
  In e (collect cmp k v acc) -> fst e = k \/ In (fst e) (map fst acc).
Proof.
  induction acc as [|[k' vs] acc IH]; simpl.
  - intros [<-|[]]; auto.
  - destruct (cmp k k') eqn:E; simpl.
    + intros [<-|H]; simpl; auto. right; right. now apply in_map.
    + intros [<-|[<-|H]]; simpl; auto. right; right. now apply in_map.
    + intros [<-|H]; simpl; auto. destruct (IH H); auto.
Qed.

Lemma collect_ascending {V} k (v : V) acc :
  ascending acc -> ascending (collect cmp k v acc).
Proof.
  induction acc as [|[k' vs] acc IH]; simpl; intros Hs.
  - repeat constructor.
  - pose proof (ascending_tail _ _ Hs) as Ht.
    destruct (cmp k k') eqn:E.
    + constructor; auto. apply Forall_forall. intros x Hx.
      apply (ascending_head _ _ x Hs Hx).
    + constructor; auto. constructor; auto.
      apply Forall_forall. intros x Hx.
      apply cmp_trans with k'; auto.
      apply (ascending_head _ _ x Hs Hx).
    + constructor; [apply IH; exact Ht|].
      apply Forall_forall. intros x Hx. simpl.
      destruct (collect_key_in _ _ _ _ Hx) as [->|Hin].
      * now apply cmp_gt.
      * apply in_map_iff in Hin. destruct Hin as (y & <- & Hy).
        apply (ascending_head _ _ y Hs Hy).
Qed.

Lemma groups_ascending {V} (kvs : list (K * V)) :
  ascending (groups cmp kvs).
Proof.
  unfold groups.
  assert (G : forall acc, ascending acc ->
            ascending (fold_left
                         (fun a kv => collect cmp (fst kv) (snd kv) a)
                         kvs acc)).
  { induction kvs as [|kv kvs IH]; simpl; auto using collect_ascending. }
  apply G. constructor.
Qed.

(** The values gathered under the key [k]. *)
Fixpoint gathered {V} (k : K) (acc : list (K * list V)) : list V :=
  match acc with
  | [] => []
  | (k', vs) :: rest => (if same k' k then vs else []) ++ gathered k rest
  end.

Lemma gathered_none {V} k (acc : list (K * list V)) :
  (forall e, In e acc -> same (fst e) k = false) -> gathered k acc = [].
Proof.
  induction acc as [|[k' vs] acc IH]; simpl; intros H; auto.
  pose proof (H (k', vs) (or_introl eq_refl)) as E. simpl in E.
  rewrite E, IH; auto.
Qed.

Lemma gathered_collect {V} k k' (v : V) acc :
  ascending acc ->
  gathered k (collect cmp k' v acc)
  = gathered k acc ++ (if same k' k then [v] else []).
Proof.
  induction acc as [|[k0 vs] acc IH]; simpl; intros Hs.
  - now rewrite app_nil_r.
  - pose proof (ascending_tail _ _ Hs) as Ht.
    destruct (cmp k' k0) eqn:E; simpl.
    + apply cmp_eq in E. subst k0.
      destruct (same k' k) eqn:Ek.
      * apply same_eq in Ek. subst k'.
        rewrite gathered_none; [now rewrite !app_nil_r|].
        intros e He. rewrite <- Bool.not_true_iff_false.
        intros X. apply same_eq in X.
        pose proof (ascending_head _ _ e Hs He) as Hlt. simpl in Hlt.
        rewrite X in Hlt.
        assert (Y : cmp k k = Eq) by now apply cmp_eq. congruence.
      * now rewrite app_nil_r.
    + destruct (same k' k) eqn:Ek.
      * apply same_eq in Ek. subst k'.
        assert (E0 : same k0 k = false).
        { rewrite <- Bool.not_true_iff_false. intros X.
          apply same_eq in X. subst k0.
          assert (Y : cmp k k = Eq) by now apply cmp_eq. congruence. }
        rewrite E0. simpl.
        rewrite gathered_none; [reflexivity|].
        intros e He. rewrite <- Bool.not_true_iff_false.
        intros X. apply same_eq in X.
        pose proof (ascending_head _ _ e Hs He) as Hlt. simpl in Hlt.
        rewrite X in Hlt.
        assert (Y : cmp k k = Lt) by (apply cmp_trans with k0; auto).
        assert (Z0 : cmp k k = Eq) by now apply cmp_eq. congruence.
      * now rewrite app_nil_r.
    + rewrite IH by auto. now rewrite app_assoc.
Qed.

Lemma gathered_groups {V} k (kvs : list (K * V)) :
  gathered k (groups cmp kvs)
  = map snd (filter (fun kv => same (fst kv) k) kvs).
Proof.
  unfold groups.
  assert (G : forall acc, ascending acc ->
            gathered k (fold_left
                          (fun a kv => collect cmp (fst kv) (snd kv) a)
                          kvs acc)
            = gathered k acc
              ++ map snd (filter (fun kv => same (fst kv) k) kvs)).
  { induction kvs as [|kv kvs IH]; intros acc Hs; simpl.
    - now rewrite app_nil_r.
    - rewrite IH by now apply collect_ascending.
      rewrite gathered_collect by auto. rewrite <- app_assoc.
      now destruct (same (fst kv) k). }
  rewrite G by constructor. reflexivity.
Qed.

Lemma gathered_entry {V} k (vs : list V) acc :
  ascending acc -> In (k, vs) acc -> gathered k acc = vs.
Proof.
  induction acc as [|[k' vs'] acc IH]; simpl; intros Hs Hin;
    [contradiction|].
  pose proof (ascending_tail _ _ Hs) as Ht.
  destruct Hin as [E|Hin].
  - injection E as -> ->. rewrite same_refl.
    rewrite gathered_none; [now rewrite app_nil_r|].
    intros e He. rewrite <- Bool.not_true_iff_false. intros X.
    apply same_eq in X.
    pose proof (ascending_head _ _ e Hs He) as Hlt. simpl in Hlt.
    rewrite X in Hlt.
    assert (Y : cmp k k = Eq) by now apply cmp_eq. congruence.
  - pose proof (ascending_head _ _ _ Hs Hin) as Hlt. simpl in Hlt.
    assert (E : same k' k = false).
    { rewrite <- Bool.not_true_iff_false. intros X. apply same_eq in X.
      subst k'. assert (Y : cmp k k = Eq) by now apply cmp_eq.
      congruence. }
    rewrite E. simpl. auto.
Qed.

(** The values of a group are the values given under its key, in their
    order. *)
Lemma groups_entry {V} k (vs : list V) kvs :
  In (k, vs) (groups cmp kvs) ->
  vs = map snd (filter (fun kv => same (fst kv) k) kvs).
Proof.
  intros H. rewrite <- gathered_groups.
  symmetry. apply gathered_entry; auto using groups_ascending.
Qed.

Lemma collect_has_key {V} k (v : V) acc :
  In k (map fst (collect cmp k v acc)).
Proof.
  induction acc as [|[k' vs] acc IH]; simpl; auto.
  destruct (cmp k k') eqn:E; simpl; auto.
  apply cmp_eq in E. auto.
Qed.

Lemma collect_keeps_keys {V} x k (v : V) acc :
  In x (map fst acc) -> In x (map fst (collect cmp k v acc)).
Proof.
  induction acc as [|[k' vs] acc IH]; simpl; [contradiction|].
  destruct (cmp k k'); simpl; intuition.
Qed.

Lemma groups_keys {V} k (kvs : list (K * V)) :
  In k (map fst (groups cmp kvs)) <-> In k (map fst kvs).
Proof.
  unfold groups.
  assert (G : forall acc,
            In k (map fst (fold_left
                             (fun a kv => collect cmp (fst kv) (snd kv) a)
                             kvs acc))
            <-> In k (map fst acc) \/ In k (map fst kvs)).
  { induction kvs as [|kv kvs IH]; intros acc; simpl; [tauto|].
    rewrite IH. split.
    - intros [H|H]; auto. apply in_map_iff in H.
      destruct H as (e & <- & He).
      destruct (collect_key_in _ _ _ _ He); auto.
    - intros [H|[->|H]];
        auto using collect_keeps_keys, collect_has_key. }
  rewrite G. simpl. tauto.
Qed.

End Ordered.

(** ** The monthly average *)

Lemma Z_compare_gt a b : (a ?= b) = Gt -> (b ?= a) = Lt.
Proof. intros H. rewrite Z.compare_antisym, H. reflexivity. Qed.

Lemma Z_compare_trans a b c :
  (a ?= b) = Lt -> (b ?= c) = Lt -> (a ?= c) = Lt.
Proof. exact (Z.lt_trans a b c). Qed.

Lemma year_month_lt a b :
  year_month_compare a b = Lt
  <-> fst a < fst b \/ (fst a = fst b /\ snd a < snd b).
Proof.
  unfold year_month_compare.
  destruct (Z.compare_spec (fst a) (fst b)) as [E|E|E].
  - unfold Z.lt. split; [auto|]. intros [H|[_ H]]; auto.
    rewrite E in H. rewrite Z.compare_refl in H. discriminate.
  - split; auto.
  - split; [discriminate|]. lia.
Qed.

Lemma year_month_eq a b : year_month_compare a b = Eq <-> a = b.
Proof.
  unfold year_month_compare. destruct a as [y m], b as [y' m']; simpl.
  destruct (Z.compare_spec y y') as [E|E|E].
  - rewrite Z.compare_eq_iff. split; [congruence|].
    intros H. now injection H.
  - split; [discriminate|]. intros H. injection H. lia.
  - split; [discriminate|]. intros H. injection H. lia.
Qed.

Lemma year_month_gt a b :
  year_month_compare a b = Gt -> year_month_compare b a = Lt.
Proof.
  intros H. apply year_month_lt. unfold year_month_compare in H.
  destruct (Z.compare_spec (fst a) (fst b)) as [E|E|E];
    try discriminate; [|lia].
  right. split; [lia|].
  destruct (Z.compare_spec (snd a) (snd b)); try discriminate. lia.
Qed.

Lemma year_month_trans a b c :
  year_month_compare a b = Lt -> year_month_compare b c = Lt ->
  year_month_compare a c = Lt.
Proof. rewrite !year_month_lt. lia. Qed.

Lemma bump_year_month k acc :
  bump pair_compare (VInt (fst k), VInt (snd k)) (map year_month_entry acc)
  = map year_month_entry (bump year_month_compare k acc).
Proof.
  induction acc as [|[k' n] acc IH]; [reflexivity|].
  cbn [map bump]. rewrite IH.
  generalize (bump year_month_compare k acc) as rest. intros rest.
  unfold year_month_entry at 1.
  unfold pair_compare, year_month_compare. cbn [fst snd cell_compare].
  destruct (fst k ?= fst k'); cbn [map]; try reflexivity.
  destruct (snd k ?= snd k'); cbn [map]; reflexivity.
Qed.

Lemma sizes_year_month ks :
  sizes pair_compare (map (fun k : Z * Z => (VInt (fst k), VInt (snd k))) ks)
  = map year_month_entry (sizes year_month_compare ks).
Proof.
  unfold sizes.
  change (@nil (cell * cell * Z)) with (map year_month_entry []).
  generalize (@nil (Z * Z * Z)) as acc.
  induction ks as [|k ks IH]; intros acc; simpl; auto.
  rewrite bump_year_month. apply IH.
Qed.

Lemma collect_VInt {V} k (v : V) acc :
  collect cell_compare (VInt k) v (map (fun g => (VInt (fst g), snd g)) acc)
  = map (fun g : Z * list V => (VInt (fst g), snd g))
        (collect Z.compare k v acc).
Proof.
  induction acc as [|[k' vs] acc IH]; simpl; auto.
  destruct (k ?= k'); simpl; auto. now rewrite IH.
Qed.

Lemma groups_VInt {V} (kvs : list (Z * V)) :
  groups cell_compare (map (fun e => (VInt (fst e), snd e)) kvs)
  = map (fun g : Z * list V => (VInt (fst g), snd g))
        (groups Z.compare kvs).
Proof.
  unfold groups.
  change (@nil (cell * list V))
    with (map (fun g : Z * list V => (VInt (fst g), snd g)) []).
  generalize (@nil (Z * list V)) as acc.
  induction kvs as [|kv kvs IH]; intros acc; simpl; auto.
  rewrite collect_VInt. apply IH.
Qed.

Lemma mean_by_second_year_month ser :
  mean_by_second (map year_month_entry ser)
  = map (fun g => (VInt (fst g), mean_Z (snd g)))
        (groups Z.compare (map (fun e => (snd (fst e), snd e)) ser)).
Proof.
  unfold mean_by_second. rewrite map_map.
  change (map (fun x => (snd (fst (year_month_entry x)),
                         snd (year_month_entry x))) ser)
    with (map (fun x : Z * Z * Z => (VInt (snd (fst x)), snd x)) ser).
  rewrite <- (map_map (fun e : Z * Z * Z => (snd (fst e), snd e))
                      (fun e : Z * Z => (VInt (fst e), snd e))).
  rewrite groups_VInt, map_map. reflexivity.
Qed.

Lemma groupby2_size_ints d n1 n2 dt1 dt2 (ps : list (Z * Z)) :
  getitem d n1 = Ok (mkSeries dt1 (map VInt (map fst ps))) ->
  getitem d n2 = Ok (mkSeries dt2 (map VInt (map snd ps))) ->
  groupby2_size d n1 n2
  = Ok (map year_month_entry (sizes year_month_compare ps)).
Proof.
  intros H1 H2. unfold groupby2_size. rewrite H1, H2. cbn [rbind values].
  f_equal. rewrite <- sizes_year_month. f_equal.
  clear H1 H2. induction ps as [|p ps IH]; [reflexivity|].
  cbn [map combine filter fst snd notnull isnull negb andb].
  now rewrite IH.
Qed.

Lemma StronglySorted_filter {A} (R : A -> A -> Prop) p l :
  StronglySorted R l -> StronglySorted R (filter p l).
Proof.
  induction 1 as [|a l Hs IH Hf]; simpl; [constructor|].
  destruct (p a); auto. constructor; auto.
  rewrite Forall_forall in *. intros x Hx.
  apply filter_In in Hx. apply Hf, Hx.
Qed.

Lemma StronglySorted_map_in {A B} (R : A -> A -> Prop) (R' : B -> B -> Prop)
      (f : A -> B) l :
  (forall a b, In a l -> In b l -> R a b -> R' (f a) (f b)) ->
  StronglySorted R l -> StronglySorted R' (map f l).
Proof.
  intros H Hs. induction Hs as [|a l Hs IH Hf]; simpl; constructor.
  - apply IH. intros x y Hx Hy. apply H; simpl; auto.
  - rewrite Forall_forall in *. intros y Hy.
    apply in_map_iff in Hy. destruct Hy as (x & <- & Hx).
    apply H; simpl; auto.
Qed.

Lemma filter_length_pos {A} (p : A -> bool) l :
  0 < Z.of_nat (length (filter p l)) <-> exists x, In x l /\ p x = true.
Proof.
  split.
  - destruct (filter p l) as [|x r] eqn:E; simpl; [lia|]. intros _.
    exists x. apply filter_In. rewrite E. simpl; auto.
  - intros (x & Hx & Hp).
    assert (H : In x (filter p l)) by (apply filter_In; auto).
    destruct (filter p l); [contradiction|]. simpl length. lia.
Qed.

Ltac ordered_keys :=
  first [ exact year_month_eq | exact year_month_gt | exact year_month_trans
        | exact Z.compare_eq_iff | exact Z_compare_gt
        | exact Z_compare_trans ].

Lemma same_year_month a b :
  same year_month_compare a b = (fst b =? fst a) && (snd b =? snd a).
Proof.
  apply Bool.eq_true_iff_eq.
  rewrite same_eq by ordered_keys.
  rewrite andb_true_iff, !Z.eqb_eq.
  destruct a, b; simpl. split.
  - intros H. injection H. auto.
  - intros [-> ->]. reflexivity.
Qed.

Lemma filter_of_map {A B} (p : B -> bool) (f : A -> B) l :
  filter p (map f l) = map f (filter (fun x => p (f x)) l).
Proof.
  induction l as [|x l IH]; simpl; auto.
  destruct (p (f x)); simpl; now rewrite IH.
Qed.

(** The two-level counts of a list of timestamps, then the counts of
    each month gathered over the years. *)
Lemma monthly_groups stamps :
  let by_month :=
    sizes year_month_compare
          (map (fun t => (Calendar.year t, Calendar.month t)) stamps) in
  let grouped :=
    groups Z.compare (map (fun e => (snd (fst e), snd e)) by_month) in
  StronglySorted Z.lt (map fst grouped)
  /\ (forall m, In m (map fst grouped)
                <-> In m (map Calendar.month stamps))
  /\ forall m vs,
       In (m, vs) grouped ->
       exists years,
         StronglySorted Z.lt years
         /\ (forall y, In y years <-> 0 < records_in stamps y m)
         /\ vs = map (fun y => records_in stamps y m) years.
Proof.
  intros by_month grouped.
  assert (HS : ascending year_month_compare by_month)
    by (apply sizes_ascending; ordered_keys).
  assert (HG : ascending Z.compare grouped)
    by (apply groups_ascending; ordered_keys).
  assert (Hkeys : forall k, In k (map fst by_month)
                            <-> exists t, In t stamps
                                          /\ k = (Calendar.year t,
                                                  Calendar.month t)).
  { intros k. unfold by_month. rewrite sizes_keys by ordered_keys.
    rewrite in_map_iff. split; intros (t & H1 & H2); exists t; auto. }
  split; [|split].
  - apply StronglySorted_map_in
      with (R := fun a b : Z * list Z => (fst a ?= fst b) = Lt); auto.
  - intros m. unfold grouped. rewrite groups_keys by ordered_keys.
    rewrite map_map; cbn [fst]. split.
    + intros H. apply in_map_iff in H. destruct H as (e & <- & He).
      destruct (proj1 (Hkeys (fst e))) as (t & Ht & Et).
      { now apply in_map. }
      rewrite Et. simpl. now apply in_map.
    + intros H. apply in_map_iff in H. destruct H as (t & <- & Ht).
      assert (Hin : In (Calendar.year t, Calendar.month t)
                       (map fst by_month)).
      { apply Hkeys. exists t. auto. }
      apply in_map_iff in Hin. destruct Hin as (e & Ee & He).
      apply in_map_iff. exists e. rewrite Ee. auto.
  - intros m vs Hin. apply groups_entry in Hin; [|ordered_keys..].
    exists (map (fun e => fst (fst e))
                (filter (fun e => same Z.compare (snd (fst e)) m)
                        by_month)).
    split; [|split].
    + apply StronglySorted_map_in
        with (R := fun a b : Z * Z * Z =>
                     year_month_compare (fst a) (fst b) = Lt);
        [|apply StronglySorted_filter; exact HS].
      intros a b Ha Hb Hlt. apply filter_In in Ha, Hb.
      destruct Ha as [_ Ha], Hb as [_ Hb].
      apply same_eq in Ha; [|ordered_keys].
      apply same_eq in Hb; [|ordered_keys].
      apply year_month_lt in Hlt. lia.
    + intros y. unfold records_in. rewrite filter_length_pos. split.
      * intros H. apply in_map_iff in H. destruct H as (e & <- & He).
        apply filter_In in He. destruct He as [He Hm].
        apply same_eq in Hm; [|ordered_keys].
        destruct (proj1 (Hkeys (fst e))) as (t & Ht & Et).
        { now apply in_map. }
        exists t. split; auto. rewrite <- Hm, Et. simpl.
        now rewrite !Z.eqb_refl.
      * intros (t & Ht & Hp). apply andb_true_iff in Hp.
        destruct Hp as [Hy Hm]. apply Z.eqb_eq in Hy, Hm.
        assert (Hin' : In (Calendar.year t, Calendar.month t)
                          (map fst by_month)).
        { apply Hkeys. exists t. auto. }
        apply in_map_iff in Hin'. destruct Hin' as (e & Ee & He).
        apply in_map_iff. exists e. split; [now rewrite Ee|].
        apply filter_In. split; auto.
        apply same_eq; [ordered_keys|]. now rewrite Ee.
    + rewrite Hin, filter_of_map, !map_map. cbn [fst snd].
      apply map_ext_in. intros [[y m'] n] He.
      apply filter_In in He. destruct He as [He Hm]. cbn [fst snd] in *.
      apply same_eq in Hm; [|ordered_keys]. subst m'.
      apply sizes_entry in He; [|ordered_keys..].
      rewrite He, filter_of_map, length_map. unfold records_in.
      do 2 f_equal. apply filter_ext. intros t.
      now rewrite same_year_month.
Qed.

(** X29.  The monthly average of [analyze_trends].  After
    [engineer_features] on a cleaned table whose dates are all parsed,
    [monthly_avg] has one entry per month that occurs in the table, in
    ascending month order, and the entry of month [m] is the mean of the
    numbers of records of [m] in the years that have a record in [m]:
    a year without a record in that month is left out of the mean, it
    does not count as zero. *)
Theorem monthly_average_skips_missing_years :
  forall w0 c r w date stamps,
    clean_df (self w0) = Some c ->
    getitem (deref (heap w0) c) "date" = Ok date ->
    values date = map VTime stamps ->
    stamps <> [] ->
    run engineer_features w0 = (Ok r, w) ->
    exists t,
      run analyze_trends w = (Ok t, w)
      /\ (exists months,
            map fst (monthly_avg t) = map VInt months
            /\ StronglySorted Z.lt months
            /\ forall m, In m months <-> In m (map Calendar.month stamps))
      /\ forall m avg,
           In (VInt m, avg) (monthly_avg t) ->
           exists years,
             StronglySorted Z.lt years
             /\ (forall y, In y years <-> 0 < records_in stamps y m)
             /\ avg = mean_Z (map (fun y => records_in stamps y m) years).
Proof.
  intros w0 c r w date stamps Hc Hdate Hv Hne Hrun.
  apply engineer_features_ok in Hrun.
  destruct Hrun as (c' & d' & Hc' & Hf & _ & Hself & _ & Hd).
  rewrite Hc in Hc'. injection Hc' as <-.
  apply engineer_frame_enriched in Hf. destruct Hf as (date' & E).
  pose proof (en_get_date _ _ _ E) as Hg. rewrite Hdate in Hg.
  injection Hg as <-.
  pose proof (en_year _ _ _ E) as Hy.
  pose proof (en_month _ _ _ E) as Hm.
  pose proof (en_hour _ _ _ E) as Hh.
  pose proof (en_day_name _ _ _ E) as Hn.
  rewrite (dt_int_field_times _ _ _ Hv) in Hy.
  rewrite (dt_int_field_times _ _ _ Hv) in Hm.
  rewrite (dt_int_field_times _ _ _ Hv) in Hh.
  rewrite (dt_name_field_times _ _ _ Hv) in Hn.
  pose proof (groupby_size_ints _ _ _ _ Hy) as Gy.
  pose proof (groupby_size_ints _ _ _ _ Hh) as Gh.
  assert (Gm : groupby2_size d' "year" "month"
               = Ok (map year_month_entry
                         (sizes year_month_compare
                                (map (fun t => (Calendar.year t,
                                                Calendar.month t))
                                     stamps)))).
  { apply groupby2_size_ints with (dt1 := int64) (dt2 := int64);
      [rewrite Hy | rewrite Hm]; do 3 f_equal; now rewrite map_map. }
  destruct (idxmax_sizes (map Calendar.hour stamps))
    as (h & n & Ih & _).
  { destruct stamps; [congruence | discriminate]. }
  destruct (monthly_groups stamps) as (Hsorted & Hmonths & Hmean).
  eexists. split.
  { rewrite run_analyze_trends, Hself. cbn [clean_df]. rewrite Hd.
    unfold trends_frame.
    rewrite Gy, Gm, Gh. cbn [rbind].
    unfold groupby_size. rewrite Hn. cbn [rbind]. rewrite Ih.
    reflexivity. }
  cbn [monthly_avg]. rewrite mean_by_second_year_month. split.
  - eexists. split; [|split; [exact Hsorted | exact Hmonths]].
    rewrite !map_map. reflexivity.
  - intros m avg H. apply in_map_iff in H.
    destruct H as ([m' vs] & Ee & H). cbn [fst snd] in Ee.
    injection Ee as -> <-.
    destruct (Hmean _ _ H) as (years & H1 & H2 & ->).
    exists years. auto.
Qed.

Lemma monthly_average_skips_missing_years_witness :
  exists t,
    run analyze_trends trend_enriched = (Ok t, trend_enriched)
    /\ (exists months,
          map fst (monthly_avg t) = map VInt months
          /\ StronglySorted Z.lt months
          /\ forall m, In m months <-> In m (map Calendar.month trend_stamps))
    /\ forall m avg,
         In (VInt m, avg) (monthly_avg t) ->
         exists years,
           StronglySorted Z.lt years
           /\ (forall y, In y years <-> 0 < records_in trend_stamps y m)
           /\ avg = mean_Z (map (fun y => records_in trend_stamps y m) years).
Proof.
  apply (monthly_average_skips_missing_years
           trend_cleaned 3%nat 4%nat trend_enriched
           (mkSeries datetime64 (map VTime trend_stamps)) trend_stamps).
  - vm_compute; reflexivity.
  - vm_compute; reflexivity.
  - reflexivity.
  - discriminate.
  - vm_compute; reflexivity.
Defined.

(** On the sample of the two years, June 2022 with 100 records and March
    2023 with 150, the averages are those counts themselves. *)
Example monthly_average_of_the_two_years :
  exists t,
    run analyze_trends trend_enriched = (Ok t, trend_enriched)
    /\ monthly_avg t = [(VInt 3, float_of_Z 150); (VInt 6, float_of_Z 100)].
Proof.
  eexists. split; vm_compute; reflexivity.
Qed.

(** ** When [clean_data] returns *)






















